(* ===== verification/_CoqProject ===== *)
-Q . S2P
Prelude.v
GoStrings.v
Metrics.v
GoPath.v
Pkg.v
ProtoWire.v
KnownHosts.v
SshClient.v
UnitFile.v
UnitSerial.v
Job.v
Machine.v
Config.v
AgentState.v
Cluster.v
Scheduler.v
EngineReconciler.v
Engine.v
Lease.v
Leadership.v
UnitManager.v
Agent.v
AgentReconcile.v
Systemd.v
Publisher.v
Components.v
Pagination.v
Schema.v
FakeRegistry.v
Api.v
Fleetctl.v
FleetctlMain.v
FleetctlList.v
FleetctlSpec.v
HttpClient.v
Etcd.v
EtcdLease.v
EtcdRegistry.v
Events.v
EtcdSchedule.v
EtcdStore.v
EtcdInvariant.v
EtcdViews.v
EtcdLeadership.v
EtcdExamples.v
Versions.v
Registry.v
Presence.v
Daemon.v
RpcRegistry.v
Protobuf.v
RpcStates.v
RpcCoherence.v
RpcRefinement.v
RpcMux.v
RpcDial.v
RpcExamples.v
