(* ===== verification/Prelude.v ===== *)
(** * Fleet: a verification library for the coreos/fleet cluster scheduler

    Fleet runs systemd units on a cluster.  Every machine runs an agent; one of
    them also leads as the engine.  Units, their targets, the schedule, machines
    and leases are in a registry, which is etcd, or the memory of the engine that
    the others reach over gRPC.  The engine reconciles the schedule with the units
    and the machines; an agent reconciles systemd with the schedule, and publishes
    the states of its units; an HTTP API over the registry lets clients submit units,
    and [fleetctl] is such a client.

    ** Files and the source they model (all paths under [src/])

    - [Prelude]: results of fallible calls, maps in an unspecified order, sorting,
      the shared tactics and hints.  [GoStrings], [GoPath]: what the source uses of
      Go's strings, strconv, unicode and path packages.
    - [Pkg]: [pkg/set.go], [args.go], [backoff.go], [flag.go], [resource/resource.go].
      [UnitFile]: [unit/unit.go], and [serialize.go] and [deserialize.go] of the vendored
      go-systemd; [UnitSerial]: a file is read back as it was written, and reading ends.
      [Job]: [job/job.go].  [Machine]: [machine/], the
      machine part of [config/config.go].  [Config]: [config/config.go], [pkg/tls.go],
      the addresses of [machine/coreos.go], the options of [fleetd/fleetd.go] with the
      package globalconf that reads them, and [New] of [server/server.go].
      [Metrics]: [metrics/metrics.go].  [Versions]: [version/version.go], the package
      semver, and where [registry/version.go] and [fleetctl/] compare versions.
    - [AgentState]: [agent/state.go], the test whether a unit can run on a machine.
      [Cluster]: [engine/state.go].  [Scheduler]: [engine/scheduler.go].
      [EngineReconciler]: [engine/reconciler.go], the tasks as the list sent on the
      channel.  [Engine]: reading the cluster and doing the tasks.  [Lease],
      [Leadership]: [pkg/lease/interface.go], [engine/engine.go],
      [engine/rpcengine.go], a cluster of engines as a timed step system.
    - [UnitManager]: [unit/manager.go] as a class with laws, [unit/fake.go],
      [unit/generator.go].  [Systemd]: [systemd/manager.go], [pkg/filesystem.go].
      [Agent], [AgentReconcile]: [agent/agent.go], [cache.go], [task.go],
      [reconcile.go].  [Publisher]: [agent/unit_state.go], its goroutines as a step
      relation.  [Components]: the loops that a running server starts, and the channel
      between the generator and the publisher.  [Presence]: [heart/heart.go], [server/monitor.go].  [Daemon]:
      [server/server.go], [fleetd/fleetd.go], the life of servers and the signals as
      step relations.  [Events]: [registry/event.go], [pkg/reconcile.go], the loop of
      the reconcilers as a timed step relation.
    - [Pagination], [Api]: the resources of [api/], [client/registry.go].  [Schema]:
      [schema/mapper.go] and the entities of [schema/v1-gen.go].  [HttpClient]:
      [api/mux.go], [server.go], [discovery.go], the calls of [schema/v1-gen.go] and
      [client/http.go] over them.
    - [Fleetctl], [FleetctlList], [FleetctlSpec]: [client/api.go] as a class, the
      commands of [fleetctl/] on units with their waiting, the listings and the
      search for an address, and what the commands guarantee.  [FleetctlMain]: the flags
      of [fleetctl/fleetctl.go] and the choice of a client.  [SshClient]: [ssh/ssh.go],
      [ssh/proxy.go], the remote commands of [fleetctl/].  [KnownHosts]:
      [ssh/match.go], [ssh/known_hosts.go], [pkg/filepath.go].  [FakeRegistry]:
      [registry/fake.go].
    - [Etcd]: the client of etcd as a class with laws, and an etcd in memory that
      satisfies them.  [EtcdLease]: [pkg/lease/etcd.go].  [EtcdRegistry]:
      [registry/*.go], every operation; [EtcdSchedule], [EtcdStore],
      [EtcdInvariant], [EtcdViews], [EtcdLeadership]: what they store and read.
      [Registry]: [registry/interface.go].
    - [RpcRegistry]: [registry/rpc/inmemory.go], [rpcserver.go], [rpcregistry.go],
      [rpcutils.go], the conversions of [job/] and [unit/].  [ProtoWire], [Protobuf]:
      how [protobuf/fleet.pb.go] writes and reads every message.  [RpcMux], [RpcDial]:
      [registry/rpc/registrymux.go], [balancer.go], with the dialers.  [RpcStates], [RpcCoherence],
      [RpcRefinement]: what is served.  [EtcdExamples], [RpcExamples]: witnesses on
      the etcd in memory.

    State is passed explicitly: an operation on [St] is a function into [St * res E A],
    and an interface of the source is a class of such functions ([EngineRegistry],
    [AgentRegistry], [StateRegistry], [ClientRegistry], [ClusterRegistry], [Registry],
    [LeaseManager], [UnitManager], [Scheduler], [ClientAPI]).  What a client relies on is
    a class of laws ([ScheduleLaws], [VersionLaws], [LeaseLaws], [SchedulerLaws],
    [UnitManagerLaws], [ClientLaws]); the theorems on the client are proved from the
    laws, and the implementations in etcd, in memory, over gRPC and on systemd are
    instances of them.  In the same way a message of gRPC is an instance of [Message],
    and what is said of every message follows from [MessageLaws].

    ** What the theorems show

    - The engine: each task is a step of an abstract specification of rescheduling
      ([calculateClusterTasks_refines]); replayed on the registry the tasks give the
      schedule that was computed ([calculateClusterTasks_replay],
      [Reconcile_schedule]); what is scheduled is wanted and its machine exists; the
      scheduler chooses the least loaded machine that is able.
    - Leadership: with leases of whole seconds at most one engine reconciles at a time
      ([leader_exclusive]), a free lease is taken by an engine that may take it
      ([leader_elected]), and an engine that crashes and returns may overlap with another
      ([crash_overlap]); so may engines whose lease is not of whole seconds
      ([fractional_lease_overlap]).
    - The agent: one reconciliation gives exactly the desired units, and systemd was told
      to start exactly those that are to be launched ([Reconcile_converges]); they
      belong on the machine and do not conflict;
      [Purge] ends; the publisher loses no update, but may end with a stale one; the
      systemd manager satisfies the laws the agent needs, and one that is restarted knows
      the units of the one before, also after failures ([systemd_restart]); the
      monitor renews the presence of a machine in time when the truncation to whole
      seconds leaves room for it ([presence_continuous]).
    - The registry: a unit file that was parsed reads back option by option
      ([CreateUnit_roundtrip]), in the order of its sections; what the operations stored
      reads back as what it is ([reachable_reads]), lists agree with single reads ([Units_agree],
      [Schedule_agree]), the engine serves over gRPC what is in etcd
      ([rpc_serves_etcd]); machines follow the engine ([EngineChanged_follows]), but a
      dialer may stop looking for it ([no_engine_stuck]).  Every message is read back as
      it was written ([proto_roundtrip], [units_over_wire]), and reading ends on any bytes
      ([Unmarshal_ends]), though ten bytes can make it panic.
    - The API: names and options are validated as the grammar says, rejected requests
      change nothing, pages are complete within the bounds of their 16-bit tokens, and
      tokens and units survive the trip; the HTTP client sees what the server's
      registry has ([http_lists_equal], [http_unit_calls]), and its listings end.
    - The command line: which units a command may create, replace and change
      ([create_units_safe], [setTargetStateOfUnits_spec]), what success of [start] means
      ([runStartUnit_success]), that waiting ends; that [restart] waits in vain and
      [destroy] has its flag the wrong way round; that a host's key is trusted on first
      use and then only that key ([Check_trust_on_first_use]); when a terminal is left
      raw ([Execute_restores]), which driver is used ([main_driver]), and that patterns mean
      what they say ([match_glob_equiv]).
    - The daemon: reconcilers run in time ([reconciler_in_time]); a reload never
      kills the old server, and the new one cannot start while that announces the machine
      ([reload_keeps_servers]); it keeps options that were removed
      ([reload_keeps_options]); what a server is made of ([server_New_wiring]), when it
      verifies etcd ([tls_verifies]), that it may not be able to stop
      ([generator_stuck]), and when the client warns of its version
      ([checkVersion_warns]).

    ** Parameters and bounds

    [MapRange] is the order in which Go visits a map, one for every [moment] of a
    traversal; [GoSort] is any sort; [Digest] is SHA-1, of which only the length is
    used; [KeysAPI], [JSON], [FileSystem]
    and [DBus] are the packages behind those calls; [PublicKey] is a key of
    [golang.org/x/crypto/ssh]; [network] decides what connections do; what the cluster
    does while a command waits is a function on the world; the parsers of numbers,
    URLs, certificates and durations, and what files, terminals and SSH sessions answer,
    are arguments.  Each has an instance that the witnesses use.  Integers keep their
    width ([int64_wrap], [int32_wrap], [uint64_wrap], the 16 bits of page tokens).  Loops that the source bounds by data
    are structural; [path.Match] has fuel that is proved enough, reading a unit file has
    more than its bytes, which is proved enough ([Deserialize_ends]), [Purge] and the check
    of the monitor have fuel for which they are proved to end, reading a message has the number of
    its bytes and skipping a field twice that, which are proved enough for messages under
    2^62 bytes ([MaxLen]); a varint has the ten turns of the source; the blocks of a
    certificate file are at most its bytes; [walk_pages] has the
    number of pages, the HTTP client more than the page numbers there are.  Waiting
    without a limit has fuel: more of it finds what less of it finds, and
    [waitForUnitStates_live] says when it is enough.

    ** Not modelled

    JSON, with which state is written to etcd and shown on a signal: it is the parameter
    [JSON] where it is read back.  Sockets, the connections of gRPC and HTTP, and the
    stubs and descriptors that are generated for them; the description of the API in
    [schema/v1-json.go] and the options of its calls that no client uses.  Help texts,
    messages and logging, which only print; the functional tests, which start
    containers.  The laws of the client are proved of the registry in memory and not of
    the one in etcd. *)

From stdpp Require Import base list gmap strings sorting fin_maps.

#[export] Set Warnings "-clear-no-such-hyp,-register-all".

(** ** Fallible computations

    A Go function that returns [(T, error)] is a function into [res E T]:
    [Ok v] is [(v, nil)] and [Err e] is a non-nil error [e] (whose companion
    value the callers never read). *)

Inductive res (E A : Type) : Type :=
| Ok (a : A)
| Err (e : E).
Arguments Ok {E A} a.
Arguments Err {E A} e.

Definition res_bind {E A B} (c : res E A) (k : A → res E B) : res E B :=
  match c with Ok a => k a | Err e => Err e end.

Declare Scope go_scope.
Delimit Scope go_scope with go.
Notation "'let*' x ':=' c 'in' k" := (res_bind c (λ x, k))
  (at level 10, x pattern, c at level 100, k at level 200) : go_scope.

Definition is_ok {E A} (c : res E A) : bool :=
  match c with Ok _ => true | Err _ => false end.

(** What a call does that may not return: [Blocked] when it waits for ever,
    [Fatal] when the process ends. *)
Inductive outcome (A : Type) := Done (a : A) | Blocked | Fatal.
Arguments Done {A} a.
Arguments Blocked {A}.
Arguments Fatal {A}.

Definition and_then {A B} (o : outcome A) (f : A → outcome B) : outcome B :=
  match o with Done a => f a | Blocked => Blocked | Fatal => Fatal end.

(** ** Ranging over a Go map

    The iteration order of a Go [map] is unspecified and changes from one
    [range] statement to the next.  A model that ranges over a map therefore
    takes an arbitrary order as a parameter: [range t m] is the sequence of
    entries visited by the [range] statement executed at the moment [t].
    Moments are paths (lists of numbers), so that a function called at [t]
    gives each [range] it executes, directly or in a callee, a moment of its
    own.  Every theorem quantifies over the instance: it holds for every order
    the runtime may choose. *)

Abbreviation moment := (list nat).

Class MapRange := {
  range : moment → ∀ {V : Type}, gmap string V → list (string * V);
  range_perm : ∀ t V (m : gmap string V), range t m ≡ₚ map_to_list m
}.

(** Two concrete orders, used to evaluate the model on examples. *)
Definition canonical_range : MapRange :=
  {| range := λ _ V m, map_to_list m; range_perm := λ _ V m, Permutation_refl _ |}.

Definition reversed_range : MapRange :=
  {| range := λ _ V m, reverse (map_to_list m);
     range_perm := λ _ V m, reverse_Permutation _ |}.

Section range_facts.
Context `{MR : MapRange}.
Context {V : Type}.
Implicit Types (m : gmap string V) (t : moment).

Lemma elem_of_range t m k v : (k, v) ∈ range t m ↔ m !! k = Some v.
Proof. by rewrite range_perm, elem_of_map_to_list. Qed.

Lemma range_NoDup_fst t m : NoDup (range t m).*1.
Proof.
  rewrite (range_perm t). apply NoDup_fst_map_to_list.
Qed.

Lemma range_empty t : range t (∅ : gmap string V) = [].
Proof.
  apply Permutation_nil_r. rewrite range_perm. by rewrite map_to_list_empty.
Qed.

Lemma elem_of_range_fst t m k : k ∈ (range t m).*1 ↔ k ∈ dom m.
Proof.
  rewrite elem_of_dom, list_elem_of_fmap. split.
  - intros ([k' v] & -> & Hin%elem_of_range). by eexists.
  - intros [v Hv]. exists (k, v). split; [done|]. by apply elem_of_range.
Qed.
End range_facts.

(** ** [sort.Sort]

    Package [sort] promises a permutation that is ordered by [Less] when [Less]
    is a strict weak order; it does not promise stability.  The models that
    sort take the sorting function as a parameter with exactly that promise. *)

Record strict_weak {A} (less : A → A → bool) : Prop := {
  sw_irrefl : ∀ a, less a a = false;
  sw_trans : ∀ a b c, less a b = true → less b c = true → less a c = true;
  sw_incomp : ∀ a b c, less b a = false → less c b = false → less c a = false
}.

Class GoSort := {
  go_sort : ∀ {A : Type}, (A → A → bool) → list A → list A;
  go_sort_perm : ∀ A (less : A → A → bool) l, go_sort less l ≡ₚ l;
  go_sort_sorted : ∀ A (less : A → A → bool) l,
    strict_weak less → StronglySorted (λ a b, less b a = false) (go_sort less l)
}.

Definition not_after {A} (less : A → A → bool) : relation A := λ a b, less b a = false.

#[export] Instance not_after_dec {A} (less : A → A → bool) : RelDecision (not_after less).
Proof. intros a b. unfold not_after. apply _. Defined.

Lemma merge_sort_not_after {A} (less : A → A → bool) l :
  strict_weak less → StronglySorted (not_after less) (merge_sort (not_after less) l).
Proof.
  intros [Hi Ht Hc].
  assert (Transitive (not_after less)).
  { intros a b c Hab Hbc. unfold not_after in *. eauto. }
  assert (Total (not_after less)).
  { intros a b. unfold not_after.
    destruct (less b a) eqn:Hba; [|by left]. right.
    destruct (less a b) eqn:Hab; [|done].
    rewrite <- (Hi a). symmetry. eauto. }
  apply StronglySorted_merge_sort; apply _.
Qed.

(** Merge sort keeps the promise. *)
Definition merge_go_sort : GoSort :=
  {| go_sort := λ A less l, merge_sort (not_after less) l;
     go_sort_perm := λ A less l, merge_sort_Permutation _ l;
     go_sort_sorted := λ A less l, merge_sort_not_after less l |}.

(** A strict order on a key, the usual shape of [Less]. *)
Lemma strict_weak_key {A} (key : A → nat) : strict_weak (λ a b, bool_decide (key a < key b)).
Proof.
  split; intros *; rewrite ?bool_decide_eq_true, ?bool_decide_eq_false; lia.
Qed.

(** ** Lists and options *)

Lemma list_find_Some_bool {A} (f : A → bool) l i x :
  list_find f l = Some (i, x) →
  l !! i = Some x ∧ f x = true ∧ (∀ j y, l !! j = Some y → j < i → f y = false).
Proof.
  intros (Hi & Hx & Hj)%list_find_Some. split_and!; [done| by apply Is_true_true |].
  intros j y Hy Hlt. specialize (Hj j y Hy Hlt). by apply Is_true_false.
Qed.

Lemma existsb_elem {A} (f : A → bool) l :
  existsb f l = true ↔ ∃ x, x ∈ l ∧ f x = true.
Proof. rewrite existsb_exists. by setoid_rewrite list_elem_of_In. Qed.

Lemma forallb_elem {A} (f : A → bool) l :
  forallb f l = true ↔ ∀ x, x ∈ l → f x = true.
Proof. rewrite forallb_forall. by setoid_rewrite list_elem_of_In. Qed.

(** A fold that inserts under distinct keys, read back by lookup. *)
Lemma lookup_foldl_insert `{Countable K} {A V} (key : A → K) (val : A → V) (l : list A)
    (m : gmap K V) k :
  foldl (λ m a, <[key a := val a]> m) m l !! k =
  match last (filter (λ a, key a = k) l) with
  | Some a => Some (val a)
  | None => m !! k
  end.
Proof.
  revert m. induction l as [|a l IH] using rev_ind; intros m; [done|].
  rewrite foldl_app, filter_app. cbn [foldl]. rewrite filter_cons, filter_nil.
  case_decide as Hk.
  - rewrite last_snoc, <- Hk. apply lookup_insert_eq.
  - rewrite app_nil_r, lookup_insert_ne by done. apply IH.
Qed.

(** A map filled from a list in which a key has one value. *)
Lemma lookup_filled `{Countable A} {V} (l : list (A * V)) k v :
  (∀ v', (k, v') ∈ l ↔ v = Some v') → foldl (λ m p, <[p.1 := p.2]> m) (∅ : gmap A V) l !! k = v.
Proof.
  intros Hl. rewrite (lookup_foldl_insert fst snd), lookup_empty. destruct (last _) as [[k' v']|] eqn:E.
  - apply last_Some_elem_of, list_elem_of_filter in E as [Hk Hin]. cbn in Hk. subst k'. cbn. symmetry. by apply Hl.
  - destruct v as [v'|]; [exfalso|done]. apply last_None in E. apply (not_elem_of_nil (k, v')). rewrite <- E.
    apply list_elem_of_filter. split; [done|]. by apply Hl.
Qed.

(** ** Proof automation *)

Create HintDb fleet discriminated.

#[export] Hint Resolve elem_of_range range_NoDup_fst : fleet.

(** Destruct the scrutinee of some [match] or [if] of the goal. *)
Ltac case_goal :=
  match goal with
  | |- context [match ?x with _ => _ end] => destruct x eqn:?
  end.

(** Destruct the scrutinee of some [match] or [if] of a hypothesis. *)
Ltac case_hyp H :=
  match type of H with
  | context [match ?x with _ => _ end] => destruct x eqn:?
  end.

(** Turn boolean tests on decidable propositions into propositions. *)
Ltac bool_to_prop :=
  repeat match goal with
  | H : bool_decide _ = true |- _ => apply bool_decide_eq_true in H
  | H : bool_decide _ = false |- _ => apply bool_decide_eq_false in H
  | H : negb _ = true |- _ => apply negb_true_iff in H
  | H : negb _ = false |- _ => apply negb_false_iff in H
  | H : _ && _ = true |- _ => apply andb_true_iff in H as [? ?]
  | H : _ || _ = false |- _ => apply orb_false_iff in H as [? ?]
  end.
