(* ===== verification/GoStrings.v ===== *)
(** * Go strings

    The functions of packages [strings] and [unicode/utf8] that fleet calls,
    on Rocq's [string]: a Go string is a sequence of bytes and an [ascii] is a
    byte.  Functions that work on runes ([strings.Fields], [strings.TrimSpace])
    decode UTF-8 as package [unicode/utf8] does.  Also [strconv.Itoa] and
    [strconv.Atoi]. *)

From stdpp Require Import base list gmap strings.
From Stdlib Require Import Ascii NArith ZArith DecimalString DecimalZ.
From S2P Require Import Prelude.

(** ** Bytes and positions *)

(** The one-byte string made of a double quote. *)
Definition dquote : string := String "034"%char "".

Fixpoint str_take (n : nat) (s : string) : string :=
  match n, s with
  | S n, String a s => String a (str_take n s)
  | _, _ => ""
  end.

Fixpoint str_drop (n : nat) (s : string) : string :=
  match n, s with
  | S n, String _ s => str_drop n s
  | _, _ => s
  end.

(** [strings.HasPrefix] *)
Fixpoint has_prefix (p s : string) : bool :=
  match p, s with
  | "", _ => true
  | String a p, String b s => bool_decide (a = b) && has_prefix p s
  | String _ _, "" => false
  end.

(** [strings.HasSuffix] *)
Definition has_suffix (suf s : string) : bool :=
  bool_decide (String.length suf ≤ String.length s) &&
  bool_decide (str_drop (String.length s - String.length suf) s = suf).

(** [strings.Index] of a one-byte string; [None] is -1. *)
Fixpoint index_byte (c : ascii) (s : string) : option nat :=
  match s with
  | "" => None
  | String a s => if decide (a = c) then Some 0 else S <$> index_byte c s
  end.

(** [strings.LastIndex] of a one-byte string; [None] is -1. *)
Fixpoint last_index_byte (c : ascii) (s : string) : option nat :=
  match s with
  | "" => None
  | String a s =>
      match last_index_byte c s with
      | Some i => Some (S i)
      | None => if decide (a = c) then Some 0 else None
      end
  end.

(** [strings.Contains] of a one-byte string. *)
Definition has_byte (c : ascii) (s : string) : bool :=
  match index_byte c s with Some _ => true | None => false end.

(** ** Splitting and replacing *)

(** [strings.Split] at a one-byte separator. *)
Fixpoint split_byte (c : ascii) (s : string) : list string :=
  match s with
  | "" => [""]
  | String a s =>
      if decide (a = c) then "" :: split_byte c s
      else match split_byte c s with
           | h :: t => String a h :: t
           | [] => [String a ""]
           end
  end.

(** [strings.SplitN] with a one-byte separator and [n = 2]. *)
Definition split_byte_2 (c : ascii) (s : string) : list string :=
  match index_byte c s with
  | Some i => [str_take i s; str_drop (S i) s]
  | None => [s]
  end.

(** [strings.Join] with a one-byte separator. *)
Fixpoint join_byte (c : ascii) (l : list string) : string :=
  match l with
  | [] => ""
  | [h] => h
  | h :: t => h +:+ String c (join_byte c t)
  end.

(** [strings.Replace(s, old, new, -1)] for a non-empty [old]: the occurrences
    of [old] are found from left to right and do not overlap.  [skip] counts
    the bytes of the last occurrence that are still to be dropped. *)
Fixpoint replace_from (skip : nat) (old new s : string) : string :=
  match s with
  | "" => ""
  | String a s' =>
      match skip with
      | S skip => replace_from skip old new s'
      | O => if has_prefix old s
             then new +:+ replace_from (String.length old - 1) old new s'
             else String a (replace_from 0 old new s')
      end
  end.

Definition replace_all (s old new : string) : string := replace_from 0 old new s.

(** [strings.ToLower] on the ASCII letters.  Fleet only compares the result with
    the words "true", "yes", "1", "on", "t", "y"; no rune outside ASCII has one
    of their letters as its lower case, so the other runes can stay as they
    are. *)
Definition lower_byte (a : ascii) : ascii :=
  let n := N_of_ascii a in
  if ((65 <=? n) && (n <=? 90))%N then ascii_of_N (n + 32) else a.

Fixpoint to_lower (s : string) : string :=
  match s with
  | "" => ""
  | String a s => String (lower_byte a) (to_lower s)
  end.

(** [strings.ToUpper] on the ASCII letters, for strings without other letters. *)
Definition upper_byte (a : ascii) : ascii :=
  let n := N_of_ascii a in
  if ((97 <=? n) && (n <=? 122))%N then ascii_of_N (n - 32) else a.

Fixpoint to_upper (s : string) : string :=
  match s with
  | "" => ""
  | String a s => String (upper_byte a) (to_upper s)
  end.

(** [strings.TrimLeft] and [strings.TrimRight] with a cutset of ASCII bytes. *)
Fixpoint str_mem (c : ascii) (s : string) : bool :=
  match s with
  | "" => false
  | String a s => bool_decide (a = c) || str_mem c s
  end.

Fixpoint trim_left (s cutset : string) : string :=
  match s with
  | "" => ""
  | String a s' => if str_mem a cutset then trim_left s' cutset else s
  end.

Fixpoint trim_right (s cutset : string) : string :=
  match s with
  | "" => ""
  | String a s' =>
      match trim_right s' cutset with
      | "" => if str_mem a cutset then "" else String a ""
      | r => String a r
      end
  end.

(** ** UTF-8 *)

Definition RuneError : N := 65533.

Definition byte_at (s : string) (i : nat) : N :=
  match String.get i s with Some a => N_of_ascii a | None => 256 end.

Definition between (lo hi n : N) : bool := ((lo <=? n) && (n <=? hi))%N.

Definition cont (n : N) : N := (n - 128)%N.

(** [utf8.DecodeRuneInString]: the rune and its width in bytes. *)
Definition decode_rune (s : string) : N * nat :=
  match s with
  | "" => (RuneError, 0)
  | String a _ =>
      let b0 := N_of_ascii a in
      let b1 := byte_at s 1 in
      let b2 := byte_at s 2 in
      let b3 := byte_at s 3 in
      if (b0 <? 128)%N then (b0, 1)
      else if between 194 223 b0 && between 128 191 b1
      then (((b0 - 192) * 64 + cont b1)%N, 2)
      else if between 224 239 b0 &&
              between (if (b0 =? 224)%N then 160 else 128)
                      (if (b0 =? 237)%N then 159 else 191) b1 &&
              between 128 191 b2
      then ((((b0 - 224) * 64 + cont b1) * 64 + cont b2)%N, 3)
      else if between 240 244 b0 &&
              between (if (b0 =? 240)%N then 144 else 128)
                      (if (b0 =? 244)%N then 143 else 191) b1 &&
              between 128 191 b2 && between 128 191 b3
      then (((((b0 - 240) * 64 + cont b1) * 64 + cont b2) * 64 + cont b3)%N, 4)
      else (RuneError, 1)
  end.

(** The runes of a string, each with the bytes it is decoded from.  Every step
    consumes a byte, so the length of the string is enough fuel. *)
Fixpoint runes_fuel (fuel : nat) (s : string) : list (N * string) :=
  match fuel, s with
  | S fuel, String _ _ =>
      let '(r, n) := decode_rune s in
      (r, str_take n s) :: runes_fuel fuel (str_drop n s)
  | _, _ => []
  end.

Definition runes (s : string) : list (N * string) := runes_fuel (String.length s) s.

(** [unicode.IsSpace] *)
Definition is_space (r : N) : bool :=
  between 9 13 r || (r =? 32)%N || (r =? 133)%N || (r =? 160)%N || (r =? 5760)%N ||
  between 8192 8202 r || (r =? 8232)%N || (r =? 8233)%N || (r =? 8239)%N ||
  (r =? 8287)%N || (r =? 12288)%N.

Fixpoint str_concat (l : list string) : string :=
  match l with [] => "" | h :: t => h +:+ str_concat t end.

(** [strings.Fields]: the maximal runs of runes that are not white space.
    [cur] is the field being collected. *)
Fixpoint fields_from (cur : string) (l : list (N * string)) : list string :=
  match l with
  | [] => if decide (cur = "") then [] else [cur]
  | (r, b) :: l =>
      if is_space r
      then if decide (cur = "") then fields_from "" l else cur :: fields_from "" l
      else fields_from (cur +:+ b) l
  end.

Definition fields (s : string) : list string := fields_from "" (runes s).

(** [strings.TrimSpace] *)
Fixpoint drop_spaces (l : list (N * string)) : list (N * string) :=
  match l with
  | [] => []
  | (r, b) :: l' => if is_space r then drop_spaces l' else l
  end.

Definition trim_space (s : string) : string :=
  str_concat (reverse (drop_spaces (reverse (drop_spaces (runes s))))).*2.

Arguments index_byte c%_char s%_stdpp.
Arguments last_index_byte c%_char s%_stdpp.
Arguments has_byte c%_char s%_stdpp.
Arguments split_byte c%_char s%_stdpp.
Arguments split_byte_2 c%_char s%_stdpp.
Arguments join_byte c%_char l%_stdpp.

(** ** Facts *)

Lemma str_app_nil_l s : "" +:+ s = s.
Proof. done. Qed.

Lemma str_app_cons a s1 s2 : String a s1 +:+ s2 = String a (s1 +:+ s2).
Proof. done. Qed.

Lemma str_app_nil_r s : s +:+ "" = s.
Proof. induction s as [|a s IH]; [done|]. by rewrite str_app_cons, IH. Qed.

Lemma str_app_assoc s1 s2 s3 : (s1 +:+ s2) +:+ s3 = s1 +:+ s2 +:+ s3.
Proof. induction s1 as [|a s1 IH]; [done|]. by rewrite !str_app_cons, IH. Qed.

Lemma str_length_app s1 s2 :
  String.length (s1 +:+ s2) = String.length s1 + String.length s2.
Proof. induction s1 as [|a s1 IH]; [done|]. rewrite str_app_cons. cbn. by rewrite IH. Qed.

#[export] Instance str_app_inj s : Inj (=) (=) (String.app s).
Proof.
  intros s1 s2. induction s as [|a s IH]; [done|].
  rewrite !str_app_cons. intros [= ?]. auto.
Qed.

Lemma str_take_drop n s : str_take n s +:+ str_drop n s = s.
Proof.
  revert s. induction n as [|n IH]; intros [|a s]; cbn; try done.
  by rewrite str_app_cons, IH.
Qed.

Lemma str_length_take n s : String.length (str_take n s) = n `min` String.length s.
Proof. revert s. induction n as [|n IH]; intros [|a s]; cbn; auto. Qed.

Lemma str_length_drop n s : String.length (str_drop n s) = String.length s - n.
Proof. revert s. induction n as [|n IH]; intros [|a s]; cbn; auto. Qed.

Lemma str_drop_app s1 s2 : str_drop (String.length s1) (s1 +:+ s2) = s2.
Proof. induction s1; [by destruct s2|]. by rewrite str_app_cons. Qed.

Lemma str_take_app s1 s2 : str_take (String.length s1) (s1 +:+ s2) = s1.
Proof. induction s1 as [|a s1 IH]; [by destruct s2|]. rewrite str_app_cons. cbn. by rewrite IH. Qed.

Lemma has_prefix_spec p s : has_prefix p s = true ↔ ∃ t, s = p +:+ t.
Proof.
  revert s. induction p as [|a p IH]; intros s.
  { split; [eauto|done]. }
  destruct s as [|b s]; cbn.
  { split; [done|]. intros [t Ht]. by rewrite str_app_cons in Ht. }
  rewrite andb_true_iff, bool_decide_eq_true, IH. setoid_rewrite str_app_cons. split.
  - intros [-> [t ->]]. by exists t.
  - intros [t [= -> ->]]. eauto.
Qed.

Lemma has_suffix_spec suf s : has_suffix suf s = true ↔ ∃ t, s = t +:+ suf.
Proof.
  unfold has_suffix. rewrite andb_true_iff, !bool_decide_eq_true. split.
  - intros [_ H]. exists (str_take (String.length s - String.length suf) s).
    pose proof (str_take_drop (String.length s - String.length suf) s) as Ht.
    rewrite H in Ht. by symmetry.
  - intros [t ->]. rewrite str_length_app. split; [lia|].
    replace (_ - _) with (String.length t) by lia. apply str_drop_app.
Qed.

(** *** Positions *)

Lemma has_byte_cons c a s : has_byte c (String a s) = bool_decide (a = c) || has_byte c s.
Proof.
  unfold has_byte. cbn. case_bool_decide as H; [by rewrite decide_True|].
  rewrite decide_False by done. by destruct (index_byte c s).
Qed.

Lemma index_byte_Some c s i :
  index_byte c s = Some i →
  s = str_take i s +:+ String c (str_drop (S i) s) ∧ has_byte c (str_take i s) = false.
Proof.
  revert i. induction s as [|a s IH]; intros i; cbn; [done|].
  case_decide as Ha.
  - intros [= <-]. cbn. by rewrite Ha, str_app_nil_l.
  - rewrite fmap_Some. intros (j & Hj & ->). destruct (IH j Hj) as [H1 H2]. cbn. split.
    + rewrite str_app_cons. by rewrite H1 at 1.
    + by rewrite has_byte_cons, bool_decide_eq_false_2.
Qed.

Lemma has_byte_app c s1 s2 : has_byte c (s1 +:+ s2) = has_byte c s1 || has_byte c s2.
Proof.
  unfold has_byte. induction s1 as [|a s1 IH]; [done|]. rewrite str_app_cons. cbn.
  case_decide; [done|]. by destruct (index_byte c (s1 +:+ s2)), (index_byte c s1).
Qed.

Lemma index_byte_app_no c s1 s2 :
  has_byte c s1 = false →
  index_byte c (s1 +:+ String c s2) = Some (String.length s1).
Proof.
  induction s1 as [|a s1 IH]; cbn.
  - intros _. rewrite str_app_nil_l. cbn. by rewrite decide_True.
  - rewrite has_byte_cons, orb_false_iff, bool_decide_eq_false, str_app_cons. cbn.
    intros [Ha Hs]. rewrite decide_False by done. by rewrite IH.
Qed.

Lemma index_byte_None c s : index_byte c s = None ↔ has_byte c s = false.
Proof. unfold has_byte. by destruct (index_byte c s). Qed.

Lemma last_index_byte_None c s : last_index_byte c s = None ↔ has_byte c s = false.
Proof.
  induction s as [|a s IH]; [done|]. rewrite has_byte_cons. cbn.
  destruct (last_index_byte c s) eqn:E.
  - split; [done|]. intros [_ H]%orb_false_iff. by apply IH in H.
  - rewrite (proj1 IH eq_refl), orb_false_r. by case_decide; case_bool_decide.
Qed.

Lemma last_index_byte_app_no c s1 s2 :
  has_byte c s2 = false →
  last_index_byte c (s1 +:+ String c s2) = Some (String.length s1).
Proof.
  intros H2. induction s1 as [|a s1 IH].
  - rewrite str_app_nil_l. cbn. apply last_index_byte_None in H2. rewrite H2.
    by rewrite decide_True.
  - rewrite str_app_cons. cbn. by rewrite IH.
Qed.

Lemma last_index_byte_Some c s i :
  last_index_byte c s = Some i →
  s = str_take i s +:+ String c (str_drop (S i) s) ∧ has_byte c (str_drop (S i) s) = false.
Proof.
  revert i. induction s as [|a s IH]; intros i; [done|]. cbn.
  destruct (last_index_byte c s) as [j|] eqn:E.
  - intros [= <-]. destruct (IH j eq_refl) as [H1 H2]. split; [|done].
    cbn. rewrite str_app_cons. by rewrite H1 at 1.
  - case_decide; [|done]. intros [= <-]. cbn. apply last_index_byte_None in E.
    by subst.
Qed.

Lemma str_drop_app_S c s1 s2 : str_drop (S (String.length s1)) (s1 +:+ String c s2) = s2.
Proof. induction s1 as [|a s1 IH]; [by destruct s2|]. by rewrite str_app_cons. Qed.

(** The last occurrence determines the text before and after it. *)
Lemma last_index_byte_split c s i pre suf :
  last_index_byte c s = Some i → s = pre +:+ String c suf → has_byte c suf = false →
  pre = str_take i s ∧ suf = str_drop (S i) s.
Proof.
  intros Hi -> Hs. rewrite last_index_byte_app_no in Hi by done. injection Hi as <-.
  by rewrite str_take_app, str_drop_app_S.
Qed.

(** *** Splitting *)

Lemma split_byte_ne c s : split_byte c s ≠ [].
Proof. destruct s; cbn; [done|]. case_decide; [done|]. by destruct (split_byte c s). Qed.

Lemma join_split_byte c s : join_byte c (split_byte c s) = s.
Proof.
  induction s as [|a s IH]; [done|]. cbn. case_decide as H.
  - subst. destruct (split_byte c s) eqn:E; [by apply split_byte_ne in E|].
    change (join_byte c ("" :: s0 :: l)) with ("" +:+ String c (join_byte c (s0 :: l))).
    by rewrite str_app_nil_l, IH.
  - destruct (split_byte c s) as [|h [|h' t]] eqn:E; [by apply split_byte_ne in E| |];
      cbn [join_byte] in *; rewrite <- IH; [done|by rewrite str_app_cons].
Qed.

Lemma split_byte_no_sep c s : Forall (λ x, has_byte c x = false) (split_byte c s).
Proof.
  induction s as [|a s IH]; cbn.
  - by repeat constructor.
  - case_decide; [by constructor|].
    destruct (split_byte c s) as [|h t].
    + repeat constructor. rewrite has_byte_cons, bool_decide_eq_false_2 by done. done.
    + apply Forall_cons in IH as [Hh Ht]. constructor; [|done].
      rewrite has_byte_cons, bool_decide_eq_false_2 by done. done.
Qed.

Lemma split_byte_app c s1 s2 :
  has_byte c s1 = false → split_byte c (s1 +:+ String c s2) = s1 :: split_byte c s2.
Proof.
  induction s1 as [|a s1 IH]; intros H.
  - rewrite str_app_nil_l. cbn. by rewrite decide_True.
  - rewrite has_byte_cons, orb_false_iff, bool_decide_eq_false in H. destruct H as [Ha Hs].
    rewrite str_app_cons. cbn. rewrite decide_False by done. by rewrite IH.
Qed.

Lemma split_byte_no c s : has_byte c s = false → split_byte c s = [s].
Proof.
  induction s as [|a s IH]; [done|].
  rewrite has_byte_cons, orb_false_iff, bool_decide_eq_false. intros [Ha Hs].
  cbn. rewrite decide_False by done. by rewrite IH.
Qed.

(** Splitting undoes joining when no part contains the separator. *)
Lemma split_join_byte c l :
  l ≠ [] → Forall (λ x, has_byte c x = false) l → split_byte c (join_byte c l) = l.
Proof.
  intros Hne Hl. induction l as [|h [|h' t] IH]; [done| |].
  - apply Forall_cons in Hl as [Hh _]. by apply split_byte_no.
  - apply Forall_cons in Hl as [Hh Hl]. cbn [join_byte].
    rewrite split_byte_app by done. f_equal. by apply IH.
Qed.

(** *** Replacing *)

Lemma replace_from_no old new s :
  (∀ s1 s2, s = s1 +:+ s2 → s2 ≠ "" → has_prefix old s2 = false) →
  replace_from 0 old new s = s.
Proof.
  induction s as [|a s IH]; intros H; [done|]. cbn [replace_from].
  rewrite (H "" (String a s)) by done. f_equal. apply IH.
  intros s1 s2 -> Hs2. apply (H (String a s1)); [|done]. by rewrite str_app_cons.
Qed.

(** A string without the first byte of [old] is left alone. *)
Lemma replace_all_absent c old new s :
  has_byte c s = false → replace_all s (String c old) new = s.
Proof.
  intros Hs. apply replace_from_no. intros s1 s2 -> Hne.
  rewrite has_byte_app, orb_false_iff in Hs. destruct Hs as [_ Hs2].
  destruct s2 as [|b s2]; [done|].
  rewrite has_byte_cons, orb_false_iff, bool_decide_eq_false in Hs2. cbn.
  rewrite bool_decide_eq_false_2; [done|]. intros ->. by destruct Hs2.
Qed.

(** *** Runes *)

Lemma decode_rune_width s : s ≠ "" → 1 ≤ (decode_rune s).2 ≤ 4.
Proof. destruct s as [|a s]; [done|]. intros _. unfold decode_rune. repeat case_match; cbn; lia. Qed.

Lemma runes_fuel_concat fuel s :
  String.length s ≤ fuel → str_concat (runes_fuel fuel s).*2 = s.
Proof.
  revert s. induction fuel as [|fuel IH]; intros [|a s] Hs; cbn in Hs; try done; try lia.
  cbn [runes_fuel].
  pose proof (decode_rune_width (String a s) ltac:(done)) as Hw.
  destruct (decode_rune (String a s)) as [r n]. cbn [snd] in Hw.
  cbn [fmap list_fmap snd str_concat]. rewrite IH; [apply str_take_drop|].
  rewrite str_length_drop. cbn. lia.
Qed.

(** Decoding loses nothing: the bytes of the runes are the string. *)
Lemma runes_concat s : str_concat (runes s).*2 = s.
Proof. by apply runes_fuel_concat. Qed.

Lemma fields_from_ne cur l : Forall (λ f, f ≠ "") (fields_from cur l).
Proof.
  revert cur. induction l as [|[r b] l IH]; intros cur; cbn.
  - case_decide; by repeat constructor.
  - repeat case_match; auto.
Qed.

Lemma fields_ne s : Forall (λ f, f ≠ "") (fields s).
Proof. apply fields_from_ne. Qed.

(** ** [strconv.Itoa] and [strconv.Atoi] *)

Definition Itoa (z : Z) : string := NilZero.string_of_int (Z.to_int z).

Definition int_range (z : Z) : Prop := (- 2 ^ 63 ≤ z < 2 ^ 63)%Z.

#[export] Instance int_range_dec z : Decision (int_range z).
Proof. unfold int_range. apply _. Defined.

(** An optional sign and decimal digits, in the range of an [int] (64 bits). *)
Definition Atoi (s : string) : option Z :=
  let parsed :=
    match s with
    | String "+" digits => Decimal.Pos <$> NilZero.uint_of_string digits
    | _ => NilZero.int_of_string s
    end in
  d ← parsed; if decide (int_range (Z.of_int d)) then Some (Z.of_int d) else None.

Lemma Itoa_ne z : Itoa z ≠ "".
Proof. unfold Itoa. destruct (Z.to_int z) as [d|d]; [|done]. by destruct d. Qed.

Lemma Atoi_Itoa z : int_range z → Atoi (Itoa z) = Some z.
Proof.
  intros Hz. unfold Atoi.
  assert (NilZero.int_of_string (Itoa z) = Some (Z.to_int z)) as E.
  { unfold Itoa. apply NilZero.isi; intros H; apply (f_equal Z.of_int) in H as H'; rewrite DecimalZ.of_to in H';
      cbn in H'; subst z; cbn in H; discriminate. }
  assert (∀ digits, Itoa z ≠ String "+" digits) as Hplus.
  { intros digits. unfold Itoa. destruct (Z.to_int z) as [d|d]; [|done]. by destruct d. }
  destruct (Itoa z) as [|a t] eqn:Ht; [by apply Itoa_ne in Ht|].
  destruct (decide (a = "+"%char)) as [->|Ha]; [by destruct (Hplus t)|].
  assert (∀ X Y : option Decimal.signed_int, match a with "+"%char => X | _ => Y end = Y) as Hm.
  { clear -Ha. intros X Y. destruct a as [[] [] [] [] [] [] [] []]; done. }
  rewrite Hm, E. cbn. rewrite DecimalZ.of_to. by rewrite decide_True.
Qed.
