(* ===== verification/Metrics.v ===== *)
(** * [metrics/metrics.go]: what the daemon reports

    The gauges and counters of the prometheus client are numbers by their labels; the
    registry of metrics that are exposed is what [init] puts into it. *)

From Stdlib Require Import ZArith Lia.
From stdpp Require Import base list gmap strings.
From S2P Require Import Prelude GoStrings.

Inductive metric :=
| leaderGauge | engineTaskCount | engineTaskFailureCount | engineReconcileCount | engineReconcileDuration
| engineReconcileFailureCount | registryOpCount | registryOpDuration | registryOpFailureCount.

#[export] Instance metric_eq_dec : EqDecision metric.
Proof. solve_decision. Defined.

(** The metrics that [init] registers, and that the handler of [/metrics] shows. *)
Definition registered : list metric :=
  [leaderGauge; engineTaskCount; engineTaskFailureCount; engineReconcileCount; engineReconcileFailureCount].

(** The values: the gauge of the leader (in seconds), the counters by their labels, the
    observations of durations (in nanoseconds) by their labels. *)
Record metrics := mkMetrics {
  mt_leader : Z; mt_tasks : gmap string nat; mt_task_failures : gmap string nat; mt_reconciles : nat;
  mt_reconcile_durations : list Z; mt_reconcile_failures : gmap string nat; mt_ops : gmap string nat;
  mt_op_durations : gmap string (list Z); mt_op_failures : gmap string nat
}.

Definition no_metrics : metrics := mkMetrics 0 ∅ ∅ 0 [] ∅ ∅ ∅ ∅.

(** [WithLabelValues(label).Inc()]. *)
Definition inc (label : string) (m : gmap string nat) : gmap string nat := <[label := S (default 0 (m !! label))]> m.

Definition observe (label : string) (v : Z) (m : gmap string (list Z)) : gmap string (list Z) :=
  <[label := default [] (m !! label) ++ [v]]> m.

(** [ReportEngineLeader]: [leaderGauge.Add]. *)
Definition ReportEngineLeader (epoch : Z) (m : metrics) : metrics :=
  mkMetrics (m.(mt_leader) + epoch) m.(mt_tasks) m.(mt_task_failures) m.(mt_reconciles) m.(mt_reconcile_durations)
    m.(mt_reconcile_failures) m.(mt_ops) m.(mt_op_durations) m.(mt_op_failures).

Definition ReportEngineTask (task : string) (m : metrics) : metrics :=
  mkMetrics m.(mt_leader) (inc (to_lower task) m.(mt_tasks)) m.(mt_task_failures) m.(mt_reconciles) m.(mt_reconcile_durations)
    m.(mt_reconcile_failures) m.(mt_ops) m.(mt_op_durations) m.(mt_op_failures).

Definition ReportEngineTaskFailure (task : string) (m : metrics) : metrics :=
  mkMetrics m.(mt_leader) m.(mt_tasks) (inc (to_lower task) m.(mt_task_failures)) m.(mt_reconciles) m.(mt_reconcile_durations)
    m.(mt_reconcile_failures) m.(mt_ops) m.(mt_op_durations) m.(mt_op_failures).

Definition ReportEngineReconcileSuccess (elapsed : Z) (m : metrics) : metrics :=
  mkMetrics m.(mt_leader) m.(mt_tasks) m.(mt_task_failures) (S m.(mt_reconciles)) (m.(mt_reconcile_durations) ++ [elapsed])
    m.(mt_reconcile_failures) m.(mt_ops) m.(mt_op_durations) m.(mt_op_failures).

Definition ReportEngineReconcileFailure (reason : string) (m : metrics) : metrics :=
  mkMetrics m.(mt_leader) m.(mt_tasks) m.(mt_task_failures) m.(mt_reconciles) m.(mt_reconcile_durations)
    (inc reason m.(mt_reconcile_failures)) m.(mt_ops) m.(mt_op_durations) m.(mt_op_failures).

Definition ReportRegistryOpSuccess (op : string) (elapsed : Z) (m : metrics) : metrics :=
  mkMetrics m.(mt_leader) m.(mt_tasks) m.(mt_task_failures) m.(mt_reconciles) m.(mt_reconcile_durations)
    m.(mt_reconcile_failures) (inc op m.(mt_ops)) (observe op elapsed m.(mt_op_durations)) m.(mt_op_failures).

Definition ReportRegistryOpFailure (op : string) (m : metrics) : metrics :=
  mkMetrics m.(mt_leader) m.(mt_tasks) m.(mt_task_failures) m.(mt_reconciles) m.(mt_reconcile_durations)
    m.(mt_reconcile_failures) m.(mt_ops) m.(mt_op_durations) (inc op m.(mt_op_failures)).

(** The reports, as a sequence. *)
Inductive report :=
| EngineLeader (epoch : Z) | EngineTask (task : string) | EngineTaskFailure (task : string) | EngineReconcileSuccess (elapsed : Z)
| EngineReconcileFailure (reason : string) | RegistryOpSuccess (op : string) (elapsed : Z) | RegistryOpFailure (op : string).

Definition do_report (m : metrics) (r : report) : metrics :=
  match r with
  | EngineLeader epoch => ReportEngineLeader epoch m
  | EngineTask task => ReportEngineTask task m
  | EngineTaskFailure task => ReportEngineTaskFailure task m
  | EngineReconcileSuccess elapsed => ReportEngineReconcileSuccess elapsed m
  | EngineReconcileFailure reason => ReportEngineReconcileFailure reason m
  | RegistryOpSuccess op elapsed => ReportRegistryOpSuccess op elapsed m
  | RegistryOpFailure op => ReportRegistryOpFailure op m
  end.

Definition reported (l : list report) : metrics := foldl do_report no_metrics l.

(** ** What they count *)

Definition leader_times (l : list report) : list Z := omap (λ r, match r with EngineLeader t => Some t | _ => None end) l.

Lemma inc_lookup l k m : default 0 (inc l m !! k) = (if decide (l = k) then 1 else 0) + default 0 (m !! k).
Proof.
  unfold inc. case_decide as E; [subst; by rewrite lookup_insert_eq|by rewrite lookup_insert_ne].
Qed.

(** The number of tasks of a type, which is not case-sensitive, among the reports. *)
Definition is_task (task : string) (r : report) : Prop := match r with EngineTask t => to_lower t = to_lower task | _ => False end.

#[export] Instance is_task_dec task r : Decision (is_task task r).
Proof. destruct r; cbn; apply _. Defined.

Lemma reported_from l : ∀ m, mt_leader (foldl do_report m l) = (mt_leader m + foldr Z.add 0 (leader_times l))%Z ∧
  ∀ task, default 0 (mt_tasks (foldl do_report m l) !! to_lower task) =
          default 0 (mt_tasks m !! to_lower task) + length (filter (is_task task) l).
Proof.
  induction l as [|r l IH]; intros m; cbn [foldl].
  - split; [cbn; lia|]. intros task. cbn. lia.
  - destruct (IH (do_report m r)) as [H1 H2]. split.
    + rewrite H1. unfold leader_times. destruct r; cbn; lia.
    + intros task. rewrite H2, filter_cons. destruct r; cbn [do_report ReportEngineLeader ReportEngineTask ReportEngineTaskFailure
        ReportEngineReconcileSuccess ReportEngineReconcileFailure ReportRegistryOpSuccess ReportRegistryOpFailure mt_tasks];
        try (rewrite decide_False by tauto; done).
      rewrite inc_lookup. cbn [is_task]. repeat case_decide; cbn [length]; try lia; congruence.
Qed.

Lemma sum_perm l1 l2 : l1 ≡ₚ l2 → foldr Z.add 0%Z l1 = foldr Z.add 0%Z l2.
Proof. induction 1; cbn; lia. Qed.

(** The counter of a task is the number of its reports; the gauge of the leader is the
    time of the report after the first election, but after any later one it is the sum of
    the times, and not the time since which the engine leads. *)
Theorem metrics_count l :
  (∀ task, default 0 (mt_tasks (reported l) !! to_lower task) = length (filter (is_task task) l)) ∧
  (∀ t, leader_times l = [t] → mt_leader (reported l) = t) ∧
  (2 ≤ length (leader_times l) → Forall (λ t, 0 < t)%Z (leader_times l) → ∀ t, t ∈ leader_times l → (t < mt_leader (reported l))%Z).
Proof.
  destruct (reported_from l no_metrics) as [H1 H2]. unfold reported. split_and!.
  - intros task. by rewrite H2.
  - intros t Ht. rewrite H1, Ht. cbn. lia.
  - rewrite H1. cbn [mt_leader no_metrics]. intros Hlen Hpos t Ht.
    assert (Hsum : ∀ ts, Forall (λ t, 0 < t)%Z ts → (0 ≤ foldr Z.add 0 ts)%Z ∧ (1 ≤ length ts → (0 < foldr Z.add 0 ts)%Z)).
    { induction 1 as [|x ts Hx _ [IH _]]; cbn; lia. }
    apply elem_of_Permutation in Ht as [ts Hts]. rewrite Hts in Hpos, Hlen. cbn in Hlen.
    apply Forall_cons in Hpos as [Ht Hpos]. destruct (Hsum ts Hpos) as [_ Hs].
    assert (Hperm : foldr Z.add 0%Z (leader_times l) = foldr Z.add 0%Z (t :: ts)).
    { by apply sum_perm. }
    rewrite Hperm. cbn. lia.
Qed.

(** The durations and all that is reported of the registry are never shown. *)
Theorem metrics_hidden :
  filter (λ m, m ∉ registered) [leaderGauge; engineTaskCount; engineTaskFailureCount; engineReconcileCount;
    engineReconcileDuration; engineReconcileFailureCount; registryOpCount; registryOpDuration; registryOpFailureCount] =
  [engineReconcileDuration; registryOpCount; registryOpDuration; registryOpFailureCount].
Proof. vm_compute. reflexivity. Qed.
