(* ===== verification/GoPath.v ===== *)
(** * Package [path]: [path.Match]

    Glob matching as Go's [path.Match] does it (with [scanChunk], [matchChunk]
    and [getEsc]): the pattern is cut into chunks, each a possibly empty run of
    stars followed by star-free text, and each chunk is matched at the leftmost
    position the star allows.  [None] is [path.ErrBadPattern]. *)

From stdpp Require Import base list gmap strings.
From Stdlib Require Import Ascii NArith.
From S2P Require Import Prelude GoStrings.

(** The leading stars of a pattern: whether there is one, and the rest. *)
Fixpoint strip_stars (p : string) : bool * string :=
  match p with
  | String "*" p => (true, (strip_stars p).2)
  | _ => (false, p)
  end.

(** The text up to the next star that is not inside brackets, and the rest. *)
Fixpoint scan_text (inrange : bool) (p : string) : string * string :=
  match p with
  | "" => ("", "")
  | String c p' =>
      if decide (c = "\"%char) then
        match p' with
        | "" => (p, "")
        | String d p'' =>
            let '(chunk, rest) := scan_text inrange p'' in (String c (String d chunk), rest)
        end
      else if decide (c = "*"%char) then
        if inrange
        then let '(chunk, rest) := scan_text inrange p' in (String c chunk, rest)
        else ("", p)
      else
        let inrange' :=
          if decide (c = "["%char) then true
          else if decide (c = "]"%char) then false else inrange in
        let '(chunk, rest) := scan_text inrange' p' in (String c chunk, rest)
  end.

Definition scan_chunk (p : string) : bool * string * string :=
  let '(star, p) := strip_stars p in
  let '(chunk, rest) := scan_text false p in
  (star, chunk, rest).

(** [getEsc]: one possibly escaped rune of a character class. *)
Definition get_esc (chunk : string) : option (N * string) :=
  let rune (chunk : string) : option (N * string) :=
    let '(r, n) := decode_rune chunk in
    if bool_decide (r = RuneError) && bool_decide (n = 1) then None
    else match str_drop n chunk with
         | "" => None
         | rest => Some (r, rest)
         end in
  match chunk with
  | "" => None
  | String "-" _ => None
  | String "]" _ => None
  | String "\" chunk' => match chunk' with "" => None | _ => rune chunk' end
  | _ => rune chunk
  end.

(** The ranges of a character class, up to its closing bracket: whether the
    rune [r] is in one of them, and the text after the bracket.  Every round
    consumes text, so the length of [chunk] is enough fuel. *)
Fixpoint match_ranges (fuel : nat) (r : N) (seen matched : bool) (chunk : string)
  : option (bool * string) :=
  match fuel with
  | O => None
  | S fuel =>
      let next :=
        match get_esc chunk with
        | None => None
        | Some (lo, chunk') =>
            match chunk' with
            | String "-" chunk'' =>
                match get_esc chunk'' with
                | None => None
                | Some (hi, chunk''') =>
                    match_ranges fuel r true (matched || between lo hi r) chunk'''
                end
            | _ => match_ranges fuel r true (matched || between lo lo r) chunk'
            end
        end in
      match chunk with
      | String "]" rest => if seen then Some (matched, rest) else next
      | _ => next
      end
  end.

Inductive chunk_result :=
| ChunkBad                     (** [ErrBadPattern] *)
| ChunkNo                      (** no match *)
| ChunkRest (rest : string).   (** a match that leaves [rest] *)

(** [matchChunk] *)
Fixpoint match_chunk (fuel : nat) (chunk s : string) : chunk_result :=
  match chunk with
  | "" => ChunkRest s
  | String c chunk' =>
      match fuel, s with
      | O, _ => ChunkNo
      | _, "" => ChunkNo
      | S fuel, String b s' =>
          let literal (c : ascii) (chunk' : string) :=
            if decide (c = b) then match_chunk fuel chunk' s' else ChunkNo in
          if decide (c = "["%char) then
            let '(r, n) := decode_rune s in
            match chunk' with
            | "" => ChunkBad
            | String d chunk'' =>
                let negated := bool_decide (d = "^"%char) in
                let body := if negated then chunk'' else chunk' in
                match match_ranges (S (String.length body)) r false false body with
                | None => ChunkBad
                | Some (m, rest) =>
                    if bool_decide (m = negated) then ChunkNo
                    else match_chunk fuel rest (str_drop n s)
                end
            end
          else if decide (c = "?"%char) then
            if decide (b = "/"%char) then ChunkNo
            else match_chunk fuel chunk' (str_drop (decode_rune s).2 s)
          else if decide (c = "\"%char) then
            match chunk' with
            | "" => ChunkBad
            | String d chunk'' => literal d chunk''
            end
          else literal c chunk'
      end
  end.

(** The loop that looks for a chunk after a star, skipping one byte at a time
    but never a slash.  [final] says that the chunk is the last one, which must
    then use up the name.  [None] is a bad pattern, [Some None] no match. *)
Fixpoint skip_match (chunk : string) (final : bool) (name : string) : option (option string) :=
  match name with
  | "" => Some None
  | String b name' =>
      if decide (b = "/"%char) then Some None
      else match match_chunk (String.length chunk) chunk name' with
           | ChunkBad => None
           | ChunkNo => skip_match chunk final name'
           | ChunkRest t =>
               if final && negb (bool_decide (t = "")) then skip_match chunk final name'
               else Some (Some t)
           end
  end.

Fixpoint path_match_fuel (fuel : nat) (pattern name : string) : option bool :=
  match pattern with
  | "" => Some (bool_decide (name = ""))
  | _ =>
      match fuel with
      | O => Some false
      | S fuel =>
          let '(star, chunk, rest) := scan_chunk pattern in
          if star && bool_decide (chunk = "") then Some (negb (has_byte "/" name))
          else
            let skip :=
              if star then
                match skip_match chunk (bool_decide (rest = "")) name with
                | None => None
                | Some None => Some false
                | Some (Some t) => path_match_fuel fuel rest t
                end
              else Some false in
            match match_chunk (String.length chunk) chunk name with
            | ChunkRest t =>
                if bool_decide (t = "") || negb (bool_decide (rest = ""))
                then path_match_fuel fuel rest t
                else skip
            | ChunkBad => None
            | ChunkNo => skip
            end
      end
  end.

(** [path.Match(pattern, name)] *)
Definition path_match (pattern name : string) : option bool :=
  path_match_fuel (String.length pattern) pattern name.

(** ** The fuel is enough *)

Lemma strip_stars_length p : String.length (strip_stars p).2 ≤ String.length p.
Proof.
  induction p as [|c p IH]; [done|]. cbn.
  repeat case_match; cbn in *; subst; lia.
Qed.

Lemma scan_text_app inrange p :
  (scan_text inrange p).1 +:+ (scan_text inrange p).2 = p.
Proof.
  revert inrange. induction p as [p IH] using (induction_ltof1 _ String.length).
  unfold ltof in IH. intros inrange. destruct p as [|c p]; [done|]. cbn [scan_text].
  repeat case_decide; subst; try done.
  - destruct p as [|d p]; [done|]. specialize (IH p ltac:(cbn; lia) inrange).
    destruct (scan_text inrange p); cbn in *. by rewrite !str_app_cons, IH.
  - destruct inrange; [|done]. specialize (IH p ltac:(cbn; lia) true).
    destruct (scan_text true p); cbn in *. by rewrite !str_app_cons, IH.
  - specialize (IH p ltac:(cbn; lia) true).
    destruct (scan_text true p); cbn in *. by rewrite !str_app_cons, IH.
  - specialize (IH p ltac:(cbn; lia) false).
    destruct (scan_text false p); cbn in *. by rewrite !str_app_cons, IH.
  - specialize (IH p ltac:(cbn; lia) inrange).
    destruct (scan_text inrange p); cbn in *. by rewrite !str_app_cons, IH.
Qed.

(** A chunk that does not begin with a star is not empty. *)
Lemma scan_text_ne c p : c ≠ "*"%char → (scan_text false (String c p)).1 ≠ "".
Proof.
  intros Hc. cbn. rewrite (decide_False (P := c = "*"%char)) by done.
  repeat case_match; cbn; done.
Qed.

Lemma strip_stars_no c p : (strip_stars p).2 ≠ String "*" c.
Proof.
  induction p as [|b p IH]; [done|]. cbn. repeat case_match; cbn in *; congruence.
Qed.

Lemma strip_stars_true p : (strip_stars p).1 = true →
  String.length (strip_stars p).2 < String.length p.
Proof.
  destruct p as [|c p]; [done|]. cbn.
  repeat case_match; cbn; try done. intros _.
  pose proof (strip_stars_length p). lia.
Qed.

Lemma strip_stars_false p : (strip_stars p).1 = false → (strip_stars p).2 = p.
Proof. destruct p as [|c p]; [done|]. cbn. repeat case_match; cbn; congruence. Qed.

(** Each round of [path.Match] consumes part of the pattern. *)
Lemma scan_chunk_decreases p star chunk rest :
  p ≠ "" → scan_chunk p = (star, chunk, rest) → String.length rest < String.length p.
Proof.
  intros Hp. unfold scan_chunk. destruct (strip_stars p) as [s q] eqn:Eq.
  destruct (scan_text false q) as [ch r] eqn:Et. intros [= <- <- <-].
  pose proof (scan_text_app false q) as Happ. rewrite Et in Happ. cbn in Happ.
  apply (f_equal String.length) in Happ. rewrite str_length_app in Happ.
  destruct s.
  - pose proof (strip_stars_true p) as H. rewrite Eq in H. cbn in H. specialize (H eq_refl). lia.
  - pose proof (strip_stars_false p) as H. rewrite Eq in H. cbn in H. specialize (H eq_refl).
    subst q. destruct p as [|c p]; [done|].
    destruct (decide (c = "*"%char)) as [->|Hc]; [by cbn in Eq|].
    pose proof (scan_text_ne c p Hc) as Hne. rewrite Et in Hne. cbn in Hne.
    destruct ch; [done|]. cbn in *. lia.
Qed.

Lemma path_match_fuel_mono fuel1 fuel2 p name :
  String.length p ≤ fuel1 → String.length p ≤ fuel2 →
  path_match_fuel fuel1 p name = path_match_fuel fuel2 p name.
Proof.
  revert fuel2 p name. induction fuel1 as [|fuel1 IH]; intros fuel2 p name H1 H2.
  - destruct p; [by destruct fuel2|]. cbn in *. lia.
  - destruct fuel2 as [|fuel2]; [destruct p; [done|]; cbn in *; lia|].
    destruct p as [|c p]; [done|]. cbn [path_match_fuel].
    destruct (scan_chunk (String c p)) as [[star chunk] rest] eqn:E.
    apply scan_chunk_decreases in E; [|done].
    assert (∀ t, path_match_fuel fuel1 rest t = path_match_fuel fuel2 rest t) as Hr.
    { intros t. apply IH; cbn in *; lia. }
    destruct (star && bool_decide (chunk = "")); [done|].
    destruct (match_chunk (String.length chunk) chunk name); rewrite ?Hr; [done| |];
      repeat case_match; congruence.
Qed.

(** [path.Match] does not depend on the bound on the number of rounds. *)
Lemma path_match_fuel_enough fuel p name :
  String.length p ≤ fuel → path_match_fuel fuel p name = path_match p name.
Proof. intros. by apply path_match_fuel_mono. Qed.

Lemma get_esc_decreases chunk r rest :
  get_esc chunk = Some (r, rest) → String.length rest < String.length chunk.
Proof.
  assert (∀ c : string, c ≠ "" →
    (let '(r, n) := decode_rune c in
     if bool_decide (r = RuneError) && bool_decide (n = 1) then None
     else match str_drop n c with "" => None | rest => Some (r, rest) end) = Some (r, rest) →
    String.length rest < String.length c) as Hrune.
  { intros c Hc. pose proof (decode_rune_width c Hc) as Hw.
    destruct (decode_rune c) as [r' n]. cbn [snd] in Hw.
    destruct (bool_decide (r' = RuneError) && bool_decide (n = 1)); [done|].
    destruct (str_drop n c) eqn:E; [done|]. intros [= <- <-].
    rewrite <- E, str_length_drop. destruct c; cbn; [done|lia]. }
  destruct chunk as [|a chunk]; [done|]. cbn [get_esc].
  destruct (decide (a = "\"%char)) as [->|Ha].
  - destruct chunk as [|b chunk]; [done|]. intros H%Hrune; [|done]. cbn in *. lia.
  - intros H. assert (Hr := Hrune (String a chunk) ltac:(done)). apply Hr.
    destruct a as [[] [] [] [] [] [] [] []]; solve [done | by destruct Ha].
Qed.

Lemma match_ranges_decreases fuel r seen m chunk m' rest :
  match_ranges fuel r seen m chunk = Some (m', rest) →
  String.length rest < String.length chunk.
Proof.
  revert seen m chunk. induction fuel as [|fuel IH]; intros seen m chunk; [done|].
  cbn [match_ranges].
  set (next := match get_esc chunk with None => None | _ => _ end).
  assert (next = Some (m', rest) → String.length rest < String.length chunk) as Hnext.
  { unfold next. destruct (get_esc chunk) as [[lo c1]|] eqn:E1; [|done].
    apply get_esc_decreases in E1. intros H.
    destruct c1 as [|a c1]; [apply IH in H; lia|].
    destruct (decide (a = "-"%char)) as [->|Ha].
    - destruct (get_esc c1) as [[hi c2]|] eqn:E2; [|done].
      apply get_esc_decreases in E2. apply IH in H. cbn in *. lia.
    - assert (match_ranges fuel r true (m || between lo lo r) (String a c1) = Some (m', rest)) as H'.
      { destruct a as [[] [] [] [] [] [] [] []]; solve [done | by destruct Ha]. }
      apply IH in H'. lia. }
  destruct chunk as [|a chunk]; [done|].
  destruct (decide (a = "]"%char)) as [->|Ha].
  - destruct seen; [|done]. intros [= _ <-]. cbn. lia.
  - intros H. apply Hnext. destruct a as [[] [] [] [] [] [] [] []]; solve [done | by destruct Ha].
Qed.

(** [matchChunk] does not depend on the bound on its number of rounds. *)
Lemma match_chunk_fuel_mono fuel1 fuel2 chunk s :
  String.length chunk ≤ fuel1 → String.length chunk ≤ fuel2 →
  match_chunk fuel1 chunk s = match_chunk fuel2 chunk s.
Proof.
  revert fuel2 chunk s. induction fuel1 as [|fuel1 IH]; intros fuel2 chunk s H1 H2.
  - destruct chunk; [by destruct fuel2|]. cbn in *. lia.
  - destruct chunk as [|c chunk]; [by destruct fuel2|].
    destruct fuel2 as [|fuel2]; [cbn in *; lia|]. cbn in H1, H2.
    destruct s as [|b s]; [done|]. cbn [match_chunk].
    destruct (decode_rune (String b s)) as [r n]. cbn [snd].
    repeat case_decide; try done; try (apply IH; lia).
    + destruct chunk as [|d chunk]; [done|].
      set (body := if bool_decide _ then chunk else String d chunk).
      assert (String.length body ≤ S (String.length chunk)) by (unfold body; case_match; cbn; lia).
      destruct (match_ranges _ _ _ _ _) as [[m rest]|] eqn:E; [|done].
      apply match_ranges_decreases in E. destruct (bool_decide (m = _)); [done|].
      apply IH; cbn in *; lia.
    + destruct chunk as [|d chunk]; [done|]. case_decide; [|done]. apply IH; cbn in *; lia.
Qed.

Lemma match_ranges_fuel_mono fuel1 fuel2 r seen m chunk :
  String.length chunk < fuel1 → String.length chunk < fuel2 →
  match_ranges fuel1 r seen m chunk = match_ranges fuel2 r seen m chunk.
Proof.
  revert fuel2 seen m chunk. induction fuel1 as [|fuel1 IH]; intros fuel2 seen m chunk H1 H2; [lia|].
  destruct fuel2 as [|fuel2]; [lia|]. cbn [match_ranges].
  assert (∀ m c, String.length c < String.length chunk →
    match_ranges fuel1 r true m c = match_ranges fuel2 r true m c) as Hr.
  { intros m' c Hc. apply IH; lia. }
  destruct (get_esc chunk) as [[lo c1]|] eqn:E1; [|done].
  apply get_esc_decreases in E1.
  assert (match c1 with
    | String "-" c2 => match get_esc c2 with
      | None => None
      | Some (hi, c3) => match_ranges fuel1 r true (m || between lo hi r) c3 end
    | _ => match_ranges fuel1 r true (m || between lo lo r) c1 end =
    match c1 with
    | String "-" c2 => match get_esc c2 with
      | None => None
      | Some (hi, c3) => match_ranges fuel2 r true (m || between lo hi r) c3 end
    | _ => match_ranges fuel2 r true (m || between lo lo r) c1 end) as ->; [|done].
  destruct c1 as [|a c1]; [by apply Hr|].
  destruct (decide (a = "-"%char)) as [->|Ha].
  - destruct (get_esc c1) as [[hi c2]|] eqn:E2; [|done].
    apply get_esc_decreases in E2. apply Hr. cbn in *. lia.
  - assert (match_ranges fuel1 r true (m || between lo lo r) (String a c1) =
            match_ranges fuel2 r true (m || between lo lo r) (String a c1)) as Heq by by apply Hr.
    destruct a as [[] [] [] [] [] [] [] []]; solve [done | by destruct Ha].
Qed.

(** ** Patterns without special characters, and with a final star *)

Definition plain_char (c : ascii) : bool :=
  negb (bool_decide (c = "*"%char) || bool_decide (c = "?"%char) ||
        bool_decide (c = "["%char) || bool_decide (c = "\"%char)).

Fixpoint plain (s : string) : bool :=
  match s with "" => true | String c s => plain_char c && plain s end.

Lemma plain_char_spec c :
  plain_char c = true → c ≠ "*"%char ∧ c ≠ "?"%char ∧ c ≠ "["%char ∧ c ≠ "\"%char.
Proof. unfold plain_char. rewrite negb_true_iff, !orb_false_iff, !bool_decide_eq_false. tauto. Qed.

(** Plain text is a chunk by itself, up to the end or the next star. *)
Lemma scan_text_plain s rest :
  plain s = true → (rest = "" ∨ ∃ r, rest = String "*" r) → scan_text false (s +:+ rest) = (s, rest).
Proof.
  intros Hs Hr. induction s as [|c s IH].
  { destruct Hr as [->|[r ->]]; done. }
  cbn in Hs. apply andb_true_iff in Hs as [Hc Hs]. apply plain_char_spec in Hc as (? & ? & ? & ?).
  rewrite str_app_cons. cbn [scan_text]. rewrite !(decide_False (P := c = _)) by done.
  assert ((if decide (c = "]"%char) then false else false) = false) as -> by by case_decide.
  by rewrite IH.
Qed.

Lemma match_chunk_plain fuel s name :
  plain s = true → String.length s ≤ fuel →
  match_chunk fuel s name = if has_prefix s name then ChunkRest (str_drop (String.length s) name) else ChunkNo.
Proof.
  revert fuel name. induction s as [|c s IH]; intros fuel name Hs Hf.
  { destruct fuel; cbn; by destruct name. }
  cbn in Hs. apply andb_true_iff in Hs as [Hc Hs]. apply plain_char_spec in Hc as (? & ? & ? & ?).
  destruct fuel as [|fuel]; [cbn in Hf; lia|]. destruct name as [|b name]; [done|].
  cbn [match_chunk has_prefix]. rewrite !(decide_False (P := c = "["%char)), (decide_False (P := c = "?"%char)),
    (decide_False (P := c = "\"%char)) by done.
  destruct (decide (c = b)) as [->|Hne].
  - rewrite bool_decide_eq_true_2 by done. cbn [andb String.length str_drop]. apply IH; [done|]. cbn in Hf. lia.
  - by rewrite bool_decide_eq_false_2.
Qed.

Lemma strip_stars_plain s rest : plain s = true → s ≠ "" → strip_stars (s +:+ rest) = (false, s +:+ rest).
Proof.
  destruct s as [|c s]; [done|]. cbn [plain]. intros [Hc _]%andb_true_iff _.
  apply plain_char_spec in Hc as (Hstar & _). rewrite str_app_cons. cbn.
  repeat case_match; subst; done.
Qed.

Lemma path_match_fuel_nil n t : path_match_fuel n "" t = Some (bool_decide (t = "")).
Proof. by destruct n. Qed.

(** A pattern without special characters matches itself only. *)
Lemma path_match_plain p name : plain p = true → path_match p name = Some (bool_decide (p = name)).
Proof.
  intros Hp. unfold path_match. destruct p as [|c p]; [cbn; by destruct name|]. remember (String c p) as q eqn:Hq.
  destruct (String.length q) as [|n] eqn:Hn; [by rewrite Hq in Hn|].
  assert (scan_chunk q = (false, q, "")) as Hscan.
  { pose proof (strip_stars_plain q "" Hp ltac:(subst q; discriminate)) as H1.
    pose proof (scan_text_plain q "" Hp (or_introl eq_refl)) as H2. rewrite str_app_nil_r in H1, H2.
    unfold scan_chunk. by rewrite H1, H2. }
  rewrite Hq at 1. cbn [path_match_fuel]. rewrite <- Hq, Hscan. cbn [andb].
  rewrite match_chunk_plain by (done || lia). destruct (has_prefix q name) eqn:Hpre.
  - apply has_prefix_spec in Hpre as [t ->]. rewrite str_drop_app. destruct (decide (t = "")) as [->|Ht].
    + cbn [bool_decide orb]. rewrite path_match_fuel_nil, str_app_nil_r. by rewrite !bool_decide_eq_true_2.
    + rewrite (bool_decide_eq_false_2 (t = "")), (bool_decide_eq_true_2 ("" = "")) by done.
      cbn [orb negb]. rewrite bool_decide_eq_false_2; [done|].
      intros E. apply (f_equal String.length) in E. rewrite str_length_app in E. destruct t; [done|]. cbn in E. lia.
  - rewrite bool_decide_eq_false_2; [done|]. intros <-. 
    assert (has_prefix q q = true); [|congruence]. apply has_prefix_spec. exists "". by rewrite str_app_nil_r.
Qed.

(** A final star stands for any text without a slash. *)
Lemma path_match_prefix_star p name :
  plain p = true → p ≠ "" →
  path_match (p +:+ "*") name =
  Some (has_prefix p name && negb (has_byte "/" (str_drop (String.length p) name))).
Proof.
  intros Hp Hne. unfold path_match. rewrite str_length_app. cbn [String.length]. rewrite Nat.add_1_r.
  destruct p as [|c p]; [done|]. remember (String c p) as q eqn:Hq.
  assert (scan_chunk (q +:+ "*") = (false, q, "*")) as Hscan.
  { unfold scan_chunk. rewrite strip_stars_plain by done. rewrite scan_text_plain; [done|done|]. right. by eexists. }
  rewrite Hq at 2. rewrite str_app_cons. cbn [path_match_fuel]. rewrite <- str_app_cons, <- Hq, Hscan. cbn [andb].
  rewrite match_chunk_plain by (done || lia). destruct (has_prefix q name) eqn:Hpre; [|done].
  rewrite orb_true_r. rewrite Hq. cbn [String.length path_match_fuel]. done.
Qed.

(** ** [path.Clean], [path.Join], [path.Base], [path.Split] *)

(** The elements of a path, with [""] and ["."] dropped and [".."] resolved;
    [stack] is in reverse order. *)
Fixpoint clean_elements (rooted : bool) (stack elems : list string) : list string :=
  match elems with
  | [] => reverse stack
  | e :: elems =>
      if bool_decide (e = "") || bool_decide (e = ".") then clean_elements rooted stack elems
      else if bool_decide (e = "..") then
        match stack with
        | top :: stack' =>
            if bool_decide (top = "..") then clean_elements rooted (e :: stack) elems
            else clean_elements rooted stack' elems
        | [] => if rooted then clean_elements rooted [] elems else clean_elements rooted [e] elems
        end
      else clean_elements rooted (e :: stack) elems
  end.

Definition path_clean (p : string) : string :=
  let rooted := has_prefix "/" p in
  let s := join_byte "/" (clean_elements rooted [] (split_byte "/" p)) in
  if rooted then "/" +:+ s else if bool_decide (s = "") then "." else s.

(** Empty elements are skipped; joining only empty elements gives [""]. *)
Definition path_join (elems : list string) : string :=
  match filter (λ e, e ≠ "") elems with
  | [] => ""
  | elems => path_clean (join_byte "/" elems)
  end.

(** What follows the last slash. *)
Definition path_split_file (p : string) : string :=
  match last_index_byte "/" p with Some i => str_drop (S i) p | None => p end.

Definition path_base (p : string) : string :=
  if bool_decide (p = "") then "."
  else
    let p := trim_right p "/" in
    if bool_decide (p = "") then "/" else path_split_file p.

(** The cleaned path up to the last slash. *)
Definition path_dir (p : string) : string :=
  path_clean (match last_index_byte "/" p with Some i => str_take (S i) p | None => "" end).

(** ** Paths as lists of elements *)

Definition path_elems (p : string) : list string := filter (λ e, e ≠ "") (split_byte "/" p).

(** An element that [path.Clean] keeps as it is. *)
Definition good_elem (e : string) : Prop := e ≠ "" ∧ e ≠ "." ∧ e ≠ ".." ∧ has_byte "/" e = false.

#[export] Instance good_elem_dec e : Decision (good_elem e).
Proof. unfold good_elem. apply _. Defined.

Definition key_of (l : list string) : string := "/" +:+ join_byte "/" l.

Lemma split_byte_app_sep c s1 s2 : split_byte c (s1 +:+ String c s2) = split_byte c s1 ++ split_byte c s2.
Proof.
  induction s1 as [|a s1 IH].
  - rewrite str_app_nil_l. cbn. by rewrite decide_True.
  - rewrite str_app_cons. cbn. rewrite IH. case_decide; [done|].
    destruct (split_byte c s1) eqn:E; [by apply split_byte_ne in E|done].
Qed.

Lemma path_elems_sep s1 s2 : path_elems (s1 +:+ String "/" s2) = path_elems s1 ++ path_elems s2.
Proof. unfold path_elems. by rewrite split_byte_app_sep, filter_app. Qed.

Lemma path_elems_join l : path_elems (join_byte "/" l) = concat (path_elems <$> l).
Proof.
  induction l as [|h [|h' t] IH]; [done|cbn; by rewrite app_nil_r|].
  change (join_byte "/" (h :: h' :: t)) with (h +:+ String "/" (join_byte "/" (h' :: t))).
  by rewrite path_elems_sep, IH.
Qed.

Lemma path_elems_good e : good_elem e → path_elems e = [e].
Proof.
  intros (Hne & _ & _ & Hs). unfold path_elems. rewrite split_byte_no by done.
  by rewrite filter_cons_True.
Qed.

Lemma concat_path_elems l : Forall good_elem l → concat (path_elems <$> l) = l.
Proof. induction 1 as [|e l He _ IH]; [done|]. cbn. by rewrite path_elems_good, IH. Qed.

Lemma path_elems_key l : Forall good_elem l → path_elems (key_of l) = l.
Proof.
  intros Hl. change (key_of l) with ("" +:+ String "/" (join_byte "/" l)).
  rewrite path_elems_sep, path_elems_join.
  by rewrite concat_path_elems.
Qed.

Lemma key_of_inj l l' : Forall good_elem l → Forall good_elem l' → key_of l = key_of l' → l = l'.
Proof. intros H1 H2 E. by rewrite <- (path_elems_key l), <- (path_elems_key l'), E. Qed.

Lemma clean_elements_good rooted stack l :
  Forall good_elem (filter (λ e, e ≠ "") l) →
  clean_elements rooted stack l = reverse stack ++ filter (λ e, e ≠ "") l.
Proof.
  revert stack. induction l as [|e l IH]; intros stack Hl; [by rewrite app_nil_r|]. cbn [clean_elements].
  destruct (decide (e = "")) as [->|Hne].
  - rewrite filter_cons_False in Hl |- * by tauto. by apply IH.
  - rewrite filter_cons_True in Hl |- * by done. apply Forall_cons in Hl as [(_ & H1 & H2 & _) Hl].
    rewrite !bool_decide_eq_false_2 by done. cbn [orb]. rewrite IH by done.
    by rewrite reverse_cons, <- app_assoc.
Qed.

Lemma path_clean_rooted p :
  has_prefix "/" p = true → Forall good_elem (path_elems p) → path_clean p = key_of (path_elems p).
Proof. intros Hr Hg. unfold path_clean. by rewrite Hr, clean_elements_good. Qed.

Lemma elems_filter l : concat (path_elems <$> filter (λ e, e ≠ "") l) = concat (path_elems <$> l).
Proof.
  induction l as [|e l IH]; [done|]. destruct (decide (e = "")) as [->|].
  - rewrite filter_cons_False by tauto. exact IH.
  - rewrite filter_cons_True by done. cbn. by rewrite IH.
Qed.

(** Joining a rooted path with others gives the key of all their elements. *)
Lemma path_join_key p l :
  has_prefix "/" p = true → Forall good_elem (concat (path_elems <$> p :: l)) →
  path_join (p :: l) = key_of (concat (path_elems <$> p :: l)).
Proof.
  intros Hr Hg. unfold path_join. rewrite filter_cons_True by (by intros ->).
  assert (path_elems (join_byte "/" (p :: filter (λ e, e ≠ "") l)) = concat (path_elems <$> p :: l)) as E.
  { rewrite path_elems_join. cbn. by rewrite elems_filter. }
  rewrite path_clean_rooted, E; [done| |by rewrite E].
  apply has_prefix_spec in Hr as [t ->]. destruct (filter _ l); [done|].
  change (join_byte "/" _) with (("/" +:+ t) +:+ String "/" (join_byte "/" (s :: l0))).
  apply has_prefix_spec. rewrite str_app_assoc. eauto.
Qed.

(** Joining paths without odd elements keeps their elements. *)
Lemma path_elems_path_join l :
  Forall good_elem (concat (path_elems <$> l)) → concat (path_elems <$> l) ≠ [] →
  path_elems (path_join l) = concat (path_elems <$> l).
Proof.
  intros Hg Hne. set (es := concat (path_elems <$> l)) in *.
  unfold path_join. destruct (filter (λ e, e ≠ "") l) as [|h t] eqn:Hl.
  { exfalso. apply Hne. unfold es. by rewrite <- elems_filter, Hl. }
  assert (path_elems (join_byte "/" (h :: t)) = es) as He by (by rewrite path_elems_join, <- Hl, elems_filter).
  assert (es = filter (λ e, e ≠ "") (split_byte "/" (join_byte "/" (h :: t)))) as Hes by (symmetry; exact He).
  unfold path_clean. rewrite clean_elements_good by (by rewrite <- Hes). rewrite <- Hes.
  change (reverse [] ++ es) with es.
  destruct (has_prefix "/" _); [by apply path_elems_key|].
  rewrite bool_decide_eq_false_2.
  - rewrite path_elems_join. by apply concat_path_elems.
  - intros E. destruct es as [|e es']; [done|]. apply Forall_cons in Hg as [(Hee & _) _].
    destruct e; [done|]. destruct es'; [cbn in E|cbn in E; rewrite str_app_cons in E]; discriminate.
Qed.

Lemma key_of_last l x : ∃ pre, key_of (l ++ [x]) = pre +:+ String "/" x.
Proof.
  unfold key_of. induction l as [|e l IH]; [by exists ""|]. destruct IH as [pre IH].
  destruct (l ++ [x]) as [|h t] eqn:E; [by destruct l|].
  exists ("/" +:+ e +:+ pre). cbn [app]. rewrite E.
  change (join_byte "/" (e :: h :: t)) with (e +:+ ("/" +:+ join_byte "/" (h :: t))).
  by rewrite IH, !str_app_assoc.
Qed.

Lemma path_split_file_key l x : good_elem x → path_split_file (key_of (l ++ [x])) = x.
Proof.
  intros (_ & _ & _ & Hx). unfold path_split_file.
  destruct (key_of_last l x) as [pre ->].
  rewrite last_index_byte_app_no by done. apply str_drop_app_S.
Qed.

Lemma path_join_child l x :
  Forall good_elem l → good_elem x → path_join [key_of l; x] = key_of (l ++ [x]).
Proof.
  intros Hl Hx. assert (concat (path_elems <$> [key_of l; x]) = l ++ [x]) as E.
  { change (concat _) with (path_elems (key_of l) ++ path_elems x ++ []).
    by rewrite path_elems_key, path_elems_good. }
  rewrite path_join_key; rewrite ?E; [done|done|]. apply Forall_app_2; [done|by constructor].
Qed.

Lemma trim_right_keeps b :
  b ≠ "" → has_byte "/" b = false → trim_right b "/" = b.
Proof.
  induction b as [|c b IH]; [done|]. intros _. rewrite has_byte_cons. intros [Hc Hb]%orb_false_iff.
  cbn [trim_right]. destruct b as [|d b].
  - apply bool_decide_eq_false in Hc. cbn. by rewrite bool_decide_eq_false_2 by congruence.
  - rewrite IH by done. done.
Qed.

Lemma trim_right_app a b :
  b ≠ "" → has_byte "/" b = false → trim_right (a +:+ b) "/" = a +:+ b.
Proof.
  intros Hne Hb. induction a as [|c a IH]; [by apply trim_right_keeps|].
  rewrite str_app_cons. cbn [trim_right]. rewrite IH. destruct (a +:+ b) eqn:E; [|done].
  destruct a; [|done]. by destruct Hne.
Qed.

Lemma path_base_item base item :
  item ≠ "" → has_byte "/" item = false → path_base (base +:+ String "/" item) = item.
Proof.
  intros Hne Hi. unfold path_base. rewrite (bool_decide_eq_false_2 (_ = "")) by by destruct base.
  assert (base +:+ String "/" item = (base +:+ "/") +:+ item) as E by by rewrite str_app_assoc.
  assert (trim_right (base +:+ String "/" item) "/" = base +:+ String "/" item) as ->.
  { rewrite E. by apply trim_right_app. }
  rewrite (bool_decide_eq_false_2 (_ = "")) by by destruct base.
  unfold path_split_file. rewrite last_index_byte_app_no by done. apply str_drop_app_S.
Qed.

Lemma path_base_key l x : good_elem x → path_base (key_of (l ++ [x])) = x.
Proof. intros (Hne & _ & _ & Hb). destruct (key_of_last l x) as [pre ->]. by apply path_base_item. Qed.

(** The last element of a key is the one its suffix names. *)
Lemma has_suffix_key l x y :
  good_elem x → good_elem y → has_suffix (String "/" x) (key_of (l ++ [y])) = bool_decide (y = x).
Proof.
  intros (_ & _ & _ & Hx) (_ & _ & _ & Hy). apply eq_bool_prop_intro.
  rewrite !Is_true_true, has_suffix_spec, bool_decide_eq_true. destruct (key_of_last l y) as [pre ->]. split.
  - intros [u E]. apply (f_equal path_split_file) in E. unfold path_split_file in E.
    rewrite !last_index_byte_app_no, !str_drop_app_S in E by done. done.
  - intros ->. by exists pre.
Qed.
