(* ===== verification/Pkg.v ===== *)
(** * Package [pkg] (and [resource])

    [pkg/set.go]: sets of strings, represented as in the code by a map to the
    empty struct; the abstract set of a representation is its domain, and the
    operations refine the operations of [gset string].  [pkg/args.go],
    [pkg/backoff.go], [pkg/flag.go] and [resource/resource.go]: small helpers. *)

From stdpp Require Import base list gmap strings sorting.
From Stdlib Require Import Ascii ZArith.
From S2P Require Import Prelude GoStrings.

(** ** Sorted strings: [sort.StringSlice] *)

Definition string_less (a b : string) : bool := String.ltb a b.

Lemma string_less_false a b : string_less b a = false ↔ String.le a b.
Proof.
  unfold string_less, String.ltb, String.le, String.leb.
  rewrite (String.compare_antisym a b). by destruct (String.compare b a).
Qed.

Lemma string_less_irrefl a : string_less a a = false.
Proof. apply string_less_false. reflexivity. Qed.

Lemma string_strict_weak : strict_weak string_less.
Proof.
  assert (∀ a b c, string_less b a = false → string_less c b = false → string_less c a = false).
  { intros a b c. rewrite !string_less_false. apply transitivity. }
  split; [apply string_less_irrefl| |done].
  intros a b c Hab Hbc. destruct (string_less a c) eqn:Hac; [done|].
  destruct (string_less b a) eqn:Hba; [|by rewrite (H c a b) in Hbc].
  assert (a = b) as ->; [|by rewrite string_less_irrefl in Hab].
  unfold string_less, String.ltb in *. rewrite String.compare_antisym in Hab.
  by destruct (String.compare b a).
Qed.

Section sorted_strings.
Context `{GS : GoSort}.

Lemma go_sort_strings_sorted l : StronglySorted String.le (go_sort string_less l).
Proof.
  pose proof (go_sort_sorted _ _ l string_strict_weak) as Hs. revert Hs.
  generalize (go_sort string_less l). induction 1 as [|x l' _ IH Hx]; constructor; [done|].
  eapply Forall_impl; [exact Hx|]. intros y. by rewrite string_less_false.
Qed.

(** Sorting strings has one possible result, whatever the algorithm. *)
Lemma go_sort_strings_perm l1 l2 :
  l1 ≡ₚ l2 ↔ go_sort string_less l1 = go_sort string_less l2.
Proof.
  split; intros Hl.
  - apply (StronglySorted_unique String.le); try apply go_sort_strings_sorted.
    by rewrite !go_sort_perm.
  - by rewrite <- (go_sort_perm _ string_less l1), Hl, go_sort_perm.
Qed.
End sorted_strings.

(** ** [pkg/set.go] *)

Record unsafeSet := mkUnsafeSet { us_d : gmap string unit }.

(** What [Equals] and [Sub] ask of the other set, whatever its implementation:
    the interface method [Values], which lists each member once. *)
Class GoSet (T : Type) := {
  Values : moment → T → list string;
  members : T → gset string;
  Values_NoDup : ∀ t s, NoDup (Values t s);
  Values_members : ∀ t s x, x ∈ Values t s ↔ x ∈ members s
}.

Section unsafe_set.
Context `{MR : MapRange} `{GS : GoSort}.

Definition unsafeSet_Add (value : string) (us : unsafeSet) : unsafeSet :=
  mkUnsafeSet (<[value := tt]> us.(us_d)).

Definition NewUnsafeSet (values : list string) : unsafeSet :=
  foldl (λ set v, unsafeSet_Add v set) (mkUnsafeSet ∅) values.

Definition unsafeSet_Remove (value : string) (us : unsafeSet) : unsafeSet :=
  mkUnsafeSet (delete value us.(us_d)).

Definition unsafeSet_Contains (value : string) (us : unsafeSet) : bool :=
  match us.(us_d) !! value with Some _ => true | None => false end.

Definition unsafeSet_Length (us : unsafeSet) : nat := size us.(us_d).

Definition unsafeSet_Values (t : moment) (us : unsafeSet) : list string :=
  (range t us.(us_d)).*1.

Definition unsafeSet_Copy (t : moment) (us : unsafeSet) : unsafeSet :=
  foldl (λ cp v, unsafeSet_Add v cp) (NewUnsafeSet []) (range t us.(us_d)).*1.

Definition unsafeSet_members (us : unsafeSet) : gset string := dom us.(us_d).

#[export] Program Instance unsafeSet_GoSet : GoSet unsafeSet := {|
  Values := unsafeSet_Values; members := unsafeSet_members |}.
Next Obligation. intros. apply range_NoDup_fst. Qed.
Next Obligation. intros. apply elem_of_range_fst. Qed.

Definition unsafeSet_Equals `{GoSet U} (t : moment) (us : unsafeSet) (other : U) : bool :=
  let v1 := unsafeSet_Values (0 :: t) us in
  let v2 := Values (1 :: t) other in
  bool_decide (go_sort string_less v1 = go_sort string_less v2).

Definition unsafeSet_Sub `{GoSet U} (t : moment) (us : unsafeSet) (other : U) : unsafeSet :=
  let oValues := Values (0 :: t) other in
  let result := unsafeSet_Copy (1 :: t) us in
  foldl (λ result val,
    match result.(us_d) !! val with
    | None => result
    | Some _ => mkUnsafeSet (delete val result.(us_d))
    end) result oValues.

(** *** The thread-safe wrapper holds a lock around the same operations. *)

Record tsafeSet := mkTsafeSet { ts_us : unsafeSet }.

Definition NewThreadsafeSet (values : list string) : tsafeSet :=
  mkTsafeSet (NewUnsafeSet values).
Definition tsafeSet_Add (value : string) (ts : tsafeSet) : tsafeSet :=
  mkTsafeSet (unsafeSet_Add value ts.(ts_us)).
Definition tsafeSet_Remove (value : string) (ts : tsafeSet) : tsafeSet :=
  mkTsafeSet (unsafeSet_Remove value ts.(ts_us)).
Definition tsafeSet_Contains (value : string) (ts : tsafeSet) : bool :=
  unsafeSet_Contains value ts.(ts_us).
Definition tsafeSet_Length (ts : tsafeSet) : nat := unsafeSet_Length ts.(ts_us).
Definition tsafeSet_Values (t : moment) (ts : tsafeSet) : list string :=
  unsafeSet_Values t ts.(ts_us).
Definition tsafeSet_Copy (t : moment) (ts : tsafeSet) : tsafeSet :=
  mkTsafeSet (unsafeSet_Copy t ts.(ts_us)).
Definition tsafeSet_Equals `{GoSet U} (t : moment) (ts : tsafeSet) (other : U) : bool :=
  unsafeSet_Equals t ts.(ts_us) other.
Definition tsafeSet_Sub `{GoSet U} (t : moment) (ts : tsafeSet) (other : U) : tsafeSet :=
  mkTsafeSet (unsafeSet_Sub t ts.(ts_us) other).

#[export] Program Instance tsafeSet_GoSet : GoSet tsafeSet := {|
  Values := tsafeSet_Values; members := λ ts, unsafeSet_members ts.(ts_us) |}.
Next Obligation. intros. apply range_NoDup_fst. Qed.
Next Obligation. intros. apply elem_of_range_fst. Qed.

(** *** Refinement of [gset string] *)

Lemma members_Add v s : unsafeSet_members (unsafeSet_Add v s) = {[v]} ∪ unsafeSet_members s.
Proof. apply dom_insert_L. Qed.

Lemma members_Remove v s : unsafeSet_members (unsafeSet_Remove v s) = unsafeSet_members s ∖ {[v]}.
Proof. apply dom_delete_L. Qed.

Lemma Contains_members v s : unsafeSet_Contains v s = true ↔ v ∈ unsafeSet_members s.
Proof.
  unfold unsafeSet_Contains, unsafeSet_members. rewrite elem_of_dom.
  destruct (us_d s !! v); [by split; eauto|]. split; [done|]. by intros [].
Qed.

Lemma members_foldl_Add l s :
  unsafeSet_members (foldl (λ set v, unsafeSet_Add v set) s l) =
  unsafeSet_members s ∪ list_to_set l.
Proof.
  revert s. induction l as [|v l IH]; intros s; cbn; [set_solver|].
  rewrite IH, members_Add. set_solver.
Qed.

Lemma members_New l : unsafeSet_members (NewUnsafeSet l) = list_to_set l.
Proof. unfold NewUnsafeSet. rewrite members_foldl_Add. set_solver. Qed.

Lemma members_Copy t s : unsafeSet_members (unsafeSet_Copy t s) = unsafeSet_members s.
Proof.
  unfold unsafeSet_Copy. rewrite members_foldl_Add, members_New.
  apply set_eq. intros x. rewrite elem_of_union, !elem_of_list_to_set, elem_of_range_fst.
  set_solver.
Qed.

Lemma members_foldl_delete l s :
  unsafeSet_members (foldl (λ result val,
    match us_d result !! val with
    | None => result
    | Some _ => mkUnsafeSet (delete val (us_d result))
    end) s l) = unsafeSet_members s ∖ list_to_set l.
Proof.
  revert s. induction l as [|v l IH]; intros s; cbn; [set_solver|]. rewrite IH.
  destruct (us_d s !! v) eqn:E.
  - change (mkUnsafeSet (delete v (us_d s))) with (unsafeSet_Remove v s).
    rewrite members_Remove. set_solver.
  - apply not_elem_of_dom in E. unfold unsafeSet_members. set_solver.
Qed.

Lemma members_Sub `{GoSet U} t s (o : U) :
  unsafeSet_members (unsafeSet_Sub t s o) = unsafeSet_members s ∖ members o.
Proof.
  unfold unsafeSet_Sub. rewrite members_foldl_delete, members_Copy.
  apply set_eq. intros x. by rewrite !elem_of_difference, elem_of_list_to_set, Values_members.
Qed.

Lemma Values_perm_members `{GoSet U} t t' (s : unsafeSet) (o : U) :
  unsafeSet_Values t s ≡ₚ Values t' o ↔ unsafeSet_members s = members o.
Proof.
  split; intros Hso.
  - apply set_eq. intros x. rewrite <- (Values_members t' o), <- Hso.
    symmetry. apply elem_of_range_fst.
  - apply NoDup_Permutation; [apply range_NoDup_fst|apply Values_NoDup|].
    intros x. rewrite (Values_members t' o), <- Hso. apply elem_of_range_fst.
Qed.
(** The same facts for the thread-safe set. *)
Lemma members_tsafe_Copy t (s : tsafeSet) : members (tsafeSet_Copy t s) = members s.
Proof. apply members_Copy. Qed.

Lemma members_tsafe_Sub `{GoSet U} t (s : tsafeSet) (o : U) :
  members (tsafeSet_Sub t s o) = members s ∖ members o.
Proof. apply members_Sub. Qed.
(** Two sets compare equal exactly when they have the same members,
    whatever the implementation of the other set, the order in which the
    members are listed and the way they are sorted. *)
Theorem Equals_members `{GoSet U} t (s : unsafeSet) (o : U) :
  unsafeSet_Equals t s o = true ↔ unsafeSet_members s = members o.
Proof.
  unfold unsafeSet_Equals. rewrite bool_decide_eq_true, <- go_sort_strings_perm. apply Values_perm_members.
Qed.
End unsafe_set.

(** ** [pkg/args.go], [pkg/backoff.go], [pkg/flag.go] *)

(** [TrimToDashes]: everything after the first double dash, if there is one. *)
Fixpoint TrimToDashes_from (args rest : list string) : list string :=
  match rest with
  | [] => args
  | arg :: rest => if decide (arg = "--") then rest else TrimToDashes_from args rest
  end.

Definition TrimToDashes (args : list string) : list string := TrimToDashes_from args args.

(** [time.Duration] is an [int64]. *)
Definition int64_wrap (z : Z) : Z := ((z + 2 ^ 63) mod 2 ^ 64 - 2 ^ 63)%Z.

Definition ExpBackoff (last max : Z) : Z :=
  let next := int64_wrap (last * 2) in
  if (max <? next)%Z then max else next.

(** [StringSlice.Set]: the new value of the slice ([Set] never fails). *)
Definition StringSlice_Set (value : string) : list string :=
  (λ item, trim_right (trim_left item (" [" +:+ dquote)) (" " +:+ dquote +:+ "]")) <$>
  split_byte "," value.

(** ** [resource/resource.go] *)

Record ResourceTuple := mkResourceTuple { Cores : Z; Memory : Z; Disk : Z }.

Definition ResourceTuple_Empty (rt : ResourceTuple) : bool :=
  bool_decide (rt.(Cores) = 0%Z) && bool_decide (rt.(Memory) = 0%Z) &&
  bool_decide (rt.(Disk) = 0%Z).

Definition ResourceTuple_Sum (resources : list ResourceTuple) : ResourceTuple :=
  foldl (λ res r, mkResourceTuple (int64_wrap (res.(Cores) + r.(Cores)))
                                  (int64_wrap (res.(Memory) + r.(Memory)))
                                  (int64_wrap (res.(Disk) + r.(Disk))))
        (mkResourceTuple 0 0 0) resources.

Definition ResourceTuple_Sub (r1 r2 : ResourceTuple) : ResourceTuple :=
  mkResourceTuple (int64_wrap (r1.(Cores) - r2.(Cores)))
                  (int64_wrap (r1.(Memory) - r2.(Memory)))
                  (int64_wrap (r1.(Disk) - r2.(Disk))).

Lemma int64_wrap_small z : (- 2 ^ 63 <= z < 2 ^ 63)%Z → int64_wrap z = z.
Proof. intros Hz. unfold int64_wrap. rewrite Z.mod_small; lia. Qed.

Lemma int64_wrap_add a b : int64_wrap (int64_wrap a + b) = int64_wrap (a + b).
Proof.
  unfold int64_wrap.
  replace ((a + 2 ^ 63) mod 2 ^ 64 - 2 ^ 63 + b + 2 ^ 63)%Z
    with ((a + 2 ^ 63) mod 2 ^ 64 + b)%Z by lia.
  rewrite Z.add_mod_idemp_l by lia. do 2 f_equal. lia.
Qed.

Lemma ExpBackoff_small last max :
  (0 <= last)%Z → (last <= max)%Z → (max < 2 ^ 62)%Z → ExpBackoff last max = Z.min (last * 2) max.
Proof.
  intros. unfold ExpBackoff. rewrite int64_wrap_small by lia.
  destruct (Z.ltb_spec max (last * 2)); lia.
Qed.

Lemma TrimToDashes_from_app args l r :
  "--" ∉ l → TrimToDashes_from args (l ++ "--" :: r) = r.
Proof.
  induction l as [|a l IH]; intros Hl; cbn.
  - by rewrite decide_True.
  - apply not_elem_of_cons in Hl as [Ha Hl]. rewrite decide_False by done. auto.
Qed.

Lemma TrimToDashes_from_none args l : "--" ∉ l → TrimToDashes_from args l = args.
Proof.
  induction l as [|a l IH]; intros Hl; cbn; [done|].
  apply not_elem_of_cons in Hl as [Ha Hl]. rewrite decide_False by done. auto.
Qed.
