(* ===== verification/ProtoWire.v ===== *)
(** * [protobuf/fleet.pb.go]: the wire format

    What every message of the generated file repeats: varints, sizes, the fields and
    the loop that reads them.  A message is read from a byte slice (a [string]) with an
    index that is an [int], so that additions wrap; an index or a slice out of range
    panics.  [Message] is what a message has, and the generic theorems are proved from
    the laws of its fields. *)

From Stdlib Require Import ZArith Lia Ascii.
From stdpp Require Import base list strings.
From S2P Require Import Prelude GoStrings Pkg.
Local Open Scope Z_scope.

(** ** Results *)

Inductive wire_error :=
| ErrIntOverflowFleet
| ErrInvalidLengthFleet
| ErrUnexpectedEOF
| EndGroup (message : string)
| IllegalTag (message : string) (fieldNum wire : Z)
| WrongWireType (wireType : Z) (field : string)
| IllegalWireType (wireType : Z).

(** [WPanic]: a slice or an index out of range, or the [panic] of the source.
    [WOut]: out of fuel, which no theorem below allows to happen. *)
Inductive wres (A : Type) := WOk (a : A) | WErr (e : wire_error) | WPanic | WOut.
Arguments WOk {A} a.
Arguments WErr {A} e.
Arguments WPanic {A}.
Arguments WOut {A}.

Definition wbind {A B} (c : wres A) (k : A → wres B) : wres B :=
  match c with WOk a => k a | WErr e => WErr e | WPanic => WPanic | WOut => WOut end.

Declare Scope wire_scope.
Delimit Scope wire_scope with wire.
Notation "'let!' x ':=' c 'in' k" := (wbind c (λ x, k))
  (at level 10, x pattern, c at level 100, k at level 200) : wire_scope.
Local Open Scope wire_scope.

(** ** Integers and slices *)

Definition slen (d : string) : Z := Z.of_nat (String.length d).

Definition uint64_wrap (z : Z) : Z := z mod 2 ^ 64.

Definition int32_wrap (z : Z) : Z := (z + 2 ^ 31) mod 2 ^ 32 - 2 ^ 31.

(** [dAtA[i]]; [None] is a panic. *)
Definition byte_get (d : string) (i : Z) : option Z :=
  if i <? 0 then None else (λ c, Z.of_N (N_of_ascii c)) <$> String.get (Z.to_nat i) d.

(** [dAtA[a:b]]; [None] is a panic. *)
Definition slice (d : string) (a b : Z) : option string :=
  if (0 <=? a) && (a <=? b) && (b <=? slen d)
  then Some (str_take (Z.to_nat (b - a)) (str_drop (Z.to_nat a) d)) else None.

(** ** Writing *)

Definition out_byte (b : Z) : string := String (ascii_of_N (Z.to_N b)) "".

(** [encodeVarintFleet]: the bytes it writes; ten are enough for a [uint64]. *)
Fixpoint encodeVarint_fuel (n : nat) (v : Z) : string :=
  match n with
  | O => ""
  | S n =>
    if 128 <=? v then out_byte (Z.lor (Z.land v 127) 128) +:+ encodeVarint_fuel n (Z.shiftr v 7)
    else out_byte v
  end.

Definition encodeVarintFleet (v : Z) : string := encodeVarint_fuel 10 v.

Fixpoint sov_fuel (n : nat) (x : Z) : Z :=
  match n with
  | O => 0
  | S n => let x := Z.shiftr x 7 in 1 + (if x =? 0 then 0 else sov_fuel n x)
  end.

Definition sovFleet (x : Z) : Z := sov_fuel 10 x.

(** A string, an embedded message and an integer, as each [MarshalTo] writes them,
    and as each [Size] counts them. *)
Definition out_bytes (tag : Z) (s : string) : string :=
  out_byte tag +:+ encodeVarintFleet (slen s) +:+ s.

Definition out_string (tag : Z) (s : string) : string :=
  if 0 <? slen s then out_bytes tag s else "".

Definition out_message (tag size : Z) (body : string) : string :=
  out_byte tag +:+ encodeVarintFleet size +:+ body.

Definition out_int (tag v : Z) : string :=
  if v =? 0 then "" else out_byte tag +:+ encodeVarintFleet (uint64_wrap v).

Definition size_bytes (l : Z) : Z := 1 + l + sovFleet l.

Definition size_string (s : string) : Z := if 0 <? slen s then size_bytes (slen s) else 0.

Definition size_int (v : Z) : Z := if v =? 0 then 0 else 1 + sovFleet (uint64_wrap v).

(** ** Reading *)

(** The loop that reads a varint: [wrap] is the type it is collected in, [n] the
    turns left before the shift reaches 64. *)
Fixpoint varint_from (wrap : Z → Z) (n : nat) (shift acc : Z) (d : string) (i : Z) : wres (Z * Z) :=
  match n with
  | O => WErr ErrIntOverflowFleet
  | S n =>
    if slen d <=? i then WErr ErrUnexpectedEOF
    else match byte_get d i with
         | None => WPanic
         | Some b =>
           let acc := Z.lor acc (wrap (Z.shiftl (Z.land b 127) shift)) in
           if b <? 128 then WOk (acc, i + 1) else varint_from wrap n (shift + 7) acc d (i + 1)
         end
  end.

Definition varint (wrap : Z → Z) (d : string) (i : Z) : wres (Z * Z) := varint_from wrap 10 0 0 d i.
#[global] Arguments varint : simpl never.

(** [skipFleet]: the length of the field that [d] starts with.  Every turn of its loop
    returns; [skipGroup_fuel] is the loop over the fields of a group. *)
Fixpoint skip_fuel (fuel : nat) (d : string) : wres Z :=
  match fuel with
  | O => WOut
  | S fuel =>
    if slen d <=? 0 then WPanic
    else
      let! (wire, i) := varint uint64_wrap d 0 in
      match Z.land wire 7 with
      | 0 => let! (_, i) := varint uint64_wrap d i in WOk i
      | 1 => WOk (i + 8)
      | 2 =>
        let! (length, i) := varint int64_wrap d i in
        if length <? 0 then WErr ErrInvalidLengthFleet else WOk (int64_wrap (i + length))
      | 3 => skipGroup_fuel fuel d i
      | 4 => WOk i
      | 5 => WOk (i + 4)
      | wireType => WErr (IllegalWireType wireType)
      end
  end
with skipGroup_fuel (fuel : nat) (d : string) (start : Z) : wres Z :=
  match fuel with
  | O => WOut
  | S fuel =>
    let! (innerWire, i) := varint uint64_wrap d start in
    if Z.land innerWire 7 =? 4 then WOk i
    else match slice d start (slen d) with
         | None => WPanic
         | Some rest => let! next := skip_fuel fuel rest in skipGroup_fuel fuel d (int64_wrap (start + next))
         end
  end.

Definition skipFleet (d : string) : wres Z := skip_fuel (2 * String.length d + 2) d.

(** The cases of a [switch fieldNum]: what they do with the wire type, the data, the
    index behind the tag and the message, and the index they go on with. *)
Definition handler (M : Type) : Type := Z → string → Z → M → wres (M * Z).

(** The end of a field with a length, and its content. *)
Definition sub_slice (d : string) (i length : Z) : wres (string * Z) :=
  if length <? 0 then WErr ErrInvalidLengthFleet
  else
    let postIndex := int64_wrap (i + length) in
    if slen d <? postIndex then WErr ErrUnexpectedEOF
    else match slice d i postIndex with
         | None => WPanic
         | Some s => WOk (s, postIndex)
         end.

Definition string_field {M} (name : string) (set : string → M → M) : handler M := λ wireType d i m,
  if negb (wireType =? 2) then WErr (WrongWireType wireType name)
  else
    let! (stringLen, i) := varint uint64_wrap d i in
    let! (s, postIndex) := sub_slice d i (int64_wrap stringLen) in
    WOk (set s m, postIndex).

Definition message_field {M} (name : string) (read : string → M → wres M) : handler M := λ wireType d i m,
  if negb (wireType =? 2) then WErr (WrongWireType wireType name)
  else
    let! (msglen, i) := varint int64_wrap d i in
    let! (s, postIndex) := sub_slice d i msglen in
    let! m := read s m in
    WOk (m, postIndex).

Definition int_field {M} (name : string) (set : Z → M → M) : handler M := λ wireType d i m,
  if negb (wireType =? 0) then WErr (WrongWireType wireType name)
  else let! (v, i) := varint int32_wrap d i in WOk (set v m, i).

(** The [default] case. *)
Definition skip_field (d : string) (i : Z) : wres Z :=
  match slice d i (slen d) with
  | None => WPanic
  | Some rest =>
    let! skippy := skipFleet rest in
    if skippy <? 0 then WErr ErrInvalidLengthFleet
    else
      let next := int64_wrap (i + skippy) in
      if slen d <? next then WErr ErrUnexpectedEOF else WOk next
  end.

(** The loop of [Unmarshal]. *)
Fixpoint unmarshal_fuel {M} (name : string) (fields : Z → option (handler M)) (fuel : nat) (d : string) (i : Z) (m : M)
  : wres M :=
  match fuel with
  | O => WOut
  | S fuel =>
    if i <? slen d then
      let! (wire, j) := varint uint64_wrap d i in
      let fieldNum := int32_wrap (Z.shiftr wire 3) in
      let wireType := Z.land wire 7 in
      if wireType =? 4 then WErr (EndGroup name)
      else if fieldNum <=? 0 then WErr (IllegalTag name fieldNum wire)
      else match fields fieldNum with
           | Some h => let! (m, i) := h wireType d j m in unmarshal_fuel name fields fuel d i m
           | None => let! i := skip_field d i in unmarshal_fuel name fields fuel d i m
           end
    else if slen d <? i then WErr ErrUnexpectedEOF
    else WOk m
  end.

Definition unmarshal_all {M} (name : string) (fields : Z → option (handler M)) (d : string) (m : M) : wres M :=
  unmarshal_fuel name fields (String.length d + 2) d 0 m.

(** ** Integers of a width *)

(** The types a varint is collected in: truncation is bitwise, and keeps what fits. *)
Class Truncation (wrap : Z → Z) (lo hi : Z) := {
  wrap_lor a b : wrap (Z.lor a b) = Z.lor (wrap a) (wrap b);
  wrap_id z : lo ≤ z < hi → wrap z = z;
  wrap_mod z : wrap (z mod 2 ^ 64) = wrap z
}.

Lemma signed_bits k z i : 0 < k → 0 ≤ i →
  Z.testbit ((z + 2 ^ (k - 1)) mod 2 ^ k - 2 ^ (k - 1)) i = Z.testbit z (Z.min i (k - 1)).
Proof.
  intros Hk Hi.
  assert (Hp : 2 ^ k = 2 * 2 ^ (k - 1)) by (rewrite <- Z.pow_succ_r by lia; f_equal; lia).
  pose proof (Z.pow_pos_nonneg 2 (k - 1)) as Hpos.
  set (w := (z + 2 ^ (k - 1)) mod 2 ^ k - 2 ^ (k - 1)).
  assert (Hw : - 2 ^ (k - 1) ≤ w < 2 ^ (k - 1)).
  { pose proof (Z.mod_pos_bound (z + 2 ^ (k - 1)) (2 ^ k)). lia. }
  assert (Hmod : w mod 2 ^ k = z mod 2 ^ k).
  { unfold w. rewrite Zminus_mod_idemp_l. f_equal. lia. }
  assert (Hlow : ∀ j, 0 ≤ j < k → Z.testbit w j = Z.testbit z j).
  { intros j Hj. rewrite <- (Z.mod_pow2_bits_low w k j), Hmod by lia. apply Z.mod_pow2_bits_low. lia. }
  destruct (decide (i < k)) as [Hik|Hik].
  - rewrite Hlow by lia. f_equal. lia.
  - rewrite Z.min_r by lia. rewrite <- Hlow by lia.
    destruct (decide (0 ≤ w)) as [H0|H0].
    + rewrite <- (Z.mod_small w (2 ^ (k - 1))) by lia.
      by rewrite !Z.mod_pow2_bits_high by lia.
    + assert (Hneg : ∀ j, k - 1 ≤ j → Z.testbit w j = true).
      { intros j Hj. destruct (decide (w = -1)) as [Hm|Hne]; [rewrite Hm; apply Z.bits_m1; lia|].
        apply Z.bits_above_log2_neg; [lia|]. apply Z.log2_lt_pow2; [lia|]. pose proof (Z.pow_le_mono_r 2 (k - 1) j). lia. }
      by rewrite !Hneg by lia.
Qed.

Lemma signed_small k z : 0 < k → - 2 ^ (k - 1) ≤ z < 2 ^ (k - 1) →
  (z + 2 ^ (k - 1)) mod 2 ^ k - 2 ^ (k - 1) = z.
Proof.
  intros Hk Hz. assert (Hp : 2 ^ k = 2 * 2 ^ (k - 1)) by (rewrite <- Z.pow_succ_r by lia; f_equal; lia).
  rewrite Z.mod_small; lia.
Qed.

Lemma signed_mod k z : 0 < k ≤ 64 →
  (z mod 2 ^ 64 + 2 ^ (k - 1)) mod 2 ^ k - 2 ^ (k - 1) = (z + 2 ^ (k - 1)) mod 2 ^ k - 2 ^ (k - 1).
Proof.
  intros Hk. f_equal. rewrite <- (Zplus_mod_idemp_l (z mod _)), <- (Zplus_mod_idemp_l z). do 2 f_equal.
  apply Z.mod_mod_divide.
  exists (2 ^ (64 - k)). rewrite <- Z.pow_add_r by lia. f_equal. lia.
Qed.

Lemma signed_lor k a b : 0 < k →
  let w z := (z + 2 ^ (k - 1)) mod 2 ^ k - 2 ^ (k - 1) in w (Z.lor a b) = Z.lor (w a) (w b).
Proof.
  intros Hk w. apply Z.bits_inj'. intros i Hi. unfold w.
  by rewrite Z.lor_spec, !signed_bits, Z.lor_spec by lia.
Qed.

#[export] Instance int64_truncation : Truncation int64_wrap (- 2 ^ 63) (2 ^ 63).
Proof.
  split; intros.
  - apply (signed_lor 64); lia.
  - apply (signed_small 64); lia.
  - apply (signed_mod 64); lia.
Qed.

#[export] Instance int32_truncation : Truncation int32_wrap (- 2 ^ 31) (2 ^ 31).
Proof.
  split; intros.
  - apply (signed_lor 32); lia.
  - apply (signed_small 32); lia.
  - apply (signed_mod 32); lia.
Qed.

#[export] Instance uint64_truncation : Truncation uint64_wrap 0 (2 ^ 64).
Proof.
  unfold uint64_wrap. split; intros.
  - apply Z.bits_inj'. intros i Hi. rewrite Z.lor_spec. destruct (decide (i < 64)).
    + by rewrite !Z.mod_pow2_bits_low, Z.lor_spec by lia.
    + by rewrite !Z.mod_pow2_bits_high by lia.
  - apply Z.mod_small. lia.
  - by rewrite Z.mod_mod by lia.
Qed.

(** A value that left its [int] range by one addition of two non-negative [int]s is
    negative. *)
Lemma int64_add a b : 0 ≤ a < 2 ^ 63 → 0 ≤ b < 2 ^ 63 →
  int64_wrap (a + b) = a + b ∧ a + b < 2 ^ 63 ∨ int64_wrap (a + b) = a + b - 2 ^ 64 ∧ 2 ^ 63 ≤ a + b.
Proof.
  intros Ha Hb. destruct (decide (a + b < 2 ^ 63)); [left; split; [apply wrap_id|]; lia|right].
  split; [|lia]. unfold int64_wrap.
  replace (a + b + 2 ^ 63) with (a + b - 2 ^ 63 + 1 * 2 ^ 64) by lia.
  rewrite Z.mod_add, Z.mod_small by lia. lia.
Qed.

(** ** Bytes *)

Lemma slen_app a b : slen (a +:+ b) = slen a + slen b.
Proof. unfold slen. rewrite str_length_app. lia. Qed.

Lemma slen_nonneg d : 0 ≤ slen d.
Proof. unfold slen. lia. Qed.

Lemma slen_out_byte b : slen (out_byte b) = 1.
Proof. done. Qed.

Lemma slen_0 d : slen d = 0 → d = "".
Proof. destruct d; [done|]. unfold slen. cbn [String.length]. lia. Qed.

Lemma slen_nil : slen "" = 0.
Proof. done. Qed.

Lemma get_app pre c post : String.get (String.length pre) (pre +:+ String c post) = Some c.
Proof. induction pre; [done|]. cbn. apply IHpre. Qed.

Lemma byte_get_app pre b post : 0 ≤ b < 256 → byte_get (pre +:+ out_byte b +:+ post) (slen pre) = Some b.
Proof.
  intros Hb. unfold byte_get. destruct (Z.ltb_spec (slen pre) 0); [pose proof (slen_nonneg pre); lia|].
  unfold slen. rewrite Nat2Z.id. 
  change (out_byte b +:+ post) with (String (ascii_of_N (Z.to_N b)) post). rewrite get_app. cbn.
  rewrite N_ascii_embedding by lia. f_equal. lia.
Qed.

Lemma byte_get_Some d i : 0 ≤ i < slen d → ∃ b, byte_get d i = Some b ∧ 0 ≤ b < 256.
Proof.
  intros Hi. unfold byte_get. destruct (Z.ltb_spec i 0); [lia|].
  destruct (String.get (Z.to_nat i) d) as [c|] eqn:E.
  - exists (Z.of_N (N_of_ascii c)). split; [done|]. pose proof (N_ascii_bounded c). lia.
  - exfalso. assert (Hn : (Z.to_nat i < String.length d)%nat) by (unfold slen in *; lia).
    clear Hi H. revert d Hn E. induction (Z.to_nat i) as [|n IH]; intros [|a d] Hn E; cbn in *; try lia; [done|].
    by apply (IH d); [lia|].
Qed.

Lemma slice_app pre s post a b : a = slen pre → b = slen pre + slen s →
  slice (pre +:+ s +:+ post) a b = Some s.
Proof.
  intros -> ->. unfold slice. rewrite !slen_app.
  pose proof (slen_nonneg pre). pose proof (slen_nonneg s). pose proof (slen_nonneg post).
  destruct (Z.leb_spec 0 (slen pre)); [|lia]. destruct (Z.leb_spec (slen pre) (slen pre + slen s)); [|lia].
  destruct (Z.leb_spec (slen pre + slen s) (slen pre + (slen s + slen post))); [|lia]. cbn. f_equal.
  replace (slen pre + slen s - slen pre) with (slen s) by lia.
  unfold slen. rewrite !Nat2Z.id, str_drop_app. apply str_take_app.
Qed.

Lemma slice_Some d a b s : slice d a b = Some s → 0 ≤ a ∧ a ≤ b ∧ b ≤ slen d ∧ slen s = b - a.
Proof.
  unfold slice. destruct (Z.leb_spec 0 a), (Z.leb_spec a b), (Z.leb_spec b (slen d)); cbn; try done.
  intros [= <-]. repeat split; try lia. unfold slen in *. rewrite str_length_take, str_length_drop. lia.
Qed.

Lemma slice_None d a b : slice d a b = None → ¬ (0 ≤ a ∧ a ≤ b ∧ b ≤ slen d).
Proof.
  unfold slice. destruct (Z.leb_spec 0 a), (Z.leb_spec a b), (Z.leb_spec b (slen d)); cbn; try done; lia.
Qed.

(** ** Varints *)

Lemma encode_step n v : 128 ≤ v →
  encodeVarint_fuel (S n) v = out_byte (Z.lor (Z.land v 127) 128) +:+ encodeVarint_fuel n (Z.shiftr v 7).
Proof. intros Hv. cbn [encodeVarint_fuel]. by destruct (Z.leb_spec 128 v); [|lia]. Qed.

Lemma encode_last n v : v < 128 → encodeVarint_fuel (S n) v = out_byte v.
Proof. intros Hv. cbn [encodeVarint_fuel]. by destruct (Z.leb_spec 128 v); [lia|]. Qed.

Lemma low_bits v : Z.lor (Z.land v 127) 128 = v mod 128 + 128.
Proof.
  change 127 with (Z.ones 7). rewrite Z.land_ones by lia. change (2 ^ 7) with 128.
  assert (Hand : Z.land (v mod 128) 128 = 0); [|pose proof (Z.add_lor_land (v mod 128) 128); lia].
  apply Z.bits_inj'. intros i Hi. rewrite Z.land_spec, Z.bits_0. change 128 with (2 ^ 7). rewrite Z.pow2_bits_eqb by lia.
  destruct (Z.eqb_spec 7 i) as [<-|]; [|apply andb_false_r]. by rewrite Z.mod_pow2_bits_high by lia.
Qed.

Lemma split_low v : 0 ≤ v → Z.lor (Z.land v 127) (Z.shiftl (Z.shiftr v 7) 7) = v.
Proof.
  intros Hv. apply Z.bits_inj'. intros i Hi. rewrite Z.lor_spec, Z.land_spec. change 127 with (Z.ones 7).
  rewrite Z.testbit_ones_nonneg by lia. destruct (Z.ltb_spec i 7).
  - rewrite Z.shiftl_spec_low, andb_true_r, orb_false_r by lia. done.
  - rewrite Z.shiftl_spec, Z.shiftr_spec, andb_false_r by lia. cbn. f_equal. lia.
Qed.

(** A varint that was written is read back, truncated to the type it is read into,
    whatever stands before and after it. *)
Lemma varint_from_encode `{Truncation wrap lo hi} n : ∀ v shift acc pre post,
  0 ≤ v < 2 ^ (7 * Z.of_nat n) → 0 ≤ shift → (0 < n)%nat →
  let e := encodeVarint_fuel n v in
  varint_from wrap n shift acc (pre +:+ e +:+ post) (slen pre) =
  WOk (Z.lor acc (wrap (Z.shiftl v shift)), slen pre + slen e).
Proof.
  induction n as [|n IH]; intros v shift acc pre post Hv Hs Hn; [lia|]. cbn zeta.
  assert (Hlt : ∀ b t, (slen (pre +:+ out_byte b +:+ t) <=? slen pre) = false).
  { intros b t. rewrite !slen_app, slen_out_byte. pose proof (slen_nonneg t). lia. }
  destruct (decide (128 ≤ v)) as [Hbig|Hsmall].
  - destruct n as [|n'] eqn:En; [cbn in Hv; lia|]. rewrite <- En in *.
    rewrite encode_step, low_bits, str_app_assoc by done. cbn [varint_from]. rewrite Hlt.
    pose proof (Z.mod_pos_bound v 128). rewrite byte_get_app by lia.
    destruct (Z.ltb_spec (v mod 128 + 128) 128); [lia|].
    replace (Z.land (v mod 128 + 128) 127) with (Z.land v 127).
    2: { change 127 with (Z.ones 7). rewrite !Z.land_ones by lia. change (2 ^ 7) with 128.
         rewrite <- (Z.mul_1_l 128) at 3. rewrite Z.mod_add by lia. by rewrite Z.mod_mod. }
    rewrite <- str_app_assoc.
    replace (slen pre + 1) with (slen (pre +:+ out_byte (v mod 128 + 128))) by (rewrite slen_app; done).
    rewrite IH; [|..]; try lia.
    + rewrite <- Z.lor_assoc, <- wrap_lor, slen_app, slen_out_byte, slen_app, slen_out_byte. f_equal. f_equal; [|lia]. do 2 f_equal.
      rewrite Z.add_comm, <- Z.shiftl_shiftl, <- Z.shiftl_lor, split_low by lia. done.
    + rewrite Z.shiftr_div_pow2 by lia. split; [apply Z.div_pos; lia|]. apply Z.div_lt_upper_bound; [lia|].
      rewrite <- Z.pow_add_r by lia. replace (7 + 7 * Z.of_nat n) with (7 * Z.of_nat (S n)) by lia. lia.
  - rewrite encode_last by lia. cbn [varint_from]. rewrite Hlt, byte_get_app by lia.
    destruct (Z.ltb_spec v 128); [|lia]. rewrite slen_out_byte.
    change 127 with (Z.ones 7). rewrite Z.land_ones, Z.mod_small by lia. done.
Qed.

Lemma varint_encode `{Truncation wrap lo hi} v pre post :
  0 ≤ v < 2 ^ 64 →
  varint wrap (pre +:+ encodeVarintFleet v +:+ post) (slen pre) = WOk (wrap v, slen pre + slen (encodeVarintFleet v)).
Proof.
  intros Hv. unfold varint, encodeVarintFleet. rewrite varint_from_encode; [|lia..].
  by rewrite Z.shiftl_0_r, Z.lor_0_l.
Qed.

(** [sovFleet] is the length of what [encodeVarintFleet] writes. *)
Lemma sov_encode v : 0 ≤ v < 2 ^ 64 → slen (encodeVarintFleet v) = sovFleet v.
Proof.
  unfold encodeVarintFleet, sovFleet. change 64 with (64 : Z).
  assert (Hgen : ∀ n v, 0 ≤ v < 2 ^ (7 * Z.of_nat n) → (0 < n)%nat → slen (encodeVarint_fuel n v) = sov_fuel n v).
  { induction n as [|n IH]; intros x Hx Hn; [lia|]. cbn [sov_fuel].
    assert (Hs : Z.shiftr x 7 = x / 128) by (rewrite Z.shiftr_div_pow2 by lia; done).
    destruct (decide (128 ≤ x)) as [Hbig|Hsmall].
    - rewrite encode_step, slen_app, slen_out_byte by done.
      destruct (Z.eqb_spec (Z.shiftr x 7) 0) as [E|E].
      { rewrite Hs in E. apply Z.div_small_iff in E; lia. }
      f_equal. destruct n as [|n']; [cbn in Hx; lia|]. apply IH; [|lia]. rewrite Hs. split; [apply Z.div_pos; lia|].
      apply Z.div_lt_upper_bound; [lia|]. change 128 with (2 ^ 7). rewrite <- Z.pow_add_r by lia.
      replace (7 + 7 * Z.of_nat (S n')) with (7 * Z.of_nat (S (S n'))) by lia. lia.
    - rewrite encode_last by lia. rewrite Hs, Z.div_small by lia. done. }
  intros Hv. apply Hgen; [|lia]. lia.
Qed.

Lemma sov_pos x : 1 ≤ sovFleet x.
Proof.
  unfold sovFleet. cbn [sov_fuel].
  assert (∀ n y, 0 ≤ sov_fuel n y) as Hp; [|case_goal; [lia|]; pose proof (Hp 9%nat (Z.shiftr x 7)); cbn [sov_fuel] in *; lia].
  induction n as [|n IH]; intros y; cbn [sov_fuel]; [lia|]. case_goal; [lia|]. specialize (IH (Z.shiftr y 7)). lia.
Qed.

(** ** Reading ends

    Whatever the bytes are, reading ends within its fuel; and fewer than ten bytes
    never make it panic: the additions that wrap need a length of nine bytes behind a
    tag. *)

Definition MaxLen : Z := 2 ^ 62.

Lemma varint_from_ends wrap n : ∀ shift acc d i, 0 ≤ i →
  match varint_from wrap n shift acc d i with
  | WOk (_, j) => i < j ≤ slen d
  | WErr _ => True
  | WPanic | WOut => False
  end.
Proof.
  induction n as [|n IH]; intros shift acc d i Hi; cbn [varint_from]; [done|].
  destruct (Z.leb_spec (slen d) i); [done|]. destruct (byte_get_Some d i) as (b & -> & Hb); [lia|].
  destruct (Z.ltb_spec b 128); [lia|].
  specialize (IH (shift + 7) (Z.lor acc (wrap (Z.shiftl (Z.land b 127) shift))) d (i + 1) ltac:(lia)).
  repeat case_match; try done. lia.
Qed.

Lemma lor_lt a b n : 0 ≤ n → 0 ≤ a < 2 ^ n → 0 ≤ b < 2 ^ n → 0 ≤ Z.lor a b < 2 ^ n.
Proof.
  intros Hn Ha Hb. split; [apply Z.lor_nonneg; lia|].
  rewrite <- (Z.mod_small a (2 ^ n)), <- (Z.mod_small b (2 ^ n)), <- !Z.land_ones, <- Z.land_lor_distr_l, Z.land_ones by lia.
  apply Z.mod_pos_bound. lia.
Qed.

(** Eight bytes give less than 2^56. *)
Lemma varint_from_small `{Truncation wrap lo hi} n : lo ≤ 0 → 2 ^ 56 ≤ hi → ∀ shift acc d i v j,
  0 ≤ i → 0 ≤ shift → 0 ≤ acc < 2 ^ shift → varint_from wrap n shift acc d i = WOk (v, j) →
  shift + 7 * (j - i) ≤ 56 → 0 ≤ v < 2 ^ 56.
Proof.
  intros Hlo Hhi. induction n as [|n IH]; intros shift acc d i v j Hi Hs Hacc Hv Hj; [done|]. cbn [varint_from] in Hv.
  destruct (Z.leb_spec (slen d) i); [done|]. destruct (byte_get_Some d i) as (b & Hget & Hb); [lia|]. rewrite Hget in Hv.
  assert (Hjj : i < j).
  { destruct (Z.ltb_spec b 128); [injection Hv as <- <-; lia|].
    pose proof (varint_from_ends wrap n (shift + 7) (Z.lor acc (wrap (Z.shiftl (Z.land b 127) shift))) d (i + 1)) as He.
    rewrite Hv in He. lia. }
  assert (Hpart : 0 ≤ Z.shiftl (Z.land b 127) shift < 2 ^ (shift + 7)).
  { rewrite Z.shiftl_mul_pow2, Z.pow_add_r by lia. change 127 with (Z.ones 7). rewrite Z.land_ones by lia.
    pose proof (Z.mod_pos_bound b (2 ^ 7)). pose proof (Z.pow_pos_nonneg 2 shift). nia. }
  assert (Hle : 2 ^ (shift + 7) ≤ 2 ^ 56) by (apply Z.pow_le_mono_r; lia).
  assert (Hsh : 2 ^ shift ≤ 2 ^ (shift + 7)) by (apply Z.pow_le_mono_r; lia).
  assert (Hid : wrap (Z.shiftl (Z.land b 127) shift) = Z.shiftl (Z.land b 127) shift) by (apply wrap_id; lia).
  rewrite Hid in Hv.
  assert (Hor : 0 ≤ Z.lor acc (Z.shiftl (Z.land b 127) shift) < 2 ^ (shift + 7)) by (apply lor_lt; lia).
  destruct (Z.ltb_spec b 128); [injection Hv as <- <-; lia|].
  eapply (IH (shift + 7)); [| | |apply Hv|]; lia.
Qed.

Lemma varint_ends wrap d i : 0 ≤ i →
  match varint wrap d i with WOk (_, j) => i < j ≤ slen d | WErr _ => True | WPanic | WOut => False end.
Proof. apply varint_from_ends. Qed.

Lemma varint_short `{Truncation wrap lo hi} d i v j : lo ≤ 0 → 2 ^ 56 ≤ hi → 0 ≤ i →
  varint wrap d i = WOk (v, j) → j - i ≤ 8 → 0 ≤ v < 2 ^ 56.
Proof. intros. eapply (varint_from_small 10); [..|eassumption|]; try eassumption; cbn; lia. Qed.

Lemma varint_int_short d i v j : 0 ≤ i → varint int64_wrap d i = WOk (v, j) → j - i ≤ 8 → 0 ≤ v < 2 ^ 56.
Proof. apply varint_short; lia. Qed.

Lemma varint_uint_short d i v j : 0 ≤ i → varint uint64_wrap d i = WOk (v, j) → j - i ≤ 8 → 0 ≤ int64_wrap v < 2 ^ 56.
Proof.
  intros Hi Hv Hj. assert (0 ≤ v < 2 ^ 56) by (eapply varint_short; [..|apply Hv|done]; lia).
  rewrite wrap_id; lia.
Qed.

(** Every value of type [int] is in range. *)
Lemma varint_int64_range n : ∀ shift acc d i v j, - 2 ^ 63 ≤ acc < 2 ^ 63 →
  varint_from int64_wrap n shift acc d i = WOk (v, j) → - 2 ^ 63 ≤ v < 2 ^ 63.
Proof.
  induction n as [|n IH]; intros shift acc d i v j Hacc Hv; cbn [varint_from] in Hv; [done|].
  destruct (slen d <=? i); [done|]. destruct (byte_get d i) as [b|]; [|done].
  set (x := Z.shiftl (Z.land b 127) shift) in *.
  assert (Hor : - 2 ^ 63 ≤ Z.lor acc (int64_wrap x) < 2 ^ 63).
  { rewrite <- (wrap_id acc Hacc), <- wrap_lor. unfold int64_wrap.
    pose proof (Z.mod_pos_bound (Z.lor acc x + 2 ^ 63) (2 ^ 64)). lia. }
  destruct (b <? 128); [injection Hv as <- <-; done|]. by eapply IH.
Qed.

Lemma int64_wrap_range z : - 2 ^ 63 ≤ int64_wrap z < 2 ^ 63.
Proof. unfold int64_wrap. pose proof (Z.mod_pos_bound (z + 2 ^ 63) (2 ^ 64)). lia. Qed.

Definition skip_ok (d : string) (r : wres Z) : Prop :=
  match r with
  | WOk n => (1 ≤ n < 2 ^ 63 ∨ - 2 ^ 63 ≤ n < - MaxLen) ∧ (slen d ≤ 9 → 1 ≤ n < 2 ^ 57)
  | WErr _ => True
  | WPanic => 9 < slen d
  | WOut => False
  end.

Definition group_ok (d : string) (r : wres Z) : Prop :=
  match r with WOk n => 1 ≤ n ≤ slen d | WErr _ => True | WPanic => 9 < slen d | WOut => False end.

Lemma skip_fuel_ok fuel :
  (∀ d, 0 < slen d < MaxLen → 2 * slen d ≤ Z.of_nat fuel → skip_ok d (skip_fuel fuel d)) ∧
  (∀ d start, slen d < MaxLen → (0 < fuel)%nat → (start < 0 → 9 < slen d) → - 2 ^ 63 ≤ start < 2 ^ 63 →
     (start < 0 ∨ 2 * (slen d - start) + 1 ≤ Z.of_nat fuel) →
     group_ok d (skipGroup_fuel fuel d start)).
Proof.
  unfold MaxLen. induction fuel as [|fuel [IHs IHg]]; split.
  - intros d Hd Hf. cbn in *. lia.
  - intros. lia.
  - intros d Hd Hf. cbn [skip_fuel]. destruct (Z.leb_spec (slen d) 0); [lia|].
    pose proof (varint_ends uint64_wrap d 0 ltac:(lia)) as Hv. destruct (varint uint64_wrap d 0) as [[wire i]|e| |]; cbn; try (by apply Hv); try done.
    assert (Hi : 0 < i ≤ slen d) by (apply Hv; lia). unfold MaxLen.
    repeat case_match; subst; cbn; unfold MaxLen; try done; try lia.
    + pose proof (varint_ends uint64_wrap d i ltac:(lia)) as Hv'. destruct (varint uint64_wrap d i) as [[v j]|e| |]; cbn; unfold MaxLen; try done; lia.
    + assert (Hg : group_ok d (skipGroup_fuel fuel d i)) by (apply IHg; lia).
      unfold skip_ok, group_ok, MaxLen in *. destruct (skipGroup_fuel fuel d i); try done. lia.
    + pose proof (varint_ends int64_wrap d i ltac:(lia)) as Hv'. destruct (varint int64_wrap d i) as [[v j]|e| |] eqn:Ej; cbn; unfold MaxLen; try done; [|lia..].
      destruct (Z.ltb_spec v 0); [done|]. cbn. unfold MaxLen.
      assert (Hr : - 2 ^ 63 ≤ v < 2 ^ 63) by (eapply varint_int64_range, Ej; lia).
      assert (Hsm : slen d ≤ 9 → 0 ≤ v < 2 ^ 56) by (intros; eapply varint_int_short; [|apply Ej|]; lia).
      destruct (int64_add j v) as [[-> ?]|[-> ?]]; lia.
  - intros d start Hd Hf Hneg Hrange Hm. cbn [skipGroup_fuel]. destruct (decide (start < 0)) as [Hs|Hs].
    { unfold varint. cbn [varint_from]. pose proof (slen_nonneg d). destruct (Z.leb_spec (slen d) start); [lia|].
      unfold byte_get. destruct (Z.ltb_spec start 0); [|lia]. cbn. auto. }
    pose proof (varint_ends uint64_wrap d start ltac:(lia)) as Hv. destruct (varint uint64_wrap d start) as [[wire i]|e| |]; cbn; try (by apply Hv; lia); try done.
    case_match; [cbn; lia|]. destruct (slice d start (slen d)) as [rest|] eqn:Es; [|apply slice_None in Es; lia].
    apply slice_Some in Es as (? & ? & ? & Hrest).
    specialize (IHs rest). unfold skip_ok, MaxLen in IHs. destruct (skip_fuel fuel rest) as [next|e| |]; cbn; try done; [|lia..].
    destruct IHs as [Hn Hshort]; [lia..|].
    apply IHg; try done; try lia.
    + destruct (decide (slen d ≤ 9)); [|lia]. rewrite wrap_id; lia.
    + apply int64_wrap_range.
    + destruct Hn as [Hn|Hn]; [destruct (int64_add start next) as [[-> _]|[-> _]]; lia|].
      left. rewrite wrap_id; lia.
Qed.

(** What reading a whole message may give. *)
Definition read_ok {M} (d : string) (r : wres M) : Prop :=
  match r with WOk _ | WErr _ => True | WPanic => 9 < slen d | WOut => False end.

Lemma wbind_ok {A B} d (c : wres A) (f : A → B) : read_ok d c → read_ok d (let! x := c in WOk (f x)).
Proof. by destruct c. Qed.

(** A case of the [switch] goes forward and stays in the data. *)
Definition handler_ok {M} (h : handler M) : Prop := ∀ wireType d i m,
  1 ≤ i ≤ slen d → slen d < MaxLen →
  match h wireType d i m with
  | WOk (_, j) => i < j ≤ slen d
  | WErr _ => True
  | WPanic => 9 < slen d
  | WOut => False
  end.

Lemma sub_slice_ok d i length : 0 ≤ i ≤ slen d → slen d < MaxLen → - 2 ^ 63 ≤ length < 2 ^ 63 →
  match sub_slice d i length with
  | WOk (s, j) => i ≤ j ≤ slen d ∧ slen s = j - i
  | WErr _ => True
  | WPanic => 2 ^ 56 ≤ length
  | WOut => False
  end.
Proof.
  unfold MaxLen, sub_slice. intros Hi Hd Hl. destruct (Z.ltb_spec length 0); [done|].
  destruct (int64_add i length) as [[-> Hlt]|[-> Hge]]; [lia|lia| |].
  - destruct (Z.ltb_spec (slen d) (i + length)); [done|].
    destruct (slice d i (i + length)) eqn:E; [apply slice_Some in E; lia|apply slice_None in E; lia].
  - destruct (Z.ltb_spec (slen d) (i + length - 2 ^ 64)); [lia|].
    destruct (slice d i (i + length - 2 ^ 64)) eqn:E; [apply slice_Some in E; lia|lia].
Qed.

Lemma string_field_ok {M} name (set : string → M → M) : handler_ok (string_field name set).
Proof.
  intros wireType d i m Hi Hd. unfold string_field. destruct (Z.eqb_spec wireType 2) as [Hwt|Hwt]; cbn [negb]; [|done].
  pose proof (varint_ends uint64_wrap d i ltac:(lia)) as Hv. destruct (varint uint64_wrap d i) as [[l j]|e| |] eqn:Ej; cbn; try done.
  pose proof (sub_slice_ok d j (int64_wrap l) ltac:(lia) Hd (int64_wrap_range l)) as Hs.
  destruct (sub_slice d j (int64_wrap l)) as [[s k]|e| |]; cbn; try done; [lia|].
  destruct (decide (slen d ≤ 9)); [|lia]. pose proof (varint_uint_short d i l j ltac:(lia) Ej). lia.
Qed.

Lemma message_field_ok {M} name (read : string → M → wres M) :
  (∀ s m, slen s < MaxLen → read_ok s (read s m)) → handler_ok (message_field name read).
Proof.
  intros Hread wireType d i m Hi Hd. unfold message_field. destruct (Z.eqb_spec wireType 2) as [Hwt|Hwt]; cbn [negb]; [|done].
  pose proof (varint_ends int64_wrap d i ltac:(lia)) as Hv. destruct (varint int64_wrap d i) as [[l j]|e| |] eqn:Ej; cbn; try done.
  assert (Hr : - 2 ^ 63 ≤ l < 2 ^ 63) by (eapply varint_int64_range, Ej; lia).
  pose proof (sub_slice_ok d j l ltac:(lia) Hd Hr) as Hs.
  destruct (sub_slice d j l) as [[s k]|e| |]; cbn; try done.
  - specialize (Hread s m). unfold read_ok in Hread. destruct (read s m); cbn; try done; [lia|lia|apply Hread; lia].
  - destruct (decide (slen d ≤ 9)); [|lia]. pose proof (varint_int_short d i l j ltac:(lia) Ej). lia.
Qed.

Lemma int_field_ok {M} name (set : Z → M → M) : handler_ok (int_field name set).
Proof.
  intros wireType d i m Hi Hd. unfold int_field. destruct (Z.eqb_spec wireType 0) as [Hwt|Hwt]; cbn [negb]; [|done].
  pose proof (varint_ends int32_wrap d i ltac:(lia)) as Hv. by destruct (varint int32_wrap d i) as [[l j]|e| |].
Qed.

Lemma skipFleet_ok d : 0 < slen d < MaxLen → skip_ok d (skipFleet d).
Proof. intros Hd. apply skip_fuel_ok; [done|]. unfold slen in *. lia. Qed.

Lemma unmarshal_fuel_ok {M} name (fields : Z → option (handler M)) :
  (∀ k h, fields k = Some h → handler_ok h) →
  ∀ fuel d i m, slen d < MaxLen → (0 < fuel)%nat → (i < 0 → 9 < slen d) → (i < 0 ∨ slen d - i < Z.of_nat fuel) →
  read_ok d (unmarshal_fuel name fields fuel d i m).
Proof.
  intros Hfields. induction fuel as [|fuel IH]; intros d i m Hd Hf Hneg Hm; [lia|]. cbn [unmarshal_fuel].
  destruct (Z.ltb_spec i (slen d)); [|by case_match].
  destruct (decide (i < 0)) as [Hi|Hi].
  { unfold varint. cbn [varint_from]. pose proof (slen_nonneg d). destruct (Z.leb_spec (slen d) i); [lia|].
    unfold byte_get. destruct (Z.ltb_spec i 0); [|lia]. cbn. auto. }
  pose proof (varint_ends uint64_wrap d i ltac:(lia)) as Hv. destruct (varint uint64_wrap d i) as [[wire j]|e| |]; cbn [wbind]; try done.
  do 2 (case_match; [done|]). destruct (fields _) as [h|] eqn:Eh.
  - specialize (Hfields _ _ Eh (Z.land wire 7) d j m ltac:(lia) Hd).
    destruct (h _ d j m) as [[m' k]|e| |]; cbn [wbind]; try done. apply IH; lia.
  - unfold skip_field. destruct (slice d i (slen d)) as [rest|] eqn:Es; [|apply slice_None in Es; lia].
    apply slice_Some in Es as (? & ? & ? & Hrest).
    pose proof (skipFleet_ok rest ltac:(lia)) as Hk. unfold skip_ok, MaxLen in *.
    destruct (skipFleet rest) as [n|e| |]; cbn [wbind]; try done; [|cbn; lia].
    destruct (Z.ltb_spec n 0); [done|]. destruct Hk as [Hn Hshort].
    destruct (int64_add i n) as [[-> Hlt]|[-> Hge]]; [lia|lia| |]; case_match; try done; cbn [wbind]; apply IH; lia.
Qed.

Lemma unmarshal_ok {M} name (fields : Z → option (handler M)) :
  (∀ k h, fields k = Some h → handler_ok h) →
  ∀ d m, slen d < MaxLen → read_ok d (unmarshal_all name fields d m).
Proof. intros Hfields d m Hd. apply unmarshal_fuel_ok; [done|done|lia|lia|]. unfold slen. lia. Qed.

(** ** Reading what was written *)

(** Reading the bytes [s] of some fields turns [m] into [m'], whatever stands before
    and after them. *)
Definition reads {M} (name : string) (fields : Z → option (handler M)) (s : string) (m m' : M) : Prop :=
  ∃ n, Z.of_nat n ≤ slen s ∧ ∀ fuel pre post, slen (pre +:+ s +:+ post) < MaxLen →
    unmarshal_fuel name fields (n + fuel) (pre +:+ s +:+ post) (slen pre) m =
    unmarshal_fuel name fields fuel (pre +:+ s +:+ post) (slen pre + slen s) m'.

Section reads.
Context {M : Type} (name : string) (fields : Z → option (handler M)).

Lemma reads_nil m : reads name fields "" m m.
Proof. exists 0%nat. split; [done|]. intros. by rewrite slen_nil, Z.add_0_r. Qed.

Lemma reads_app s1 s2 m1 m2 m3 :
  reads name fields s1 m1 m2 → reads name fields s2 m2 m3 → reads name fields (s1 +:+ s2) m1 m3.
Proof.
  intros (n1 & Hn1 & H1) (n2 & Hn2 & H2). exists (n1 + n2)%nat. rewrite slen_app. split; [lia|].
  intros fuel pre post Hlen. rewrite <- Nat.add_assoc. rewrite str_app_assoc in *. rewrite H1 by done.
  rewrite <- slen_app. rewrite <- str_app_assoc in *. rewrite H2 by done.
  rewrite !slen_app. f_equal. lia.
Qed.

(** The tag of a field and the case that reads the rest of it. *)
Lemma reads_field tag k wt body h m m' :
  0 < tag < 128 → Z.shiftr tag 3 = k → Z.land tag 7 = wt → wt ≠ 4 → 0 < k → fields k = Some h →
  (∀ pre post, slen (pre +:+ body +:+ post) < MaxLen →
     h wt (pre +:+ body +:+ post) (slen pre) m = WOk (m', slen pre + slen body)) →
  reads name fields (out_byte tag +:+ body) m m'.
Proof.
  intros Htag Hk Hwt Hne Hpos Hf Hh. exists 1%nat. rewrite slen_app, slen_out_byte.
  pose proof (slen_nonneg body). split; [lia|]. intros fuel pre post Hlen. cbn [Nat.add unmarshal_fuel].
  assert (Hpre : (slen pre <? slen (pre +:+ (out_byte tag +:+ body) +:+ post)) = true).
  { rewrite !slen_app, slen_out_byte. pose proof (slen_nonneg post). lia. }
  rewrite Hpre. rewrite str_app_assoc in *.
  pose proof (varint_encode (wrap := uint64_wrap) tag pre (body +:+ post) ltac:(lia)) as Hv.
  assert (He : encodeVarintFleet tag = out_byte tag) by (apply encode_last; lia). rewrite He in Hv.
  rewrite Hv. cbn [wbind]. rewrite (wrap_id tag), Hwt, Hk by lia.
  destruct (Z.eqb_spec wt 4); [done|].
  assert (Hki : int32_wrap k = k).
  { apply wrap_id. rewrite Z.shiftr_div_pow2 in Hk by lia. pose proof (Z.div_lt_upper_bound tag (2 ^ 3) (2 ^ 31)). lia. }
  rewrite Hki. destruct (Z.leb_spec k 0); [lia|]. rewrite Hf, slen_out_byte.
  replace (slen pre + 1) with (slen (pre +:+ out_byte tag)) by (by rewrite slen_app, slen_out_byte).
  rewrite <- str_app_assoc in *. rewrite Hh by done. cbn [wbind]. f_equal. rewrite slen_app, slen_out_byte. lia.
Qed.

(** A field with a length: the slice is the content. *)
Lemma sub_slice_app pre s post : slen (pre +:+ s +:+ post) < MaxLen →
  sub_slice (pre +:+ s +:+ post) (slen pre) (slen s) = WOk (s, slen pre + slen s).
Proof.
  unfold MaxLen, sub_slice. intros Hlen. pose proof (slen_nonneg s). pose proof (slen_nonneg pre). pose proof (slen_nonneg post).
  rewrite !slen_app in *.
  destruct (Z.ltb_spec (slen s) 0); [lia|]. rewrite (wrap_id (wrap := int64_wrap)) by lia.
  destruct (Z.ltb_spec (slen pre + (slen s + slen post)) (slen pre + slen s)); [lia|].
  by rewrite (slice_app pre s post).
Qed.

Lemma length_prefixed `{Truncation wrap lo hi} s pre post : lo ≤ 0 → 2 ^ 63 ≤ hi →
  slen (pre +:+ (encodeVarintFleet (slen s) +:+ s) +:+ post) < MaxLen →
  let d := pre +:+ (encodeVarintFleet (slen s) +:+ s) +:+ post in
  let j := slen pre + slen (encodeVarintFleet (slen s)) in
  varint wrap d (slen pre) = WOk (slen s, j) ∧ sub_slice d j (slen s) = WOk (s, slen pre + slen (encodeVarintFleet (slen s) +:+ s)).
Proof.
  cbn zeta. unfold MaxLen. intros Hlo Hhi Hlen.
  pose proof (slen_nonneg s). pose proof (slen_nonneg pre). pose proof (slen_nonneg post).
  pose proof (slen_nonneg (encodeVarintFleet (slen s))). pose proof Hlen as Hlen'. rewrite !slen_app in Hlen'.
  rewrite str_app_assoc in *. split.
  - rewrite varint_encode by lia. by rewrite (wrap_id (slen s)) by lia.
  - rewrite <- slen_app. rewrite <- (str_app_assoc pre) in *. rewrite sub_slice_app by (unfold MaxLen; lia).
    do 2 f_equal. rewrite !slen_app. lia.
Qed.

Lemma reads_bytes tag k fname set s m :
  0 < tag < 128 → Z.shiftr tag 3 = k → Z.land tag 7 = 2 → 0 < k → fields k = Some (string_field fname set) →
  reads name fields (out_bytes tag s) m (set s m).
Proof.
  intros Htag Hk Hwt Hpos Hf. eapply reads_field; try done. intros pre post Hlen. unfold string_field. rewrite Z.eqb_refl. cbn [negb].
  destruct (length_prefixed (wrap := uint64_wrap) (lo := 0) (hi := 2 ^ 64) s pre post ltac:(lia) ltac:(lia) Hlen) as [-> Hs]. cbn [wbind].
  rewrite (wrap_id (wrap := int64_wrap)). 2: { unfold MaxLen in Hlen. rewrite !slen_app in Hlen. pose proof (slen_nonneg pre). pose proof (slen_nonneg post).
    pose proof (slen_nonneg s). pose proof (slen_nonneg (encodeVarintFleet (slen s))). lia. }
  by rewrite Hs.
Qed.

Lemma reads_string tag k fname set s m :
  0 < tag < 128 → Z.shiftr tag 3 = k → Z.land tag 7 = 2 → 0 < k → fields k = Some (string_field fname set) →
  (s = "" → set s m = m) →
  reads name fields (out_string tag s) m (set s m).
Proof.
  intros. unfold out_string. destruct (Z.ltb_spec 0 (slen s)); [by eapply reads_bytes|].
  pose proof (slen_nonneg s). assert (Hs : s = "") by (apply slen_0; lia).
  rewrite H4 by done. apply reads_nil.
Qed.

Lemma reads_message tag k fname read body m m' :
  0 < tag < 128 → Z.shiftr tag 3 = k → Z.land tag 7 = 2 → 0 < k → fields k = Some (message_field fname read) →
  (slen body < MaxLen → read body m = WOk m') →
  reads name fields (out_message tag (slen body) body) m m'.
Proof.
  intros Htag Hk Hwt Hpos Hf Hread. eapply reads_field; try done. intros pre post Hlen. unfold message_field. rewrite Z.eqb_refl. cbn [negb].
  destruct (length_prefixed (wrap := int64_wrap) (lo := - 2 ^ 63) (hi := 2 ^ 63) body pre post ltac:(lia) ltac:(lia) Hlen) as [-> Hs]. cbn [wbind].
  rewrite Hs. cbn [wbind]. rewrite Hread; [done|]. rewrite !slen_app in Hlen. pose proof (slen_nonneg pre). pose proof (slen_nonneg post).
  pose proof (slen_nonneg (encodeVarintFleet (slen body))). lia.
Qed.

Lemma reads_int tag k fname set v m :
  0 < tag < 128 → Z.shiftr tag 3 = k → Z.land tag 7 = 0 → 0 < k → fields k = Some (int_field fname set) →
  - 2 ^ 31 ≤ v < 2 ^ 31 → (v = 0 → set v m = m) →
  reads name fields (out_int tag v) m (set v m).
Proof.
  intros Htag Hk Hwt Hpos Hf Hv Hset. unfold out_int. destruct (Z.eqb_spec v 0) as [->|Hne]; [rewrite Hset by done; apply reads_nil|].
  eapply reads_field; try done. intros pre post Hlen. unfold int_field. rewrite Z.eqb_refl. cbn [negb]. rewrite varint_encode.
  - cbn [wbind]. unfold uint64_wrap. by rewrite (wrap_mod (wrap := int32_wrap)), (wrap_id (wrap := int32_wrap)) by lia.
  - apply Z.mod_pos_bound. lia.
Qed.

(** Reading a whole message. *)
Lemma reads_all s m m' : reads name fields s m m' → slen s < MaxLen → unmarshal_all name fields s m = WOk m'.
Proof.
  intros (n & Hn & Hr) Hlen. unfold unmarshal_all.
  replace (String.length s + 2)%nat with (n + S (S (String.length s - n)))%nat by (unfold slen in *; lia).
  specialize (Hr (S (S (String.length s - n))) "" ""). rewrite !str_app_nil_l, str_app_nil_r, slen_nil in Hr.
  rewrite Hr by done. cbn [unmarshal_fuel]. rewrite Z.add_0_l, Z.ltb_irrefl. done.
Qed.
End reads.

(** ** Sizes *)

Lemma lt_app a b : slen (a +:+ b) < MaxLen → slen a < MaxLen ∧ slen b < MaxLen.
Proof. rewrite slen_app. pose proof (slen_nonneg a). pose proof (slen_nonneg b). lia. Qed.

Lemma slen_out_message tag body : slen (out_message tag (slen body) body) < MaxLen →
  slen (out_message tag (slen body) body) = size_bytes (slen body).
Proof.
  unfold out_message, size_bytes, MaxLen. rewrite !slen_app, slen_out_byte. intros Hlen.
  pose proof (slen_nonneg body). pose proof (slen_nonneg (encodeVarintFleet (slen body))). rewrite sov_encode in * by lia. lia.
Qed.

Lemma slen_out_string tag s : slen (out_string tag s) < MaxLen → slen (out_string tag s) = size_string s.
Proof. unfold out_string, size_string. case_match; [apply slen_out_message|done]. Qed.

Lemma slen_out_int tag v : slen (out_int tag v) = size_int v.
Proof.
  unfold out_int, size_int. case_match; [done|]. rewrite slen_app, slen_out_byte, sov_encode; [done|].
  apply Z.mod_pos_bound. lia.
Qed.

(** ** Messages *)

Class Message (M : Type) := {
  msg_name : string;
  msg_zero : M;
  Size : M → Z;
  MarshalTo : M → string;
  msg_fields : Z → option (handler M);
  (** Its integers are in the range of their types, its pointers are not nil. *)
  well_formed : M → Prop
}.

Class MessageLaws (M : Type) `{Message M} := {
  Size_length (m : M) : slen (MarshalTo m) < MaxLen → slen (MarshalTo m) = Size m;
  MarshalTo_reads (m : M) : well_formed m → slen (MarshalTo m) < MaxLen →
    reads msg_name msg_fields (MarshalTo m) msg_zero m;
  fields_ok k (h : handler M) : msg_fields k = Some h → handler_ok h
}.

(** [Marshal]: the buffer has [Size] bytes, and writing past its end panics. *)
Definition Marshal `{Message M} (m : M) : wres string :=
  if Size m <? slen (MarshalTo m) then WPanic else WOk (MarshalTo m).

(** [Unmarshal] into a message that may have fields already. *)
Definition Unmarshal `{Message M} (d : string) (m : M) : wres M := unmarshal_all msg_name msg_fields d m.

Section message.
Context `{MessageLaws M}.

Lemma Unmarshal_MarshalTo (m : M) : well_formed m → slen (MarshalTo m) < MaxLen →
  Unmarshal (MarshalTo m) msg_zero = WOk m.
Proof. intros Hw Hlen. apply reads_all; [by apply MarshalTo_reads|done]. Qed.

Lemma Unmarshal_ok d (m : M) : slen d < MaxLen → read_ok d (Unmarshal d m).
Proof. apply unmarshal_ok, fields_ok. Qed.

Lemma slen_out_Size tag (m : M) : slen (out_message tag (Size m) (MarshalTo m)) < MaxLen →
  Size m = slen (MarshalTo m) ∧ slen (out_message tag (Size m) (MarshalTo m)) = size_bytes (Size m).
Proof.
  intros Hlen. assert (Hs : Size m = slen (MarshalTo m)).
  { symmetry. apply Size_length. by do 2 apply lt_app in Hlen as [_ Hlen]. }
  split; [done|]. rewrite Hs in *. by apply slen_out_message.
Qed.

(** A field that holds a message. *)
Lemma reads_embedded {N} name (fields : Z → option (handler N)) tag k fname read (x : M) m m' :
  0 < tag < 128 → Z.shiftr tag 3 = k → Z.land tag 7 = 2 → 0 < k → fields k = Some (message_field fname read) →
  slen (out_message tag (Size x) (MarshalTo x)) < MaxLen →
  (slen (MarshalTo x) < MaxLen → read (MarshalTo x) m = WOk m') →
  reads name fields (out_message tag (Size x) (MarshalTo x)) m m'.
Proof.
  intros ? ? ? ? ? Hlen Hread. destruct (slen_out_Size tag x Hlen) as [-> _]. by eapply reads_message.
Qed.
End message.

(** ** Repeated fields *)

Lemma lt_concat {A} (out : A → string) l x : x ∈ l → slen (str_concat (out <$> l)) < MaxLen → slen (out x) < MaxLen.
Proof.
  induction 1 as [x l|x y l _ IH]; cbn; intros Hlen; apply lt_app in Hlen as [Hx Hl]; [done|by apply IH].
Qed.

Lemma reads_repeated {M A} name (fields : Z → option (handler M)) (out : A → string) (C : list A → M) l :
  (∀ x l0, x ∈ l → reads name fields (out x) (C l0) (C (l0 ++ [x]))) →
  ∀ l0, reads name fields (str_concat (out <$> l)) (C l0) (C (l0 ++ l)).
Proof.
  induction l as [|x l IH]; intros Hone l0; cbn; [rewrite app_nil_r; apply reads_nil|].
  eapply reads_app; [apply Hone; left|]. rewrite (app_assoc l0 [x] l : l0 ++ x :: l = _). apply IH. intros; apply Hone. by right.
Qed.

Lemma slen_concat {A} (out : A → string) (size : A → Z) l :
  (∀ x, slen (out x) < MaxLen → slen (out x) = size x) →
  slen (str_concat (out <$> l)) < MaxLen → slen (str_concat (out <$> l)) = foldr (λ x n, size x + n) 0 l.
Proof.
  intros Hone. induction l as [|x l IH]; cbn; [done|]. intros Hlen. rewrite slen_app.
  apply lt_app in Hlen as [Hx Hl]. rewrite Hone, IH by done. done.
Qed.

(** ** Automation for messages whose fields are strings and integers *)

Definition int32 (z : Z) : Prop := - 2 ^ 31 ≤ z < 2 ^ 31.

Lemma reads_eq {M} name (fields : Z → option (handler M)) s m m1 m2 :
  reads name fields s m m1 → m1 = m2 → reads name fields s m m2.
Proof. by intros ? <-. Qed.

Ltac field_side := first [reflexivity | split; reflexivity | assumption | let E := fresh in intros E; cbn in E |- *; rewrite E; reflexivity].

Ltac read_one := first
  [ eapply reads_string; field_side
  | eapply reads_int; field_side ].

Ltac read_chain :=
  lazymatch goal with
  | |- reads _ _ (_ +:+ _) _ _ => eapply reads_app; [read_one|read_chain]
  | |- _ => eapply reads_eq; [read_one|reflexivity]
  end.

Ltac split_len H :=
  repeat match type of H with slen (_ +:+ _) < MaxLen => let H' := fresh "Hlen" in apply lt_app in H as [H' H] end.

Ltac size_law := 
  let m := fresh "m" in let H := fresh "Hlen" in
  intros m H; cbn in H |- *; match goal with |- slen (?f m) = ?g m => unfold f, g in * end;
  split_len H; rewrite ?slen_app; repeat rewrite slen_out_string by assumption; rewrite ?slen_out_int; lia.

Ltac fields_law :=
  let k := fresh "k" in let h := fresh "h" in let H := fresh in
  intros k h H; cbn in H; match type of H with ?f k = _ => unfold f in H end;
  repeat case_match; try discriminate H; injection H as <-;
  lazymatch goal with
  | |- handler_ok (string_field _ _) => apply string_field_ok
  | |- handler_ok (int_field _ _) => apply int_field_ok
  | |- handler_ok (message_field _ _) => apply message_field_ok
  end.

Ltac simple_message :=
  split;
  [ size_law
  | let m := fresh "m" in let Hw := fresh "Hw" in let Hl := fresh "Hl" in
    intros m Hw Hl; destruct m; cbn in Hw |- *;
    match goal with |- reads _ _ (?f _) _ _ => unfold f end; repeat match type of Hw with _ ∧ _ => destruct Hw as [? Hw] end; read_chain
  | fields_law ].
