(* ===== verification/KnownHosts.v ===== *)
(** * [ssh]: the keys of known hosts

    [ssh/match.go]: patterns for host names.  [ssh/known_hosts.go]: the file of known
    hosts and the check of a host's key against it.  [pkg/filepath.go] expands the
    path of the file.  Keys are those of [golang.org/x/crypto/ssh], a parameter. *)

From stdpp Require Import base list gmap strings.
From Stdlib Require Import ZArith Ascii.
From S2P Require Import Prelude GoStrings GoPath.

(** ** [match.go] *)

Section tails.
Variable f : string → bool.

(** Whether [f] holds of some tail of the string that is not empty. *)
Fixpoint some_tail (s : string) : bool :=
  match s with "" => false | String _ s' => f s || some_tail s' end.

End tails.

(** [match_glob p s]: the string [s] matches the pattern [p]. *)
Fixpoint match_glob (p s : string) : bool :=
  match p with
  | "" => bool_decide (s = "")
  | String c p' =>
      if decide (c = "*"%char) then
        match p' with
        | "" => true
        | String d _ =>
            if bool_decide (d ≠ "?"%char) && bool_decide (d ≠ "*"%char) then
              some_tail (λ s', has_prefix (String d "") s' && match_glob p' s') s
            else some_tail (match_glob p') s
        end
      else
        match s with
        | "" => false
        | String a s' => if bool_decide (c ≠ "?"%char) && bool_decide (c ≠ a) then false else match_glob p' s'
        end
  end.

Fixpoint match_subpatterns (host : string) (subpatterns : list string) (found : bool) : bool :=
  match subpatterns with
  | [] => found
  | s :: rest =>
      if has_prefix "!" s && match_glob (str_drop 1 s) host then false
      else match_subpatterns host rest (found || match_glob s host)
  end.

Definition matchHost (host pattern : string) : bool := match_subpatterns host (split_byte "," pattern) false.

(** ** Addresses *)

(** [net.JoinHostPort]: a host with a colon is put in brackets. *)
Definition JoinHostPort (host port : string) : string :=
  if has_byte ":" host || has_byte "%" host then "[" +:+ host +:+ "]:" +:+ port else host +:+ ":" +:+ port.

(** [net.SplitHostPort]. *)
Definition SplitHostPort (hostport : string) : option (string * string) :=
  match last_index_byte ":" hostport with
  | None => None
  | Some i =>
      let port := str_drop (S i) hostport in
      let '(host, j, k) :=
        if has_prefix "[" hostport then
          match index_byte "]" hostport with
          | Some e => if bool_decide (S e = i) then (Some (str_drop 1 (str_take e hostport)), 1, S e) else (None, 0, 0)
          | None => (None, 0, 0)
          end
        else
          let host := str_take i hostport in
          (if has_byte ":" host || has_byte "%" host then None else Some host, 0, 0) in
      if has_byte "[" (str_drop j hostport) || has_byte "]" (str_drop k hostport) then None else (λ h, (h, port)) <$> host
  end.

Definition sshDefaultPort : Z := 22.

Definition addrToHostPort (a : string) : option string :=
  if negb (has_byte ":" a) then Some a
  else
    match SplitHostPort a with
    | None => None
    | Some (host, p) =>
        match Atoi p with
        | None => None
        | Some port =>
            if bool_decide (port = 0%Z) || bool_decide (port = sshDefaultPort) then
              Some (if has_byte ":" host then "[" +:+ host +:+ "]" else host)
            else Some ("[" +:+ host +:+ "]:" +:+ Itoa port)
        end
    end.

Definition maybeAddDefaultPort (addr : string) : string :=
  if has_byte ":" addr then addr else JoinHostPort addr (Itoa sshDefaultPort).

(** [home] is [$HOME] or, without it, the home of the current user; [homes] the homes
    of other users. *)
Definition ParseFilepath (HOME : string) (current : option string) (homes : string → option string) (path : string) : string :=
  if negb (has_prefix "~" path) then path
  else
    let i := default (String.length path) (index_byte "/" path) in
    let home :=
      if decide (i = 1) then (if decide (HOME = "") then current else Some HOME)
      else homes (str_drop 1 (str_take i path)) in
    match home with
    | None => path
    | Some home => path_join [home; str_drop i path]
    end.

(** ** The keys *)

Definition newline : ascii := "010".

(** [gossh.PublicKey]; the line of [MarshalAuthorizedKey] is given without the newline
    that ends it. *)
Class PublicKey (K : Type) := {
  key_Type : K → string;
  key_Marshal : K → string;
  ParseAuthorizedKey : string → option K;
  MarshalAuthorizedKey : K → string
}.

Inductive line_error := MarkerLine | FewFields | HashedHosts | BadKey.

Inductive check_error := ErrUntrustHost | ErrUnmatchKey | BadAddress.

Definition algoString (algo : string) : string :=
  if decide (algo = "ssh-rsa") then "RSA"
  else if decide (algo = "ssh-dss") then "DSA"
  else if decide (algo ∈ ["ecdsa-sha2-nistp256"; "ecdsa-sha2-nistp384"; "ecdsa-sha2-nistp521"]) then "ECDSA"
  else algo.

Section known_hosts.
#[local] Open Scope go_scope.
Context `{MR : MapRange, KEY : PublicKey K}.

(** The first byte that is a tab or a blank. *)
Fixpoint index_blank (s : string) : option nat :=
  match s with
  | "" => None
  | String a s => if decide (a = "009"%char ∨ a = " "%char) then Some 0 else S <$> index_blank s
  end.

Definition blanks : string := String "009" " ".

(** [None]: a line without a key. *)
Definition parseKnownHostsLine (line : string) : res line_error (option (string * K)) :=
  let line := trim_left line blanks in
  if has_prefix "#" line || bool_decide (line = "") then Ok None
  else if has_prefix "@" line then Err MarkerLine
  else
    match index_blank line with
    | None | Some 0 => Err FewFields
    | Some e =>
        let hosts := str_take e line in
        if has_prefix "|" hosts then Err HashedHosts
        else
          match ParseAuthorizedKey (str_drop (S e) line) with
          | None => Err BadKey
          | Some key => Ok (Some (hosts, key))
          end
    end.

(** [bufio.Scanner]: lines end at newlines, a carriage return before one is dropped,
    what is left at the end is a line if it is not empty; a line of 64 KiB ends the
    scan. *)
Definition drop_cr (line : string) : string :=
  if has_suffix (String "013" "") line then str_take (String.length line - 1) line else line.

Definition too_long (line : string) : bool := bool_decide (65536 ≤ Z.of_nat (String.length line))%Z.

Fixpoint scan (lines : list string) : list string :=
  match lines with
  | [] => []
  | [last] => if bool_decide (last = "") || too_long last then [] else [drop_cr last]
  | line :: lines => if too_long line then [] else drop_cr line :: scan lines
  end.

Definition scan_lines (text : string) : list string := scan (split_byte newline text).

(** The lines of a host come in their order; lines with errors are skipped. *)
Definition add_line (hostKeys : gmap string (list K)) (line : string) : gmap string (list K) :=
  match parseKnownHostsLine line with
  | Ok (Some (hosts, key)) => <[hosts := default [] (hostKeys !! hosts) ++ [key]]> hostKeys
  | _ => hostKeys
  end.

(** A file that does not exist or cannot be opened has no keys. *)
Definition GetHostKeys (file : option string) : gmap string (list K) :=
  match file with
  | None => ∅
  | Some text => foldl add_line ∅ (scan_lines text)
  end.

Definition renderHostLine (addr : string) (key : K) : string :=
  addr +:+ String " " (MarshalAuthorizedKey key +:+ String newline "").

(** [writable]: the directory can be made, and the file opened and written to. *)
Definition PutHostKey (writable : bool) (addr : string) (key : K) (file : option string) : option string * bool :=
  if writable then (Some (default "" file +:+ renderHostLine addr key), true) else (file, false).

Definition same_key (hostKey key : K) : bool :=
  bool_decide (key_Type hostKey = key_Type key) && bool_decide (key_Marshal hostKey = key_Marshal key).

(** [None]: the key is among the keys of a pattern that matches; otherwise, whether
    such a pattern has another key. *)
Fixpoint known_loop (remoteAddr : string) (key : K) (hostKeys : list (string * list K)) (mismatched : bool) : option bool :=
  match hostKeys with
  | [] => Some mismatched
  | (pattern, keys) :: rest =>
      if negb (matchHost remoteAddr pattern) then known_loop remoteAddr key rest mismatched
      else if existsb (λ hostKey, same_key hostKey key) keys then None
      else known_loop remoteAddr key rest (mismatched || negb (bool_decide (keys = [])))
  end.

(** [trustHost] is the answer of the user, asked with the address and the algorithm. *)
Definition HostKeyChecker_Check (t : moment) (trustHost : string → string → bool) (writable : bool) (remote : string) (key : K)
    (file : option string) : option string * res check_error unit :=
  match addrToHostPort remote with
  | None => (file, Err BadAddress)
  | Some remoteAddr =>
      match known_loop remoteAddr key (range t (GetHostKeys file)) false with
      | None => (file, Ok tt)
      | Some true => (file, Err ErrUnmatchKey)
      | Some false =>
          if negb (trustHost remoteAddr (algoString (key_Type key))) then (file, Err ErrUntrustHost)
          else ((PutHostKey writable remoteAddr key file).1, Ok tt)
      end
  end.

(** [resolve] is [net.ResolveTCPAddr]. *)
Definition GetHostKeyAlgorithms (t : moment) (resolve : string → option string) (addr : string) (file : option string)
  : list string :=
  match addrToHostPort addr with
  | None => []
  | Some remoteAddr =>
      '(pattern, keys) ← range t (GetHostKeys file);
      if matchHost remoteAddr pattern
         || match resolve addr with
            | Some ip => match addrToHostPort ip with Some ipAddr => matchHost ipAddr pattern | None => false end
            | None => false
            end
      then key_Type <$> keys else []
  end.

End known_hosts.

(** ** Patterns *)

(** What a pattern means: [*] is any string, [?] any byte, other bytes themselves. *)
Inductive glob : string → string → Prop :=
| glob_nil : glob "" ""
| glob_star p s s' : glob p s' → glob (String "*" p) (s +:+ s')
| glob_any p a s : glob p s → glob (String "?" p) (String a s)
| glob_byte c p s : c ≠ "*"%char → glob p s → glob (String c p) (String c s).

(** No two stars in a row. *)
Fixpoint single_stars (p : string) : bool :=
  match p with
  | String c p' => negb (bool_decide (c = "*"%char) && has_prefix "*" p') && single_stars p'
  | "" => true
  end.

Lemma some_tail_spec f s : some_tail f s = true ↔ ∃ pre suf, s = pre +:+ suf ∧ suf ≠ "" ∧ f suf = true.
Proof.
  induction s as [|a s IH]; cbn -[String.append].
  - split; [done|]. intros (pre & suf & H & Hs & _). destruct pre, suf; done.
  - rewrite orb_true_iff, IH. split.
    + intros [H|(pre & suf & -> & Hs & H)]; [by exists "", (String a s)|by exists (String a pre), suf].
    + intros (pre & suf & H & Hs & Hf). destruct pre as [|b pre]; [rewrite str_app_nil_l in H; subst suf; by left|].
      injection H as <- ->. right. eauto.
Qed.

Lemma match_glob_glob p s : match_glob p s = true → glob p s.
Proof.
  revert s. induction p as [|c p IH]; intros s; cbn -[String.append].
  { rewrite bool_decide_eq_true. intros ->. constructor. }
  case_decide as Hc.
  - subst c. destruct p as [|d p]; [intros _; rewrite <- (str_app_nil_r s); constructor; constructor|].
    assert (some_tail (match_glob (String d p)) s = true → glob (String "*" (String d p)) s) as Ht.
    { intros (pre & suf & -> & _ & H)%some_tail_spec. constructor. by apply IH. }
    destruct (_ && _); [|done]. intros (pre & suf & -> & Hs & [_ H]%andb_prop)%some_tail_spec. apply Ht, some_tail_spec. eauto.
  - destruct s as [|a s]; [done|]. destruct (bool_decide (c ≠ "?"%char) && bool_decide (c ≠ a)) eqn:Hb; [done|].
    apply andb_false_iff in Hb as [Hb|Hb]; apply bool_decide_eq_false, dec_stable in Hb; subst c; intros H; [apply glob_any|apply glob_byte]; auto.
Qed.

Lemma match_glob_star d p s :
  match_glob (String "*" (String d p)) s =
  if bool_decide (d ≠ "?"%char) && bool_decide (d ≠ "*"%char) then
    some_tail (λ s', has_prefix (String d "") s' && match_glob (String d p) s') s
  else some_tail (match_glob (String d p)) s.
Proof. reflexivity. Qed.

Lemma glob_nonempty p s : glob p s → p ≠ "" → has_prefix "*" p = false → s ≠ "".
Proof. intros H Hp Hs. destruct H; [done|discriminate Hs|done..]. Qed.

Lemma glob_match_glob p s : single_stars p = true → glob p s → match_glob p s = true.
Proof.
  intros Hss H. induction H as [|p s s' H IH|p a s H IH|c p s Hc H IH]; [done|..]; cbn [single_stars] in Hss; apply andb_prop in Hss as [Hd Hss];
    specialize (IH Hss).
  - destruct p as [|d p]; [done|]. cbn in Hd. assert (d ≠ "*"%char) as Hne by (intros ->; done).
    assert (s' ≠ "") as Hs'. { apply (glob_nonempty _ _ H); [done|]. cbn. by rewrite bool_decide_eq_false_2. }
    rewrite match_glob_star, (bool_decide_eq_true_2 (d ≠ "*"%char)) by done. destruct (bool_decide (d ≠ "?"%char)) eqn:Hq; cbn [andb].
    + apply some_tail_spec. exists s, s'. split; [done|]. split; [done|]. rewrite IH, andb_true_r.
      apply has_prefix_spec. inversion H; subst; [done..|]. by eexists.
    + apply some_tail_spec. eauto.
  - done.
  - cbn. rewrite decide_False by done. rewrite (bool_decide_eq_false_2 (c ≠ c)) by auto. by rewrite andb_false_r.
Qed.

(** C31: [match] decides the meaning of a pattern, for patterns without two stars in a
    row; for others what it accepts is still right. *)
Theorem match_glob_equiv p s :
  (match_glob p s = true → glob p s) ∧ (single_stars p = true → glob p s → match_glob p s = true).
Proof. split; [apply match_glob_glob|apply glob_match_glob]. Qed.

(** Two stars do not match what one star matches. *)
Example match_double_star : match_glob "a**" "a" = false ∧ glob "a**" "a".
Proof.
  split; [done|]. apply glob_byte; [done|]. apply (glob_star _ "" ""), (glob_star _ "" ""). constructor.
Qed.

(** ** The file *)

(** [MarshalAuthorizedKey] gives a line, and [ParseAuthorizedKey] reads the key back. *)
Class PublicKeyLaws (K : Type) {KEY : PublicKey K} := {
  marshal_line : ∀ k : K, has_byte newline (MarshalAuthorizedKey k) = false ∧ has_byte "013" (MarshalAuthorizedKey k) = false;
  parse_marshal : ∀ k : K, ∃ k', ParseAuthorizedKey (MarshalAuthorizedKey k) = Some k' ∧
    key_Type k' = key_Type k ∧ key_Marshal k' = key_Marshal k
}.

(** An address that means only itself as a pattern, and reads back from a line. *)
Definition plain_addr (addr : string) : bool :=
  forallb (λ c, negb (has_byte c addr)) ["009"; " "; newline; "013"; ","; "*"]%char &&
  negb (existsb (λ p, has_prefix p addr) ["#"; "@"; "|"; "!"]) && bool_decide (addr ≠ "").

Lemma plain_addr_spec addr : plain_addr addr = true ↔
  has_byte "009" addr = false ∧ has_byte " " addr = false ∧ has_byte newline addr = false ∧ has_byte "013" addr = false ∧ has_byte "," addr = false ∧
  has_byte "*" addr = false ∧ has_prefix "#" addr = false ∧ has_prefix "@" addr = false ∧ has_prefix "|" addr = false ∧
  has_prefix "!" addr = false ∧ addr ≠ "".
Proof.
  unfold plain_addr. cbn -[has_byte has_prefix]. rewrite !andb_true_iff, !negb_true_iff, !orb_false_iff, bool_decide_eq_true. tauto.
Qed.

Lemma glob_self s : has_byte "*" s = false → glob s s ∧ single_stars s = true.
Proof.
  induction s as [|a s IH]; [split; [constructor|done]|]. rewrite has_byte_cons. intros [Ha Hs]%orb_false_iff.
  apply bool_decide_eq_false in Ha. destruct (IH Hs) as [IH1 IH2]. split; [by constructor|].
  cbn [single_stars]. rewrite IH2, (bool_decide_eq_false_2 (a = "*"%char)) by done. done.
Qed.

Lemma matchHost_self addr : plain_addr addr = true → matchHost addr addr = true.
Proof.
  rewrite plain_addr_spec. intros (_ & _ & _ & _ & Hc & Hs & _ & _ & _ & Hn & _). unfold matchHost.
  rewrite split_byte_no by done. cbn [match_subpatterns]. rewrite Hn. cbn. destruct (glob_self addr Hs). by apply glob_match_glob.
Qed.

Lemma index_blank_app s1 s2 : has_byte "009" s1 = false → has_byte " " s1 = false → index_blank (s1 +:+ String " " s2) = Some (String.length s1).
Proof.
  induction s1 as [|a s1 IH]; intros Ht Hb; [done|]. rewrite has_byte_cons in *. apply orb_false_iff in Ht as [Ht Ht'], Hb as [Hb Hb'].
  apply bool_decide_eq_false in Ht, Hb. rewrite str_app_cons. cbn [index_blank]. rewrite decide_False by naive_solver. by rewrite IH.
Qed.

Lemma drop_cr_none s : has_byte "013" s = false → drop_cr s = s.
Proof.
  intros H. unfold drop_cr. destruct (has_suffix _ s) eqn:Hs; [|done]. apply has_suffix_spec in Hs as [t ->].
  by rewrite has_byte_app, orb_true_r in H.
Qed.

Lemma split_byte_more c s1 s2 l : split_byte c s1 = l ++ [""] → split_byte c (s1 +:+ s2) = l ++ split_byte c s2.
Proof.
  revert l. induction s1 as [|a s1 IH]; intros l.
  - intros H. destruct l as [|x [|y l]]; [done|discriminate H..].
  - rewrite str_app_cons. cbn. case_decide.
    + intros H'. destruct l as [|x l]; [injection H'; intros H''; by apply split_byte_ne in H''|].
      injection H' as <- H'. by rewrite (IH l).
    + destruct (split_byte c s1) as [|x xs] eqn:Hs; [by apply split_byte_ne in Hs|].
      intros H'. destruct l as [|y l]; [discriminate H'|]. injection H' as <- H'. by rewrite (IH (x :: l)) by (cbn; by rewrite H').
Qed.

(** A text of whole lines, none too long for the scanner. *)
Definition tidy (text : string) : Prop :=
  ∃ l, split_byte newline text = l ++ [""] ∧ Forall (λ line, too_long line = false) l.

Lemma scan_whole l : Forall (λ line, too_long line = false) l → scan (l ++ [""]) = drop_cr <$> l.
Proof.
  induction 1 as [|line l Hl _ IH]; [done|]. cbn [app scan]. rewrite Hl, IH.
  by destruct (l ++ [""]) eqn:Hn; [destruct l|].
Qed.

Section tofu.
Context `{MR : MapRange, KEY : PublicKey K, KL : !PublicKeyLaws K}.

Definition host_line (addr : string) (key : K) : string := addr +:+ String " " (MarshalAuthorizedKey key).

Lemma parse_render addr (key : K) : plain_addr addr = true →
  ∃ k', parseKnownHostsLine (host_line addr key) = Ok (Some (addr, k')) ∧
    key_Type k' = key_Type key ∧ key_Marshal k' = key_Marshal key.
Proof.
  rewrite plain_addr_spec. intros (Ht & Hb & _ & _ & _ & _ & Hp1 & Hp2 & Hp3 & _ & Hne).
  destruct (parse_marshal key) as (k' & Hk & Hsame). exists k'. split; [|done].
  unfold parseKnownHostsLine, host_line. set (line := addr +:+ _).
  assert (trim_left line blanks = line) as ->.
  { destruct addr as [|a addr]; [done|]. rewrite has_byte_cons in Ht, Hb. apply orb_false_iff in Ht as [Ht _], Hb as [Hb _].
    subst line. rewrite str_app_cons. cbn. apply bool_decide_eq_false in Ht, Hb. by rewrite !bool_decide_eq_false_2 by done. }
  assert (∀ c, has_prefix (String c "") line = has_prefix (String c "") addr) as Hpre by (intros c; by destruct addr).
  rewrite !Hpre, Hp1, Hp2, bool_decide_eq_false_2 by (by destruct addr). cbn [orb]. subst line. rewrite index_blank_app by done.
  destruct (String.length addr) eqn:Hl; [by destruct addr|]. rewrite <- Hl, str_take_app, Hp3, str_drop_app_S. by rewrite Hk.
Qed.

Lemma GetHostKeys_put text addr (key : K) : tidy text → plain_addr addr = true → too_long (host_line addr key) = false →
  ∃ k', same_key k' key = true ∧
    GetHostKeys (Some (text +:+ renderHostLine addr key)) = <[addr := default [] (GetHostKeys (Some text) !! addr) ++ [k']]> (GetHostKeys (Some text)).
Proof.
  intros (l & Hl & Hshort) Hp Hlen. destruct (parse_render addr key Hp) as (k' & Hparse & Ht & Hm). exists k'.
  split; [unfold same_key; by rewrite Ht, Hm, !bool_decide_eq_true_2 by done|].
  apply plain_addr_spec in Hp as (_ & _ & Hn & Hcr & _). destruct (marshal_line key) as [Hkn Hkcr].
  assert (renderHostLine addr key = host_line addr key +:+ String newline "") as ->.
  { unfold renderHostLine, host_line. by rewrite str_app_assoc. }
  assert (∀ c, c ≠ " "%char → has_byte c addr = false → has_byte c (MarshalAuthorizedKey key) = false → has_byte c (host_line addr key) = false) as Hno.
  { intros c Hc H1 H2. unfold host_line. by rewrite has_byte_app, has_byte_cons, H1, H2, bool_decide_eq_false_2 by done. }
  unfold GetHostKeys, scan_lines. rewrite (split_byte_more _ _ _ _ Hl), split_byte_app by auto. cbn [split_byte].
  change (l ++ [host_line addr key; ""]) with (l ++ ([host_line addr key] ++ [""])).
  rewrite app_assoc, Hl, !scan_whole, fmap_app, foldl_app by (try apply Forall_app; auto). cbn [fmap list_fmap foldl].
  unfold add_line at 1. rewrite drop_cr_none by auto. by rewrite Hparse.
Qed.
(** ** The check *)

(** The file has this key, or some key, for the address. *)
Definition has_key (file : option string) (addr : string) (key : K) : Prop :=
  ∃ pattern keys, GetHostKeys file !! pattern = Some keys ∧ matchHost addr pattern = true ∧ ∃ k, k ∈ keys ∧ same_key k key = true.

Definition has_host (file : option string) (addr : string) : Prop :=
  ∃ pattern (keys : list K), GetHostKeys file !! pattern = Some keys ∧ matchHost addr pattern = true ∧ keys ≠ [].

Lemma known_loop_spec addr (key : K) l m :
  match known_loop addr key l m with
  | None => ∃ pattern keys, (pattern, keys) ∈ l ∧ matchHost addr pattern = true ∧ ∃ k, k ∈ keys ∧ same_key k key = true
  | Some b =>
      (∀ pattern keys k, (pattern, keys) ∈ l → matchHost addr pattern = true → k ∈ keys → same_key k key = false) ∧
      (b = true ↔ m = true ∨ ∃ pattern keys, (pattern, keys) ∈ l ∧ matchHost addr pattern = true ∧ keys ≠ [])
  end.
Proof.
  revert m. induction l as [|[pattern keys] l IH]; intros m; cbn [known_loop].
  { split; [by intros ??? ?%elem_of_nil|]. split; [by left|]. by intros [?|(? & ? & ?%elem_of_nil & _)]. }
  destruct (matchHost addr pattern) eqn:Hm; cbn [negb].
  - destruct (existsb _ keys) eqn:He.
    + apply existsb_exists in He as (k & Hk%list_elem_of_In & Hs). exists pattern, keys. split; [left|eauto].
    + assert (∀ k, k ∈ keys → same_key k key = false) as Hno.
      { intros k Hk. destruct (same_key k key) eqn:Hs; [|done]. rewrite <- He. symmetry. apply existsb_exists.
        exists k. by rewrite <- list_elem_of_In. }
      specialize (IH (m || negb (bool_decide (keys = [])))). destruct (known_loop addr key l _) as [b|].
      * destruct IH as [IH1 IH2]. split.
        -- intros p ks k [[= -> ->]|Hin]%elem_of_cons ??; [by apply Hno|by eapply IH1].
        -- rewrite IH2, orb_true_iff, negb_true_iff, bool_decide_eq_false. split.
           ++ intros [[?|?]|(p & ks & ? & ?)]; [by left|right; exists pattern, keys; split; [left|done]|right; exists p, ks; split; [by right|done]].
           ++ intros [?|(p & ks & [[= -> ->]|Hin]%elem_of_cons & ? & ?)]; [tauto|tauto|right; eauto].
      * destruct IH as (p & ks & ? & ?). exists p, ks. split; [by right|done].
  - specialize (IH m). destruct (known_loop addr key l m) as [b|].
    + destruct IH as [IH1 IH2]. split.
      * intros p ks k [[= -> ->]|Hin]%elem_of_cons ??; [congruence|by eapply IH1].
      * rewrite IH2. split; (intros [?|(p & ks & Hin & Hmp & ?)]; [by left|right; exists p, ks]); [split; [by right|done]|].
        apply elem_of_cons in Hin as [[= -> ->]|Hin]; [congruence|done].
    + destruct IH as (p & ks & ? & ?). exists p, ks. split; [by right|done].
Qed.

Lemma range_elem t {V} (m : gmap string V) k v : (k, v) ∈ range t m ↔ m !! k = Some v.
Proof. by rewrite range_perm, elem_of_map_to_list. Qed.

Lemma Check_cases t trust writable remote addr (key : K) file : addrToHostPort remote = Some addr →
  (has_key file addr key → HostKeyChecker_Check t trust writable remote key file = (file, Ok tt)) ∧
  (~ has_key file addr key → has_host file addr → HostKeyChecker_Check t trust writable remote key file = (file, Err ErrUnmatchKey)) ∧
  (~ has_host file addr → HostKeyChecker_Check t trust writable remote key file =
     if trust addr (algoString (key_Type key)) then ((PutHostKey writable addr key file).1, Ok tt) else (file, Err ErrUntrustHost)).
Proof.
  intros Ha. unfold HostKeyChecker_Check. rewrite Ha. pose proof (known_loop_spec addr key (range t (GetHostKeys file)) false) as H.
  destruct (known_loop _ _ _ _) as [b|].
  - destruct H as [Hno Hb]. assert (~ has_key file addr key) as Hnk.
    { intros (p & ks & Hl & Hm & k & Hk & Hs). apply (range_elem t) in Hl. rewrite (Hno p ks k) in Hs; done. }
    assert (b = true ↔ has_host file addr) as Hh.
    { rewrite Hb. unfold has_host. setoid_rewrite (range_elem t). naive_solver. }
    split; [intros ?; contradiction|]. destruct b.
    + split; [done|]. intros Hn. destruct Hn. by apply Hh.
    + split; [intros _ Hc; by apply Hh in Hc|]. intros _. by destruct (trust _ _).
  - destruct H as (p & ks & Hin%range_elem & Hm & k & Hk & Hs). assert (has_key file addr key) as Hh by (exists p, ks; eauto).
    split; [done|]. split; [done|]. intros []. exists p, ks. split; [done|]. split; [done|]. by intros ->; apply elem_of_nil in Hk.
Qed.
Lemma same_key_trans k (k' key : K) : same_key k' key = true → same_key k' k = same_key key k.
Proof. unfold same_key. rewrite andb_true_iff, !bool_decide_eq_true. by intros [-> ->]. Qed.

(** The check of a host's key depends on the file alone, whatever the order of its
    map: a key the file has for the address is accepted without a question; when it
    only has others, the key is refused without a question; only an address that is
    new is put to the user, and only then is the file written. *)
Theorem Check_decides t trust writable remote addr (key : K) file : addrToHostPort remote = Some addr →
  (has_key file addr key → HostKeyChecker_Check t trust writable remote key file = (file, Ok tt)) ∧
  (~ has_key file addr key → has_host file addr → HostKeyChecker_Check t trust writable remote key file = (file, Err ErrUnmatchKey)) ∧
  (~ has_host file addr → HostKeyChecker_Check t trust writable remote key file =
     if trust addr (algoString (key_Type key)) then ((PutHostKey writable addr key file).1, Ok tt) else (file, Err ErrUntrustHost)).
Proof. apply Check_cases. Qed.

Lemma GetHostKeys_default file : GetHostKeys file = GetHostKeys (K := K) (Some (default "" file)).
Proof. by destruct file. Qed.

(** The file after a key was added for a new address. *)
Lemma put_new file addr (key : K) : tidy (default "" file) → plain_addr addr = true → too_long (host_line addr key) = false →
  ~ has_host file addr →
  let file' := (PutHostKey true addr key file).1 in
  (∀ addr2 k, has_key file addr2 k → has_key file' addr2 k) ∧ ∀ k, has_key file' addr k ↔ same_key key k = true.
Proof.
  intros Htidy Hp Hlen Hnew. cbn [PutHostKey fst]. destruct (GetHostKeys_put _ addr key Htidy Hp Hlen) as (k' & Hs & Hput).
  rewrite <- GetHostKeys_default in Hput. unfold has_key. setoid_rewrite Hput. split.
  - intros addr2 k (p & ks & Hl & Hm & k2 & Hk2). destruct (decide (p = addr)) as [->|Hne].
    + exists addr, (ks ++ [k']). rewrite lookup_insert, decide_True, Hl by done. split; [done|]. split; [done|]. exists k2. set_solver.
    + exists p, ks. rewrite lookup_insert_ne by done. eauto.
  - intros k. rewrite <- (same_key_trans k k' key Hs). split.
    + intros (p & ks & Hl & Hm & k2 & Hk2 & Hs2). apply lookup_insert_Some in Hl as [[<- <-]|[Hne Hl]].
      * apply elem_of_app in Hk2 as [Hk2|Hk2%list_elem_of_singleton]; [|by subst k2].
        destruct Hnew. destruct (GetHostKeys file !! addr) as [ks|] eqn:He; [|by apply elem_of_nil in Hk2].
        exists addr, ks. split; [done|]. split; [done|]. intros ->. by apply elem_of_nil in Hk2.
      * destruct Hnew. exists p, ks. split; [done|]. split; [done|]. intros ->. by apply elem_of_nil in Hk2.
    + intros Hk. exists addr, (default [] (GetHostKeys file !! addr) ++ [k']). rewrite lookup_insert, decide_True by done. split; [done|].
      split; [by apply matchHost_self|]. exists k'. split; [|done]. apply elem_of_app. right. by apply list_elem_of_singleton.
Qed.

(** C12: a host is trusted on first use, and then only with that key: when the user
    accepts the key of a new address and it is written, that key is accepted from then
    on without a question and every other key refused; and no key the file had for
    another address is lost.  The file has to end with a newline, or be empty, and to have
    no overlong line, the address to have none of the characters that are special in a
    pattern, and the write to succeed. *)
Theorem Check_trust_on_first_use t trust remote addr (key : K) file :
  addrToHostPort remote = Some addr → tidy (default "" file) → plain_addr addr = true → too_long (host_line addr key) = false →
  ~ has_host file addr → trust addr (algoString (key_Type key)) = true →
  let file' := (HostKeyChecker_Check t trust true remote key file).1 in
  (HostKeyChecker_Check t trust true remote key file).2 = Ok tt ∧
  (∀ t' trust' writable key2, HostKeyChecker_Check t' trust' writable remote key2 file' =
     (file', if same_key key key2 then Ok tt else Err ErrUnmatchKey)) ∧
  ∀ addr2 k, has_key file addr2 k → has_key file' addr2 k.
Proof.
  intros Ha Htidy Hp Hlen Hnew Htrust. destruct (Check_cases t trust true remote addr key file Ha) as (_ & _ & H).
  rewrite (H Hnew), Htrust. destruct (put_new file addr key Htidy Hp Hlen Hnew) as [Hkeep Hkey].
  set (file' := (PutHostKey true addr key file).1) in *. cbn. split; [done|]. split; [|done].
  intros t' trust' writable key2. destruct (Check_cases t' trust' writable remote addr key2 file' Ha) as (Hyes & Hno & _).
  destruct (same_key key key2) eqn:Hs; [by apply Hyes, Hkey|]. apply Hno; [intros Hk%Hkey; congruence|].
  assert (has_key file' addr key) as (p & ks & ? & ? & k & Hk & _).
  { apply Hkey. unfold same_key. by rewrite !bool_decide_eq_true_2. }
  exists p, ks. split; [done|]. split; [done|]. intros ->. by apply elem_of_nil in Hk.
Qed.
End tofu.

(** ** Examples *)

(** Two keys. *)
Definition ex_text (k : bool) : string := if k then "ssh-rsa AAA" else "ssh-rsa BBB".

#[local] Instance ex_keys : PublicKey bool := {|
  key_Type _ := "ssh-rsa"; key_Marshal := ex_text; MarshalAuthorizedKey := ex_text;
  ParseAuthorizedKey s := if decide (s = ex_text true) then Some true else if decide (s = ex_text false) then Some false else None |}.

#[local] Instance ex_keys_laws : PublicKeyLaws bool.
Proof. split; intros []; [by split..|by exists true|by exists false]. Qed.

Example ex_addrs :
  addrToHostPort "10.0.0.1:22" = Some "10.0.0.1" ∧ addrToHostPort "10.0.0.1:2222" = Some "[10.0.0.1]:2222" ∧
  addrToHostPort "[::1]:22" = Some "[::1]" ∧ addrToHostPort "::1" = None ∧
  ParseFilepath "/home/core" None (λ _, None) "~/.fleetctl/known_hosts" = "/home/core/.fleetctl/known_hosts".
Proof. repeat split. Qed.

(** A key added to a file whose last line has no newline is lost, and so is the key of
    that line. *)
Example ex_unfinished_line :
  let file := Some "10.0.0.1 ssh-rsa AAA" in
  let file' := (PutHostKey true "10.0.0.2" false file).1 in
  GetHostKeys file = {["10.0.0.1" := [true]]} ∧ GetHostKeys (K := bool) file' = ∅.
Proof. split; vm_compute; reflexivity. Qed.

Lemma match_glob_equiv_witness : glob "10.0.*.?" "10.0.12.7".
Proof. apply match_glob_equiv. reflexivity. Defined.

Lemma Check_decides_witness :
  HostKeyChecker_Check (MR := canonical_range) [] (λ _ _, false) true "10.0.0.1:22" true None = (None, Err ErrUntrustHost).
Proof.
  destruct (Check_decides (MR := canonical_range) [] (λ _ _, false) true "10.0.0.1:22" "10.0.0.1" true None) as (_ & _ & H);
    [reflexivity|]. apply H. intros (p & ks & Hl & _). cbn in Hl. rewrite lookup_empty in Hl. discriminate Hl.
Defined.

Lemma Check_trust_on_first_use_witness :
  let file' := (HostKeyChecker_Check (MR := canonical_range) [] (λ _ _, true) true "10.0.0.1:22" true None).1 in
  HostKeyChecker_Check (MR := canonical_range) [] (λ _ _, true) true "10.0.0.1:22" false file' = (file', Err ErrUnmatchKey).
Proof.
  destruct (Check_trust_on_first_use (MR := canonical_range) [] (λ _ _, true) "10.0.0.1:22" "10.0.0.1" true None) as (_ & H & _).
  - reflexivity.
  - exists []. split; [reflexivity|constructor].
  - vm_compute. reflexivity.
  - vm_compute. reflexivity.
  - intros (p & ks & Hl & _). cbn in Hl. rewrite lookup_empty in Hl. discriminate Hl.
  - reflexivity.
  - apply (H [] (λ _ _, true) true false).
Defined.
