(* ===== verification/SshClient.v ===== *)
(** * [ssh/ssh.go], [ssh/proxy.go], [fleetctl/ssh.go], [fleetctl/fdforward.go]: commands on other machines

    What the packages [golang.org/x/crypto/ssh] and [terminal] answer is an argument;
    what the code does to sessions, the terminal and the requests to the agent is the
    state. *)

From Stdlib Require Import ZArith Lia Ascii.
From stdpp Require Import base list strings relations.
From S2P Require Import Prelude GoStrings GoPath Pkg KnownHosts.

(** ** Sessions *)

(** The process: sessions that are open, the terminal, and the connection to a machine
    with whether its agent was asked to forward already. *)
Record ssh_state := mkSsh {
  open_sessions : nat; terminal_raw : bool; agentForwarding : bool; authAgentReqSent : bool; forward_requests : nat
}.

(** What the calls of [makeSession] answer. *)
Record session_env := mkSessionEnv {
  NewSession_ok : bool; forward_ok : bool; is_terminal : bool; MakeRaw_ok : bool; GetSize_ok : bool; RequestPty_ok : bool
}.

Inductive ssh_error := NoSession | NoForwarding | NoRaw | NoSize | NoPty | NoShell | WaitError | NoAgent | TimedOut | DialFailed.

Definition ForwardAgentAuthentication (ok : bool) (s : ssh_state) : ssh_state * bool :=
  if s.(agentForwarding) && negb s.(authAgentReqSent) then
    (mkSsh s.(open_sessions) s.(terminal_raw) s.(agentForwarding) true (S s.(forward_requests)), ok)
  else (s, true).

Definition with_terminal (raw : bool) (s : ssh_state) : ssh_state :=
  mkSsh s.(open_sessions) raw s.(agentForwarding) s.(authAgentReqSent) s.(forward_requests).

Definition with_sessions (n : nat) (s : ssh_state) : ssh_state :=
  mkSsh n s.(terminal_raw) s.(agentForwarding) s.(authAgentReqSent) s.(forward_requests).

(** [finalize] of a session: it closes the session, and restores the terminal if there
    is one. *)
Definition finalize (old_state : option bool) (s : ssh_state) : ssh_state :=
  let s := with_sessions (pred s.(open_sessions)) s in
  match old_state with Some raw => with_terminal raw s | None => s end.

(** [makeSession]: the argument of [finalize], unless there is an error. *)
Definition makeSession (e : session_env) (s : ssh_state) : ssh_state * res ssh_error (option bool) :=
  if negb e.(NewSession_ok) then (s, Err NoSession)
  else
    let s := with_sessions (S s.(open_sessions)) s in
    let '(s, ok) := ForwardAgentAuthentication e.(forward_ok) s in
    if negb ok then (s, Err NoForwarding)
    else if e.(is_terminal) then
      if negb e.(MakeRaw_ok) then (s, Err NoRaw)
      else
        let oldState := s.(terminal_raw) in
        let s := with_terminal true s in
        if negb e.(GetSize_ok) then (s, Err NoSize)
        else if negb e.(RequestPty_ok) then (s, Err NoPty)
        else (s, Ok (Some oldState))
    else (s, Ok None).

(** How a remote command ends: well, with an exit status, or not at all. *)
Inductive wait_result := WaitOk | ExitStatus (n : Z) | WaitFailed.

Definition Execute (e : session_env) (w : wait_result) (s : ssh_state) : ssh_state * (option ssh_error * Z) :=
  match makeSession e s with
  | (s, Err err) => (s, (Some err, -1)%Z)
  | (s, Ok old) =>
    let s := finalize old s in
    match w with
    | WaitOk => (s, (None, 0%Z))
    | ExitStatus n => (s, (None, n))
    | WaitFailed => (s, (Some WaitError, -1)%Z)
    end
  end.

Definition Shell (e : session_env) (Shell_ok : bool) (s : ssh_state) : ssh_state * option ssh_error :=
  match makeSession e s with
  | (s, Err err) => (s, Some err)
  | (s, Ok old) => (finalize old s, if Shell_ok then None else Some NoShell)
  end.

(** ** Connections *)

(** [timeoutSSHDial]: [dial] is when dialing ends and how; dialing and the timer that end
    at the same time are in the order [dial_first]. *)
Definition timeoutSSHDial (dial : Z * res ssh_error unit) (timeout : Z) (dial_first : bool) : res ssh_error unit :=
  let '(ends, r) := dial in
  if (ends <? timeout)%Z || ((ends =? timeout)%Z && dial_first) then r else Err TimedOut.

(** The agent, the configuration for an address (the algorithms it accepts, [None]
    without a checker), and what dialing it gives. *)
Section connect.
Context {Algorithms : Type} (agent_ok signers_ok ForwardToAgent_ok : bool).
Context (algorithms : string → Algorithms).
Context (dial : string → option Algorithms → Z * res ssh_error unit).
Context (tunnel : string → Z * res ssh_error unit) (handshake : string → option Algorithms → bool).
Context (dial_first : bool).

Definition sshClientConfig (checker : bool) (addr : string) : res ssh_error (option Algorithms) :=
  if negb (agent_ok && signers_ok) then Err NoAgent
  else Ok (if checker then Some (algorithms addr) else None).

Definition newSSHForwardingClient (client : string * option Algorithms) : res ssh_error (string * option Algorithms) :=
  if negb agent_ok then Err NoAgent else if negb ForwardToAgent_ok then Err NoForwarding else Ok client.

(** The address connected to, with the algorithms used for it. *)
Definition NewSSHClient (addr : string) (checker : bool) (timeout : Z) : res ssh_error (string * option Algorithms) :=
  let addr := maybeAddDefaultPort addr in
  match sshClientConfig checker addr with
  | Err e => Err e
  | Ok config =>
    match timeoutSSHDial (dial addr config) timeout dial_first with
    | Err e => Err e
    | Ok _ => newSSHForwardingClient (addr, config)
    end
  end.

Definition NewTunnelledSSHClient (tunaddr tgtaddr : string) (checker : bool) (timeout : Z)
  : res ssh_error (string * option Algorithms) :=
  let tunaddr := maybeAddDefaultPort tunaddr in
  let tgtaddr := maybeAddDefaultPort tgtaddr in
  match sshClientConfig checker tunaddr with
  | Err e => Err e
  | Ok config =>
    match timeoutSSHDial (dial tunaddr config) timeout dial_first with
    | Err e => Err e
    | Ok _ =>
      match timeoutSSHDial (tunnel tgtaddr) timeout dial_first with
      | Err e => Err e
      | Ok _ =>
        if negb (handshake tgtaddr config) then Err DialFailed
        else newSSHForwardingClient (tgtaddr, config)
      end
    end
  end.

(** [fmt.Sprintf(" %q", arg)] for arguments of printable ASCII without quotes and
    backslashes, which is what fleetctl passes. *)
Definition quoted (arg : string) : string := " " +:+ dquote +:+ arg +:+ dquote.

(** [runRemoteCommand]: the command as the other machine gets it, and the exit code. *)
Definition runRemoteCommand (tun addr : string) (checker : bool) (timeout : Z) (cmd : string) (args : list string)
    (e : session_env) (run : string → wait_result) (s : ssh_state) : ssh_state * (option ssh_error * Z) :=
  match (if bool_decide (tun = "") then NewSSHClient addr checker timeout else NewTunnelledSSHClient tun addr checker timeout) with
  | Err err => (s, (Some err, -1)%Z)
  | Ok _ => Execute e (run (foldl (λ c arg, c +:+ quoted arg) cmd args)) s
  end.

(** [runSSH] from the connection on. *)
Definition runSSH_connected (tun addr : string) (checker : bool) (timeout : Z) (args : list string)
    (e : session_env) (run : string → wait_result) (Shell_ok : bool) (s : ssh_state) : ssh_state * Z :=
  match (if bool_decide (tun = "") then NewSSHClient addr checker timeout else NewTunnelledSSHClient tun addr checker timeout) with
  | Err _ => (s, 1%Z)
  | Ok _ =>
    match args with
    | [] => let '(s, err) := Shell e Shell_ok s in (s, match err with Some _ => 1%Z | None => 0%Z end)
    | _ => let '(s, (_, exit)) := Execute e (run (join_byte " "%char args)) s in (s, exit)
    end
  end.
End connect.

(** [runLocalCommand]. *)
Definition runLocalCommand (w : wait_result) : option ssh_error * Z :=
  match w with WaitOk => (None, 0) | ExitStatus n => (None, n) | WaitFailed => (Some WaitError, -1) end%Z.

(** [runFDForward]: what the address, the socket and the copy that ends first give. *)
Definition runFDForward (args : list string) (resolve_ok dial_ok copy_ok : bool) : Z :=
  match args with
  | [_] => if negb resolve_ok then 1 else if negb dial_ok then 0 else if negb copy_ok then 1 else 0
  | _ => 1
  end%Z.

(** ** [proxy.go]: a command as a connection

    The goroutine that waits for the command: still waiting, blocked with an error to
    hand over, or done. *)
Inductive proxy_wait {E : Type} := CommandRuns | HasError (e : E) | Closed.
Arguments proxy_wait : clear implicits.

(** What the calls of [DialCommand] answer. *)
Record command_env := mkCommandEnv {
  CNewSession_ok : bool; StdoutPipe_ok : bool; StdinPipe_ok : bool; Cforward_ok : bool; Start_ok : bool
}.

Definition DialCommand (e : command_env) (s : ssh_state) : ssh_state * bool :=
  if negb e.(CNewSession_ok) then (s, false)
  else
    let s := with_sessions (S s.(open_sessions)) s in
    if negb e.(StdoutPipe_ok) then (with_sessions (pred s.(open_sessions)) s, false)
    else if negb e.(StdinPipe_ok) then (with_sessions (pred s.(open_sessions)) s, false)
    else
      let '(s, ok) := ForwardAgentAuthentication e.(Cforward_ok) s in
      if negb ok then (with_sessions (pred s.(open_sessions)) s, false)
      else if negb e.(Start_ok) then (with_sessions (pred s.(open_sessions)) s, false)
      else (s, true).

(** [Close]; closing twice closes nothing more. *)
Definition proxyConn_Close (closed : bool) (s : ssh_state) : ssh_state :=
  if closed then s else with_sessions (pred s.(open_sessions)) s.

(** [Read]: what the reader gives, [Blocked] while the command runs. *)
Definition proxyConn_Read {E} (reader : nat * option E) (w : proxy_wait E) : outcome (proxy_wait E * (nat * option E)) :=
  match reader with
  | (n, None) => Done (w, (n, None))
  | (n, Some err) =>
    match w with
    | CommandRuns => Blocked
    | HasError perr => Done (Closed, (n, Some perr))
    | Closed => Done (Closed, (n, Some err))
    end
  end.

(** ** What is left behind *)

(** A command that cannot be started leaves no session behind, and one that is closed
    none either. *)
Theorem DialCommand_closes e s : let '(s', ok) := DialCommand e s in
  open_sessions s' = open_sessions s + (if ok then 1 else 0) ∧ terminal_raw s' = terminal_raw s ∧
  (ok = true → open_sessions (proxyConn_Close false s') = open_sessions s).
Proof.
  destruct e as [[] [] [] [] []], s as [n raw [] [] r]; cbn; split_and!; try done; lia.
Qed.

(** The terminal was made raw and the session was refused a size or a terminal. *)
Definition abandoned (e : session_env) (s : ssh_state) : bool :=
  e.(NewSession_ok) && (if s.(agentForwarding) && negb s.(authAgentReqSent) then e.(forward_ok) else true)
  && e.(is_terminal) && e.(MakeRaw_ok) && negb (e.(GetSize_ok) && e.(RequestPty_ok)).

(** Running a command closes its session and leaves the terminal as it was, and gives
    the exit status of the command, when the session can be made.  When it cannot, the
    session stays open; and when only the size or the remote terminal is refused, the
    terminal of the user stays raw. *)
Theorem Execute_restores e w s :
  let '(s', (err, exit)) := Execute e w s in
  (s'.(terminal_raw) = s.(terminal_raw) ∨ abandoned e s = true ∧ s'.(terminal_raw) = true) ∧
  (abandoned e s = true → s'.(terminal_raw) = true ∧ s'.(open_sessions) = S s.(open_sessions) ∧ err ≠ None) ∧
  (err = None → s'.(open_sessions) = s.(open_sessions) ∧ s'.(terminal_raw) = s.(terminal_raw) ∧
     (w = WaitOk ∧ exit = 0%Z ∨ w = ExitStatus exit)) ∧
  (err ≠ None → exit = (-1)%Z).
Proof.
  unfold Execute, makeSession, ForwardAgentAuthentication, abandoned.
  destruct s as [n raw fwd sent k], e as [ns fw it mr gs rp]. cbn.
  destruct ns, fwd, sent, fw, it, mr, gs, rp, w; cbn; split_and!; auto; try done; naive_solver.
Qed.

(** The agent is asked to forward at most once on a connection, and only if the user
    wants it, however many sessions are made. *)
Theorem forward_once (s : ssh_state) (runs : list (session_env * wait_result)) :
  s.(authAgentReqSent) = false → s.(forward_requests) = 0 →
  let s' := foldl (λ s '(e, w), (Execute e w s).1) s runs in
  s'.(agentForwarding) = s.(agentForwarding) ∧ s'.(forward_requests) ≤ 1 ∧
  (s.(agentForwarding) = false → s'.(forward_requests) = 0).
Proof.
  intros Hsent H0.
  assert (Hinv : ∀ s1, s1.(agentForwarding) = s.(agentForwarding) ∧
    s1.(forward_requests) = (if s1.(authAgentReqSent) then 1 else 0) ∧ (s1.(agentForwarding) = false → s1.(authAgentReqSent) = false) →
    let s' := foldl (λ s '(e, w), (Execute e w s).1) s1 runs in
    s'.(agentForwarding) = s.(agentForwarding) ∧
    s'.(forward_requests) = (if s'.(authAgentReqSent) then 1 else 0) ∧ (s'.(agentForwarding) = false → s'.(authAgentReqSent) = false)).
  { induction runs as [|[e w] runs IH]; intros s1 Hs1; [done|]. cbn [foldl]. apply IH. clear IH.
    unfold Execute, makeSession, ForwardAgentAuthentication. destruct s1 as [n raw fwd sent k], e as [ns fw it mr gs rp]. cbn in *.
    destruct Hs1 as (<- & -> & Hf). destruct ns, fwd, sent, fw, it, mr, gs, rp, w; cbn; auto; naive_solver. }
  destruct (Hinv s) as (H1 & H2 & H3). { rewrite Hsent, H0. auto. }
  cbn zeta. split_and!; [done| |].
  - rewrite H2. case_match; lia.
  - intros Hf. rewrite H2. rewrite H1 in H3. by rewrite (H3 Hf).
Qed.

(** The error of a command is handed over once: reading again gives the error of the
    pipe. *)
Lemma proxyConn_Read_once {E} n (err perr : E) m (err' : E) :
  proxyConn_Read (n, Some err) (HasError perr) = Done (Closed, (n, Some perr)) ∧
  proxyConn_Read (m, Some err') Closed = Done (Closed, (m, Some err')).
Proof. done. Qed.

(** A connection through a tunnel is made with the algorithms of the tunnel, not with
    those of the machine that is connected to. *)
Theorem tunnel_algorithms {A} agent_ok signers_ok fwd_ok (algorithms : string → A) dial tunnel handshake first tunaddr tgtaddr timeout r :
  NewTunnelledSSHClient agent_ok signers_ok fwd_ok algorithms dial tunnel handshake first tunaddr tgtaddr true timeout = Ok r →
  r = (maybeAddDefaultPort tgtaddr, Some (algorithms (maybeAddDefaultPort tunaddr))).
Proof.
  unfold NewTunnelledSSHClient, sshClientConfig, newSSHForwardingClient. destruct (agent_ok && signers_ok); cbn; [|done].
  destruct (timeoutSSHDial (dial _ _) timeout first); [|done]. destruct (timeoutSSHDial (tunnel _) timeout first); [|done].
  destruct (handshake _ _); cbn; [|done]. destruct agent_ok, fwd_ok; cbn; try done. by intros [= <-].
Qed.

(** Fd-forward ends with success when the socket cannot be dialed. *)
Theorem fd_forward_hides_failure to : runFDForward [to] true false true = 0%Z.
Proof. done. Qed.

Lemma forward_once_witness :
  let s := mkSsh 0 false true false 0 in
  let e := mkSessionEnv true true true true false true in
  let s' := foldl (λ s '(e, w), (Execute e w s).1) s [(e, WaitOk); (e, WaitOk)] in
  s'.(agentForwarding) = s.(agentForwarding) ∧ s'.(forward_requests) ≤ 1 ∧ (s.(agentForwarding) = false → s'.(forward_requests) = 0).
Proof. apply forward_once; reflexivity. Defined.
