(* ===== verification/UnitFile.v ===== *)
(** * Package [unit]: unit files, their names and their hashes

    [unit/unit.go].  A unit file keeps its options in order and the same
    options indexed by section and name.  The serializer and the parser of [go-systemd]
    ([vendor/github.com/coreos/go-systemd/unit]) are modelled from their source; SHA-1
    is a parameter. *)

From stdpp Require Import base list gmap strings.
From Stdlib Require Import Ascii NArith.
From S2P Require Import Prelude GoStrings.
#[local] Open Scope go_scope.

(** ** Options and unit files *)

Record UnitOption := mkUnitOption {
  Section_ : string;
  OptName : string;
  OptValue : string
}.

#[export] Instance UnitOption_eq_dec : EqDecision UnitOption.
Proof. solve_decision. Defined.

Abbreviation contents := (gmap string (gmap string (list string))).

Record UnitFile := mkUnitFile {
  Contents : contents;
  Options : list UnitOption
}.

#[export] Instance UnitFile_eq_dec : EqDecision UnitFile.
Proof. solve_decision. Defined.

(** [u.Contents[section][name]]: a missing key reads as an empty slice. *)
Definition option_values (c : contents) (section name : string) : list string :=
  default [] (default ∅ (c !! section) !! name).

(** The loop of [parseMultivalueLine]: [w] says whether the position is within
    quotes, [v] is the value being collected. *)
Fixpoint parse_multivalue (w : bool) (v : string) (line : string) : list string :=
  match line with
  | "" => [v]
  | String e line =>
      if decide (e = "034"%char) then parse_multivalue (negb w) v line
      else if bool_decide (e = " "%char) && negb w then v :: parse_multivalue w "" line
      else parse_multivalue w (v +:+ String e "") line
  end.

Definition parseMultivalueLine (line : string) : list string :=
  if negb (has_prefix dquote line) || negb (has_suffix dquote line) then [line]
  else parse_multivalue false "" line.

Definition option_vals (opt : UnitOption) : list string :=
  if decide (opt.(Section_) = "X-Fleet") then parseMultivalueLine opt.(OptValue)
  else [opt.(OptValue)].

Definition mapOptions (opts : list UnitOption) : contents :=
  foldl (λ c opt,
    let sec := default ∅ (c !! opt.(Section_)) in
    let old := default [] (sec !! opt.(OptName)) in
    <[opt.(Section_) := <[opt.(OptName) := old ++ option_vals opt]> sec]> c) ∅ opts.

Definition NewUnitFromOptions (opts : list UnitOption) : UnitFile :=
  mkUnitFile (mapOptions opts) opts.

(** The zero value of [UnitFile]. *)
Definition empty_UnitFile : UnitFile := mkUnitFile ∅ [].

Definition UnitFile_Description (u : UnitFile) : string :=
  match option_values u.(Contents) "Unit" "Description" with
  | v :: _ => v
  | [] => ""
  end.

(** ** Serialization ([go-systemd/unit/serialize.go])

    The options are grouped by section; sections appear in the order of their
    first option. *)

Definition newline : string := String "010"%char "".

Fixpoint seen_sections (seen : list string) (opts : list UnitOption) : list string :=
  match opts with
  | [] => []
  | opt :: opts =>
      if decide (opt.(Section_) ∈ seen) then seen_sections seen opts
      else opt.(Section_) :: seen_sections (opt.(Section_) :: seen) opts
  end.

Definition write_option (opt : UnitOption) : string :=
  opt.(OptName) +:+ "=" +:+ opt.(OptValue) +:+ newline.

Definition write_section (opts : list UnitOption) (sect : string) : string :=
  "[" +:+ sect +:+ "]" +:+ newline +:+
  str_concat (write_option <$> filter (λ o, o.(Section_) = sect) opts).

Fixpoint write_sections (opts : list UnitOption) (sections : list string) : string :=
  match sections with
  | [] => ""
  | [sect] => write_section opts sect
  | sect :: rest => write_section opts sect +:+ newline +:+ write_sections opts rest
  end.

Definition Serialize (opts : list UnitOption) : string :=
  write_sections opts (seen_sections [] opts).

Definition UnitFile_Bytes (u : UnitFile) : string := Serialize u.(Options).
Definition UnitFile_String (u : UnitFile) : string := UnitFile_Bytes u.

(** ** Hashes *)

(** SHA-1, from bytes to 20 bytes. *)
Class Digest := {
  sha1_sum : string → string;
  sha1_length : ∀ s, String.length (sha1_sum s) = 20
}.

(** ** Parsing ([go-systemd/unit/deserialize.go])

    The lexer reads through a [bufio.Reader] over the text: [rd_data] is what is left
    to read, of which the first [rd_buffered] bytes are in the buffer.  How full the
    buffer is decides whether a line is found to be too long. *)

Definition SYSTEMD_LINE_MAX : nat := 2 ^ 11.
Definition bufio_size : nat := 2 ^ 12.

Record reader := mkReader { rd_data : string; rd_buffered : nat }.

(** [utf8.FullRune] *)
Definition full_rune (s : string) : bool :=
  match s with
  | "" => false
  | String a _ =>
      let b0 := N_of_ascii a in
      let n := String.length s in
      let need := if between 194 223 b0 then 2 else if between 224 239 b0 then 3 else if between 240 244 b0 then 4 else 1 in
      bool_decide (need ≤ n)
      || bool_decide (2 ≤ n) && negb (between (if (b0 =? 224)%N then 160 else if (b0 =? 240)%N then 144 else 128)
                                              (if (b0 =? 237)%N then 159 else if (b0 =? 244)%N then 143 else 191) (byte_at s 1))
      || bool_decide (3 ≤ n) && negb (between 128 191 (byte_at s 2))
  end.

(** [Reader.ReadRune]: the rune, its bytes, and the reader behind it; [None] at the end
    of the text.  It fills the buffer if there is no full rune in it. *)
Definition ReadRune (rd : reader) : option (N * string * reader) :=
  let n :=
    if bool_decide (rd.(rd_buffered) < 4) && negb (full_rune (str_take rd.(rd_buffered) rd.(rd_data)))
    then String.length rd.(rd_data) `min` bufio_size else rd.(rd_buffered) in
  match rd.(rd_data) with
  | "" => None
  | d => let '(r, w) := decode_rune d in Some (r, str_take w d, mkReader (str_drop w d) (n - w))
  end.

(** What [Buffer.WriteRune] writes for a rune that was read from these bytes: an invalid
    byte becomes U+FFFD. *)
Definition WriteRune (r : N) (bytes : string) : string :=
  if (r =? RuneError)%N && bool_decide (String.length bytes = 1)
  then String "239"%char (String "191"%char (String "189"%char "")) else bytes.

(** [Reader.ReadBytes]: what was read, whether the text ended before [delim], and the
    reader.  A text longer than the buffer is read in pieces of its size. *)
Definition ReadBytes (delim : ascii) (rd : reader) : string * bool * reader :=
  let d := rd.(rd_data) in
  match index_byte delim d with
  | None => (d, true, mkReader "" 0)
  | Some i =>
      let n :=
        if bool_decide (S i ≤ rd.(rd_buffered)) then rd.(rd_buffered) - S i
        else let read := i / bufio_size * bufio_size in
             (String.length d - read) `min` bufio_size - (S i - read) in
      (str_take (S i) d, false, mkReader (str_drop (S i) d) n)
  end.

(** [bytes.TrimSuffix] *)
Definition TrimSuffix (s suf : string) : string :=
  if has_suffix suf s then str_take (String.length s - String.length suf) s else s.

Definition carriage_return : string := String "013"%char "".
Definition backslash : string := String "092"%char "".

Definition toEOL (rd : reader) : string * bool * reader :=
  let '(line, eof, rd) := ReadBytes "010"%char rd in
  (TrimSuffix (TrimSuffix line carriage_return) newline, eof, rd).

Definition isComment (r : N) : bool := (r =? 35)%N || (r =? 59)%N.

(** The functions that the lexer goes on with. *)
Inductive lexStep :=
| lexNextSection
| lexSectionName
| lexSectionSuffix (section : string)
| lexNextSectionOrOption (section : string)
| lexOptionName (section : string)
| lexOptionValue (section name partial : string)
| ignoreLine (section : option string).

(** [l.lexNextSection], or [lexNextSectionOrOptionFunc] of a section. *)
Definition ignored_next (section : option string) : lexStep :=
  match section with None => lexNextSection | Some section => lexNextSectionOrOption section end.

(** The loop of [ignoreLineFunc]; every turn but the last reads a byte. *)
Fixpoint ignore_lines (fuel : nat) (rd : reader) : reader :=
  match fuel with
  | O => rd
  | S fuel =>
      let '(line, _, rd) := toEOL rd in
      if has_suffix backslash (TrimSuffix line " ") then ignore_lines fuel rd else rd
  end.

(** The loop of [lexOptionNameFunc]; every turn reads a byte. *)
Fixpoint read_name (fuel : nat) (partial : string) (rd : reader) : res string (string * reader) :=
  match fuel with
  | O => Err "EOF"
  | S fuel =>
      match ReadRune rd with
      | None => Err "EOF"
      | Some (r, b, rd) =>
          if (r =? 10)%N || (r =? 13)%N then Err "unexpected newline encountered while parsing option name"
          else if (r =? 61)%N then Ok (partial, rd)
          else read_name fuel (partial +:+ WriteRune r b) rd
      end
  end.

(** A step: the next one, [None] at the end, the reader, and the option that was sent. *)
Definition lex_step (st : lexStep) (rd : reader) : res string (option lexStep * reader * option UnitOption) :=
  match st with
  | lexNextSection =>
      match ReadRune rd with
      | None => Ok (None, rd, None)
      | Some (r, _, rd) =>
          Ok (Some (if (r =? 91)%N then lexSectionName else if isComment r then ignoreLine None else lexNextSection), rd, None)
      end
  | lexSectionName =>
      let '(sec, eof, rd) := ReadBytes "093"%char rd in
      if eof : bool then Err "unable to find end of section"
      else Ok (Some (lexSectionSuffix (str_take (String.length sec - 1) sec)), rd, None)
  | lexSectionSuffix section =>
      let '(garbage, _, rd) := toEOL rd in
      if bool_decide (trim_space garbage = "") then Ok (Some (lexNextSectionOrOption section), rd, None)
      else Err "found garbage after section name"
  | ignoreLine section => Ok (Some (ignored_next section), ignore_lines (S (String.length rd.(rd_data))) rd, None)
  | lexNextSectionOrOption section =>
      match ReadRune rd with
      | None => Ok (None, rd, None)
      | Some (r, b, rd') =>
          if is_space r then Ok (Some (lexNextSectionOrOption section), rd', None)
          else if (r =? 91)%N then Ok (Some lexSectionName, rd', None)
          else if isComment r then Ok (Some (ignoreLine (Some section)), rd', None)
          else Ok (Some (lexOptionName section), mkReader rd.(rd_data) (String.length b + rd'.(rd_buffered)), None)
      end
  | lexOptionName section =>
      let* (name, rd) := read_name (S (String.length rd.(rd_data))) "" rd in
      Ok (Some (lexOptionValue section (trim_space name) ""), rd, None)
  | lexOptionValue section name partial =>
      let '(line, eof, rd) := toEOL rd in
      let blank := bool_decide (trim_space line = "") in
      let partial := if blank then partial else partial +:+ line in
      if negb blank && bool_decide (last_index_byte "092" line = Some (String.length line - 1))
      then Ok (Some (lexOptionValue section name (if eof : bool then partial else partial +:+ newline)), rd, None)
      else
        let val := if has_suffix newline partial then trim_space partial +:+ newline else trim_space partial in
        Ok (Some (lexNextSectionOrOption section), rd, Some (mkUnitOption section name val))
  end.

(** The check of [lex] before every step. *)
Definition line_too_long (rd : reader) : bool :=
  bool_decide (SYSTEMD_LINE_MAX ≤ rd.(rd_buffered)) &&
  (let line := str_take SYSTEMD_LINE_MAX rd.(rd_data) in negb (has_byte "010" line || has_byte "013" line)).

(** [lex]; [None] is out of fuel. *)
Fixpoint lex (fuel : nat) (st : lexStep) (rd : reader) (opts : list UnitOption) : option (res string (list UnitOption)) :=
  match fuel with
  | O => None
  | S fuel =>
      if line_too_long rd then Some (Err "line too long (max 2048 bytes)")
      else match lex_step st rd with
           | Err e => Some (Err e)
           | Ok (next, rd, opt) =>
               let opts := opts ++ option_list opt in
               match next with
               | None => Some (Ok opts)
               | Some st => lex fuel st rd opts
               end
           end
  end.

(** The fuel is enough: see [Deserialize_ends]. *)
Definition lex_fuel (raw : string) : nat := 3 * String.length raw + 3.

Definition Deserialize (raw : string) : res string (list UnitOption) :=
  default (Err "") (lex (lex_fuel raw) lexNextSection (mkReader raw 0) []).

Definition NewUnitFile (raw : string) : res string UnitFile :=
  let* opts := Deserialize raw in Ok (NewUnitFromOptions opts).

(** A [Hash] is an array of 20 bytes. *)
Abbreviation Hash := string.

Definition UnitFile_Hash `{Digest} (u : UnitFile) : Hash := sha1_sum (UnitFile_Bytes u).

Definition MatchUnitFiles `{Digest} (a b : UnitFile) : bool :=
  bool_decide (UnitFile_Hash a = UnitFile_Hash b).

Definition hex_digit (n : N) : ascii :=
  if (n <? 10)%N then ascii_of_N (48 + n) else ascii_of_N (87 + n).

Definition hex_value (a : ascii) : option N :=
  let n := N_of_ascii a in
  if between 48 57 n then Some (n - 48)%N
  else if between 97 102 n then Some (n - 87)%N
  else if between 65 70 n then Some (n - 55)%N
  else None.

(** [Hash.String] prints the bytes in lower-case hexadecimal. *)
Fixpoint Hash_String (h : Hash) : string :=
  match h with
  | "" => ""
  | String a h =>
      String (hex_digit (N_of_ascii a / 16)) (String (hex_digit (N_of_ascii a mod 16)) (Hash_String h))
  end.

Definition Hash_Short (h : Hash) : string := str_take 7 (Hash_String h).

Fixpoint zero_bytes (n : nat) : string :=
  match n with O => "" | S n => String "000"%char (zero_bytes n) end.

Definition Hash_Empty (h : Hash) : bool := bool_decide (h = zero_bytes 20).

(** [hex.DecodeString] *)
Fixpoint hex_decode (s : string) : option string :=
  match s with
  | "" => Some ""
  | String a (String b s) =>
      match hex_value a, hex_value b, hex_decode s with
      | Some x, Some y, Some r => Some (String (ascii_of_N (x * 16 + y)) r)
      | _, _, _ => None
      end
  | _ => None
  end.

Inductive hash_error := BadHex | BadHashSize (n : nat).

Definition HashFromHexString (key : string) : res hash_error Hash :=
  match hex_decode key with
  | None => Err BadHex
  | Some out =>
      if decide (String.length out = 20) then Ok out
      else Err (BadHashSize (String.length out))
  end.

(** ** Unit types and names *)

Definition recognized_types : list string :=
  ["service"; "socket"; "timer"; "path"; "device"; "mount"; "automount"].

Definition RecognizedUnitType (name : string) : bool :=
  existsb (λ t, has_suffix (String "."%char t) name) recognized_types.

Definition DefaultUnitType (name : string) : string := name +:+ ".service".

Record UnitState := mkUnitState {
  LoadState : string;
  ActiveState : string;
  SubState : string;
  UsMachineID : string;
  UnitHash : string;
  UnitName : string
}.

#[export] Instance UnitState_eq_dec : EqDecision UnitState.
Proof. solve_decision. Defined.

Definition NewUnitState (loadState activeState subState mID : string) : UnitState :=
  mkUnitState loadState activeState subState mID "" "".

Record UnitNameInfo := mkUnitNameInfo {
  FullName : string;
  NName : string;
  Prefix : string;
  Template : string;
  Instance_ : string
}.

Definition IsInstance (nu : UnitNameInfo) : bool := bool_decide (nu.(Instance_) ≠ "").

Definition IsTemplate (nu : UnitNameInfo) : bool :=
  bool_decide (nu.(Template) ≠ "") && negb (IsInstance nu).

(** [nil] is [None]. *)
Definition NewUnitNameInfo (un : string) : option UnitNameInfo :=
  match last_index_byte "." un with
  | None => None
  | Some s =>
      let name := str_take s un in
      let suffix := str_drop s un in
      match index_byte "@" name with
      | None => Some (mkUnitNameInfo un name name "" "")
      | Some a =>
          Some (mkUnitNameInfo un name (str_take a name)
                  (str_take a name +:+ "@" +:+ suffix) (str_drop (S a) name))
      end
  end.

(** ** Contents of a unit file *)

Lemma option_values_insert c section name vals section' name' :
  option_values (<[section := <[name := vals]> (default ∅ (c !! section))]> c) section' name' =
  if decide (section = section' ∧ name = name') then vals
  else option_values c section' name'.
Proof.
  unfold option_values. destruct (decide (section = section')) as [->|Hs].
  - rewrite lookup_insert_eq. cbn. destruct (decide (name = name')) as [->|Hn].
    + by rewrite lookup_insert_eq, decide_True.
    + rewrite lookup_insert_ne by done. rewrite decide_False; [done|tauto].
  - rewrite lookup_insert_ne by done. rewrite decide_False; [done|tauto].
Qed.

(** The values of an option are the values of its lines, in order. *)
Lemma mapOptions_values opts section name :
  option_values (mapOptions opts) section name =
  concat (option_vals <$> filter (λ o, o.(Section_) = section ∧ o.(OptName) = name) opts).
Proof.
  unfold mapOptions. induction opts as [|opt opts IH] using rev_ind; [done|].
  rewrite foldl_app, filter_app, fmap_app, concat_app. cbn [foldl].
  rewrite option_values_insert, filter_cons, filter_nil.
  case_decide as Hd.
  - destruct Hd as [<- <-]. rewrite <- IH. cbn [fmap list_fmap concat]. by rewrite app_nil_r.
  - cbn. by rewrite app_nil_r.
Qed.

(** Which sections and names are present at all. *)
Lemma mapOptions_lookup_is_Some opts section name :
  is_Some (default ∅ (mapOptions opts !! section) !! name) ↔
  ∃ o, o ∈ opts ∧ o.(Section_) = section ∧ o.(OptName) = name.
Proof.
  unfold mapOptions. induction opts as [|opt opts IH] using rev_ind.
  { cbn. rewrite lookup_empty. cbn. rewrite lookup_empty. split; [by intros []|].
    intros (o & Ho & _). by apply elem_of_nil in Ho. }
  rewrite foldl_app. cbn [foldl].
  transitivity ((opt.(Section_) = section ∧ opt.(OptName) = name) ∨
    is_Some (default ∅ (mapOptions opts !! section) !! name)).
  - fold (mapOptions opts). destruct (decide (Section_ opt = section)) as [<-|Hs].
    + rewrite lookup_insert_eq. cbn. rewrite lookup_insert_is_Some'. tauto.
    + rewrite lookup_insert_ne by done. tauto.
  - rewrite IH. setoid_rewrite elem_of_app. setoid_rewrite list_elem_of_singleton. split.
    + intros [Ho|(o & Ho & Hs)]; [exists opt|exists o]; auto.
    + intros (o & [Ho| ->] & Hs); [right; by exists o|by left].
Qed.

(** ** Values written in quotes *)

(** A line made of quoted values separated by single spaces. *)
Definition quote (v : string) : string := dquote +:+ v +:+ dquote.

Lemma parse_multivalue_quoted v u rest :
  has_byte "034" u = false →
  parse_multivalue true v (u +:+ rest) = parse_multivalue true (v +:+ u) rest.
Proof.
  revert v. induction u as [|a u IH]; intros v Hq.
  { by rewrite str_app_nil_r, str_app_nil_l. }
  rewrite has_byte_cons, orb_false_iff, bool_decide_eq_false in Hq. destruct Hq as [Ha Hq].
  specialize (IH (v +:+ String a "") Hq). rewrite str_app_assoc in IH.
  rewrite str_app_cons. cbn [parse_multivalue].
  rewrite decide_False by done. by rewrite andb_false_r.
Qed.

Lemma parse_multivalue_quote v rest :
  has_byte "034" v = false →
  parse_multivalue false "" (quote v +:+ rest) = parse_multivalue false v rest.
Proof.
  intros Hq. unfold quote, dquote.
  change (String "034" "" +:+ v +:+ String "034" "") with
    (String "034"%char (v +:+ String "034"%char "")).
  rewrite str_app_cons, str_app_assoc. cbn [parse_multivalue negb].
  rewrite decide_True by done. cbn [negb].
  rewrite parse_multivalue_quoted, str_app_nil_l by done.
  change (String "034" "" +:+ rest) with (String "034"%char rest).
  cbn [parse_multivalue]. by rewrite decide_True.
Qed.

Lemma parse_multivalue_join vs :
  vs ≠ [] → Forall (λ v, has_byte "034" v = false) vs →
  parse_multivalue false "" (join_byte " " (quote <$> vs)) = vs.
Proof.
  intros Hne Hvs. induction vs as [|v [|v' vs] IH]; [done| |].
  - apply Forall_cons in Hvs as [Hv _]. cbn [fmap list_fmap join_byte].
    rewrite <- (str_app_nil_r (quote v)). by rewrite parse_multivalue_quote.
  - apply Forall_cons in Hvs as [Hv Hvs]. cbn [fmap list_fmap join_byte].
    rewrite parse_multivalue_quote by done. cbn [parse_multivalue].
    rewrite decide_False by done. cbn. f_equal. by apply IH.
Qed.

Lemma join_quoted_ends vs :
  vs ≠ [] →
  has_prefix dquote (join_byte " " (quote <$> vs)) = true ∧
  has_suffix dquote (join_byte " " (quote <$> vs)) = true.
Proof.
  intros Hne. rewrite has_prefix_spec, has_suffix_spec.
  induction vs as [|v [|v' vs] IH]; [done| |].
  - cbn. unfold quote. split; [by eexists|]. exists (dquote +:+ v). by rewrite str_app_assoc.
  - destruct IH as [_ [t Ht]]; [done|].
    cbn [fmap list_fmap join_byte] in *. split.
    + unfold quote at 1. eexists. by rewrite str_app_assoc.
    + unfold join_byte in Ht |- *. fold join_byte in *. rewrite Ht.
      exists (quote v +:+ String " "%char t). by rewrite str_app_assoc, str_app_cons.
Qed.

(** ** Hexadecimal *)

Lemma hex_value_digit n : (n < 16)%N → hex_value (hex_digit n) = Some n.
Proof.
  intros Hn. assert (n ∈ (N.of_nat <$> seq 0 16)) as Hin.
  { apply list_elem_of_fmap. exists (N.to_nat n). rewrite N2Nat.id. split; [done|].
    apply elem_of_seq. lia. }
  assert (forallb (λ n, bool_decide (hex_value (hex_digit n) = Some n))
            (N.of_nat <$> seq 0 16) = true) as Hall by (vm_compute; reflexivity).
  rewrite forallb_elem in Hall. by apply Hall, bool_decide_eq_true in Hin.
Qed.

Lemma hex_decode_String h : hex_decode (Hash_String h) = Some h.
Proof.
  induction h as [|a h IH]; [done|]. cbn [Hash_String hex_decode].
  pose proof (N_ascii_bounded a) as Hb.
  rewrite !hex_value_digit, IH; [|apply N.mod_lt; lia|apply N.Div0.div_lt_upper_bound; lia].
  do 2 f_equal. rewrite N.mul_comm, <- N.div_mod by done. apply ascii_N_embedding.
Qed.

(** Hexadecimal digits are neither slashes nor dots. *)
Lemma hex_digit_ne n c : (n < 16)%N → hex_value c = None → hex_digit n ≠ c.
Proof. intros Hn Hc <-. by rewrite hex_value_digit in Hc. Qed.

Lemma Hash_String_no_byte h c : hex_value c = None → has_byte c (Hash_String h) = false.
Proof.
  intros Hc. induction h as [|a h IH]; [done|]. cbn [Hash_String]. pose proof (N_ascii_bounded a) as Hb.
  rewrite !has_byte_cons, IH, !bool_decide_eq_false_2; [done|apply hex_digit_ne; [apply N.mod_lt; lia|done]|].
  apply hex_digit_ne; [apply N.Div0.div_lt_upper_bound; lia|done].
Qed.

(** ** Unit names *)

Lemma str_split_at n s : n ≤ String.length s →
  String.length (str_take n s) = n.
Proof. rewrite str_length_take. lia. Qed.

Lemma NewUnitNameInfo_instance p i ty :
  has_byte "@" p = false → has_byte "." ty = false →
  NewUnitNameInfo (p +:+ "@" +:+ i +:+ "." +:+ ty) =
  Some (mkUnitNameInfo (p +:+ "@" +:+ i +:+ "." +:+ ty) (p +:+ "@" +:+ i) p
          (p +:+ "@" +:+ "." +:+ ty) i).
Proof.
  intros Hp Hty. unfold NewUnitNameInfo.
  assert (p +:+ "@" +:+ i +:+ "." +:+ ty = (p +:+ "@" +:+ i) +:+ String "."%char ty) as ->.
  { by rewrite !str_app_assoc. }
  rewrite last_index_byte_app_no by done.
  rewrite str_take_app, str_drop_app.
  change (p +:+ "@" +:+ i) with (p +:+ String "@"%char i).
  rewrite index_byte_app_no by done. rewrite str_take_app.
  do 2 f_equal.
  assert (p +:+ String "@" i = (p +:+ String "@"%char "") +:+ i) as -> by by rewrite str_app_assoc.
  assert (S (String.length p) = String.length (p +:+ String "@"%char "")) as ->.
  { rewrite str_length_app. cbn. lia. }
  apply str_drop_app.
Qed.

(** ** Properties *)

(** Quoted values written on one line, separated by spaces, are read back
    as they were, provided that none contains a quote. *)
Theorem parseMultivalueLine_quoted vs :
  vs ≠ [] → Forall (λ v, has_byte "034" v = false) vs →
  parseMultivalueLine (join_byte " " (quote <$> vs)) = vs.
Proof.
  intros Hne Hvs. unfold parseMultivalueLine. destruct (join_quoted_ends vs Hne) as [-> ->].
  by apply parse_multivalue_join.
Qed.

Lemma parseMultivalueLine_quoted_witness :
  parseMultivalueLine (quote "region=eu west" +:+ " " +:+ quote "disk=ssd") = ["region=eu west"; "disk=ssd"].
Proof.
  apply (parseMultivalueLine_quoted ["region=eu west"; "disk=ssd"]); [discriminate|repeat constructor].
Defined.

(** The hash of a unit file, printed in hexadecimal, parses back to the same
    hash. *)
Lemma HashFromHexString_String `{Digest} u :
  HashFromHexString (Hash_String (UnitFile_Hash u)) = Ok (UnitFile_Hash u).
Proof.
  unfold HashFromHexString. rewrite hex_decode_String. unfold UnitFile_Hash.
  by rewrite decide_True by apply sha1_length.
Qed.

(** The name of an instance unit splits into its template and its instance
    name: the template it names is a template, and the unit is an instance
    exactly when the instance name is not empty. *)
Theorem NewUnitNameInfo_parts p i ty :
  has_byte "@" p = false → has_byte "." ty = false →
  ∃ info tinfo,
    NewUnitNameInfo (p +:+ "@" +:+ i +:+ "." +:+ ty) = Some info ∧
    info.(Prefix) = p ∧ info.(Instance_) = i ∧ (IsInstance info = true ↔ i ≠ "") ∧
    info.(Template) = p +:+ "@" +:+ "." +:+ ty ∧
    NewUnitNameInfo info.(Template) = Some tinfo ∧ IsTemplate tinfo = true.
Proof.
  intros Hp Hty. do 2 eexists. rewrite NewUnitNameInfo_instance by done. cbn [Prefix Instance_ Template].
  split_and!; try reflexivity.
  - unfold IsInstance. cbn [Instance_]. by rewrite bool_decide_eq_true.
  - apply (NewUnitNameInfo_instance p "" ty Hp Hty).
  - unfold IsTemplate, IsInstance. cbn [Template Instance_]. rewrite bool_decide_eq_true_2 by by destruct p.
    by rewrite bool_decide_eq_false_2 by tauto.
Qed.

Lemma NewUnitNameInfo_parts_witness :
  ∃ info tinfo, NewUnitNameInfo "web@1.service" = Some info ∧
    info.(Prefix) = "web" ∧ info.(Instance_) = "1" ∧ (IsInstance info = true ↔ "1" ≠ "") ∧
    info.(Template) = "web@.service" ∧
    NewUnitNameInfo info.(Template) = Some tinfo ∧ IsTemplate tinfo = true.
Proof. apply (NewUnitNameInfo_parts "web" "1" "service"); reflexivity. Defined.
