(* ===== verification/UnitSerial.v ===== *)
(** * Unit files survive serialization

    The lexer of [go-systemd] ends on every text, and what [Serialize] writes of
    well-formed options is read back with the options of a section together, in the
    order in which the sections first appear. *)

From Stdlib Require Import Ascii NArith Lia.
From stdpp Require Import base list gmap strings.
From S2P Require Import Prelude GoStrings UnitFile.
#[local] Open Scope go_scope.

Lemma bufio_size_pos : 0 < bufio_size.
Proof. unfold bufio_size. cbn. lia. Qed.

Lemma line_max_pos : 0 < SYSTEMD_LINE_MAX.
Proof. unfold SYSTEMD_LINE_MAX. cbn. lia. Qed.

#[local] Opaque SYSTEMD_LINE_MAX bufio_size.

(** ** Readers *)

Definition rd_wf (rd : reader) : Prop := rd.(rd_buffered) ≤ String.length rd.(rd_data).

(** A rune is read exactly when there is text left, and reading it takes a byte. *)
Lemma ReadRune_spec rd :
  match ReadRune rd with
  | None => rd.(rd_data) = ""
  | Some (r, b, rd') =>
      (rd_wf rd → rd_wf rd') ∧ String.length rd'.(rd_data) < String.length rd.(rd_data) ∧
      (rd_wf rd → rd_wf (mkReader rd.(rd_data) (String.length b + rd'.(rd_buffered))))
  end.
Proof.
  unfold ReadRune, rd_wf. destruct rd as [d n]. cbn [rd_data rd_buffered].
  set (m := if _ && _ then _ else n). destruct d as [|a d]; [done|].
  pose proof (decode_rune_width (String a d) ltac:(done)) as Hw.
  assert (Hm : n ≤ String.length (String a d) → m ≤ String.length (String a d)) by (subst m; case_match; lia).
  destruct (decode_rune (String a d)) as [r w]. cbn [snd rd_data rd_buffered] in *. clearbody m.
  rewrite str_length_drop, str_length_take. set (l := String.length (String a d)) in *.
  assert (0 < l) by (subst l; cbn; lia). clearbody l. lia.
Qed.

(** A line is read up to its delimiter, and reading takes a byte unless the text is at
    its end. *)
Lemma ReadBytes_spec c rd :
  let '(line, eof, rd') := ReadBytes c rd in
  (rd_wf rd → rd_wf rd') ∧ String.length line + String.length rd'.(rd_data) = String.length rd.(rd_data) ∧
  (eof = false → 0 < String.length line).
Proof.
  unfold ReadBytes, rd_wf. destruct rd as [d n]. cbn [rd_data rd_buffered].
  destruct (index_byte c d) as [i|] eqn:Hi; cbn [rd_data rd_buffered]; [|cbn; lia].
  apply index_byte_Some in Hi as [Hd _]. assert (Hlen : S i ≤ String.length d).
  { rewrite Hd at 1. rewrite str_length_app. cbn [String.length]. rewrite str_length_take, str_length_drop.
    assert (i ≤ String.length d); [|lia]. apply (f_equal String.length) in Hd. rewrite str_length_app in Hd. cbn [String.length] in Hd.
    rewrite str_length_take, str_length_drop in Hd. lia. }
  rewrite str_length_take, str_length_drop. split; [|split; lia]. intros Hn. case_bool_decide; [lia|].
  set (read := i / bufio_size * bufio_size).
  assert (read ≤ i) by (subst read; rewrite Nat.mul_comm; apply Nat.Div0.mul_div_le). clearbody read. lia.
Qed.

Lemma TrimSuffix_length s suf : String.length (TrimSuffix s suf) ≤ String.length s.
Proof. unfold TrimSuffix. case_match; [|done]. rewrite str_length_take. lia. Qed.

Lemma toEOL_spec rd :
  let '(line, eof, rd') := toEOL rd in
  (rd_wf rd → rd_wf rd') ∧ String.length line + String.length rd'.(rd_data) ≤ String.length rd.(rd_data) ∧
  (eof = false → String.length rd'.(rd_data) < String.length rd.(rd_data)).
Proof.
  unfold toEOL. pose proof (ReadBytes_spec "010" rd) as H. destruct (ReadBytes "010" rd) as [[line eof] rd'].
  destruct H as (Hwf & Hlen & Heof).
  pose proof (TrimSuffix_length line carriage_return). pose proof (TrimSuffix_length (TrimSuffix line carriage_return) newline).
  split; [done|]. split; [lia|]. intros He. specialize (Heof He). lia.
Qed.

Lemma ignore_lines_spec fuel : ∀ rd, let rd' := ignore_lines fuel rd in
  (rd_wf rd → rd_wf rd') ∧ String.length rd'.(rd_data) ≤ String.length rd.(rd_data).
Proof.
  induction fuel as [|fuel IH]; intros rd; cbn [ignore_lines]; [done|].
  pose proof (toEOL_spec rd) as H. destruct (toEOL rd) as [[line eof] rd']. destruct H as (Hwf & Hlen & _).
  case_match; [|split; [done|lia]]. destruct (IH rd') as [H1 H2]. split; [auto|lia].
Qed.

Lemma read_name_spec fuel : ∀ partial rd name rd', read_name fuel partial rd = Ok (name, rd') →
  (rd_wf rd → rd_wf rd') ∧ String.length rd'.(rd_data) < String.length rd.(rd_data).
Proof.
  induction fuel as [|fuel IH]; intros partial rd name rd'; cbn [read_name]; [done|].
  pose proof (ReadRune_spec rd) as H. destruct (ReadRune rd) as [[[r b] rd1]|]; [|done]. destruct H as (Hwf & Hlen & _).
  case_match; [done|]. case_match; [intros [= _ <-]; done|]. intros [H1 H2]%IH. split; [auto|lia].
Qed.

(** ** The lexer ends *)

Definition lex_rank (st : lexStep) : nat :=
  match st with
  | lexNextSection | lexSectionName | lexNextSectionOrOption _ => 1
  | lexOptionName _ => 0
  | lexSectionSuffix _ | lexOptionValue _ _ _ | ignoreLine _ => 2
  end.

Definition lex_measure (st : lexStep) (rd : reader) : nat := 3 * String.length rd.(rd_data) + lex_rank st.

Lemma trim_space_nonempty line : trim_space line ≠ "" → 0 < String.length line.
Proof. destruct line; [done|]. cbn. lia. Qed.

Lemma lex_step_spec st rd next rd' o : lex_step st rd = Ok (next, rd', o) →
  (rd_wf rd → rd_wf rd') ∧ ∀ st', next = Some st' → lex_measure st' rd' < lex_measure st rd.
Proof.
  unfold lex_measure. destruct st; cbn [lex_step lex_rank].
  - pose proof (ReadRune_spec rd) as H. destruct (ReadRune rd) as [[[r b] rd1]|]; intros [= <- <- <-]; [|done].
    destruct H as (? & ? & _). split; [done|]. intros st' [= <-]. repeat case_match; cbn [lex_rank]; lia.
  - pose proof (ReadBytes_spec "093" rd) as H. destruct (ReadBytes "093" rd) as [[sec eof] rd1]. destruct H as (? & ? & Heof).
    destruct eof; intros [= <- <- <-]. specialize (Heof eq_refl). split; [done|]. intros st' [= <-]. cbn [lex_rank]. lia.
  - pose proof (toEOL_spec rd) as H. destruct (toEOL rd) as [[line eof] rd1]. destruct H as (? & ? & _).
    case_match; [|done]. intros [= <- <- <-]. split; [done|]. intros st' [= <-]. cbn [lex_rank]. lia.
  - pose proof (ReadRune_spec rd) as H. destruct (ReadRune rd) as [[[r b] rd1]|]; [|intros [= <- <- <-]; done].
    destruct H as (? & ? & ?). repeat case_match; intros [= <- <- <-]; (split; [done|]); intros st' [= <-]; cbn [lex_rank rd_data]; lia.
  - destruct (read_name _ "" rd) as [[name rd1]|] eqn:E; [|done]. cbn. apply read_name_spec in E as [? ?].
    intros [= <- <- <-]. split; [done|]. intros st' [= <-]. cbn [lex_rank]. lia.
  - pose proof (toEOL_spec rd) as H. destruct (toEOL rd) as [[line eof] rd1]. destruct H as (? & Hlen & _).
    destruct (negb _ && _) eqn:E; intros [= <- <- <-]; (split; [done|]); intros st' [= <-]; cbn [lex_rank]; [|lia].
    apply andb_true_iff in E as [Hb%negb_true_iff%bool_decide_eq_false _]. apply trim_space_nonempty in Hb. lia.
  - destruct (ignore_lines_spec (S (String.length (rd_data rd))) rd) as [H1 H2]. revert H1 H2.
    generalize (ignore_lines (S (String.length (rd_data rd))) rd). intros rd1 ? ? [= <- <- <-]. split; [done|].
    intros st' [= <-]. destruct section; cbn [lex_rank ignored_next]; lia.
Qed.

Lemma lex_ends fuel : ∀ st rd opts, lex_measure st rd < fuel → is_Some (lex fuel st rd opts).
Proof.
  induction fuel as [|fuel IH]; intros st rd opts Hf; [lia|]. cbn [lex]. case_match; [by eexists|].
  destruct (lex_step st rd) as [[[next rd'] o]|e] eqn:E; [|by eexists]. apply lex_step_spec in E as [_ E].
  destruct next as [st'|]; [|by eexists]. apply IH. specialize (E st' eq_refl). lia.
Qed.

Lemma lex_deterministic fuel1 : ∀ fuel2 st rd opts r1 r2,
  lex fuel1 st rd opts = Some r1 → lex fuel2 st rd opts = Some r2 → r1 = r2.
Proof.
  induction fuel1 as [|fuel1 IH]; intros [|fuel2] st rd opts r1 r2; cbn [lex]; try done.
  case_match; [congruence|]. destruct (lex_step st rd) as [[[[st'|] rd'] o]|e]; [apply IH|congruence..].
Qed.

(** The lexer ends on every text: its fuel is enough. *)
Theorem Deserialize_ends raw : ∃ r, lex (lex_fuel raw) lexNextSection (mkReader raw 0) [] = Some r ∧ Deserialize raw = r.
Proof.
  destruct (lex_ends (lex_fuel raw) lexNextSection (mkReader raw 0) []) as [r Hr].
  { unfold lex_measure, lex_fuel. cbn. lia. }
  exists r. split; [done|]. unfold Deserialize. by rewrite Hr.
Qed.

(** ** Options that are written as they are read *)

Fixpoint all_bytes (p : ascii → bool) (s : string) : bool :=
  match s with "" => true | String a s => p a && all_bytes p s end.

(** A section that fits in a line and does not end its own header. *)
Definition section_ok (sec : string) : bool :=
  negb (has_byte "093" sec) && negb (has_byte "010" sec) && bool_decide (String.length sec + 2 < SYSTEMD_LINE_MAX).

Definition name_byte (a : ascii) : bool :=
  let n := N_of_ascii a in (n <? 128)%N && negb (n =? 61)%N && negb (n =? 10)%N && negb (n =? 13)%N.

(** A name in ASCII without an equals sign, without space around it, that does not look
    like a comment or a header. *)
Definition name_ok (name : string) : bool :=
  all_bytes name_byte name && bool_decide (trim_space name = name) &&
  match name with
  | "" => true
  | String a _ => let n := N_of_ascii a in negb (is_space n) && negb (n =? 91)%N && negb (isComment n)
  end.

(** Lines of which all but the last end with a backslash; none is blank. *)
Fixpoint continued (lines : list string) : bool :=
  match lines with
  | [] => false
  | l :: rest =>
      bool_decide (trim_space l ≠ "") &&
      match rest with [] => negb (has_suffix backslash l) | _ => has_suffix backslash l && continued rest end
  end.

(** A value without space around it, whose lines continue each other and fit in a line
    with the name. *)
Definition value_ok (name value : string) : bool :=
  let lines := split_byte "010" value in
  bool_decide (trim_space value = value) && negb (has_suffix newline value) &&
  (bool_decide (value = "") || continued lines) &&
  forallb (λ l, bool_decide (String.length name + 1 + String.length l < SYSTEMD_LINE_MAX)) lines.

Definition option_ok (o : UnitOption) : bool :=
  section_ok o.(Section_) && name_ok o.(OptName) && value_ok o.(OptName) o.(OptValue).

(** The options with those of a section together. *)
Definition regroup (opts : list UnitOption) : list UnitOption :=
  concat ((λ sect, filter (λ o, o.(Section_) = sect) opts) <$> seen_sections [] opts).

(** ** Runs of the lexer *)

(** However full the buffer is, the lexer comes from [st] before the text [d] to [st']
    before [d'], and sends [os]. *)
Definition goes (st : lexStep) (d : string) (st' : lexStep) (d' : string) (os : list UnitOption) : Prop :=
  ∀ n acc, n ≤ String.length d → ∃ k n', n' ≤ String.length d' ∧
    ∀ f, lex (k + f) st (mkReader d n) acc = lex f st' (mkReader d' n') (acc ++ os).

Lemma goes_refl st d : goes st d st d [].
Proof. intros n acc Hn. exists 0, n. split; [done|]. intros f. by rewrite app_nil_r. Qed.

Lemma goes_trans st1 d1 st2 d2 st3 d3 os1 os2 :
  goes st1 d1 st2 d2 os1 → goes st2 d2 st3 d3 os2 → goes st1 d1 st3 d3 (os1 ++ os2).
Proof.
  intros H1 H2 n acc Hn. destruct (H1 n acc Hn) as (k1 & n1 & Hn1 & E1). destruct (H2 n1 (acc ++ os1) Hn1) as (k2 & n2 & Hn2 & E2).
  exists (k1 + k2), n2. split; [done|]. intros f. by rewrite <- Nat.add_assoc, E1, E2, <- app_assoc.
Qed.

Definition line_ok (d : string) : Prop := ∃ l rest, d = l +:+ newline +:+ rest ∧ String.length l < SYSTEMD_LINE_MAX.

Lemma str_take_app_le n s1 s2 : String.length s1 ≤ n → str_take n (s1 +:+ s2) = s1 +:+ str_take (n - String.length s1) s2.
Proof.
  revert n. induction s1 as [|a s1 IH]; intros n; cbn [String.length].
  - intros _. by rewrite Nat.sub_0_r.
  - intros Hn. destruct n as [|n]; [lia|]. rewrite !str_app_cons. cbn. f_equal. apply IH. lia.
Qed.

Lemma line_ok_short d n : line_ok d → line_too_long (mkReader d n) = false.
Proof.
  intros (l & rest & -> & Hl). unfold line_too_long. cbn [rd_data rd_buffered]. apply andb_false_iff. right.
  rewrite str_take_app_le by lia. destruct (SYSTEMD_LINE_MAX - String.length l) as [|m] eqn:E; [lia|].
  apply negb_false_iff, orb_true_iff. left. rewrite has_byte_app. change (newline +:+ rest) with (String "010" rest). cbn [str_take].
  by rewrite has_byte_cons, bool_decide_eq_true_2, orb_true_r.
Qed.

Lemma goes_step st d st' d' o : line_ok d →
  (∀ n, ∃ n', lex_step st (mkReader d n) = Ok (Some st', mkReader d' n', o)) → goes st d st' d' (option_list o).
Proof.
  intros Hl Hs n acc Hn. destruct (Hs n) as [n' E]. exists 1, n'. split.
  - apply lex_step_spec in E as [Hwf _]. by apply Hwf.
  - intros f. cbn [lex Nat.add]. by rewrite line_ok_short, E.
Qed.

Lemma ReadRune_ascii a d n : (N_of_ascii a < 128)%N → ∃ n', ReadRune (mkReader (String a d) n) = Some (N_of_ascii a, String a "", mkReader d n').
Proof.
  intros Ha. unfold ReadRune. cbn [rd_data rd_buffered]. unfold decode_rune.
  rewrite (proj2 (N.ltb_lt _ _) Ha). cbn [str_take str_drop]. by eexists.
Qed.

Lemma ReadBytes_found c s rest n : has_byte c s = false →
  ∃ n', ReadBytes c (mkReader (s +:+ String c rest) n) = (s +:+ String c "", false, mkReader rest n').
Proof.
  intros Hs. unfold ReadBytes. cbn [rd_data rd_buffered]. rewrite index_byte_app_no by done. eexists. f_equal; [f_equal|f_equal].
  - rewrite str_take_app_le by lia. replace (S _ - _) with 1 by lia. cbn. by destruct rest.
  - apply str_drop_app_S.
Qed.

Lemma has_suffix_app s suf : has_suffix suf (s +:+ suf) = true.
Proof. apply has_suffix_spec. by exists s. Qed.

Lemma app_last_inj s1 s2 a b : s1 +:+ String a "" = s2 +:+ String b "" → s1 = s2 ∧ a = b.
Proof.
  revert s2. induction s1 as [|x s1 IH]; intros [|y s2]; rewrite ?str_app_nil_l, ?str_app_cons; [by intros [= ->]| | |].
  - intros [= -> H]. by destruct s2.
  - intros [= -> H]. by destruct s1.
  - intros [= -> H]. by destruct (IH _ H) as [-> ->].
Qed.

Lemma TrimSuffix_app s suf : TrimSuffix (s +:+ suf) suf = s.
Proof.
  unfold TrimSuffix. rewrite has_suffix_app, str_length_app. replace (_ - _) with (String.length s) by lia. apply str_take_app.
Qed.

Lemma toEOL_line l rest n : has_byte "010" l = false →
  ∃ n', toEOL (mkReader (l +:+ newline +:+ rest) n) = (l, false, mkReader rest n').
Proof.
  intros Hl. unfold toEOL. change (newline +:+ rest) with (String "010" rest).
  destruct (ReadBytes_found "010" l rest n Hl) as [n' ->]. exists n'. f_equal. f_equal.
  replace (TrimSuffix (l +:+ String "010" "") carriage_return) with (l +:+ newline).
  - apply TrimSuffix_app.
  - unfold TrimSuffix. destruct (has_suffix carriage_return _) eqn:E; [|done].
    apply has_suffix_spec in E as [t E]. by apply app_last_inj in E as [_ E].
Qed.

(** ** The steps on what [Serialize] writes *)

Lemma goes_header st sec rest : st = lexNextSection ∨ (∃ sec0, st = lexNextSectionOrOption sec0) → section_ok sec = true →
  goes st ("[" +:+ sec +:+ "]" +:+ newline +:+ rest) (lexNextSectionOrOption sec) rest [].
Proof.
  intros Hst [[Hb%negb_true_iff Hn%negb_true_iff]%andb_true_iff Hl%bool_decide_eq_true]%andb_true_iff.
  assert (Hline : ∀ pre, String.length pre ≤ 1 → line_ok (pre +:+ sec +:+ "]" +:+ newline +:+ rest)).
  { intros pre Hpre. exists (pre +:+ sec +:+ "]"), rest. rewrite !str_app_assoc. split; [done|]. rewrite !str_length_app.
    change (String.length "]") with 1. lia. }
  change (@nil UnitOption) with (@nil UnitOption ++ [] ++ []). eapply goes_trans; [|eapply goes_trans].
  - apply (goes_step _ _ lexSectionName (sec +:+ "]" +:+ newline +:+ rest) None); [apply (Hline "["); cbn; lia|]. intros n.
    destruct (ReadRune_ascii "[" (sec +:+ "]" +:+ newline +:+ rest) n ltac:(done)) as [n' Hr]. exists n'.
    change ("[" +:+ sec +:+ "]" +:+ newline +:+ rest) with (String "[" (sec +:+ "]" +:+ newline +:+ rest)).
    destruct Hst as [->|[sec0 ->]]; cbn [lex_step]; rewrite Hr; reflexivity.
  - apply (goes_step _ _ (lexSectionSuffix sec) (newline +:+ rest) None); [apply (Hline ""); cbn; lia|]. intros n.
    change ("]" +:+ newline +:+ rest) with (String "093" (newline +:+ rest)).
    destruct (ReadBytes_found "093" sec (newline +:+ rest) n Hb) as [n' Hr]. exists n'. cbn [lex_step]. rewrite Hr.
    rewrite str_length_app. change (String.length (String "093" "")) with 1. rewrite Nat.add_sub, str_take_app. reflexivity.
  - apply (goes_step _ _ _ _ None).
    + exists "", rest. split; [done|]. cbn. lia.
    + intros n. destruct (toEOL_line "" rest n ltac:(done)) as [n' Hr]. exists n'. cbn [lex_step].
      rewrite str_app_nil_l in Hr. rewrite Hr. reflexivity.
Qed.

Lemma goes_newline sec rest : goes (lexNextSectionOrOption sec) (newline +:+ rest) (lexNextSectionOrOption sec) rest [].
Proof.
  apply (goes_step _ _ _ _ None).
  - exists "", rest. split; [done|]. apply line_max_pos.
  - intros n. change (newline +:+ rest) with (String "010" rest).
    destruct (ReadRune_ascii "010" rest n ltac:(done)) as [n' Hr]. exists n'. cbn [lex_step]. rewrite Hr. reflexivity.
Qed.

Lemma read_name_ok name rest : all_bytes name_byte name = true → ∀ fuel partial n, String.length name < fuel →
  ∃ n', read_name fuel partial (mkReader (name +:+ String "=" rest) n) = Ok (partial +:+ name, mkReader rest n').
Proof.
  induction name as [|a name IH]; intros Hok [|fuel] partial n Hf; cbn [String.length] in Hf; try lia; cbn [read_name].
  - rewrite str_app_nil_l. destruct (ReadRune_ascii "=" rest n ltac:(done)) as [n' ->]. exists n'. by rewrite str_app_nil_r.
  - cbn in Hok. apply andb_true_iff in Hok as [Ha Hok]. unfold name_byte in Ha. rewrite !andb_true_iff, !negb_true_iff in Ha.
    destruct Ha as [[[Ha%N.ltb_lt He] Hn] Hr]. rewrite str_app_cons.
    destruct (ReadRune_ascii a (name +:+ String "=" rest) n Ha) as [n' ->]. rewrite Hn, Hr, He. cbn [orb].
    replace (WriteRune (N_of_ascii a) (String a "")) with (String a "").
    + destruct (IH Hok fuel (partial +:+ String a "") n') as [n2 H2]; [lia|]. exists n2. rewrite H2. by rewrite str_app_assoc.
    + unfold WriteRune. destruct (N.eqb_spec (N_of_ascii a) RuneError) as [E|]; [|done]. unfold RuneError in E. lia.
Qed.

Lemma last_backslash l : last_index_byte "092" l = Some (String.length l - 1) ↔ has_suffix backslash l = true.
Proof.
  rewrite has_suffix_spec. split.
  - intros H. pose proof H as Hl. apply last_index_byte_Some in H as [H _]. exists (str_take (String.length l - 1) l).
    destruct l as [|a l]; [done|]. rewrite H at 1. f_equal. unfold backslash. f_equal.
    rewrite H at 1. assert (E : String.length (str_drop (S (String.length (String a l) - 1)) (String a l)) = 0).
    { rewrite str_length_drop. cbn. lia. }
    destruct (str_drop (S (String.length (String a l) - 1)) (String a l)) eqn:Ed; [|done]. rewrite <- H. exact Ed.
  - intros [t ->]. unfold backslash. rewrite last_index_byte_app_no by done. rewrite str_length_app.
    change (String.length (String "092" "")) with 1. by rewrite Nat.add_sub.
Qed.

Lemma goes_value sec name lines v rest : ∀ partial,
  continued lines = true → Forall (λ l, has_byte "010" l = false ∧ String.length l < SYSTEMD_LINE_MAX) lines →
  partial +:+ join_byte "010" lines = v → has_suffix newline v = false → trim_space v = v →
  goes (lexOptionValue sec name partial) (join_byte "010" lines +:+ newline +:+ rest) (lexNextSectionOrOption sec) rest [mkUnitOption sec name v].
Proof.
  induction lines as [|l lines IH]; intros partial Hc Hf Hv Hnl Htr; [done|].
  apply Forall_cons in Hf as [[Hl Hlen] Hf]. cbn [continued] in Hc. apply andb_true_iff in Hc as [Hb%bool_decide_eq_true Hc].
  destruct lines as [|l2 lines].
  - cbn [join_byte] in *. apply (goes_step _ _ _ _ (Some _)); [by exists l, rest|]. intros n.
    destruct (toEOL_line l rest n Hl) as [n' Hr]. exists n'. cbn [lex_step]. rewrite Hr.
    rewrite (bool_decide_eq_false_2 (trim_space l = "")) by done. cbn [negb andb].
    rewrite bool_decide_eq_false_2 by (rewrite last_backslash; by apply negb_true_iff in Hc as ->).
    by rewrite Hv, Hnl, Htr.
  - apply andb_true_iff in Hc as [Hbs Hc].
    assert (Ej : join_byte "010" (l :: l2 :: lines) = l +:+ newline +:+ join_byte "010" (l2 :: lines)) by done.
    rewrite Ej in *. clear Ej. rewrite !str_app_assoc.
    change [mkUnitOption sec name v] with ([] ++ [mkUnitOption sec name v]).
    eapply goes_trans; [|apply (IH (partial +:+ l +:+ newline)); try done; by rewrite !str_app_assoc].
    apply (goes_step _ _ _ _ None); [eexists l, _; done|]. intros n.
    destruct (toEOL_line l (join_byte "010" (l2 :: lines) +:+ newline +:+ rest) n Hl) as [n' Hr]. exists n'. cbn [lex_step]. rewrite Hr.
    rewrite (bool_decide_eq_false_2 (trim_space l = "")) by done. cbn [negb andb].
    rewrite bool_decide_eq_true_2 by (by apply last_backslash). by rewrite str_app_assoc.
Qed.

Lemma value_first_line value rest l ls : split_byte "010" value = l :: ls →
  ∃ rest', value +:+ newline +:+ rest = l +:+ newline +:+ rest'.
Proof.
  intros Hs. pose proof (join_split_byte "010" value) as Hj. rewrite Hs in Hj. destruct ls as [|l2 ls].
  - cbn in Hj. subst l. by exists rest.
  - change (join_byte "010" (l :: l2 :: ls)) with (l +:+ newline +:+ join_byte "010" (l2 :: ls)) in Hj.
    eexists. rewrite <- Hj, !str_app_assoc. reflexivity.
Qed.

Lemma goes_empty_value sec name rest :
  goes (lexOptionValue sec name "") (newline +:+ rest) (lexNextSectionOrOption sec) rest [mkUnitOption sec name ""].
Proof.
  apply (goes_step _ _ _ _ (Some _)); [exists "", rest; split; [done|apply line_max_pos]|]. intros n.
  destruct (toEOL_line "" rest n ltac:(done)) as [n' Hr]. exists n'. rewrite str_app_nil_l in Hr. cbn [lex_step]. by rewrite Hr.
Qed.

(** A name starts an option. *)
Lemma lex_name_start name rest n sec : name_ok name = true →
  ∃ n', lex_step (lexNextSectionOrOption sec) (mkReader (name +:+ String "=" rest) n) =
    Ok (Some (lexOptionName sec), mkReader (name +:+ String "=" rest) n', None).
Proof.
  unfold name_ok. rewrite !andb_true_iff. intros [[Hb _] Ha]. cbn [lex_step]. destruct name as [|a name].
  - rewrite str_app_nil_l. destruct (ReadRune_ascii "=" rest n ltac:(done)) as [n' ->]. by eexists.
  - cbn in Hb. apply andb_true_iff in Hb as [Hb _]. unfold name_byte in Hb. rewrite !andb_true_iff in Hb.
    destruct Hb as [[[Hb%N.ltb_lt _] _] _]. rewrite !andb_true_iff, !negb_true_iff in Ha. destruct Ha as [[H1 H2] H3].
    rewrite str_app_cons. destruct (ReadRune_ascii a (name +:+ String "=" rest) n Hb) as [n' ->]. rewrite H1, H2, H3. by eexists.
Qed.

Lemma goes_option o rest : option_ok o = true →
  goes (lexNextSectionOrOption o.(Section_)) (write_option o +:+ rest) (lexNextSectionOrOption o.(Section_)) rest [o].
Proof.
  destruct o as [sec name value]. unfold option_ok, write_option. cbn [Section_ OptName OptValue].
  rewrite !andb_true_iff. intros [[_ Hn] Hv]. rewrite !str_app_assoc.
  unfold value_ok in Hv. cbn zeta in Hv. rewrite !andb_true_iff in Hv. destruct Hv as [[[Htr%bool_decide_eq_true Hnl%negb_true_iff] Hc] Hlen].
  destruct (split_byte "010" value) as [|l ls] eqn:Hs; [by apply split_byte_ne in Hs|].
  destruct (value_first_line value rest l ls Hs) as [rest' Hrest].
  assert (Hlens : ∀ x, x ∈ l :: ls → String.length name + 1 + String.length x < SYSTEMD_LINE_MAX).
  { intros x Hx. rewrite forallb_forall in Hlen. apply (bool_decide_eq_true_1 _), Hlen. by apply list_elem_of_In. }
  assert (Hl1 : String.length name + 1 + String.length l < SYSTEMD_LINE_MAX).
  { apply Hlens. by left. }
  assert (Hline : line_ok (name +:+ "=" +:+ value +:+ newline +:+ rest)).
  { exists (name +:+ "=" +:+ l), rest'. rewrite Hrest, !str_app_assoc. split; [done|]. rewrite !str_length_app.
    change (String.length "=") with 1. lia. }
  change [mkUnitOption sec name value] with ([] ++ [] ++ [mkUnitOption sec name value]).
  eapply goes_trans; [|eapply goes_trans].
  - apply (goes_step _ _ (lexOptionName sec) (name +:+ "=" +:+ value +:+ newline +:+ rest) None); [done|]. intros n.
    apply lex_name_start. exact Hn.
  - apply (goes_step _ _ (lexOptionValue sec name "") (value +:+ newline +:+ rest) None); [done|]. intros n. cbn [lex_step].
    unfold name_ok in Hn. rewrite !andb_true_iff in Hn. destruct Hn as [[Hb Ht%bool_decide_eq_true] _].
    destruct (read_name_ok name (value +:+ newline +:+ rest) Hb (S (String.length (name +:+ "=" +:+ value +:+ newline +:+ rest))) "" n) as [n' Hr].
    { rewrite str_length_app. lia. }
    exists n'. change ("=" +:+ value +:+ newline +:+ rest) with (String "=" (value +:+ newline +:+ rest)) in *. cbn [rd_data]. rewrite Hr.
    cbn [res_bind]. by rewrite str_app_nil_l, Ht.
  - destruct (bool_decide_reflect (value = "")) as [->|Hne]; [apply goes_empty_value|]. cbn [orb] in Hc.
    rewrite <- (join_split_byte "010" value) at 1. rewrite Hs.
    apply goes_value; [done| |by rewrite str_app_nil_l, <- Hs, join_split_byte|done|done].
    pose proof (split_byte_no_sep "010" value) as Hno. rewrite Hs in Hno. apply Forall_forall. intros x Hx.
    rewrite Forall_forall in Hno. split; [by apply Hno|]. specialize (Hlens x Hx). lia.
Qed.

Lemma goes_options sec opts rest : Forall (λ o, option_ok o = true ∧ o.(Section_) = sec) opts →
  goes (lexNextSectionOrOption sec) (str_concat (write_option <$> opts) +:+ rest) (lexNextSectionOrOption sec) rest opts.
Proof.
  induction opts as [|o opts IH]; intros Hf; [apply goes_refl|]. apply Forall_cons in Hf as [[Ho <-] Hf].
  cbn [fmap list_fmap str_concat]. rewrite str_app_assoc. change (o :: opts) with ([o] ++ opts).
  eapply goes_trans; [by apply goes_option|by apply IH].
Qed.

Lemma goes_section st opts sect rest : st = lexNextSection ∨ (∃ sec0, st = lexNextSectionOrOption sec0) →
  section_ok sect = true → Forall (λ o, option_ok o = true) opts →
  goes st (write_section opts sect +:+ rest) (lexNextSectionOrOption sect) rest (filter (λ o, o.(Section_) = sect) opts).
Proof.
  intros Hst Hs Hf. unfold write_section. rewrite !str_app_assoc.
  change (filter (λ o, Section_ o = sect) opts) with ([] ++ filter (λ o, Section_ o = sect) opts).
  eapply goes_trans; [by apply goes_header|]. apply goes_options. apply Forall_forall. intros o [Ho Hin]%list_elem_of_filter.
  rewrite Forall_forall in Hf. auto.
Qed.

Lemma goes_sections opts sects : Forall (λ o, option_ok o = true) opts → Forall (λ s, section_ok s = true) sects → sects ≠ [] →
  ∀ st, st = lexNextSection ∨ (∃ sec0, st = lexNextSectionOrOption sec0) →
  ∃ sec, goes st (write_sections opts sects) (lexNextSectionOrOption sec) ""
    (concat ((λ sect, filter (λ o, o.(Section_) = sect) opts) <$> sects)).
Proof.
  intros Hf. induction sects as [|sect sects IH]; intros Hs Hne st Hst; [done|]. apply Forall_cons in Hs as [Hsect Hs].
  destruct sects as [|sect2 sects].
  - exists sect. cbn. rewrite app_nil_r. rewrite <- (str_app_nil_r (write_section opts sect)). by apply goes_section.
  - destruct (IH Hs ltac:(done) (lexNextSectionOrOption sect) ltac:(eauto)) as [sec Hsec]. exists sec.
    change (write_sections opts (sect :: sect2 :: sects)) with (write_section opts sect +:+ newline +:+ write_sections opts (sect2 :: sects)).
    rewrite fmap_cons. cbn [concat]. eapply goes_trans; [by apply goes_section|].
    change (concat _) with ([] ++ concat ((λ sect, filter (λ o, o.(Section_) = sect) opts) <$> (sect2 :: sects))).
    eapply goes_trans; [apply goes_newline|exact Hsec].
Qed.

(** ** The round trip *)

Lemma seen_sections_elem opts : ∀ seen s, s ∈ seen_sections seen opts → ∃ o, o ∈ opts ∧ o.(Section_) = s.
Proof.
  induction opts as [|o opts IH]; intros seen s; cbn; [by intros ?%elem_of_nil|]. case_decide.
  - intros (o' & ? & ?)%IH. exists o'. split; [by right|done].
  - intros [->|(o' & ? & ?)%IH]%elem_of_cons; [exists o|exists o']; (split; [set_solver|done]).
Qed.

Lemma option_ok_section o : option_ok o = true → section_ok o.(Section_) = true.
Proof. unfold option_ok. by rewrite !andb_true_iff; intros [[? _] _]. Qed.

(** Well-formed options are read back as they were written, those of a section together. *)
Theorem Deserialize_Serialize opts : Forall (λ o, option_ok o = true) opts → Deserialize (Serialize opts) = Ok (regroup opts).
Proof.
  intros Hf. destruct (Deserialize_ends (Serialize opts)) as (r & Hr & ->). unfold Serialize, regroup in *.
  destruct (seen_sections [] opts) as [|sect sects] eqn:E; [vm_compute in Hr; by injection Hr|]. rewrite <- E in *.
  destruct (goes_sections opts (seen_sections [] opts) Hf) with (st := lexNextSection) as [sec Hgo]; [|by rewrite E|by left|].
  { apply Forall_forall. intros s (o & Ho & <-)%seen_sections_elem. rewrite Forall_forall in Hf. by apply option_ok_section, Hf. }
  destruct (Hgo 0 [] ltac:(lia)) as (k & n' & Hn' & Hlex). destruct n'; [|cbn in Hn'; lia].
  eapply lex_deterministic; [exact Hr|]. rewrite (Hlex 1). cbn [lex lex_step app].
  replace (line_too_long (mkReader "" 0)) with false; [cbn; by rewrite app_nil_r|].
  symmetry. unfold line_too_long. cbn [rd_buffered]. rewrite bool_decide_eq_false_2; [done|]. pose proof line_max_pos. lia.
Qed.

(** ** Grouping *)

(** The options of the given sections, one section after the other. *)
Definition groups (opts : list UnitOption) (sects : list string) : list UnitOption :=
  concat ((λ sect, filter (λ o, o.(Section_) = sect) opts) <$> sects).

Lemma seen_sections_spec opts : ∀ seen,
  NoDup (seen_sections seen opts) ∧
  ∀ s, s ∈ seen_sections seen opts ↔ s ∉ seen ∧ ∃ o, o ∈ opts ∧ o.(Section_) = s.
Proof.
  induction opts as [|o opts IH]; intros seen; cbn.
  { split; [constructor|]. intros s. rewrite elem_of_nil. split; [done|]. by intros (_ & o & ?%elem_of_nil & _). }
  setoid_rewrite elem_of_cons. case_decide as Hs.
  - destruct (IH seen) as [Hnd Hel]. split; [done|]. intros s. rewrite Hel. naive_solver.
  - destruct (IH (Section_ o :: seen)) as [Hnd Hel]. split.
    + constructor; [|done]. rewrite Hel. set_solver.
    + intros s. rewrite elem_of_cons, Hel, elem_of_cons. destruct (decide (s = Section_ o)); naive_solver.
Qed.

Lemma seen_sections_known seen l rest s :
  Forall (λ o, o.(Section_) = s) l → s ∈ seen → seen_sections seen (l ++ rest) = seen_sections seen rest.
Proof. induction 1 as [|o l Ho _ IH]; intros Hs; [done|]. cbn. rewrite decide_True by (by rewrite Ho). by apply IH. Qed.

Lemma seen_sections_groups opts sects : ∀ seen,
  NoDup sects → (∀ s, s ∈ sects → s ∉ seen ∧ ∃ o, o ∈ opts ∧ o.(Section_) = s) →
  seen_sections seen (groups opts sects) = sects.
Proof.
  induction sects as [|s sects IH]; intros seen Hnd Hs; [done|]. apply NoDup_cons in Hnd as [Hn Hnd]. unfold groups.
  rewrite fmap_cons. cbn [concat]. fold (groups opts sects). destruct (Hs s ltac:(left)) as (Hseen & o & Ho & Hos).
  assert (Forall (λ o, o.(Section_) = s) (filter (λ o, Section_ o = s) opts)) as Hall
    by (apply Forall_forall; by intros o' [? _]%list_elem_of_filter).
  assert (o ∈ filter (λ o, Section_ o = s) opts) as Hin by by apply list_elem_of_filter.
  destruct (filter _ opts) as [|o1 l]; [by apply elem_of_nil in Hin|]. apply Forall_cons in Hall as [Ho1 Hall].
  cbn. rewrite decide_False by (by rewrite Ho1). rewrite Ho1, (seen_sections_known _ _ _ s) by (done || left). f_equal.
  apply IH; [done|]. intros s' Hs'. destruct (Hs s' ltac:(by right)) as [Hns Hex]. split; [|done].
  intros [->|?]%elem_of_cons; done.
Qed.

Lemma filter_none {A} (P : A → Prop) `{∀ x, Decision (P x)} l : (∀ x, x ∈ l → ¬ P x) → filter P l = [].
Proof.
  induction l as [|x l IH]; intros Hl; [done|]. rewrite filter_cons_False by (apply Hl; left).
  apply IH. intros y Hy. apply Hl. by right.
Qed.

Lemma filter_groups opts sects s :
  NoDup sects → s ∈ sects →
  filter (λ o, o.(Section_) = s) (groups opts sects) = filter (λ o, o.(Section_) = s) opts.
Proof.
  assert (∀ s' , filter (λ o, Section_ o = s) (filter (λ o, Section_ o = s') opts) =
    if decide (s' = s) then filter (λ o, Section_ o = s) opts else []) as Hf.
  { intros s'. rewrite list_filter_filter. case_decide as E.
    - subst. apply list_filter_iff. naive_solver.
    - apply filter_none. intros o _. naive_solver. }
  intros Hnd. unfold groups. induction Hnd as [|s' sects Hn _ IH]; [by intros ?%elem_of_nil|].
  rewrite fmap_cons. cbn [concat]. rewrite filter_app, Hf. intros [->|Hin]%elem_of_cons.
  - rewrite decide_True by done. rewrite (filter_none _ (concat _)); [apply app_nil_r|].
    intros o Ho Hos. apply list_elem_of_In, in_concat in Ho as (l & Hl & Ho).
    apply list_elem_of_In, list_elem_of_fmap in Hl as (s2 & -> & Hs2). apply list_elem_of_In, list_elem_of_filter in Ho as [Ho _].
    apply Hn. by rewrite <- Hos, Ho.
  - rewrite decide_False by (by intros ->). by apply IH.
Qed.

Lemma write_sections_ext opts opts' sects :
  (∀ s, s ∈ sects → filter (λ o, o.(Section_) = s) opts = filter (λ o, o.(Section_) = s) opts') →
  write_sections opts sects = write_sections opts' sects.
Proof.
  induction sects as [|s sects IH]; intros Hs; [done|].
  assert (write_section opts s = write_section opts' s) as E by (unfold write_section; by rewrite Hs by left).
  destruct sects as [|s2 sects]; [done|].
  change (write_section opts s +:+ newline +:+ write_sections opts (s2 :: sects) =
    write_section opts' s +:+ newline +:+ write_sections opts' (s2 :: sects)).
  rewrite E, IH; [done|]. intros s' Hs'. apply Hs. by right.
Qed.

(** Grouping the options changes neither the text nor, so, the hash. *)
Lemma Serialize_regroup opts : Serialize (regroup opts) = Serialize opts.
Proof.
  destruct (seen_sections_spec opts []) as [Hnd Hel]. unfold Serialize, regroup. fold (groups opts (seen_sections [] opts)).
  rewrite seen_sections_groups by (done || intros s; apply Hel).
  apply write_sections_ext. intros s Hs. by apply filter_groups.
Qed.

(** The unit file that is read back. *)
Definition parsed_file (u : UnitFile) : UnitFile := NewUnitFromOptions (regroup u.(Options)).

Lemma parsed_file_String u : UnitFile_String (parsed_file u) = UnitFile_String u.
Proof. apply Serialize_regroup. Qed.

Lemma parsed_file_Hash `{Digest} u : UnitFile_Hash (parsed_file u) = UnitFile_Hash u.
Proof. unfold UnitFile_Hash, UnitFile_Bytes. cbn [Options parsed_file NewUnitFromOptions]. by rewrite Serialize_regroup. Qed.

(** A unit file of well-formed options, those of a section together. *)
Definition unit_file_ok (u : UnitFile) : Prop :=
  u = NewUnitFromOptions u.(Options) ∧ Forall (λ o, option_ok o = true) u.(Options) ∧ regroup u.(Options) = u.(Options).

#[export] Instance unit_file_ok_dec u : Decision (unit_file_ok u).
Proof. solve_decision. Defined.

Lemma NewUnitFile_String u : Forall (λ o, option_ok o = true) u.(Options) →
  NewUnitFile (UnitFile_String u) = Ok (parsed_file u).
Proof. intros Hf. unfold NewUnitFile, UnitFile_String, UnitFile_Bytes. by rewrite Deserialize_Serialize. Qed.

Lemma parsed_file_parsed u : Forall (λ o, option_ok o = true) u.(Options) →
  NewUnitFile (UnitFile_String (parsed_file u)) = Ok (parsed_file u).
Proof. rewrite parsed_file_String. apply NewUnitFile_String. Qed.

Lemma parsed_file_ok u : unit_file_ok u → parsed_file u = u.
Proof. intros (E & _ & Hg). unfold parsed_file. by rewrite Hg. Qed.

(** ** Examples *)

(** Sections that are mixed come back together; a continued value keeps its lines. *)
Example ex_regroup :
  let opts := [mkUnitOption "Unit" "After" "a.service";
               mkUnitOption "Service" "ExecStart" ("/bin/sh -c " +:+ backslash +:+ newline +:+ "  run");
               mkUnitOption "Unit" "Before" "b.service"] in
  Forall (λ o, option_ok o = true) opts ∧
  Deserialize (Serialize opts) = Ok (regroup opts) ∧ regroup opts ≠ opts.
Proof. split_and!; [apply (bool_decide_unpack _); vm_compute; exact I|vm_compute; reflexivity|done]. Qed.
