(* ===== verification/Job.v ===== *)
(** * Package [job]: units, jobs and their scheduling requirements

    [job/job.go].  The requirements of a job are the options of the [X-Fleet]
    section of its unit file, with the specifiers of the unit's name
    substituted. *)

From stdpp Require Import base list gmap strings.
From Stdlib Require Import Ascii.
From S2P Require Import Prelude GoStrings Pkg UnitFile.

(** ** States and actions

    [JobState] is a string type in the code: values other than the three
    constants do occur (an unvalidated target state, the zero value). *)

Abbreviation JobState := string.

Definition JobStateInactive : JobState := "inactive".
Definition JobStateLoaded : JobState := "loaded".
Definition JobStateLaunched : JobState := "launched".

Inductive JobAction :=
| JobActionSchedule
| JobActionUnschedule
| JobActionReschedule.

#[export] Instance JobAction_eq_dec : EqDecision JobAction.
Proof. solve_decision. Defined.

Definition ParseJobState (s : string) : res string JobState :=
  if bool_decide (s ≠ JobStateInactive) && bool_decide (s ≠ JobStateLoaded) &&
     bool_decide (s ≠ JobStateLaunched)
  then Err s else Ok s.

Definition fleetMachineID : string := "MachineID".
Definition fleetMachineBootID : string := "MachineBootID".
Definition fleetMachineOf : string := "MachineOf".
Definition fleetConflicts : string := "Conflicts".
Definition fleetReplaces : string := "Replaces".
Definition fleetMachineMetadata : string := "MachineMetadata".
Definition fleetGlobal : string := "Global".
Definition deprecatedXPrefix : string := "X-".
Definition deprecatedXConditionPrefix : string := "X-Condition".

Definition validRequirements : unsafeSet := NewUnsafeSet [
  fleetMachineID;
  deprecatedXConditionPrefix +:+ fleetMachineID;
  deprecatedXConditionPrefix +:+ fleetMachineBootID;
  deprecatedXConditionPrefix +:+ fleetMachineOf;
  fleetMachineOf;
  deprecatedXPrefix +:+ fleetConflicts;
  fleetConflicts;
  deprecatedXConditionPrefix +:+ fleetMachineMetadata;
  fleetMachineMetadata;
  fleetGlobal;
  fleetReplaces ].

(** ** Jobs, scheduled units, units *)

Record Job := mkJob {
  JName : string;
  JState : option JobState;
  JTargetState : JobState;
  JTargetMachineID : string;
  JUnit : UnitFile
}.

Record ScheduledUnit := mkScheduledUnit {
  SName : string;
  SState : option JobState;
  STargetMachineID : string
}.

Record Unit := mkUnit {
  UName : string;
  UUnit : UnitFile;
  UTargetState : JobState
}.

#[export] Instance Job_eq_dec : EqDecision Job.
Proof. solve_decision. Defined.
#[export] Instance ScheduledUnit_eq_dec : EqDecision ScheduledUnit.
Proof. solve_decision. Defined.
#[export] Instance Unit_eq_dec : EqDecision Unit.
Proof. solve_decision. Defined.

Definition NewJob (name : string) (unit : UnitFile) : Job :=
  mkJob name None JobStateInactive "" unit.

(** The job that the methods of [Unit] build to call the methods of [Job]. *)
Definition unit_job (u : Unit) : Job := mkJob u.(UName) None "" "" u.(UUnit).

(** ** Requirements *)

Definition unitPrintf (s : string) (nu : UnitNameInfo) : string :=
  let out := replace_all s "%n" nu.(FullName) in
  let out := replace_all out "%N" nu.(NName) in
  let out := replace_all out "%p" nu.(Prefix) in
  replace_all out "%i" nu.(Instance_).

Definition isTruthyValue (s : string) : bool :=
  let chl := to_lower s in
  bool_decide (chl ∈ ["true"; "yes"; "1"; "on"; "t"]).

Definition splitCombine (inStrs : list string) : list string := concat (fields <$> inStrs).

Definition requirements (j : Job) : gmap string (list string) :=
  let section := default ∅ (j.(JUnit).(Contents) !! "X-Fleet") in
  match NewUnitNameInfo j.(JName) with
  | Some uni => (λ values, (λ v, unitPrintf v uni) <$> values) <$> section
  | None => section
  end.

(** [j.requirements()[key]]: a missing key reads as an empty slice. *)
Definition requirement (j : Job) (key : string) : list string :=
  default [] (requirements j !! key).

(** The keys are visited in the order of [t]; the first unknown one is reported. *)
Definition ValidateRequirements `{MapRange} (t : moment) (j : Job) : res string unit :=
  match list_find (λ key, negb (unsafeSet_Contains key validRequirements))
          (range t (requirements j)).*1 with
  | Some (_, key) => Err key
  | None => Ok tt
  end.

Definition Job_Conflicts (j : Job) : list string :=
  splitCombine (requirement j (deprecatedXPrefix +:+ fleetConflicts)) ++
  splitCombine (requirement j fleetConflicts).

Definition Job_Replaces (j : Job) : list string := requirement j fleetReplaces.

Definition Job_Peers (j : Job) : list string :=
  requirement j (deprecatedXConditionPrefix +:+ fleetMachineOf) ++
  requirement j fleetMachineOf.

(** [(id, true)] is [Some id], [("", false)] is [None]. *)
Definition Job_RequiredTarget (j : Job) : option string :=
  match requirement j fleetMachineID with
  | id :: _ => Some id
  | [] =>
      match requirement j (deprecatedXConditionPrefix +:+ fleetMachineID) with
      | id :: _ => Some id
      | [] =>
          match requirement j (deprecatedXConditionPrefix +:+ fleetMachineBootID) with
          | id :: _ => Some id
          | [] => None
          end
      end
  end.

Definition add_metadata (metadata : gmap string unsafeSet) (valuePair : string)
  : gmap string unsafeSet :=
  match split_byte "=" valuePair with
  | [k; v] =>
      if bool_decide (k = "") || bool_decide (v = "") then metadata
      else <[k := unsafeSet_Add v (default (NewUnsafeSet []) (metadata !! k))]> metadata
  | _ => metadata
  end.

Definition Job_RequiredTargetMetadata (j : Job) : gmap string unsafeSet :=
  foldl (λ metadata key, foldl add_metadata metadata (requirement j key)) ∅
    [deprecatedXConditionPrefix +:+ fleetMachineMetadata; fleetMachineMetadata].

Definition Scheduled (j : Job) : bool := bool_decide (j.(JTargetMachineID) ≠ "").

(** ** The methods of [Unit] *)

Definition IsGlobal (u : Unit) : bool :=
  match last (requirement (unit_job u) fleetGlobal) with
  | None => false
  | Some v => isTruthyValue v
  end.

Definition Unit_Conflicts (u : Unit) : list string := Job_Conflicts (unit_job u).
Definition Unit_Replaces (u : Unit) : list string := Job_Replaces (unit_job u).
Definition Unit_Peers (u : Unit) : list string := Job_Peers (unit_job u).
Definition Unit_RequiredTarget (u : Unit) : option string := Job_RequiredTarget (unit_job u).
Definition Unit_RequiredTargetMetadata (u : Unit) : gmap string unsafeSet :=
  Job_RequiredTargetMetadata (unit_job u).

(** ** Facts *)

(** Requirements depend on the name and the unit file only. *)
Lemma requirement_ext j1 j2 key :
  j1.(JName) = j2.(JName) → j1.(JUnit) = j2.(JUnit) → requirement j1 key = requirement j2 key.
Proof. intros Hn Hu. unfold requirement, requirements. by rewrite Hn, Hu. Qed.

(** The values of a requirement of a parsed unit file, from its option lines. *)
Lemma requirement_options j opts key :
  j.(JUnit) = NewUnitFromOptions opts →
  requirement j key =
  (λ v, match NewUnitNameInfo j.(JName) with Some uni => unitPrintf v uni | None => v end) <$>
  concat (option_vals <$> filter (λ o, o.(Section_) = "X-Fleet" ∧ o.(OptName) = key) opts).
Proof.
  intros Hu. unfold requirement, requirements. rewrite Hu. cbn [Contents NewUnitFromOptions].
  rewrite <- mapOptions_values. unfold option_values.
  destruct (NewUnitNameInfo (JName j)) as [uni|].
  - rewrite lookup_fmap. by destruct (default ∅ _ !! key).
  - destruct (default ∅ _ !! key); cbn; [by rewrite list_fmap_id|done].
Qed.

Lemma unitPrintf_no_percent s nu : has_byte "%" s = false → unitPrintf s nu = s.
Proof.
  intros Hs. unfold unitPrintf.
  assert (∀ old new, replace_all s (String "%"%char old) new = s) as Hr.
  { intros. by apply replace_all_absent. }
  by rewrite !Hr.
Qed.

(** *** Metadata requirements *)

(** The pairs [key=value] that count. *)
Definition metadata_pair (valuePair k v : string) : Prop :=
  split_byte "=" valuePair = [k; v] ∧ k ≠ "" ∧ v ≠ "".

Definition metadata_has (m : gmap string unsafeSet) (k v : string) : Prop :=
  ∃ s, m !! k = Some s ∧ v ∈ unsafeSet_members s.

Lemma add_metadata_has m p k v :
  metadata_has (add_metadata m p) k v ↔ metadata_has m k v ∨ metadata_pair p k v.
Proof.
  unfold add_metadata, metadata_pair.
  destruct (split_byte "=" p) as [|k' [|v' [|]]] eqn:E; try (split; [by left|]; intros [?|(H&_)]; done).
  destruct (bool_decide (k' = "") || bool_decide (v' = "")) eqn:Hb.
  - split; [by left|]. intros [?|([= <- <-]&Hk&Hv)]; [done|].
    by rewrite !bool_decide_eq_false_2 in Hb.
  - bool_to_prop. unfold metadata_has. destruct (decide (k' = k)) as [->|Hk].
    + rewrite lookup_insert_eq. split.
      * intros (s & [= <-] & Hv). rewrite members_Add in Hv.
        apply elem_of_union in Hv as [->%elem_of_singleton|Hv]; [by right|left].
        destruct (m !! k) as [s|] eqn:Hm; [by exists s|].
        change (v ∈ unsafeSet_members (NewUnsafeSet [])) in Hv. by rewrite members_New in Hv.
      * intros Hor. eexists. split; [done|]. rewrite members_Add, elem_of_union, elem_of_singleton.
        destruct Hor as [(s & -> & Hv)|([= <-] & _)]; [by right|by left].
    + rewrite lookup_insert_ne by done. split; [by left|].
      intros [?|([= -> <-] & _)]; done.
Qed.

Lemma foldl_add_metadata_has l m k v :
  metadata_has (foldl add_metadata m l) k v ↔
  metadata_has m k v ∨ ∃ p, p ∈ l ∧ metadata_pair p k v.
Proof.
  revert m. induction l as [|p l IH]; intros m; cbn.
  { split; [by left|]. intros [?|(p & Hp & _)]; [done|]. by apply elem_of_nil in Hp. }
  rewrite IH, add_metadata_has. setoid_rewrite elem_of_cons. split.
  - intros [[?|?]|(q & ? & ?)]; [by left|right; by exists p; auto|right; by exists q; auto].
  - intros [?|(q & [->|?] & ?)]; [by left; left|by left; right|by right; exists q].
Qed.

(** No required key has an empty set of values. *)
Lemma add_metadata_ne m p :
  map_Forall (λ _ s, unsafeSet_members s ≠ ∅) m →
  map_Forall (λ _ s, unsafeSet_members s ≠ ∅) (add_metadata m p).
Proof.
  intros Hm. unfold add_metadata. repeat case_match; try done.
  apply map_Forall_insert_2; [|done]. rewrite members_Add. set_solver.
Qed.

Lemma foldl_add_metadata_ne l m :
  map_Forall (λ _ s, unsafeSet_members s ≠ ∅) m →
  map_Forall (λ _ s, unsafeSet_members s ≠ ∅) (foldl add_metadata m l).
Proof. revert m. induction l; intros m Hm; cbn; eauto using add_metadata_ne. Qed.

Lemma RequiredTargetMetadata_has j k v :
  metadata_has (Job_RequiredTargetMetadata j) k v ↔
  ∃ p, p ∈ requirement j (deprecatedXConditionPrefix +:+ fleetMachineMetadata) ++
           requirement j fleetMachineMetadata ∧ metadata_pair p k v.
Proof.
  unfold Job_RequiredTargetMetadata. cbn [foldl]. rewrite <- foldl_app, foldl_add_metadata_has.
  split; [|by right]. intros [(s & Hs & _)|?]; [|done]. by rewrite lookup_empty in Hs.
Qed.

Lemma RequiredTargetMetadata_ne j :
  map_Forall (λ _ s, unsafeSet_members s ≠ ∅) (Job_RequiredTargetMetadata j).
Proof.
  unfold Job_RequiredTargetMetadata. cbn [foldl]. rewrite <- foldl_app.
  apply foldl_add_metadata_ne, map_Forall_empty.
Qed.
