(* ===== verification/Machine.v ===== *)
(** * Package [machine] and the machine part of [config]

    [machine/state.go], [machine/machine.go], [machine/capabilities.go], the
    state handling of [machine/coreos.go], and [config/config.go]'s metadata
    and capabilities. *)

From stdpp Require Import base list gmap strings.
From Stdlib Require Import Ascii.
From S2P Require Import Prelude GoStrings Pkg.

(** ** Capabilities *)

Definition CapGRPC : string := "GRPC".
Definition CapDISABLE_ENGINE : string := "DISABLE_ENGINE".

(** A missing key and a nil map both read as [false]. *)
Definition Capabilities_Has (c : gmap string bool) (capability : string) : bool :=
  default false (c !! capability).

(** ** Machine states *)

Record MachineState := mkMachineState {
  ID : string;
  PublicIP : string;
  Metadata : gmap string string;
  Capabilities : gmap string bool;
  Version : string
}.

#[export] Instance MachineState_eq_dec : EqDecision MachineState.
Proof. solve_decision. Defined.

Definition shortIDLen : nat := 8.

Definition ShortID (ms : MachineState) : string :=
  if decide (String.length ms.(ID) ≤ shortIDLen) then ms.(ID)
  else str_take shortIDLen ms.(ID).

Definition MatchID (ms : MachineState) (id : string) : bool :=
  bool_decide (ms.(ID) = id) || bool_decide (ShortID ms = id).

Definition stackState (top bottom : MachineState) : MachineState :=
  mkMachineState
    (if decide (top.(ID) = "") then bottom.(ID) else top.(ID))
    (if decide (top.(PublicIP) = "") then bottom.(PublicIP) else top.(PublicIP))
    (if decide (top.(Metadata) = ∅) then bottom.(Metadata) else top.(Metadata))
    (if decide (top.(Capabilities) = ∅) then bottom.(Capabilities) else top.(Capabilities))
    (if decide (top.(Version) = "") then bottom.(Version) else top.(Version)).

(** [HasMetadata] answers [false] at the first key that fails, so its answer
    does not depend on the order in which the keys are visited. *)
Definition metadata_ok (state : MachineState) (key : string) (values : unsafeSet) : bool :=
  match state.(Metadata) !! key with
  | None => false
  | Some local => unsafeSet_Contains local values
  end.

Definition HasMetadata `{MapRange} (t : moment) (state : MachineState)
    (metadata : gmap string unsafeSet) : bool :=
  forallb (λ '(key, values), metadata_ok state key values) (range t metadata).

(** ** The local machine ([machine/coreos.go])

    [currentState] reads the machine id and the address from the system; its
    result is an argument of [Refresh]. *)

Record CoreOSMachine := mkCoreOSMachine {
  staticState : MachineState;
  dynamicState : option MachineState
}.

Definition NewCoreOSMachine (static : MachineState) : CoreOSMachine :=
  mkCoreOSMachine static None.

Definition CoreOSMachine_State (m : CoreOSMachine) : MachineState :=
  match m.(dynamicState) with
  | None => m.(staticState)
  | Some dyn => stackState m.(staticState) dyn
  end.

Definition CoreOSMachine_Refresh (cs : option MachineState) (m : CoreOSMachine) : CoreOSMachine :=
  match cs with
  | None => m
  | Some _ => mkCoreOSMachine m.(staticState) cs
  end.

(** [currentState]: [readLocalMachineID] fails on an unreadable or blank file. *)
Definition readLocalMachineID (file : option string) : option string :=
  match file with
  | None => None
  | Some contents =>
      let mID := trim_space contents in
      if decide (mID = "") then None else Some mID
  end.

Definition currentState (file : option string) (publicIP : string) : option MachineState :=
  match readLocalMachineID file with
  | None => None
  | Some id => Some (mkMachineState id publicIP ∅ ∅ "")
  end.

Definition IsLocalMachineID (file : option string) (mID : string) : bool :=
  bool_decide (readLocalMachineID file = Some mID).

(** ** Configuration ([config/config.go]) *)

Definition Config_Capabilities (disableEngine enableGRPC : bool) : gmap string bool :=
  <[CapGRPC := enableGRPC]> (<[CapDISABLE_ENGINE := disableEngine]> ∅).

Definition Config_Metadata (rawMetadata : string) : gmap string string :=
  foldl (λ meta pair,
    match split_byte_2 "=" pair with
    | [k; v] => <[trim_space k := trim_space v]> meta
    | _ => meta
    end) ∅ (split_byte "," rawMetadata).

(** ** Facts *)

Section facts.
Context `{MR : MapRange}.

Lemma metadata_ok_true ms k s :
  metadata_ok ms k s = true ↔ ∃ v, ms.(Metadata) !! k = Some v ∧ v ∈ unsafeSet_members s.
Proof.
  unfold metadata_ok. destruct (Metadata ms !! k) as [v|].
  - rewrite Contains_members. split; [by exists v|]. by intros (? & [= <-] & ?).
  - split; [done|]. by intros (? & ? & ?).
Qed.

Lemma HasMetadata_true t ms md :
  HasMetadata t ms md = true ↔
  ∀ k s, md !! k = Some s → ∃ v, ms.(Metadata) !! k = Some v ∧ v ∈ unsafeSet_members s.
Proof.
  unfold HasMetadata. rewrite forallb_elem. split.
  - intros H k s Hk. apply metadata_ok_true. apply (H (k, s)). by apply elem_of_range.
  - intros H [k s] Hin. apply elem_of_range in Hin. apply metadata_ok_true. eauto.
Qed.

Lemma HasMetadata_order t t' ms md : HasMetadata t ms md = HasMetadata t' ms md.
Proof.
  apply eq_true_iff_eq. by rewrite !HasMetadata_true.
Qed.

Lemma HasMetadata_empty t ms : HasMetadata t ms ∅ = true.
Proof. unfold HasMetadata. by rewrite range_empty. Qed.
End facts.

Lemma MatchID_refl ms : MatchID ms ms.(ID) = true.
Proof. unfold MatchID. by rewrite bool_decide_eq_true_2. Qed.

Lemma ShortID_prefix ms : has_prefix (ShortID ms) ms.(ID) = true.
Proof.
  apply has_prefix_spec. unfold ShortID. case_decide.
  - exists "". by rewrite str_app_nil_r.
  - exists (str_drop shortIDLen (ID ms)). by rewrite str_take_drop.
Qed.
