(* ===== verification/Config.v ===== *)
(** * The configuration of a daemon

    [pkg/tls.go], the options of [fleetd/fleetd.go] with the package that reads them
    ([vendor/github.com/rakyll/globalconf]), the address of a machine
    ([machine/coreos.go]) and the wiring of a server ([server/server.go]). *)

From Stdlib Require Import ZArith Lia Ascii.
From stdpp Require Import base list gmap strings.
From S2P Require Import Prelude GoStrings GoPath Pkg UnitFile Job Machine.

(** ** [pkg/tls.go]

    [Cert] is a key pair, [X509] a certificate; the parsers of Go's crypto packages are
    parameters, of which [pem_decode] gives the next block and what is left of the
    input. *)

Section tls.
Context {Cert X509 : Type}.
Context (read_file : string → option string) (parse_key_pair : string → string → option Cert).
Context (pem_decode : string → option (string * string)) (parse_certificate : string → option X509).

Record tls_config := mkTlsConfig {
  InsecureSkipVerify : bool; Certificates : list Cert; RootCAs : option (list X509); tls10 : bool
}.

(** [newCertPool]; [Blocked] is out of fuel. *)
Fixpoint newCertPool_from (fuel : nat) (certPool : list X509) (ca : string) : outcome (res unit (list X509)) :=
  match fuel with
  | O => Blocked
  | S fuel =>
    match pem_decode ca with
    | None => Done (Ok certPool)
    | Some (block, ca) =>
      match parse_certificate block with
      | None => Done (Err ())
      | Some cert => newCertPool_from fuel (certPool ++ [cert]) ca
      end
    end
  end.

Definition newCertPool (ca : string) : outcome (res unit (list X509)) := newCertPool_from (S (String.length ca)) [] ca.

Definition buildTLSClientConfig (ca cert key : string) : outcome (res unit tls_config) :=
  if bool_decide (cert = "") && bool_decide (key = "") then Done (Ok (mkTlsConfig true [] None false))
  else match parse_key_pair cert key with
       | None => Done (Err ())
       | Some tlsCert =>
         if bool_decide (ca = "") then Done (Ok (mkTlsConfig false [tlsCert] None true))
         else and_then (newCertPool ca) (λ r,
           Done (match r with
                 | Err e => Err e
                 | Ok cp => Ok (mkTlsConfig false [tlsCert] (Some cp) true)
                 end))
       end.

Definition read_if (file : string) : option string := if bool_decide (file = "") then Some "" else read_file file.

Definition ReadTLSConfigFiles (cafile certfile keyfile : string) : outcome (res unit tls_config) :=
  match read_if certfile with
  | None => Done (Err ())
  | Some cert =>
    match read_if keyfile with
    | None => Done (Err ())
    | Some key =>
      match read_if cafile with
      | None => Done (Err ())
      | Some ca => buildTLSClientConfig ca cert key
      end
    end
  end.
End tls.

Arguments tls_config : clear implicits.
Arguments mkTlsConfig {Cert X509}.
Arguments InsecureSkipVerify {Cert X509} t.
Arguments Certificates {Cert X509} t.
Arguments RootCAs {Cert X509} t.

(** ** Options ([fleetd.go], [globalconf.go])

    A flag set is the map from names to values that Go's [flag] package keeps.
    [Float] is the type of a [float64]; the parsers of [strconv] return a value with an
    error too (zero, or the bound that was passed), and [Set] assigns it. *)

Section options.
Context {Float : Type}.
Context (parse_int : string → Z) (parse_bool : string → bool) (parse_float : string → Float).

Inductive flag_value :=
| FInt (z : Z) | FString (s : string) | FBool (b : bool) | FFloat (f : Float) | FSlice (l : list string).

(** [Value.Set]. *)
Definition value_Set (v : flag_value) (s : string) : flag_value :=
  match v with
  | FInt _ => FInt (parse_int s)
  | FString _ => FString s
  | FBool _ => FBool (parse_bool s)
  | FFloat _ => FFloat (parse_float s)
  | FSlice _ => FSlice (StringSlice_Set s)
  end.

(** [FlagSet.Set]; the error for a name that is not a flag is dropped by its callers. *)
Definition flagset_Set (name s : string) (set : gmap string flag_value) : gmap string flag_value :=
  match set !! name with Some v => <[name := value_Set v s]> set | None => set end.

Definition getEnv (env : gmap string string) (envPrefix flagName : string) : option string :=
  if bool_decide (envPrefix = "") then None
  else
    let flagName := replace_all flagName "." "_" in
    let flagName := replace_all flagName "-" "_" in
    env !! to_upper (envPrefix +:+ flagName).

(** What [ParseSet] finds for a flag: the environment before the file. *)
Definition found (env dict : gmap string string) (envPrefix name : string) : option string :=
  match getEnv env envPrefix name with Some val => Some val | None => dict !! name end.

Definition ParseSet (env dict : gmap string string) (envPrefix : string) (set : gmap string flag_value) : gmap string flag_value :=
  foldl (λ set name, match found env dict envPrefix name with Some val => flagset_Set name val set | None => set end)
    set (elements (dom set)).

Record Config := mkConfig {
  EtcdServers : list string; EtcdUsername : string; EtcdPassword : string; EtcdKeyPrefix : string; EtcdKeyFile : string;
  EtcdCertFile : string; EtcdCAFile : string; EtcdRequestTimeout : Float; EngineReconcileInterval : Float; cPublicIP : string;
  Verbosity : Z; RawMetadata : string; AgentTTL : string; TokenLimit : Z; DisableEngine : bool; DisableWatches : bool;
  EnableGRPC : bool; VerifyUnits : bool; UnitsDirectory : string; SystemdUser : bool; AuthorizedKeysFile : string
}.

Context (float_1 float_2 : Float).

(** The flags that [Main] declares, with their defaults. *)
Definition cfgset : gmap string flag_value := list_to_map [
  ("verbosity", FInt 0);
  ("etcd_servers", FSlice ["http://127.0.0.1:2379"; "http://127.0.0.1:4001"]);
  ("etcd_username", FString ""); ("etcd_password", FString "");
  ("etcd_keyfile", FString ""); ("etcd_certfile", FString ""); ("etcd_cafile", FString "");
  ("etcd_key_prefix", FString "/_coreos.com/fleet/");
  ("etcd_request_timeout", FFloat float_1); ("engine_reconcile_interval", FFloat float_2);
  ("public_ip", FString ""); ("metadata", FString ""); ("agent_ttl", FString "30s");
  ("units_directory", FString "/run/fleet/units/"); ("systemd_user", FBool false); ("token_limit", FInt 100);
  ("enable_grpc", FBool false); ("disable_engine", FBool false); ("disable_watches", FBool false);
  ("verify_units", FBool false); ("authorized_keys_file", FString "")].

(** [Lookup(name).Value.Get()] with its type assertion; [None] is a panic. *)
Definition get_int (set : gmap string flag_value) (name : string) : option Z :=
  match set !! name with Some (FInt z) => Some z | _ => None end.
Definition get_string (set : gmap string flag_value) (name : string) : option string :=
  match set !! name with Some (FString s) => Some s | _ => None end.
Definition get_bool (set : gmap string flag_value) (name : string) : option bool :=
  match set !! name with Some (FBool b) => Some b | _ => None end.
Definition get_float (set : gmap string flag_value) (name : string) : option Float :=
  match set !! name with Some (FFloat f) => Some f | _ => None end.
Definition get_slice (set : gmap string flag_value) (name : string) : option (list string) :=
  match set !! name with Some (FSlice l) => Some l | _ => None end.

Definition read_config (set : gmap string flag_value) : option Config :=
  etcd_servers ← get_slice set "etcd_servers";
  etcd_username ← get_string set "etcd_username";
  etcd_password ← get_string set "etcd_password";
  etcd_key_prefix ← get_string set "etcd_key_prefix";
  etcd_keyfile ← get_string set "etcd_keyfile";
  etcd_certfile ← get_string set "etcd_certfile";
  etcd_cafile ← get_string set "etcd_cafile";
  etcd_request_timeout ← get_float set "etcd_request_timeout";
  engine_reconcile_interval ← get_float set "engine_reconcile_interval";
  public_ip ← get_string set "public_ip";
  verbosity ← get_int set "verbosity";
  metadata ← get_string set "metadata";
  agent_ttl ← get_string set "agent_ttl";
  token_limit ← get_int set "token_limit";
  disable_engine ← get_bool set "disable_engine";
  disable_watches ← get_bool set "disable_watches";
  enable_grpc ← get_bool set "enable_grpc";
  verify_units ← get_bool set "verify_units";
  units_directory ← get_string set "units_directory";
  systemd_user ← get_bool set "systemd_user";
  authorized_keys_file ← get_string set "authorized_keys_file";
  Some (mkConfig etcd_servers etcd_username etcd_password etcd_key_prefix etcd_keyfile etcd_certfile etcd_cafile
    etcd_request_timeout engine_reconcile_interval public_ip verbosity metadata agent_ttl token_limit disable_engine
    disable_watches enable_grpc verify_units units_directory systemd_user authorized_keys_file).

(** What a process finds: whether a path is a directory, the section without a name of
    a configuration file, the environment. *)
Record surroundings := mkSurroundings {
  sr_stat : string → option bool; sr_load : string → option (gmap string string); sr_env : gmap string string
}.

Definition DefaultConfigFile : string := "/etc/fleet/fleet.conf".

(** The file that [getConfig] reads, if any; [Fatal] is [log.Fatalf]. *)
Definition config_file (w : surroundings) (userCfgFile : string) : outcome (option string) :=
  if negb (bool_decide (userCfgFile = "")) then
    match w.(sr_stat) userCfgFile with
    | None => Fatal
    | Some isDir => if isDir : bool then Fatal else Done (Some userCfgFile)
    end
  else match w.(sr_stat) DefaultConfigFile with
       | Some _ => Done (Some DefaultConfigFile)
       | None => Done None
       end.

(** [getConfig]: the flag set afterwards, and the configuration. *)
Definition getConfig (w : surroundings) (set : gmap string flag_value) (userCfgFile : string)
  : outcome (gmap string flag_value * res unit Config) :=
  and_then (config_file w userCfgFile) (λ file,
    match (match file with Some f => w.(sr_load) f | None => Some ∅ end) with
    | None => Done (set, Err ())
    | Some dict =>
      let set := ParseSet w.(sr_env) dict "FLEET_" set in
      match read_config set with
      | Some cfg => Done (set, Ok cfg)
      | None => Fatal
      end
    end).
End options.

Arguments flag_value : clear implicits.
Arguments Config : clear implicits.

(** ** The address of a machine ([machine/coreos.go]) *)

(** A [net.IP] is its bytes. *)
Definition ip_To4 (ip : list Z) : option (list Z) :=
  match ip with
  | [_; _; _; _] => Some ip
  | [0; 0; 0; 0; 0; 0; 0; 0; 0; 0; 255; 255; a; b; c; d] => Some [a; b; c; d]
  | _ => None
  end%Z.

(** [IsGlobalUnicast] of an address with a four byte form: not the broadcast address,
    unspecified, loopback, multicast or link-local. *)
Definition ip4_global_unicast (ip : list Z) : bool :=
  match ip with
  | [a; b; c; d] =>
    negb ((a =? 255) && (b =? 255) && (c =? 255) && (d =? 255))
    && negb ((a =? 0) && (b =? 0) && (c =? 0) && (d =? 0))
    && negb (a =? 127)
    && negb (Z.land a 240 =? 224)
    && negb ((a =? 169) && (b =? 254))
  | _ => false
  end%Z.

Definition usableAddress (ip : list Z) : bool :=
  match ip_To4 ip with Some ip4 => ip4_global_unicast ip4 | None => false end.

(** [IP.String] of such an address. *)
Definition ip_String (ip : list Z) : string :=
  match ip_To4 ip with Some ip4 => join_byte "."%char (Itoa <$> ip4) | None => "" end.

Record netlink_Route := mkRoute { Dst : option string; LinkIndex : Z }.

(** What the kernel tells: the routes, the interfaces by number, and the addresses of an
    interface, each [None] if it does not parse. *)
Record network_info := mkNetworkInfo {
  ni_routes : option (list netlink_Route);
  ni_interface : Z → option string;
  ni_addrs : string → option (list (option (list Z)))
}.

Fixpoint default_interface (n : network_info) (routes : list netlink_Route) : option string :=
  match routes with
  | [] => None
  | r :: routes =>
    match r.(Dst) with
    | Some _ => default_interface n routes
    | None =>
      match n.(ni_interface) r.(LinkIndex) with
      | Some i => Some i
      | None => default_interface n routes
      end
    end
  end.

Definition getDefaultGatewayIface (n : network_info) : option string :=
  match n.(ni_routes) with
  | None => None
  | Some routes => default_interface n routes
  end.

Fixpoint first_usable (addrs : list (option (list Z))) : string :=
  match addrs with
  | [] => ""
  | None :: addrs => first_usable addrs
  | Some ip :: addrs => if usableAddress ip then ip_String ip else first_usable addrs
  end.

Definition getLocalIP (n : network_info) : string :=
  match getDefaultGatewayIface n with
  | None => ""
  | Some iface =>
    match n.(ni_addrs) iface with
    | None => ""
    | Some addrs => first_usable addrs
    end
  end.

(** ** The wiring of a server ([server/server.go])

    What a [Server] is made of, as far as the configuration decides it. *)

Inductive registry_kind := EtcdRegistryKind | RegistryMuxKind.

Inductive new_error := BadAgentTTL | NoUnitManager | NoMachineID | BadTLS | NoEtcdClient | NoListeners.

Section server.
Context {Float Cert X509 Listener : Type}.
Context (ParseDuration : string → option Z) (milliseconds : Float → Z).
Context (read_tls : string → string → string → res unit (tls_config Cert X509)).
Context (systemd_manager : string → bool → bool) (etcd_client : list string → bool).
Context (activation_listeners : option (list Listener)) (Version : string).

Record wiring := mkWiring {
  w_agentTTL : Z; w_machine : CoreOSMachine; w_tls : tls_config Cert X509; w_requestTimeout : Z;
  w_registry : registry_kind; w_stream : bool; w_engine_notifies : bool; w_connects : bool;
  w_listeners : list Listener; w_tokenLimit : Z; w_interval : Z; w_disableEngine : bool
}.

(** [time.Duration(f*1000) * time.Millisecond]. *)
Definition duration_of (f : Float) : Z := int64_wrap (milliseconds f * 1000000).

Definition newMachineFromConfig (cfg : Config Float) (machine_id : option string) (net : network_info) : option CoreOSMachine :=
  let state := mkMachineState "" cfg.(cPublicIP) (Config_Metadata cfg.(RawMetadata))
                 (Config_Capabilities cfg.(DisableEngine) cfg.(EnableGRPC)) Version in
  let mach := CoreOSMachine_Refresh (currentState machine_id (getLocalIP net)) (NewCoreOSMachine state) in
  if bool_decide ((CoreOSMachine_State mach).(ID) = "") then None else Some mach.

(** [New]; its components are in the files of their own. *)
Definition server_New (cfg : Config Float) (machine_id : option string) (net : network_info) (listeners : list Listener)
  : res new_error wiring :=
  match ParseDuration cfg.(AgentTTL) with
  | None => Err BadAgentTTL
  | Some agentTTL =>
    if negb (systemd_manager cfg.(UnitsDirectory) cfg.(SystemdUser)) then Err NoUnitManager
    else match newMachineFromConfig cfg machine_id net with
    | None => Err NoMachineID
    | Some mach =>
      match read_tls cfg.(EtcdCAFile) cfg.(EtcdCertFile) cfg.(EtcdKeyFile) with
      | Err _ => Err BadTLS
      | Ok tlsConfig =>
        if negb (etcd_client cfg.(EtcdServers)) then Err NoEtcdClient
        else
          let reg := if negb cfg.(EnableGRPC) then EtcdRegistryKind else RegistryMuxKind in
          let rStream := negb cfg.(DisableWatches) in
          let '(notifies, connects) := if negb cfg.(EnableGRPC) then (false, false) else (true, cfg.(DisableEngine)) in
          match (if bool_decide (length listeners = 0) then activation_listeners else Some listeners) with
          | None => Err NoListeners
          | Some listeners =>
            Ok (mkWiring agentTTL mach tlsConfig (duration_of cfg.(EtcdRequestTimeout)) reg rStream notifies connects
                  listeners cfg.(TokenLimit) (duration_of cfg.(EngineReconcileInterval)) cfg.(DisableEngine))
          end
      end
    end
  end.

(** The components that [Run] starts. *)
Inductive component := Available | PeriodicRefresh | AgentHeartbeat | AgentReconcile | StateGenerator | StatePublisher | EngineRun.

Definition components (w : wiring) : list component :=
  [Available; PeriodicRefresh; AgentHeartbeat; AgentReconcile; StateGenerator; StatePublisher]
  ++ (if w.(w_disableEngine) then [] else [EngineRun]).
End server.
Arguments wiring : clear implicits.

(** ** Options: what a flag ends up with *)

Section options_facts.
Context {Float : Type} (parse_int : string → Z) (parse_bool : string → bool) (parse_float : string → Float).
Local Abbreviation ParseSet := (ParseSet parse_int parse_bool parse_float).
Local Abbreviation value_Set := (value_Set parse_int parse_bool parse_float).

Definition updated (env dict : gmap string string) (envPrefix name : string) (v : flag_value Float) : flag_value Float :=
  match found env dict envPrefix name with Some val => value_Set v val | None => v end.

Lemma ParseSet_from env dict envPrefix names set n : NoDup names →
  foldl (λ set name, match found env dict envPrefix name with
                     | Some val => flagset_Set parse_int parse_bool parse_float name val set | None => set end) set names !! n =
  if decide (n ∈ names) then updated env dict envPrefix n <$> set !! n else set !! n.
Proof.
  intros Hnd. revert set. induction Hnd as [|x names Hx _ IH]; intros set; cbn [foldl].
  - by rewrite decide_False by (apply not_elem_of_nil).
  - rewrite IH. unfold updated, flagset_Set. destruct (decide (n = x)) as [->|Hne].
    + rewrite decide_False by done. rewrite decide_True by (by left).
      destruct (found env dict envPrefix x) as [val|]; [|by destruct (set !! x)].
      destruct (set !! x) eqn:E; [by rewrite lookup_insert_eq|by rewrite E].
    + assert (Hsame : match found env dict envPrefix x with
                      | Some val => match set !! x with Some v => <[x := value_Set v val]> set | None => set end
                      | None => set end !! n = set !! n).
      { destruct (found env dict envPrefix x); [|done]. destruct (set !! x); [|done]. by rewrite lookup_insert_ne. }
      rewrite Hsame. destruct (decide (n ∈ names)) as [Hin|Hin].
      * by rewrite decide_True by (by right).
      * rewrite decide_False; [done|]. rewrite elem_of_cons. by intros [?|?].
Qed.

(** Every flag has what the environment says, else what the file says, else what it had:
    whatever the order in which the flags are visited. *)
Lemma ParseSet_lookup env dict envPrefix set n :
  ParseSet env dict envPrefix set !! n = updated env dict envPrefix n <$> set !! n.
Proof.
  unfold Config.ParseSet. rewrite ParseSet_from by apply NoDup_elements.
  case_decide as Hn; [done|]. rewrite elem_of_elements, not_elem_of_dom in Hn. by rewrite Hn.
Qed.

(** The kind of a value does not change. *)
Definition same_kind (v w : flag_value Float) : Prop :=
  match v, w with
  | FInt _, FInt _ | FString _, FString _ | FBool _, FBool _ | FFloat _, FFloat _ | FSlice _, FSlice _ => True
  | _, _ => False
  end.

Lemma updated_kind env dict envPrefix n v : same_kind v (updated env dict envPrefix n v).
Proof. unfold updated. destruct (found env dict envPrefix n); by destruct v. Qed.

Definition typed_like (s1 s2 : gmap string (flag_value Float)) : Prop :=
  ∀ n v, s1 !! n = Some v → ∃ w, s2 !! n = Some w ∧ same_kind v w.

Lemma ParseSet_typed env dict envPrefix set : typed_like set (ParseSet env dict envPrefix set).
Proof.
  intros n v Hv. rewrite ParseSet_lookup, Hv. eexists. split; [done|]. apply updated_kind.
Qed.

Lemma same_kind_trans v1 v2 v3 : same_kind v1 v2 → same_kind v2 v3 → same_kind v1 v3.
Proof. by destruct v1, v2, v3. Qed.

Lemma typed_like_trans s1 s2 s3 : typed_like s1 s2 → typed_like s2 s3 → typed_like s1 s3.
Proof.
  intros H1 H2 n v Hv. destruct (H1 n v Hv) as (w & Hw & Hk). destruct (H2 n w Hw) as (x & Hx & Hk').
  exists x. split; [done|]. by eapply same_kind_trans.
Qed.

Context (float_1 float_2 : Float).

(** A flag set with the flags of [Main] has all that [getConfig] looks up: none of its
    type assertions panics. *)
Lemma read_config_total set : typed_like (cfgset float_1 float_2) set → is_Some (read_config set).
Proof.
  intros Ht. unfold read_config.
  assert (Hs : ∀ n s, cfgset float_1 float_2 !! n = Some (FString s) → is_Some (get_string set n)).
  { intros n s Hn. destruct (Ht _ _ Hn) as (w & Hw & Hk). unfold get_string. rewrite Hw. clear Ht Hn Hw.
    destruct w; first [contradiction | eexists; reflexivity]. }
  assert (Hb : ∀ n b, cfgset float_1 float_2 !! n = Some (FBool b) → is_Some (get_bool set n)).
  { intros n b Hn. destruct (Ht _ _ Hn) as (w & Hw & Hk). unfold get_bool. rewrite Hw. clear Ht Hn Hw.
    destruct w; first [contradiction | eexists; reflexivity]. }
  assert (Hi : ∀ n z, cfgset float_1 float_2 !! n = Some (FInt z) → is_Some (get_int set n)).
  { intros n z Hn. destruct (Ht _ _ Hn) as (w & Hw & Hk). unfold get_int. rewrite Hw. clear Ht Hn Hw.
    destruct w; first [contradiction | eexists; reflexivity]. }
  assert (Hf : ∀ n f, cfgset float_1 float_2 !! n = Some (FFloat f) → is_Some (get_float set n)).
  { intros n f Hn. destruct (Ht _ _ Hn) as (w & Hw & Hk). unfold get_float. rewrite Hw. clear Ht Hn Hw.
    destruct w; first [contradiction | eexists; reflexivity]. }
  assert (Hl : ∀ n l, cfgset float_1 float_2 !! n = Some (FSlice l) → is_Some (get_slice set n)).
  { intros n l Hn. destruct (Ht _ _ Hn) as (w & Hw & Hk). unfold get_slice. rewrite Hw. clear Ht Hn Hw.
    destruct w; first [contradiction | eexists; reflexivity]. }
  repeat match goal with
  | |- is_Some (mbind _ (get_string set ?n)) => destruct (Hs n _ eq_refl) as [? ->]; cbn [mbind option_bind]
  | |- is_Some (mbind _ (get_bool set ?n)) => destruct (Hb n _ eq_refl) as [? ->]; cbn [mbind option_bind]
  | |- is_Some (mbind _ (get_int set ?n)) => destruct (Hi n _ eq_refl) as [? ->]; cbn [mbind option_bind]
  | |- is_Some (mbind _ (get_float set ?n)) => destruct (Hf n _ eq_refl) as [? ->]; cbn [mbind option_bind]
  | |- is_Some (mbind _ (get_slice set ?n)) => destruct (Hl n _ eq_refl) as [? ->]; cbn [mbind option_bind]
  end. done.
Qed.
End options_facts.

(** ** Reading the configuration again *)

(** What the file that [getConfig] reads has. *)
Definition config_dict (w : surroundings) (f : string) : option (gmap string string) :=
  match config_file w f with
  | Done (Some file) => w.(sr_load) file
  | Done None => Some ∅
  | _ => None
  end.

Section reload.
Context {Float : Type} (parse_int : string → Z) (parse_bool : string → bool) (parse_float : string → Float).
Context (float_1 float_2 : Float).
Local Abbreviation getConfig := (getConfig parse_int parse_bool parse_float).
Local Abbreviation cfgset := (cfgset float_1 float_2).

Lemma getConfig_Done w set f set' cfg :
  getConfig w set f = Done (set', Ok cfg) →
  ∃ dict, config_dict w f = Some dict ∧ set' = ParseSet parse_int parse_bool parse_float w.(sr_env) dict "FLEET_" set ∧
    read_config set' = Some cfg.
Proof.
  unfold Config.getConfig, config_dict. destruct (config_file w f) as [file| |]; cbn; try done.
  destruct (match file with Some f => sr_load w f | None => Some ∅ end) as [dict|] eqn:Ed; [|done].
  destruct (read_config (ParseSet parse_int parse_bool parse_float (sr_env w) dict "FLEET_" set)) eqn:Ec; [|done].
  intros [= <- <-]. exists dict. by destruct file.
Qed.

Lemma value_Set_kind v1 v2 s : same_kind v1 v2 →
  value_Set parse_int parse_bool parse_float v1 s = value_Set parse_int parse_bool parse_float v2 s.
Proof. by destruct v1, v2. Qed.

(** C37: a daemon that reads its configuration again has, for every option of the
    environment or of the file, what a daemon started anew has; an option that is in
    neither any more keeps the value it had, where a new daemon has the default. *)
Theorem reload_keeps_options w1 w2 f s1 c1 s2 c2 s3 c3 :
  getConfig w1 cfgset f = Done (s1, Ok c1) → getConfig w2 s1 f = Done (s2, Ok c2) → getConfig w2 cfgset f = Done (s3, Ok c3) →
  ∃ dict, config_dict w2 f = Some dict ∧ ∀ n,
    match found w2.(sr_env) dict "FLEET_" n with
    | Some _ => s2 !! n = s3 !! n
    | None => s2 !! n = s1 !! n ∧ s3 !! n = cfgset !! n
    end.
Proof.
  intros H1 H2 H3. apply getConfig_Done in H1 as (d1 & _ & -> & _). apply getConfig_Done in H2 as (d2 & Hd2 & -> & _).
  apply getConfig_Done in H3 as (d3 & Hd3 & -> & _). rewrite Hd2 in Hd3. injection Hd3 as <-. exists d2. split; [done|].
  intros n. rewrite !ParseSet_lookup.
  destruct (found (sr_env w2) d2 "FLEET_" n) as [val|] eqn:Ef; destruct (cfgset !! n) as [v|]; try done; cbn.
  - f_equal. unfold updated at 1 3. rewrite Ef. symmetry. apply value_Set_kind, updated_kind.
  - unfold updated at 1 4. by rewrite Ef.
Qed.

(** Only a file that cannot be used ends the process: no look-up panics, however often
    the configuration is read. *)
Lemma getConfig_safe w set f : typed_like cfgset set →
  getConfig w set f = Fatal → config_file w f = Fatal.
Proof.
  intros Ht. unfold Config.getConfig. destruct (config_file w f) as [file| |]; cbn; [|done|done].
  destruct (match file with Some f => sr_load w f | None => Some ∅ end) as [dict|]; [|done].
  destruct (read_config_total float_1 float_2 (ParseSet parse_int parse_bool parse_float (sr_env w) dict "FLEET_" set)) as [cfg ->]; [|done].
  eapply typed_like_trans; [done|apply ParseSet_typed].
Qed.
End reload.

(** ** TLS *)

Section tls_facts.
Context {Cert X509 : Type}.
Context (read_file : string → option string) (parse_key_pair : string → string → option Cert).
Context (pem_decode : string → option (string * string)) (parse_certificate : string → option X509).
(** What is left after a block is shorter. *)
Context (pem_shrinks : ∀ s b r, pem_decode s = Some (b, r) → String.length r < String.length s).

Lemma newCertPool_ends fuel : ∀ pool ca, String.length ca < fuel →
  newCertPool_from pem_decode parse_certificate fuel pool ca ≠ Blocked.
Proof.
  induction fuel as [|fuel IH]; intros pool ca Hf; [lia|]. cbn.
  destruct (pem_decode ca) as [[block rest]|] eqn:E; [|done]. destruct (parse_certificate block); [|done].
  apply IH. apply pem_shrinks in E. lia.
Qed.

(** The blocks of a text, up to where no further one is found. *)
Inductive pem_blocks : string → list string → Prop :=
| pb_end ca : pem_decode ca = None → pem_blocks ca []
| pb_block ca block rest l : pem_decode ca = Some (block, rest) → pem_blocks rest l → pem_blocks ca (block :: l).

Lemma newCertPool_blocks fuel : ∀ pool ca certs,
  newCertPool_from pem_decode parse_certificate fuel pool ca = Done (Ok certs) →
  ∃ blocks l, pem_blocks ca blocks ∧ mapM parse_certificate blocks = Some l ∧ certs = pool ++ l.
Proof.
  induction fuel as [|fuel IH]; intros pool ca certs; [done|]. cbn.
  destruct (pem_decode ca) as [[block rest]|] eqn:E.
  - destruct (parse_certificate block) as [cert|] eqn:Ec; [|done]. intros (blocks & l & Hb & Hm & ->)%IH.
    exists (block :: blocks), (cert :: l). split_and!; [by econstructor| |by rewrite <- app_assoc].
    cbn. by rewrite Ec, Hm.
  - intros [= <-]. exists [], []. split_and!; [by constructor|done|by rewrite app_nil_r].
Qed.

Local Abbreviation read_tls := (ReadTLSConfigFiles read_file parse_key_pair pem_decode parse_certificate).

(** What verifies the server: nothing, what Go trusts by default, or the certificates of
    all blocks of the text of the authority. *)
Definition verifies_with (ca : string) (cfg : tls_config Cert X509) : Prop :=
  match cfg.(RootCAs) with
  | None => ca = ""
  | Some certs => ca ≠ "" ∧ ∃ blocks, pem_blocks ca blocks ∧ mapM parse_certificate blocks = Some certs
  end.

Lemma buildTLS_verifies ca cert key cfg :
  buildTLSClientConfig parse_key_pair pem_decode parse_certificate ca cert key = Done (Ok cfg) →
  (cfg.(InsecureSkipVerify) = true ↔ cert = "" ∧ key = "") ∧
  (cfg.(InsecureSkipVerify) = false → verifies_with ca cfg ∧ option_map (λ c, [c]) (parse_key_pair cert key) = Some cfg.(Certificates)).
Proof.
  unfold buildTLSClientConfig, verifies_with. destruct (bool_decide (cert = "") && bool_decide (key = "")) eqn:Eb.
  { apply andb_true_iff in Eb as [->%bool_decide_eq_true ->%bool_decide_eq_true]. intros [= <-]. cbn. done. }
  assert (¬ (cert = "" ∧ key = "")) as Hne by (intros [-> ->]; done). clear Eb.
  destruct (parse_key_pair cert key) as [kp|]; [|done]. case_bool_decide as Hca.
  { intros [= <-]. cbn. naive_solver. }
  unfold newCertPool. destruct (newCertPool_from _ _ _ [] ca) as [[certs|]| |] eqn:Ep; cbn; try done. intros [= <-]. cbn.
  split; [naive_solver|]. intros _. split_and!; [done| |done].
  apply newCertPool_blocks in Ep as (blocks & l & Hb & Hm & ->). eauto.
Qed.

(** C33: reading the certificates ends; a configuration that is read leaves the server
    unverified exactly when there is neither a certificate nor a key, because the files are
    not configured or are empty, and then an authority is ignored.  Otherwise the client
    presents the key pair, and the server is verified against exactly the certificates of
    the blocks of the authority's file, all of which have parsed, or against the default
    of Go if no authority is configured or its file is empty. *)
Theorem tls_verifies cafile certfile keyfile :
  read_tls cafile certfile keyfile ≠ Blocked ∧
  (∀ cfg, read_tls cafile certfile keyfile = Done (Ok cfg) →
     ∃ ca cert key, read_if read_file cafile = Some ca ∧ read_if read_file certfile = Some cert ∧ read_if read_file keyfile = Some key ∧
     (cfg.(InsecureSkipVerify) = true ↔ cert = "" ∧ key = "") ∧
     (cfg.(InsecureSkipVerify) = false →
        match cfg.(RootCAs) with
        | None => ca = ""
        | Some certs => ca ≠ "" ∧ ∃ blocks, pem_blocks ca blocks ∧ mapM parse_certificate blocks = Some certs
        end ∧ option_map (λ c, [c]) (parse_key_pair cert key) = Some cfg.(Certificates))) ∧
  (read_if read_file certfile = Some "" → read_if read_file keyfile = Some "" → is_Some (read_if read_file cafile) →
     read_tls cafile certfile keyfile = Done (Ok (mkTlsConfig true [] None false))).
Proof.
  unfold ReadTLSConfigFiles. split_and!.
  - unfold buildTLSClientConfig. repeat case_match; try done.
    assert (Hp : newCertPool pem_decode parse_certificate s1 ≠ Blocked) by (apply newCertPool_ends; lia).
    by destruct (newCertPool pem_decode parse_certificate s1).
  - intros cfg. destruct (read_if read_file certfile) as [cert|]; [|done]. destruct (read_if read_file keyfile) as [key|]; [|done].
    destruct (read_if read_file cafile) as [ca|]; [|done]. intros H%buildTLS_verifies. by exists ca, cert, key.
  - intros -> -> [ca ->]. done.
Qed.
End tls_facts.

(** ** A server *)

Section server_facts.
Context {Float Cert X509 Listener : Type}.
Context (ParseDuration : string → option Z) (milliseconds : Float → Z).
Context (read_tls : string → string → string → res unit (tls_config Cert X509)).
Context (systemd_manager : string → bool → bool) (etcd_client : list string → bool).
Context (activation_listeners : option (list Listener)) (Version : string).

Lemma newMachine_spec (cfg : Config Float) machine_id net mach :
  newMachineFromConfig Version cfg machine_id net = Some mach →
  let st := CoreOSMachine_State mach in
  Some st.(ID) = readLocalMachineID machine_id ∧
  st.(PublicIP) = (if bool_decide (cfg.(cPublicIP) = "") then getLocalIP net else cfg.(cPublicIP)) ∧
  st.(Metadata) = Config_Metadata cfg.(RawMetadata) ∧ st.(Machine.Version) = Version ∧
  Capabilities_Has st.(Capabilities) CapGRPC = cfg.(EnableGRPC) ∧
  Capabilities_Has st.(Capabilities) CapDISABLE_ENGINE = cfg.(DisableEngine).
Proof.
  unfold newMachineFromConfig, currentState. destruct (readLocalMachineID machine_id) as [id|] eqn:E; [|done].
  cbn. assert (Hid : id ≠ "").
  { unfold readLocalMachineID in E. repeat case_match; naive_solver. }
  rewrite bool_decide_eq_false_2 by done. intros [= <-]. cbn.
  split_and!; [done|by case_decide; case_bool_decide|by case_decide|by case_decide|..];
    by destruct (EnableGRPC cfg), (DisableEngine cfg).
Qed.

(** *** The address *)

(** An address of four bytes that other machines can use: neither the broadcast address
    nor the unspecified one, nor loopback, multicast or link-local. *)
Definition routable_ip4 (ip : list Z) : Prop :=
  ∃ a b c d, ip = [a; b; c; d] ∧ ip ≠ [255; 255; 255; 255]%Z ∧ ip ≠ [0; 0; 0; 0]%Z ∧ a ≠ 127%Z ∧
    ¬ (224 ≤ a ≤ 239)%Z ∧ ¬ (a = 169 ∧ b = 254)%Z.

(** The kernel tells bytes. *)
Definition net_bytes (net : network_info) : Prop :=
  ∀ i addrs ip, net.(ni_addrs) i = Some addrs → Some ip ∈ addrs → Forall (λ b, 0 ≤ b < 256)%Z ip.

(** The interface of a default route, and its routable addresses. *)
Definition default_route (net : network_info) (i : string) : Prop :=
  ∃ routes r, net.(ni_routes) = Some routes ∧ r ∈ routes ∧ r.(Dst) = None ∧ net.(ni_interface) r.(LinkIndex) = Some i.

Definition interface_address (net : network_info) (i : string) (ip4 : list Z) : Prop :=
  ∃ addrs ip, net.(ni_addrs) i = Some addrs ∧ Some ip ∈ addrs ∧ ip_To4 ip = Some ip4 ∧ routable_ip4 ip4.

Lemma multicast_range a : (0 ≤ a < 256)%Z → Z.land a 240 = 224%Z ↔ (224 ≤ a ≤ 239)%Z.
Proof.
  intros Ha. assert (Forall (λ n, bool_decide (Z.land (Z.of_nat n) 240 = 224%Z) = bool_decide (224 ≤ Z.of_nat n ≤ 239)%Z) (seq 0 256)) as H.
  { apply (bool_decide_unpack _). vm_compute. exact I. }
  rewrite Forall_seq in H. specialize (H (Z.to_nat a) ltac:(lia)). rewrite Z2Nat.id in H by lia.
  split; intros Hx; [apply (bool_decide_eq_true_1 (224 ≤ a ≤ 239)%Z); rewrite <- H|apply (bool_decide_eq_true_1 (Z.land a 240 = 224%Z)); rewrite H];
    by apply bool_decide_eq_true_2.
Qed.

Lemma global_unicast_routable ip :
  Forall (λ b, 0 ≤ b < 256)%Z ip → ip4_global_unicast ip = true ↔ routable_ip4 ip.
Proof.
  intros Hb. unfold ip4_global_unicast, routable_ip4.
  destruct ip as [|a [|b [|c [|d [|]]]]]; try (split; [done|by intros (?&?&?&?&?&_)]).
  apply Forall_cons in Hb as [Ha _]. rewrite !andb_true_iff, !negb_true_iff, <- !not_true_iff_false, !andb_true_iff, !Z.eqb_eq, multicast_range by done.
  split.
  - intros ((((H1 & H2) & H3) & H4) & H5). exists a, b, c, d. split_and!; try done; intros [= -> -> -> ->]; tauto.
  - intros (a' & b' & c' & d' & [= <- <- <- <-] & H1 & H2 & H3 & H4 & H5). split_and!; try done;
      intros [[[-> ->] ->] ->]; done.
Qed.

Lemma ip_To4_bytes ip ip4 : Forall (λ b, 0 ≤ b < 256)%Z ip → ip_To4 ip = Some ip4 → Forall (λ b, 0 ≤ b < 256)%Z ip4.
Proof.
  unfold ip_To4. intros Hb H. repeat case_match; simplify_eq; try done;
    rewrite !Forall_cons in Hb; rewrite !Forall_cons; tauto.
Qed.

Lemma usableAddress_routable ip :
  Forall (λ b, 0 ≤ b < 256)%Z ip → usableAddress ip = true ↔ ∃ ip4, ip_To4 ip = Some ip4 ∧ routable_ip4 ip4.
Proof.
  intros Hb. unfold usableAddress. destruct (ip_To4 ip) as [ip4|] eqn:E; [|naive_solver].
  rewrite global_unicast_routable by (by eapply ip_To4_bytes). naive_solver.
Qed.

Lemma first_usable_spec addrs :
  (∃ ip, Some ip ∈ addrs ∧ usableAddress ip = true ∧ first_usable addrs = ip_String ip) ∨
  (first_usable addrs = "" ∧ ∀ ip, Some ip ∈ addrs → usableAddress ip = false).
Proof.
  induction addrs as [|[ip|] addrs IH]; cbn; [right; split; [done|by intros ? ?%elem_of_nil]| |].
  - destruct (usableAddress ip) eqn:Eu; [left; exists ip; split_and!; [left|done..]|].
    destruct IH as [(ip' & ? & ? & ?)|[? Hno]]; [left; exists ip'; split_and!; [by right|done..]|right].
    split; [done|]. intros ip' [[= ->]|?]%elem_of_cons; auto.
  - destruct IH as [(ip' & ? & ? & ?)|[? Hno]]; [left; exists ip'; split_and!; [by right|done..]|right].
    split; [done|]. intros ip' [?|?]%elem_of_cons; [done|auto].
Qed.

Lemma default_interface_route net routes i :
  default_interface net routes = Some i → ∃ r, r ∈ routes ∧ r.(Dst) = None ∧ net.(ni_interface) r.(LinkIndex) = Some i.
Proof.
  induction routes as [|r routes IH]; [done|]. cbn. destruct (Dst r) eqn:Ed; [|destruct (ni_interface net (LinkIndex r)) eqn:El].
  - intros (r' & ? & ?)%IH. exists r'. split; [by right|done].
  - intros [= <-]. exists r. split; [left|done].
  - intros (r' & ? & ?)%IH. exists r'. split; [by right|done].
Qed.

Lemma getDefaultGatewayIface_route net i : getDefaultGatewayIface net = Some i → default_route net i.
Proof.
  unfold getDefaultGatewayIface, default_route. destruct (ni_routes net) as [routes|]; [|done].
  intros (r & ? & ?)%default_interface_route. by exists routes, r.
Qed.

(** A machine finds a routable address of the interface of a default route, or none, and
    then the interface that it takes has none. *)
Lemma getLocalIP_spec net : net_bytes net →
  (∃ i ip4, default_route net i ∧ interface_address net i ip4 ∧ getLocalIP net = join_byte "."%char (Itoa <$> ip4)) ∨
  (getLocalIP net = "" ∧ ∀ i ip4, getDefaultGatewayIface net = Some i → ¬ interface_address net i ip4).
Proof.
  intros Hb. unfold getLocalIP. destruct (getDefaultGatewayIface net) as [i|] eqn:Ei; [|by right].
  destruct (ni_addrs net i) as [addrs|] eqn:Ea.
  2: { right. split; [done|]. intros i' ip4 [= <-] (addrs & ip & Ha & _). congruence. }
  destruct (first_usable_spec addrs) as [(ip & Hin & Hu & ->)|[-> Hno]].
  - left. apply usableAddress_routable in Hu as (ip4 & H4 & Hr); [|by eapply Hb].
    exists i, ip4. split_and!; [by apply getDefaultGatewayIface_route|by exists addrs, ip|]. unfold ip_String. by rewrite H4.
  - right. split; [done|]. intros i' ip4 [= <-] (addrs' & ip & Ha & Hin & H4 & Hr).
    assert (addrs' = addrs) as -> by congruence. pose proof (Hno ip Hin) as Hf.
    assert (usableAddress ip = true) as Ht by (apply usableAddress_routable; [by eapply Hb|eauto]). congruence.
Qed.

(** C34: a server that is made has the identity of its machine file and announces what it
    does.  Its address is the configured one; if none is, it is one of the interface of a
    default route that other machines can use (not the broadcast or the unspecified address,
    nor loopback, multicast or link-local), or it is empty when the interface that is taken
    has none or there is no such interface.  The server uses the registry of the engine
    exactly when gRPC is enabled, and then it either runs an engine, which connects it, or
    connects by itself; it runs an engine unless that is disabled. *)
Theorem server_New_wiring cfg machine_id net listeners w :
  server_New ParseDuration milliseconds read_tls systemd_manager etcd_client activation_listeners Version
    cfg machine_id net listeners = Ok w → net_bytes net →
  let st := CoreOSMachine_State w.(w_machine) in
  Some st.(ID) = readLocalMachineID machine_id ∧
  (cfg.(cPublicIP) ≠ "" → st.(PublicIP) = cfg.(cPublicIP)) ∧
  (cfg.(cPublicIP) = "" →
    (∃ i ip4, default_route net i ∧ interface_address net i ip4 ∧ st.(PublicIP) = join_byte "."%char (Itoa <$> ip4)) ∨
    (st.(PublicIP) = "" ∧ ∀ i ip4, getDefaultGatewayIface net = Some i → ¬ interface_address net i ip4)) ∧
  (Capabilities_Has st.(Capabilities) CapGRPC = true ↔ w.(w_registry) = RegistryMuxKind) ∧
  (Capabilities_Has st.(Capabilities) CapDISABLE_ENGINE = true ↔ EngineRun ∉ components w) ∧
  (w.(w_registry) = RegistryMuxKind → w.(w_engine_notifies) = true ∧ (w.(w_connects) = true ↔ EngineRun ∉ components w)) ∧
  (w.(w_registry) = EtcdRegistryKind → w.(w_engine_notifies) = false ∧ w.(w_connects) = false).
Proof.
  intros H Hb. revert H. unfold server_New. destruct (ParseDuration (AgentTTL cfg)) as [ttl|]; [|done].
  destruct (systemd_manager _ _); [|done]. destruct (newMachineFromConfig Version cfg machine_id net) as [mach|] eqn:Em; [|done].
  apply newMachine_spec in Em as (Hid & Hip & _ & _ & Hg & Hd).
  assert (Hip1 : cfg.(cPublicIP) ≠ "" → (CoreOSMachine_State mach).(PublicIP) = cfg.(cPublicIP))
    by (intros Hne; by rewrite Hip, bool_decide_eq_false_2).
  assert (Hip2 : cfg.(cPublicIP) = "" → (CoreOSMachine_State mach).(PublicIP) = getLocalIP net)
    by (intros He; by rewrite Hip, bool_decide_eq_true_2). clear Hip.
  destruct (read_tls _ _ _) as [tls|]; [|done]. cbn [negb]. destruct (etcd_client (EtcdServers cfg)); [|done]. cbn [negb].
  assert (Hnot : ∀ b : bool, EngineRun ∉ [Available; PeriodicRefresh; AgentHeartbeat; AgentReconcile; StateGenerator; StatePublisher]
                        ++ (if b then [] else [EngineRun]) ↔ b = true) by (intros []; set_solver).
  destruct (EnableGRPC cfg); cbn [negb];
    (destruct (if bool_decide (length listeners = 0) then activation_listeners else Some listeners); [|done]); intros [= <-]; cbn [w_machine w_registry w_engine_notifies w_connects];
    unfold components; cbn [w_disableEngine]; rewrite Hg, Hd, Hnot; (split_and!; [done|done|intros He; rewrite (Hip2 He); by apply getLocalIP_spec|..]); try done; naive_solver.
Qed.
End server_facts.

(** ** Examples *)

Definition ex_parse_int (s : string) : Z := default 0%Z (Atoi s).
Definition ex_parse_bool (s : string) : bool := bool_decide (s = "true").

(** A configuration file that sets the address, and what is left of it later. *)
Definition ex_file (dict : gmap string string) : surroundings :=
  mkSurroundings (λ _, Some false) (λ _, Some dict) ∅.

Definition ex_load (w : surroundings) (set : gmap string (flag_value Z)) : gmap string (flag_value Z) * res unit (Config Z) :=
  match getConfig ex_parse_int ex_parse_bool ex_parse_int w set "" with Done r => r | _ => (set, Err ()) end.

Lemma ex_load_ok w set : is_ok (ex_load w set).2 = true →
  ∃ c, getConfig ex_parse_int ex_parse_bool ex_parse_int w set "" = Done ((ex_load w set).1, Ok c).
Proof.
  unfold ex_load. destruct (getConfig ex_parse_int ex_parse_bool ex_parse_int w set "") as [[s [c|]]| |]; cbn; try done. eauto.
Qed.

Definition ex_before : gmap string (flag_value Z) * res unit (Config Z) :=
  ex_load (ex_file {["public_ip" := "10.0.0.1"; "token_limit" := "many"]}) (cfgset 1%Z 2%Z).
Definition ex_after : gmap string (flag_value Z) * res unit (Config Z) := ex_load (ex_file ∅) ex_before.1.
Definition ex_anew : gmap string (flag_value Z) * res unit (Config Z) := ex_load (ex_file ∅) (cfgset 1%Z 2%Z).

Lemma reload_keeps_options_witness :
  get_string ex_after.1 "public_ip" = Some "10.0.0.1" ∧ get_string ex_anew.1 "public_ip" = Some "" ∧
  get_int ex_before.1 "token_limit" = Some 0%Z ∧
  ∃ dict, config_dict (ex_file ∅) "" = Some dict ∧ ∀ n,
    match found (ex_file ∅).(sr_env) dict "FLEET_" n with
    | Some _ => ex_after.1 !! n = ex_anew.1 !! n
    | None => ex_after.1 !! n = ex_before.1 !! n ∧ ex_anew.1 !! n = cfgset 1%Z 2%Z !! n
    end.
Proof.
  split; [vm_compute; reflexivity|]. split; [vm_compute; reflexivity|]. split; [vm_compute; reflexivity|].
  destruct (ex_load_ok (ex_file {["public_ip" := "10.0.0.1"; "token_limit" := "many"]}) (cfgset 1%Z 2%Z)) as [c1 E1]; [vm_compute; reflexivity|].
  destruct (ex_load_ok (ex_file ∅) ex_before.1) as [c2 E2]; [vm_compute; reflexivity|].
  destruct (ex_load_ok (ex_file ∅) (cfgset 1%Z 2%Z)) as [c3 E3]; [vm_compute; reflexivity|].
  exact (reload_keeps_options _ _ _ 1%Z 2%Z _ _ _ _ _ _ _ _ _ E1 E2 E3).
Defined.

(** A number that does not parse becomes zero without an error. *)
Example ex_malformed_number : get_int ex_before.1 "token_limit" = Some 0%Z ∧ is_ok ex_before.2 = true.
Proof. split; vm_compute; reflexivity. Qed.

(** A decoder whose blocks are the bytes, and any file readable. *)
Definition ex_pem (s : string) : option (string * string) := match s with "" => None | String a s => Some (String a "", s) end.

Lemma ex_pem_shrinks s b r : ex_pem s = Some (b, r) → String.length r < String.length s.
Proof. destruct s as [|a s]; [done|]. intros [= <- <-]. cbn. lia. Qed.

(** An authority alone is ignored; with a key pair, both of its certificates are trusted. *)
Lemma tls_verifies_witness :
  ReadTLSConfigFiles (Cert := string) (X509 := string) Some (λ c _, Some c) ex_pem Some "ca" "" "" = Done (Ok (mkTlsConfig true [] None false)) ∧
  match ReadTLSConfigFiles (Cert := string) (X509 := string) Some (λ c _, Some c) ex_pem Some "ca" "cert" "key" with
  | Done (Ok cfg) => cfg.(RootCAs) = Some ["c"; "a"] ∧ cfg.(Certificates) = ["cert"]
  | _ => False
  end.
Proof.
  split.
  - refine (proj2 (proj2 (tls_verifies Some (λ c _, Some c) ex_pem Some ex_pem_shrinks "ca" "" "")) _ _ _); vm_compute; eauto.
  - destruct (tls_verifies (Cert := string) (X509 := string) Some (λ c _, Some c) ex_pem Some ex_pem_shrinks "ca" "cert" "key") as (_ & H & _).
    destruct (ReadTLSConfigFiles _ _ _ _ _ _ _) as [[cfg|]| |] eqn:E; [|vm_compute in E; discriminate E..].
    destruct (H cfg eq_refl) as (ca & cert & key & [= <-] & [= <-] & [= <-] & Hs & Hv).
    assert (InsecureSkipVerify cfg = false) as Hf by (apply not_true_iff_false; intros [? _]%Hs; done).
    destruct (Hv Hf) as [Hr [= <-]]. split; [|done]. destruct (RootCAs cfg) as [certs|]; [|done].
    destruct Hr as (_ & blocks & Hb & Hm). f_equal.
    inversion Hb as [|? ? ? l1 Hd1 Hb1]; [done|subst]. injection Hd1 as <- <-.
    inversion Hb1 as [|? ? ? l2 Hd2 Hb2]; [done|subst]. injection Hd2 as <- <-.
    inversion Hb2; [subst|done]. by injection Hm as <-.
Defined.

Definition ex_config (grpc : bool) : Config Z :=
  mkConfig [] "" "" "/_coreos.com/fleet/" "" "" "" 1%Z 2%Z "" 0 "" "30s" 100 true false grpc false "/run/fleet/units/" false "".

Definition ex_net : network_info :=
  mkNetworkInfo (Some [mkRoute (Some "10.0.0.0/8") 2; mkRoute None 3]) (λ _, Some "eth0")
    (λ _, Some [None; Some [127; 0; 0; 1]; Some [10; 0; 0; 7]]%Z).

Definition ex_wired : res new_error (wiring unit unit unit) :=
  server_New (λ _, Some 30%Z) (λ z, z) (λ _ _ _, Ok (mkTlsConfig true [] None false)) (λ _ _, true) (λ _, true)
    (Some [()]) "1.0.0" (ex_config true) (Some "m1") ex_net [].

Lemma ex_net_bytes : net_bytes ex_net.
Proof.
  intros i addrs ip [= <-] Hin. apply elem_of_cons in Hin as [?|Hin]; [done|].
  apply elem_of_cons in Hin as [[= ->]|Hin]; [repeat constructor; done|].
  apply list_elem_of_singleton in Hin as [= ->]. repeat constructor; done.
Qed.

Lemma server_New_wiring_witness :
  match ex_wired with
  | Ok w => w.(w_connects) = true ∧ (CoreOSMachine_State w.(w_machine)).(PublicIP) = "10.0.0.7"
  | Err _ => False
  end.
Proof.
  destruct ex_wired as [w|e] eqn:E; [|vm_compute in E; discriminate].
  destruct (server_New_wiring _ _ _ _ _ _ _ _ _ _ _ w E ex_net_bytes) as (_ & _ & Hip & Hreg & Hdis & Hmux & _). split.
  - vm_compute in E. injection E as <-. apply Hmux; [reflexivity|]. apply Hdis. vm_compute. reflexivity.
  - destruct (Hip eq_refl) as [(i & ip4 & _ & (addrs & ip & [= <-] & Hin & H4 & Hr) & ->)|[_ Hno]].
    + apply elem_of_cons in Hin as [?|Hin]; [done|]. apply elem_of_cons in Hin as [[= ->]|Hin].
      * injection H4 as <-. destruct Hr as (a & b & c & d & [= <- <- <- <-] & _ & _ & Hl & _). done.
      * apply list_elem_of_singleton in Hin as [= ->]. injection H4 as <-. vm_compute. reflexivity.
    + exfalso. apply (Hno "eth0" [10; 0; 0; 7]%Z eq_refl). eexists _, [10; 0; 0; 7]%Z. split_and!; [reflexivity| |reflexivity|].
      * apply (bool_decide_unpack _). vm_compute. exact I.
      * exists 10%Z, 0%Z, 0%Z, 7%Z. split_and!; done || lia.
Defined.
