(* ===== verification/AgentState.v ===== *)
(** * [agent/state.go]: what an agent runs, and whether it can run a job *)

From stdpp Require Import base list gmap strings.
From S2P Require Import Prelude GoStrings GoPath Pkg UnitFile Job Machine.

Record AgentState := mkAgentState {
  MState : MachineState;
  Units : gmap string Unit
}.

Definition NewAgentState (ms : MachineState) : AgentState := mkAgentState ms ∅.

(** [as.Units[name] = u] *)
Definition set_unit (name : string) (u : Unit) (agent : AgentState) : AgentState :=
  mkAgentState agent.(MState) (<[name := u]> agent.(Units)).

Definition unitScheduled (agent : AgentState) (name : string) : bool :=
  match agent.(Units) !! name with Some _ => true | None => false end.

(** A bad pattern is logged and matches nothing. *)
Definition globMatches (pattern target : string) : bool :=
  default false (path_match pattern target).

Definition hasStringInSlice (inSlice : list string) (unitName : string) : bool :=
  existsb (λ elem, globMatches elem unitName) inSlice.

(** The reason that comes with an action. *)
Inductive AbleReason :=
| WrongMachine (id required : string)
| MetadataInsufficient
| PeerNotScheduled (peer : string)
| ConflictWith (units : list string)
| ReplaceOf (unit : string)
| AbleNoReason.

Section agent_state.
Context `{MR : MapRange}.

(** The body of [HasConflict]'s loop: the conflict that an existing unit
    [eUnit] has with the new unit, if it is not the same unit. *)
Definition unit_conflict (pUnitName : string) (pConflicts : list string) (eUnit : Unit)
  : option string :=
  if decide (pUnitName = eUnit.(UName)) then None
  else if hasStringInSlice (Unit_Conflicts eUnit) pUnitName then Some pUnitName
  else if hasStringInSlice pConflicts eUnit.(UName) then Some eUnit.(UName)
  else None.

Fixpoint first_conflict (pUnitName : string) (pConflicts : list string) (units : list Unit)
  : option string :=
  match units with
  | [] => None
  | eUnit :: units =>
      match unit_conflict pUnitName pConflicts eUnit with
      | Some c => Some c
      | None => first_conflict pUnitName pConflicts units
      end
  end.

Definition HasConflict (t : moment) (agent : AgentState) (pUnitName : string)
    (pConflicts : list string) : bool * list string :=
  match first_conflict pUnitName pConflicts (range t agent.(Units)).*2 with
  | Some c => (true, [c])
  | None => (false, [])
  end.

(** The body of [hasReplace]'s loop: exactly one of the two units must name
    the other, otherwise the replacement would be circular. *)
Definition unit_replace (pUnitName : string) (pReplaces : list string) (eUnit : Unit)
  : option string :=
  if decide (pUnitName = eUnit.(UName)) then None
  else
    let foundPrepl := existsb (λ pReplace, globMatches pReplace eUnit.(UName)) pReplaces in
    let foundErepl := existsb (λ eReplace, globMatches eReplace pUnitName) (Unit_Replaces eUnit) in
    if (foundPrepl && foundErepl) || (negb foundPrepl && negb foundErepl) then None
    else Some eUnit.(UName).

Fixpoint first_replace (pUnitName : string) (pReplaces : list string) (units : list Unit)
  : option string :=
  match units with
  | [] => None
  | eUnit :: units =>
      match unit_replace pUnitName pReplaces eUnit with
      | Some r => Some r
      | None => first_replace pUnitName pReplaces units
      end
  end.

(** [(false, "")] is [None]. *)
Definition hasReplace (t : moment) (agent : AgentState) (pUnitName : string)
    (pReplaces : list string) : option string :=
  first_replace pUnitName pReplaces (range t agent.(Units)).*2.

Definition AbleToRun (t : moment) (agent : AgentState) (j : Job) : JobAction * AbleReason :=
  let check_units :=
    match list_find (λ peer, negb (unitScheduled agent peer)) (Job_Peers j) with
    | Some (_, peer) => (JobActionUnschedule, PeerNotScheduled peer)
    | None =>
        match HasConflict (1 :: t) agent j.(JName) (Job_Conflicts j) with
        | (true, cJobName) => (JobActionUnschedule, ConflictWith cJobName)
        | (false, _) =>
            match hasReplace (2 :: t) agent j.(JName) (Job_Replaces j) with
            | Some cJobName => (JobActionReschedule, ReplaceOf cJobName)
            | None => (JobActionSchedule, AbleNoReason)
            end
        end
    end in
  let check_metadata :=
    let metadata := Job_RequiredTargetMetadata j in
    if bool_decide (metadata ≠ ∅) && negb (HasMetadata (0 :: t) agent.(MState) metadata)
    then (JobActionUnschedule, MetadataInsufficient)
    else check_units in
  match Job_RequiredTarget j with
  | Some tgt =>
      if negb (MatchID agent.(MState) tgt)
      then (JobActionUnschedule, WrongMachine agent.(MState).(ID) tgt)
      else check_metadata
  | None => check_metadata
  end.

Definition GetReplacedUnit (t : moment) (agent : AgentState) (j : Job) : res string string :=
  match hasReplace t agent j.(JName) (Job_Replaces j) with
  | None => Err j.(JName)
  | Some replaced => Ok replaced
  end.

(** ** Specification *)

(** Two units conflict when they are distinct and one of them names the
    other in its [Conflicts]. *)
Definition conflicting (n1 : string) (c1 : list string) (n2 : string) (c2 : list string) : Prop :=
  n1 ≠ n2 ∧ (hasStringInSlice c2 n1 = true ∨ hasStringInSlice c1 n2 = true).

Lemma conflicting_sym n1 c1 n2 c2 : conflicting n1 c1 n2 c2 ↔ conflicting n2 c2 n1 c1.
Proof. unfold conflicting. split; intros [Hn Hc]; (split; [congruence|tauto]). Qed.

Lemma unit_conflict_is_Some p c e :
  is_Some (unit_conflict p c e) ↔ conflicting p c e.(UName) (Unit_Conflicts e).
Proof.
  unfold unit_conflict, conflicting. rewrite is_Some_alt. case_decide; [naive_solver|].
  destruct (hasStringInSlice (Unit_Conflicts e) p), (hasStringInSlice c (UName e)); naive_solver.
Qed.

Lemma first_conflict_is_Some p c l :
  is_Some (first_conflict p c l) ↔
  ∃ e, e ∈ l ∧ conflicting p c e.(UName) (Unit_Conflicts e).
Proof.
  induction l as [|e l IH]; cbn.
  { split; [by intros []|]. intros (e & He & _). by apply elem_of_nil in He. }
  setoid_rewrite elem_of_cons. destruct (unit_conflict p c e) as [x|] eqn:E.
  - split; [|by eexists]. intros _. exists e. split; [by left|].
    apply unit_conflict_is_Some. by rewrite E.
  - rewrite IH. split; [intros (e' & ? & ?); exists e'; auto|].
    intros (e' & [->|?] & Hc); [|by exists e'].
    apply unit_conflict_is_Some in Hc as [? Hc]. by rewrite E in Hc.
Qed.

Lemma elem_of_range_snd t (m : gmap string Unit) u :
  u ∈ (range t m).*2 ↔ ∃ k, m !! k = Some u.
Proof.
  rewrite list_elem_of_fmap. split.
  - intros ([k v] & -> & Hin%elem_of_range). by exists k.
  - intros [k Hk]. exists (k, u). split; [done|]. by apply elem_of_range.
Qed.

Definition has_conflict (agent : AgentState) (p : string) (c : list string) : Prop :=
  ∃ k e, agent.(Units) !! k = Some e ∧ conflicting p c e.(UName) (Unit_Conflicts e).

Lemma HasConflict_true t agent p c :
  (HasConflict t agent p c).1 = true ↔ has_conflict agent p c.
Proof.
  unfold HasConflict, has_conflict.
  transitivity (is_Some (first_conflict p c (range t (Units agent)).*2)).
  { by destruct (first_conflict _ _ _). }
  rewrite first_conflict_is_Some. setoid_rewrite elem_of_range_snd. naive_solver.
Qed.

Lemma HasConflict_order t t' agent p c :
  (HasConflict t agent p c).1 = (HasConflict t' agent p c).1.
Proof. apply eq_true_iff_eq. by rewrite !HasConflict_true. Qed.

(** *** Replacement *)

Definition replacing (n1 : string) (r1 : list string) (n2 : string) (r2 : list string) : Prop :=
  n1 ≠ n2 ∧
  ((hasStringInSlice r1 n2 = true ∧ hasStringInSlice r2 n1 = false) ∨
   (hasStringInSlice r1 n2 = false ∧ hasStringInSlice r2 n1 = true)).

Lemma unit_replace_Some p r e x :
  unit_replace p r e = Some x ↔
  x = e.(UName) ∧ replacing p r e.(UName) (Unit_Replaces e).
Proof.
  unfold unit_replace, replacing, hasStringInSlice. case_decide; [naive_solver|].
  destruct (existsb _ r), (existsb _ (Unit_Replaces e)); cbn; naive_solver.
Qed.

Lemma first_replace_Some p r l x :
  first_replace p r l = Some x →
  ∃ e, e ∈ l ∧ x = e.(UName) ∧ replacing p r e.(UName) (Unit_Replaces e).
Proof.
  induction l as [|e l IH]; cbn; [done|]. destruct (unit_replace p r e) as [y|] eqn:E.
  - intros [= ->]. apply unit_replace_Some in E as [-> Hr]. exists e. split; [by left|done].
  - intros H. destruct (IH H) as (e' & ? & ?). exists e'. split; [by right|done].
Qed.

Lemma first_replace_None p r l :
  first_replace p r l = None ↔
  ∀ e, e ∈ l → ¬ replacing p r e.(UName) (Unit_Replaces e).
Proof.
  induction l as [|e l IH]; cbn.
  { split; [|done]. intros _ e He. by apply elem_of_nil in He. }
  destruct (unit_replace p r e) as [y|] eqn:E.
  - split; [done|]. intros H. exfalso. apply unit_replace_Some in E as [_ Hr].
    by apply (H e); [left|].
  - rewrite IH. setoid_rewrite elem_of_cons. split; [|naive_solver].
    intros H e' [->|?]; [|auto]. intros Hr.
    assert (unit_replace p r e = Some (UName e)) by by apply unit_replace_Some.
    congruence.
Qed.

Definition has_replace (agent : AgentState) (p : string) (r : list string) : Prop :=
  ∃ k e, agent.(Units) !! k = Some e ∧ replacing p r e.(UName) (Unit_Replaces e).

Lemma hasReplace_Some t agent p r x :
  hasReplace t agent p r = Some x →
  ∃ k e, agent.(Units) !! k = Some e ∧ x = e.(UName) ∧
         replacing p r e.(UName) (Unit_Replaces e).
Proof.
  intros (e & He & Hx)%first_replace_Some. apply elem_of_range_snd in He as [k Hk]. eauto.
Qed.

Lemma hasReplace_None t agent p r : hasReplace t agent p r = None ↔ ¬ has_replace agent p r.
Proof.
  unfold hasReplace, has_replace. rewrite first_replace_None.
  setoid_rewrite elem_of_range_snd. naive_solver.
Qed.

(** *** The conditions of [AbleToRun] *)

Definition target_ok (agent : AgentState) (j : Job) : Prop :=
  ∀ tgt, Job_RequiredTarget j = Some tgt → MatchID agent.(MState) tgt = true.

Definition metadata_met (agent : AgentState) (j : Job) : Prop :=
  ∀ k s, Job_RequiredTargetMetadata j !! k = Some s →
    ∃ v, agent.(MState).(Metadata) !! k = Some v ∧ v ∈ unsafeSet_members s.

Definition peers_ok (agent : AgentState) (j : Job) : Prop :=
  ∀ p, p ∈ Job_Peers j → is_Some (agent.(Units) !! p).

(** The job may run: no condition excludes the machine. *)
Definition runnable (agent : AgentState) (j : Job) : Prop :=
  target_ok agent j ∧ metadata_met agent j ∧ peers_ok agent j ∧
  ¬ has_conflict agent j.(JName) (Job_Conflicts j).

Lemma peers_find_None agent j :
  list_find (λ peer, negb (unitScheduled agent peer)) (Job_Peers j) = None ↔ peers_ok agent j.
Proof.
  rewrite list_find_None, Forall_forall. unfold peers_ok, unitScheduled.
  apply forall_proper. intros p. destruct (Units agent !! p); cbn; split; intros H Hp; eauto.
  - exfalso. by apply H.
  - by destruct (H Hp).
Qed.

Lemma metadata_check t agent j :
  bool_decide (Job_RequiredTargetMetadata j ≠ ∅) &&
    negb (HasMetadata t agent.(MState) (Job_RequiredTargetMetadata j)) = false ↔
  metadata_met agent j.
Proof.
  rewrite andb_false_iff, bool_decide_eq_false, negb_false_iff, HasMetadata_true.
  split; [|by right]. intros [He|?]; [|done]. apply dec_stable in He.
  intros k s. by rewrite He, lookup_empty.
Qed.

(** The three answers of [AbleToRun]. *)
Inductive able_spec (agent : AgentState) (j : Job) : JobAction → Prop :=
| able_unschedule : ¬ runnable agent j → able_spec agent j JobActionUnschedule
| able_reschedule : runnable agent j → has_replace agent j.(JName) (Job_Replaces j) →
    able_spec agent j JobActionReschedule
| able_schedule : runnable agent j → ¬ has_replace agent j.(JName) (Job_Replaces j) →
    able_spec agent j JobActionSchedule.

Lemma AbleToRun_able_spec t agent j : able_spec agent j (AbleToRun t agent j).1.
Proof.
  assert (∀ tgt, Job_RequiredTarget j = Some tgt → MatchID (MState agent) tgt = false →
    ¬ runnable agent j) as Htgt.
  { intros tgt Ht Hm [H _]. specialize (H tgt Ht). congruence. }
  assert (target_ok agent j → able_spec agent j (AbleToRun t agent j).1) as Hrest.
  { intros Ht. unfold AbleToRun.
    set (md := if _ : bool then _ else _).
    assert (able_spec agent j md.1) as Hmd.
    { unfold md. destruct (_ && _) eqn:Emd.
      { constructor. intros (_ & Hmet & _). apply (metadata_check (0 :: t)) in Hmet. congruence. }
      apply metadata_check in Emd.
      destruct (list_find _ _) as [[i peer]|] eqn:Ep.
      { constructor. intros (_ & _ & Hp & _). apply peers_find_None in Hp. congruence. }
      apply peers_find_None in Ep.
      destruct (HasConflict (1 :: t) agent (JName j) (Job_Conflicts j)) as [[] c] eqn:Ec.
      { constructor. intros (_ & _ & _ & Hc). apply Hc. apply (HasConflict_true (1 :: t)). by rewrite Ec. }
      assert (¬ has_conflict agent (JName j) (Job_Conflicts j)) as Hc.
      { rewrite <- (HasConflict_true (1 :: t)), Ec. done. }
      destruct (hasReplace _ _ _ _) as [x|] eqn:Er.
      - apply able_reschedule; [done|]. apply hasReplace_Some in Er as (k & e & ? & ? & ?).
        by exists k, e.
      - apply able_schedule; [done|]. by apply hasReplace_None in Er. }
    destruct (Job_RequiredTarget j) as [tgt|] eqn:Et; [|done]. by rewrite (Ht tgt). }
  unfold AbleToRun in *. destruct (Job_RequiredTarget j) as [tgt|] eqn:Et.
  - destruct (MatchID (MState agent) tgt) eqn:Em.
    + apply Hrest. intros tgt'. rewrite Et. by intros [= <-].
    + constructor. by apply (Htgt tgt).
  - apply Hrest. intros tgt'. by rewrite Et.
Qed.

Lemma AbleToRun_Unschedule t agent j :
  (AbleToRun t agent j).1 = JobActionUnschedule ↔ ¬ runnable agent j.
Proof. destruct (AbleToRun_able_spec t agent j); split; try done; tauto. Qed.

Lemma able_spec_fun agent j a1 a2 : able_spec agent j a1 → able_spec agent j a2 → a1 = a2.
Proof. by destruct 1; destruct 1. Qed.
(** ** Properties *)

(** C28: [AbleToRun] answers "unschedule" exactly when the machine is not the
    required one, lacks required metadata, misses a peer or runs a conflicting
    unit; otherwise "reschedule" exactly when a unit there replaces the job or is
    replaced by it, and "schedule" when not.  The answer does not depend on the
    order in which the units are visited. *)
Theorem AbleToRun_decides t agent j act :
  (AbleToRun t agent j).1 = act ↔ able_spec agent j act.
Proof.
  split; [intros <-; apply AbleToRun_able_spec|].
  apply able_spec_fun, AbleToRun_able_spec.
Qed.

(** The metadata a job requires, as written in its unit file: the values
    given for one key are alternatives, different keys are all required, and a
    malformed pair (no or several "=", an empty side) requires nothing. *)
Theorem required_metadata t ms j :
  let pairs := requirement j (deprecatedXConditionPrefix +:+ fleetMachineMetadata) ++
               requirement j fleetMachineMetadata in
  HasMetadata t ms (Job_RequiredTargetMetadata j) = true ↔
  ∀ p k v, p ∈ pairs → metadata_pair p k v →
    ∃ p' v', p' ∈ pairs ∧ metadata_pair p' k v' ∧ ms.(Metadata) !! k = Some v'.
Proof.
  cbn zeta. rewrite HasMetadata_true. split.
  - intros H p k v Hp Hpair.
    assert (metadata_has (Job_RequiredTargetMetadata j) k v) as (s & Hs & _).
    { apply RequiredTargetMetadata_has. eauto. }
    destruct (H k s Hs) as (v' & Hv' & Hin).
    assert (metadata_has (Job_RequiredTargetMetadata j) k v') as (p' & Hp' & Hpair')%RequiredTargetMetadata_has.
    { by exists s. }
    eauto.
  - intros H k s Hs. pose proof (RequiredTargetMetadata_ne j k s Hs) as Hne.
    apply set_choose_L in Hne as [v Hv].
    assert (metadata_has (Job_RequiredTargetMetadata j) k v) as (p & Hp & Hpair)%RequiredTargetMetadata_has.
    { by exists s. }
    destruct (H p k v Hp Hpair) as (p' & v' & Hp' & Hpair' & Hm). exists v'. split; [done|].
    assert (metadata_has (Job_RequiredTargetMetadata j) k v') as (s' & Hs' & Hin).
    { apply RequiredTargetMetadata_has. eauto. }
    congruence.
Qed.
End agent_state.
