(* ===== verification/Cluster.v ===== *)
(** * [engine/state.go]: the engine's view of the cluster *)

From stdpp Require Import base list gmap strings.
From S2P Require Import Prelude GoStrings Pkg UnitFile Job Machine AgentState.

Record clusterState := mkClusterState {
  jobs : gmap string Job;
  gUnits : gmap string Unit;
  machines : gmap string MachineState
}.

(** ** Construction *)

Definition sUnitMap (sUnits : list ScheduledUnit) : gmap string ScheduledUnit :=
  foldl (λ m sUnit, <[sUnit.(SName) := sUnit]> m) ∅ sUnits.

(** The job of a unit that is not global, with its scheduling state if any. *)
Definition cluster_job (sched : gmap string ScheduledUnit) (u : Unit) : Job :=
  match sched !! u.(UName) with
  | Some sUnit =>
      mkJob u.(UName) sUnit.(SState) u.(UTargetState) sUnit.(STargetMachineID) u.(UUnit)
  | None => mkJob u.(UName) None u.(UTargetState) "" u.(UUnit)
  end.

Definition newClusterState (units : list Unit) (sUnits : list ScheduledUnit)
    (machs : list MachineState) : clusterState :=
  let sched := sUnitMap sUnits in
  let '(jMap, guMap) :=
    foldl (λ '(jMap, guMap) u,
      if IsGlobal u then (jMap, <[u.(UName) := u]> guMap)
      else (<[u.(UName) := cluster_job sched u]> jMap, guMap)) (∅, ∅) units in
  let mMap := foldl (λ m ms, <[ms.(ID) := ms]> m) ∅ machs in
  mkClusterState jMap guMap mMap.

(** ** Scheduling in memory *)

Definition set_target (targetMachineID : string) (j : Job) : Job :=
  mkJob j.(JName) j.(JState) j.(JTargetState) targetMachineID j.(JUnit).

(** [cs.jobs[jobName]] is a pointer: the job is updated in place, and nothing
    happens when there is none. *)
Definition schedule (jobName targetMachineID : string) (cs : clusterState) : clusterState :=
  mkClusterState (alter (set_target targetMachineID) jobName cs.(jobs)) cs.(gUnits) cs.(machines).

Definition unschedule (jobName : string) (cs : clusterState) : clusterState :=
  mkClusterState (alter (set_target "") jobName cs.(jobs)) cs.(gUnits) cs.(machines).

(** ** The agents of the cluster *)

Definition job_unit (j : Job) : Unit := mkUnit j.(JName) j.(JUnit) j.(JTargetState).

Section agents.
Context `{MR : MapRange}.

Definition place_job (agents : gmap string AgentState) (j : Job) : gmap string AgentState :=
  if negb (Scheduled j) || bool_decide (j.(JTargetState) = JobStateInactive) then agents
  else alter (set_unit j.(JName) (job_unit j)) j.(JTargetMachineID) agents.

(** Global unit [gu] on one agent. *)
Definition place_global_on (t : moment) (gu : Unit) (a : AgentState) : AgentState :=
  if negb (HasMetadata (0 :: t) a.(MState) (Unit_RequiredTargetMetadata gu)) then a
  else if (HasConflict (1 :: t) a gu.(UName) (Unit_Conflicts gu)).1 then a
  else set_unit gu.(UName) gu a.

Fixpoint place_global_keys (t : moment) (gu : Unit) (keys : list string)
    (agents : gmap string AgentState) : gmap string AgentState :=
  match keys with
  | [] => agents
  | k :: keys =>
      place_global_keys t gu keys (alter (place_global_on (length keys :: t) gu) k agents)
  end.

Definition place_global (t : moment) (agents : gmap string AgentState) (gu : Unit)
  : gmap string AgentState :=
  place_global_keys (0 :: t) gu (range (1 :: t) agents).*1 agents.

Fixpoint place_globals (t : moment) (gus : list Unit) (agents : gmap string AgentState)
  : gmap string AgentState :=
  match gus with
  | [] => agents
  | gu :: gus => place_globals t gus (place_global (length gus :: t) agents gu)
  end.

Definition agents (t : moment) (cs : clusterState) : gmap string AgentState :=
  let agents0 :=
    foldl (λ m ms, <[ms.(ID) := NewAgentState ms]> m) ∅ (range (0 :: t) cs.(machines)).*2 in
  let agents1 := foldl place_job agents0 (range (1 :: t) cs.(jobs)).*2 in
  place_globals (2 :: t) (range (3 :: t) cs.(gUnits)).*2 agents1.

(** ** Well-formed cluster states: the maps are indexed by name and id *)

Record wf_cluster (cs : clusterState) : Prop := {
  wf_jobs : map_Forall (λ k j, j.(JName) = k) cs.(jobs);
  wf_globals : map_Forall (λ k u, u.(UName) = k) cs.(gUnits);
  wf_machines : map_Forall (λ k ms, ms.(ID) = k) cs.(machines)
}.

(** ** What [agents] computes *)

(** The units that the jobs put on machine [id]. *)
Definition runs_on (id : string) (j : Job) : bool :=
  Scheduled j && bool_decide (j.(JTargetState) ≠ JobStateInactive) &&
  bool_decide (j.(JTargetMachineID) = id).

Definition job_units (cs : clusterState) (id : string) : gmap string Unit :=
  job_unit <$> filter (λ '(_, j), runs_on id j = true) cs.(jobs).

(** The agent of machine [ms], with the global units tried in the order [gus]. *)
Definition agent_of (gus : list Unit) (cs : clusterState) (ms : MachineState) : AgentState :=
  foldl (λ a gu, place_global_on [] gu a) (mkAgentState ms (job_units cs ms.(ID))) gus.

Lemma place_global_on_order t t' gu a : place_global_on t gu a = place_global_on t' gu a.
Proof.
  unfold place_global_on.
  by rewrite (HasMetadata_order (0 :: t) (0 :: t')), (HasConflict_order (1 :: t) (1 :: t')).
Qed.

Lemma place_global_keys_lookup t gu keys m k :
  NoDup keys →
  place_global_keys t gu keys m !! k =
  if decide (k ∈ keys) then place_global_on [] gu <$> m !! k else m !! k.
Proof.
  intros Hnd. revert m. induction Hnd as [|k' keys Hk Hnd IH]; intros m; cbn [place_global_keys].
  { by rewrite decide_False by apply not_elem_of_nil. }
  rewrite IH. destruct (decide (k = k')) as [->|Hne].
  - rewrite (decide_False (P := k' ∈ keys)) by done. rewrite decide_True by left.
    rewrite lookup_alter_eq. destruct (m !! k'); [|done]. cbn. f_equal. apply place_global_on_order.
  - rewrite lookup_alter_ne by done. destruct (decide (k ∈ keys)) as [Hin|Hin].
    + by rewrite decide_True by by right.
    + rewrite decide_False; [done|]. by rewrite elem_of_cons; intros [?|?].
Qed.

Lemma place_global_fmap t m gu : place_global t m gu = place_global_on [] gu <$> m.
Proof.
  apply map_eq. intros k. unfold place_global.
  rewrite place_global_keys_lookup by apply range_NoDup_fst. rewrite lookup_fmap.
  case_decide as Hk; [done|]. rewrite elem_of_range_fst, not_elem_of_dom in Hk. by rewrite Hk.
Qed.

Lemma place_globals_fmap t gus m :
  place_globals t gus m = (λ a, foldl (λ a gu, place_global_on [] gu a) a gus) <$> m.
Proof.
  revert m. induction gus as [|gu gus IH]; intros m; cbn [place_globals foldl].
  { by rewrite map_fmap_id. }
  rewrite IH, place_global_fmap, <- map_fmap_compose. done.
Qed.

Lemma place_job_lookup m j id :
  place_job m j !! id =
  if runs_on id j then set_unit j.(JName) (job_unit j) <$> m !! id else m !! id.
Proof.
  unfold place_job, runs_on. destruct (Scheduled j); cbn; [|done].
  destruct (decide (JTargetState j = JobStateInactive)) as [Hs|Hs].
  { by rewrite bool_decide_eq_true_2, bool_decide_eq_false_2 by tauto. }
  rewrite bool_decide_eq_false_2, (bool_decide_eq_true_2 (_ ≠ _)) by done. cbn.
  case_bool_decide as Hid; [rewrite <- Hid; apply lookup_alter_eq|by apply lookup_alter_ne].
Qed.

Lemma foldl_place_job_lookup l m id :
  foldl place_job m l !! id =
  (λ a, mkAgentState a.(MState)
    (foldl (λ us j, <[j.(JName) := job_unit j]> us) a.(Units)
       (filter (λ j, runs_on id j = true) l))) <$> m !! id.
Proof.
  revert m. induction l as [|j l IH]; intros m; cbn [foldl].
  { rewrite filter_nil. cbn. destruct (m !! id) as [[]|]; done. }
  rewrite IH, place_job_lookup, filter_cons. destruct (runs_on id j); [|done].
  rewrite decide_True by done. by destruct (m !! id).
Qed.

(** The units of a machine do not depend on the order of the jobs. *)
Lemma foldl_job_units t cs id :
  map_Forall (λ k j, j.(JName) = k) cs.(jobs) →
  foldl (λ us j, <[j.(JName) := job_unit j]> us) ∅
    (filter (λ j, runs_on id j = true) (range t cs.(jobs)).*2) = job_units cs id.
Proof.
  intros Hwf. apply map_eq. intros k.
  rewrite (lookup_foldl_insert JName job_unit). unfold job_units. rewrite lookup_fmap.
  assert (∀ j, j ∈ filter (λ a, JName a = k) (filter (λ j, runs_on id j = true) (range t cs.(jobs)).*2) ↔
    jobs cs !! k = Some j ∧ runs_on id j = true) as Hel.
  { intros j. rewrite !list_elem_of_filter, list_elem_of_fmap. split.
    - intros (<- & Hr & [k' j'] & -> & Hin%elem_of_range). cbn in *.
      by rewrite (Hwf _ _ Hin).
    - intros [Hj Hr]. split; [by apply Hwf in Hj|]. split; [done|].
      exists (k, j). split; [done|]. by apply elem_of_range. }
  destruct (last _) as [j|] eqn:El.
  - apply last_Some_elem_of, Hel in El as [Hj Hr].
    rewrite (proj2 (map_lookup_filter_Some _ _ _ _)) by (split; [exact Hj|exact Hr]). done.
  - rewrite lookup_empty. apply last_None in El.
    destruct (filter (λ '(_, j), runs_on id j = true) (jobs cs) !! k) as [j|] eqn:Ef; [|done].
    apply map_lookup_filter_Some in Ef. apply Hel in Ef. rewrite El in Ef. by apply elem_of_nil in Ef.
Qed.

Lemma foldl_new_agents_lookup t cs id :
  map_Forall (λ k ms, ms.(ID) = k) cs.(machines) →
  foldl (λ m ms, <[ms.(ID) := NewAgentState ms]> m) (∅ : gmap string AgentState)
    (range t cs.(machines)).*2 !! id =
  NewAgentState <$> cs.(machines) !! id.
Proof.
  intros Hwf. rewrite (lookup_foldl_insert ID NewAgentState).
  assert (∀ ms, ms ∈ filter (λ a, ID a = id) (range t cs.(machines)).*2 ↔
    machines cs !! id = Some ms) as Hel.
  { intros ms. rewrite list_elem_of_filter, list_elem_of_fmap. split.
    - intros (<- & [k ms'] & -> & Hin%elem_of_range). cbn. by rewrite (Hwf _ _ Hin).
    - intros Hm. split; [by apply Hwf in Hm|]. exists (id, ms). split; [done|]. by apply elem_of_range. }
  destruct (last _) as [ms|] eqn:El.
  - apply last_Some_elem_of, Hel in El. by rewrite El.
  - rewrite lookup_empty. apply last_None in El.
    destruct (machines cs !! id) as [ms|] eqn:Em; [|done].
    exfalso. apply (not_elem_of_nil ms). rewrite <- El. by apply Hel.
Qed.

(** Each machine of a well-formed cluster has an agent, which runs the jobs
    scheduled to it and the global units that fit, in some order. *)
Lemma agents_lookup t cs id :
  wf_cluster cs →
  agents t cs !! id = agent_of (range (3 :: t) cs.(gUnits)).*2 cs <$> cs.(machines) !! id.
Proof.
  intros [Hj Hg Hm]. unfold agents.
  rewrite place_globals_fmap, lookup_fmap, foldl_place_job_lookup, foldl_new_agents_lookup by done.
  destruct (machines cs !! id) as [ms|] eqn:Ems; [|done]. cbn.
  unfold agent_of. rewrite foldl_job_units by done. by rewrite (Hm _ _ Ems).
Qed.

Lemma agents_dom t cs : wf_cluster cs → dom (agents t cs) = dom cs.(machines).
Proof.
  intros Hwf. apply set_eq. intros id. rewrite !elem_of_dom, agents_lookup, fmap_is_Some; done.
Qed.

(** *** What the agent of a machine holds *)

Lemma place_global_on_MState t gu a : (place_global_on t gu a).(MState) = a.(MState).
Proof. unfold place_global_on. by repeat case_match. Qed.

Lemma agent_of_MState gus cs ms : (agent_of gus cs ms).(MState) = ms.
Proof.
  unfold agent_of. change ms with (MState (mkAgentState ms (job_units cs (ID ms)))) at 3.
  generalize (mkAgentState ms (job_units cs (ID ms))).
  induction gus as [|gu gus IH]; intros a; cbn; [done|]. by rewrite IH, place_global_on_MState.
Qed.

(** Placing global units never evicts a unit of another name. *)
Lemma place_global_on_Units t gu a k u :
  (place_global_on t gu a).(Units) !! k = Some u →
  a.(Units) !! k = Some u ∨
  (k = gu.(UName) ∧ u = gu ∧
   HasMetadata [] a.(MState) (Unit_RequiredTargetMetadata gu) = true ∧
   ¬ has_conflict a gu.(UName) (Unit_Conflicts gu)).
Proof.
  unfold place_global_on. rewrite (HasMetadata_order _ []).
  destruct (HasMetadata [] _ _) eqn:Hmd; cbn [negb]; [|by left].
  destruct (HasConflict (1 :: t) a (UName gu) (Unit_Conflicts gu)).1 eqn:Hc; [by left|].
  cbn. destruct (decide (k = UName gu)) as [->|Hk].
  - rewrite lookup_insert_eq. intros [= <-]. right. split_and!; try done.
    rewrite <- (HasConflict_true (1 :: t)). congruence.
  - rewrite lookup_insert_ne by done. by left.
Qed.

Lemma place_global_on_keeps t gu a k :
  is_Some (a.(Units) !! k) → is_Some ((place_global_on t gu a).(Units) !! k).
Proof.
  unfold place_global_on. repeat case_match; try done. cbn. rewrite lookup_insert_is_Some'. by right.
Qed.

Lemma foldl_place_global_keeps gus a k :
  is_Some (a.(Units) !! k) →
  is_Some ((foldl (λ a gu, place_global_on [] gu a) a gus).(Units) !! k).
Proof.
  revert a. induction gus as [|gu gus IH]; intros a Ha; cbn; [done|].
  by apply IH, place_global_on_keeps.
Qed.

Lemma foldl_place_global_Units gus a k u :
  (foldl (λ a gu, place_global_on [] gu a) a gus).(Units) !! k = Some u →
  a.(Units) !! k = Some u ∨
  (u ∈ gus ∧ k = u.(UName) ∧ HasMetadata [] a.(MState) (Unit_RequiredTargetMetadata u) = true).
Proof.
  revert a. induction gus as [|gu gus IH]; intros a; cbn; [by left|].
  intros [H|(Hu & Hk & Hm)]%IH.
  - apply place_global_on_Units in H as [?|(-> & -> & Hm & _)]; [by left|].
    right. split_and!; [by left|done|done].
  - rewrite place_global_on_MState in Hm. right. split_and!; [by right|done|done].
Qed.

Lemma job_units_lookup cs id k u :
  job_units cs id !! k = Some u ↔
  ∃ j, cs.(jobs) !! k = Some j ∧ runs_on id j = true ∧ u = job_unit j.
Proof.
  unfold job_units. rewrite lookup_fmap, fmap_Some. split.
  - intros (j & Hj & ->). apply map_lookup_filter_Some in Hj as [? ?]. eauto.
  - intros (j & ? & ? & ->). exists j. split; [|done]. by apply map_lookup_filter_Some.
Qed.

Lemma runs_on_true id j :
  runs_on id j = true ↔
  j.(JTargetMachineID) = id ∧ id ≠ "" ∧ j.(JTargetState) ≠ JobStateInactive.
Proof.
  unfold runs_on, Scheduled. rewrite !andb_true_iff, !bool_decide_eq_true. naive_solver.
Qed.
(** What the agent of a machine of a well-formed cluster holds: the active jobs
    scheduled there, and global units. *)
Lemma agents_Units t cs id a r e :
  wf_cluster cs → agents t cs !! id = Some a → a.(Units) !! r = Some e →
  (∃ j, cs.(jobs) !! r = Some j ∧ runs_on id j = true ∧ e = job_unit j) ∨
  (cs.(gUnits) !! r = Some e ∧ HasMetadata [] a.(MState) (Unit_RequiredTargetMetadata e) = true).
Proof.
  intros Hwf. rewrite agents_lookup by done. intros (ms & Hms & ->)%fmap_Some Hr.
  rewrite agent_of_MState. unfold agent_of in Hr. apply foldl_place_global_Units in Hr as [Hr|(Hr & -> & Hm)].
  - left. cbn in Hr. rewrite (wf_machines _ Hwf _ _ Hms) in Hr. by apply job_units_lookup.
  - right. split; [|done]. apply elem_of_range_snd in Hr as [k Hk]. by rewrite (wf_globals _ Hwf _ _ Hk).
Qed.

Lemma agents_Units_name t cs id a r e :
  wf_cluster cs → agents t cs !! id = Some a → a.(Units) !! r = Some e → e.(UName) = r.
Proof.
  intros Hwf Ha Hr. destruct (agents_Units _ _ _ _ _ _ Hwf Ha Hr) as [(j & Hj & _ & ->)|[Hg _]].
  - by apply (wf_jobs _ Hwf).
  - by apply (wf_globals _ Hwf).
Qed.

(** The active jobs scheduled to a machine are among the units of its agent. *)
Lemma agents_jobs t cs id a k j :
  wf_cluster cs → agents t cs !! id = Some a → cs.(jobs) !! k = Some j → runs_on id j = true →
  is_Some (a.(Units) !! k).
Proof.
  intros Hwf. rewrite agents_lookup by done. intros (ms & Hms & ->)%fmap_Some Hj Hr.
  apply foldl_place_global_keeps. cbn. rewrite (wf_machines _ Hwf _ _ Hms).
  exists (job_unit j). apply job_units_lookup. eauto.
Qed.

(** The engine's picture of a machine: its agent exists exactly when the
    machine does; it runs every active job scheduled there; and it runs nothing
    else but global units whose required metadata the machine has. *)
Theorem agents_view t cs id :
  wf_cluster cs →
  (agents t cs !! id = None ↔ cs.(machines) !! id = None) ∧
  ∀ a, agents t cs !! id = Some a →
    cs.(machines) !! id = Some a.(MState) ∧
    (∀ k j, cs.(jobs) !! k = Some j → runs_on id j = true → is_Some (a.(Units) !! k)) ∧
    (∀ k u, a.(Units) !! k = Some u →
      (∃ j, cs.(jobs) !! k = Some j ∧ runs_on id j = true ∧ u = job_unit j) ∨
      (cs.(gUnits) !! k = Some u ∧ HasMetadata [] a.(MState) (Unit_RequiredTargetMetadata u) = true)).
Proof.
  intros Hwf. split.
  - rewrite agents_lookup by done. apply fmap_None.
  - intros a Ha. split_and!.
    + rewrite agents_lookup in Ha by done. apply fmap_Some in Ha as (ms & Hms & ->). by rewrite agent_of_MState.
    + intros k j. by apply (agents_jobs t).
    + intros k u. by apply (agents_Units t).
Qed.
End agents.

(** ** The well-formedness invariant *)

Lemma foldl_insert_by_key {A V} (key : A → string) (val : A → V) (P : string → V → Prop) l (m : gmap string V) :
  (∀ a, P (key a) (val a)) → map_Forall P m →
  map_Forall P (foldl (λ m a, <[key a := val a]> m) m l).
Proof.
  intros HP. revert m. induction l as [|a l IH]; intros m Hm; cbn; [done|].
  apply IH. by apply map_Forall_insert_2.
Qed.

Lemma cluster_job_name sched u : (cluster_job sched u).(JName) = u.(UName).
Proof. unfold cluster_job. by case_match. Qed.

(** The step of the loop of [newClusterState] over the units. *)
Lemma newClusterState_units (sched : gmap string ScheduledUnit) units
    (jm : gmap string Job) (gm : gmap string Unit) :
  foldl (λ '(jMap, guMap) u,
      if IsGlobal u then (jMap, <[u.(UName) := u]> guMap)
      else (<[u.(UName) := cluster_job sched u]> jMap, guMap)) (jm, gm) units =
  (foldl (λ m u, <[u.(UName) := cluster_job sched u]> m) jm (filter (λ u, IsGlobal u = false) units),
   foldl (λ m u, <[u.(UName) := u]> m) gm (filter (λ u, IsGlobal u = true) units)).
Proof.
  revert jm gm. induction units as [|u units IH]; intros jm gm; [done|]. cbn [foldl].
  rewrite !filter_cons. destruct (IsGlobal u) eqn:E; rewrite IH;
    rewrite ?(decide_True (P := true = true)), ?(decide_False (P := true = false)),
      ?(decide_True (P := false = false)), ?(decide_False (P := false = true)) by done; done.
Qed.

Lemma wf_newClusterState units sUnits machs : wf_cluster (newClusterState units sUnits machs).
Proof.
  unfold newClusterState. rewrite newClusterState_units. split; cbn.
  - apply foldl_insert_by_key; [apply cluster_job_name|apply map_Forall_empty].
  - by apply (foldl_insert_by_key UName id).
  - by apply (foldl_insert_by_key ID id).
Qed.

Lemma wf_set_target cs k id :
  wf_cluster cs → wf_cluster (mkClusterState (alter (set_target id) k cs.(jobs)) cs.(gUnits) cs.(machines)).
Proof.
  intros [Hj Hg Hm]. split; cbn; [|done..]. intros k' j'. rewrite lookup_alter_Some.
  intros [(<- & j & Hj' & ->)|[_ Hj']]; cbn; by apply Hj in Hj'.
Qed.

Lemma wf_schedule k id cs : wf_cluster cs → wf_cluster (schedule k id cs).
Proof. apply wf_set_target. Qed.

Lemma wf_unschedule k cs : wf_cluster cs → wf_cluster (unschedule k cs).
Proof. apply wf_set_target. Qed.

#[export] Hint Resolve wf_newClusterState wf_schedule wf_unschedule : fleet.

(** What [newClusterState] puts under a name: the last unit of that name. *)
Lemma newClusterState_jobs units sUnits machs k :
  (newClusterState units sUnits machs).(jobs) !! k =
  cluster_job (sUnitMap sUnits) <$> last (filter (λ u, UName u = k) (filter (λ u, IsGlobal u = false) units)).
Proof.
  unfold newClusterState. rewrite newClusterState_units. cbn.
  rewrite (lookup_foldl_insert UName (cluster_job _)). by destruct (last _).
Qed.

Lemma agents_view_witness :
  let cs := newClusterState [mkUnit "a.service" (NewUnitFromOptions []) JobStateLaunched]
    [mkScheduledUnit "a.service" None "m1"] [mkMachineState "m1" "" ∅ ∅ ""] in
  agents (MR := canonical_range) [] cs !! "m2" = None ↔ cs.(machines) !! "m2" = None.
Proof.
  apply (agents_view (MR := canonical_range) []). apply wf_newClusterState.
Defined.
