(* ===== verification/Scheduler.v ===== *)
(** * [engine/scheduler.go]: the least-loaded scheduler

    [Scheduler] is the interface of the source; [SchedulerLaws] states what the
    engine's reconciler relies on; [leastLoadedScheduler] implements both. *)

From stdpp Require Import base list gmap strings sorting.
From S2P Require Import Prelude GoStrings Pkg UnitFile Job Machine AgentState Cluster.

Inductive sched_error := ZeroAgents | NoAgentsAble.

(** A [decision] is the id of a machine. *)
Record decision := mkDecision { machineID : string }.

Class Scheduler := {
  Decide : moment → clusterState → Job → res sched_error decision;
  DecideReschedule : moment → clusterState → Job → res sched_error decision
}.

(** A decision names a machine of the cluster.  [Decide] picks one where, for
    the units the agents run at that moment, nothing keeps the job from running
    and fails only when there is none; [DecideReschedule] picks a machine other
    than the current one. *)
Class SchedulerLaws `{MR : MapRange} (S : Scheduler) : Prop := {
  Decide_ok : ∀ t cs j dec, wf_cluster cs → Decide t cs j = Ok dec →
    ∃ a, agents t cs !! dec.(machineID) = Some a ∧ runnable a j;
  Decide_err : ∀ t cs j e id a, wf_cluster cs → Decide t cs j = Err e →
    agents t cs !! id = Some a → ¬ runnable a j;
  DecideReschedule_ok : ∀ t cs j dec, wf_cluster cs → DecideReschedule t cs j = Ok dec →
    dec.(machineID) ≠ j.(JTargetMachineID) ∧ is_Some (cs.(machines) !! dec.(machineID));
  DecideReschedule_err : ∀ t cs j e id, wf_cluster cs → DecideReschedule t cs j = Err e →
    is_Some (cs.(machines) !! id) → id = j.(JTargetMachineID)
}.

Section least_loaded.
Context `{MR : MapRange, GS : GoSort}.

Definition sas_Less (a b : AgentState) : bool :=
  let niUnits := size a.(Units) in
  let njUnits := size b.(Units) in
  bool_decide (niUnits < njUnits) ||
  (bool_decide (niUnits = njUnits) && string_less a.(MState).(ID) b.(MState).(ID)).

Definition sortedAgents (t : moment) (clust : clusterState) : list AgentState :=
  go_sort sas_Less (range (4 :: t) (agents t clust)).*2.

(** The first agent of the list that does not answer "unschedule". *)
Fixpoint first_able (t : moment) (j : Job) (ags : list AgentState) : option AgentState :=
  match ags with
  | [] => None
  | a :: ags =>
      if bool_decide ((AbleToRun (length ags :: 5 :: t) a j).1 = JobActionUnschedule)
      then first_able t j ags
      else Some a
  end.

Definition lls_Decide (t : moment) (clust : clusterState) (j : Job) : res sched_error decision :=
  let ags := sortedAgents t clust in
  if bool_decide (length ags = 0) then Err ZeroAgents
  else
    match first_able t j ags with
    | None => Err NoAgentsAble
    | Some target => Ok (mkDecision target.(MState).(ID))
    end.

Fixpoint first_other (j : Job) (ags : list AgentState) : option AgentState :=
  match ags with
  | [] => None
  | a :: ags =>
      if bool_decide (a.(MState).(ID) = j.(JTargetMachineID)) then first_other j ags else Some a
  end.

Definition lls_DecideReschedule (t : moment) (clust : clusterState) (j : Job)
  : res sched_error decision :=
  let ags := sortedAgents t clust in
  if bool_decide (length ags = 0) then Err ZeroAgents
  else
    match first_other j ags with
    | None => Err NoAgentsAble
    | Some target => Ok (mkDecision target.(MState).(ID))
    end.

Definition leastLoadedScheduler : Scheduler :=
  {| Decide := lls_Decide; DecideReschedule := lls_DecideReschedule |}.

(** ** The order of the agents *)

Lemma sas_Less_true a b :
  sas_Less a b = true ↔
  size a.(Units) < size b.(Units) ∨
  (size a.(Units) = size b.(Units) ∧ string_less a.(MState).(ID) b.(MState).(ID) = true).
Proof.
  unfold sas_Less. by rewrite orb_true_iff, andb_true_iff, !bool_decide_eq_true.
Qed.

Lemma sas_Less_false a b :
  sas_Less a b = false ↔
  size b.(Units) < size a.(Units) ∨
  (size a.(Units) = size b.(Units) ∧ string_less a.(MState).(ID) b.(MState).(ID) = false).
Proof.
  rewrite <- not_true_iff_false, sas_Less_true, <- not_true_iff_false.
  destruct (string_less _ _); destruct (decide (size (Units a) = size (Units b)));
    intuition (congruence || lia).
Qed.

Lemma sas_strict_weak : strict_weak sas_Less.
Proof.
  destruct string_strict_weak as [Hi Ht Hc]. split.
  - intros a. apply sas_Less_false. right. by rewrite Hi.
  - intros a b c. rewrite !sas_Less_true. intros [?|[? ?]] [?|[? ?]]; try (left; lia).
    right. split; [lia|]. eauto.
  - intros a b c. rewrite !sas_Less_false. intros [?|[? ?]] [?|[? ?]]; try (left; lia).
    right. split; [lia|]. eauto.
Qed.

Lemma elem_of_sortedAgents t cs a :
  wf_cluster cs → a ∈ sortedAgents t cs ↔ agents t cs !! a.(MState).(ID) = Some a.
Proof.
  intros Hwf. unfold sortedAgents. rewrite go_sort_perm, list_elem_of_fmap. split.
  - intros ([k a'] & -> & Hin%elem_of_range). cbn in *. pose proof Hin as Hin'.
    rewrite agents_lookup in Hin' by done. apply fmap_Some in Hin' as (ms & Hms & ->).
    rewrite agent_of_MState in *. by rewrite (wf_machines _ Hwf _ _ Hms).
  - intros Ha. eexists (_, a). split; [done|]. by apply elem_of_range.
Qed.

(** The key of an agent is the id of its machine. *)
Lemma agents_ID t cs id a : wf_cluster cs → agents t cs !! id = Some a → a.(MState).(ID) = id.
Proof.
  intros Hwf. rewrite agents_lookup by done. intros (ms & Hms & ->)%fmap_Some.
  rewrite agent_of_MState. by apply (wf_machines _ Hwf).
Qed.

Lemma sortedAgents_nil t cs : wf_cluster cs → sortedAgents t cs = [] ↔ cs.(machines) = ∅.
Proof.
  intros Hwf. split; intros H.
  - apply map_empty. intros id. destruct (machines cs !! id) as [ms|] eqn:Hm; [|done].
    exfalso. pose proof (agents_lookup t cs id Hwf) as Ha. rewrite Hm in Ha. cbn in Ha.
    pose proof (agents_ID _ _ _ _ Hwf Ha) as Hid. rewrite <- Hid in Ha.
    apply (elem_of_sortedAgents t cs) in Ha; [|done]. rewrite H in Ha. by apply elem_of_nil in Ha.
  - destruct (sortedAgents t cs) as [|a l] eqn:E; [done|]. exfalso.
    assert (a ∈ sortedAgents t cs) as Ha by (rewrite E; left).
    apply elem_of_sortedAgents in Ha; [|done]. rewrite agents_lookup, H, lookup_empty in Ha; done.
Qed.

(** ** The two loops pick the first agent that qualifies *)

Lemma first_able_Some t j l a :
  first_able t j l = Some a →
  ∃ l1 l2, l = l1 ++ a :: l2 ∧ runnable a j ∧ Forall (λ b, ¬ runnable b j) l1.
Proof.
  induction l as [|b l IH]; cbn; [done|]. case_bool_decide as Hb.
  - intros (l1 & l2 & -> & Hr & Hl1)%IH. exists (b :: l1), l2. split_and!; [done..|].
    constructor; [|done]. by eapply AbleToRun_Unschedule.
  - intros [= ->]. exists [], l. split_and!; [done| |constructor].
    by destruct (AbleToRun_able_spec (length l :: 5 :: t) a j).
Qed.

Lemma first_able_None t j l :
  first_able t j l = None → Forall (λ b, ¬ runnable b j) l.
Proof.
  induction l as [|b l IH]; cbn; [done|]. case_bool_decide as Hb; [|done]. intros Hl.
  constructor; [|by apply IH]. by eapply AbleToRun_Unschedule.
Qed.

Lemma first_other_Some j l a :
  first_other j l = Some a →
  ∃ l1 l2, l = l1 ++ a :: l2 ∧ a.(MState).(ID) ≠ j.(JTargetMachineID) ∧
           Forall (λ b, b.(MState).(ID) = j.(JTargetMachineID)) l1.
Proof.
  induction l as [|b l IH]; cbn; [done|]. case_bool_decide as Hb.
  - intros (l1 & l2 & -> & Hr & Hl1)%IH. exists (b :: l1), l2. split_and!; try done. by constructor.
  - intros [= ->]. by exists [], l.
Qed.

Lemma first_other_None j l :
  first_other j l = None → Forall (λ b, b.(MState).(ID) = j.(JTargetMachineID)) l.
Proof.
  induction l as [|b l IH]; cbn; [done|]. case_bool_decide; [|done]. constructor; auto.
Qed.

(** Everything after the first qualifying agent is not smaller. *)
Lemma sortedAgents_split t cs l1 a l2 b :
  sortedAgents t cs = l1 ++ a :: l2 → b ∈ sortedAgents t cs →
  b ∈ l1 ∨ b = a ∨ sas_Less b a = false.
Proof.
  intros E Hb. pose proof (go_sort_sorted _ _ (range (4 :: t) (agents t cs)).*2 sas_strict_weak) as Hs.
  fold (sortedAgents t cs) in Hs. rewrite E in Hs, Hb.
  apply elem_of_app in Hb as [?|Hb]; [by left|]. apply elem_of_cons in Hb as [->|Hb]; [by right; left|].
  right; right. apply StronglySorted_app_1_r in Hs. apply StronglySorted_inv in Hs as [_ Hs].
  rewrite Forall_forall in Hs. by apply Hs.
Qed.

Lemma sas_Less_total a b :
  sas_Less a b = false → sas_Less b a = false → a.(MState).(ID) = b.(MState).(ID).
Proof.
  rewrite !sas_Less_false. intros [?|[? Hab]] [?|[? Hba]]; try lia.
  apply string_less_false in Hab, Hba. by apply (anti_symm String.le).
Qed.

(** Among the agents that qualify, the chosen one is the least. *)
Lemma sortedAgents_first t cs (P : AgentState → Prop) l1 a l2 id b :
  wf_cluster cs → sortedAgents t cs = l1 ++ a :: l2 → Forall (λ b, ¬ P b) l1 →
  agents t cs !! id = Some b → P b → id ≠ a.(MState).(ID) →
  size a.(Units) < size b.(Units) ∨ (size a.(Units) = size b.(Units) ∧ string_less a.(MState).(ID) id = true).
Proof.
  intros Hwf E Hl1 Hb HP Hne. apply agents_ID in Hb as Hid'; [|done]. rewrite <- Hid' at 1. apply sas_Less_true. clear Hid'.
  pose proof (agents_ID _ _ _ _ Hwf Hb) as Hid. rewrite <- Hid in Hb.
  apply elem_of_sortedAgents in Hb; [|done].
  destruct (sas_Less a b) eqn:Hab; [done|exfalso].
  destruct (sortedAgents_split t cs l1 a l2 b E Hb) as [Hin|[->|Hba]]; [|done|].
  - rewrite Forall_forall in Hl1. by apply (Hl1 b).
  - apply Hne. rewrite <- Hid. symmetry. by apply sas_Less_total.
Qed.

Lemma sortedAgents_mid t cs l1 a l2 :
  wf_cluster cs → sortedAgents t cs = l1 ++ a :: l2 → agents t cs !! a.(MState).(ID) = Some a.
Proof.
  intros Hwf E. apply elem_of_sortedAgents; [done|]. rewrite E. set_solver.
Qed.

(** What the agent chosen among the ones that satisfy [P] is: every other has more
    units, or as many and a greater id. *)
Definition least_loaded (t : moment) (cs : clusterState) (P : AgentState → Prop) (id : string) : Prop :=
  ∃ a, agents t cs !! id = Some a ∧ P a ∧
    ∀ id' b, agents t cs !! id' = Some b → P b → id' ≠ id →
      size a.(Units) < size b.(Units) ∨ (size a.(Units) = size b.(Units) ∧ string_less id id' = true).

Lemma least_loaded_unique t cs P id1 id2 :
  least_loaded t cs P id1 → least_loaded t cs P id2 → id1 = id2.
Proof.
  intros (a1 & H1 & P1 & L1) (a2 & H2 & P2 & L2).
  destruct (decide (id1 = id2)) as [|Hne]; [done|exfalso].
  destruct string_strict_weak as [Hi Ht _].
  destruct (L1 id2 a2 H2 P2) as [?|[? Hl]]; [done|destruct (L2 id1 a1 H1 P1 Hne) as [?|[? _]]; lia|].
  destruct (L2 id1 a1 H1 P1 Hne) as [?|[_ Hl']]; [lia|]. pose proof (Ht _ _ _ Hl Hl') as Hbad. by rewrite Hi in Hbad.
Qed.

Lemma lls_Decide_least t cs j dec :
  wf_cluster cs → lls_Decide t cs j = Ok dec →
  least_loaded t cs (λ a, runnable a j) dec.(machineID).
Proof.
  intros Hwf. unfold lls_Decide. case_bool_decide; [done|].
  destruct (first_able _ _ _) as [a|] eqn:E; [|done]. intros [= <-]. cbn.
  apply first_able_Some in E as (l1 & l2 & E & Hr & Hl1).
  exists a. split_and!; [by eapply sortedAgents_mid|done|].
  intros id' b. by apply (sortedAgents_first t cs (λ a, runnable a j) l1 a l2).
Qed.

Lemma lls_Decide_none t cs j e :
  wf_cluster cs → lls_Decide t cs j = Err e → ∀ id a, agents t cs !! id = Some a → ¬ runnable a j.
Proof.
  intros Hwf He id a Ha. pose proof (agents_ID _ _ _ _ Hwf Ha) as Hid. rewrite <- Hid in Ha.
  apply elem_of_sortedAgents in Ha; [|done]. unfold lls_Decide in He. case_bool_decide as Hl.
  { apply nil_length_inv in Hl. rewrite Hl in Ha. by apply elem_of_nil in Ha. }
  destruct (first_able _ _ _) eqn:E; [done|]. apply first_able_None in E.
  rewrite Forall_forall in E. by apply E.
Qed.

Lemma lls_DecideReschedule_least t cs j dec :
  wf_cluster cs → lls_DecideReschedule t cs j = Ok dec →
  least_loaded t cs (λ a, a.(MState).(ID) ≠ j.(JTargetMachineID)) dec.(machineID).
Proof.
  intros Hwf. unfold lls_DecideReschedule. case_bool_decide; [done|].
  destruct (first_other _ _) as [a|] eqn:E; [|done]. intros [= <-]. cbn.
  apply first_other_Some in E as (l1 & l2 & E & Hr & Hl1).
  exists a. split_and!; [by eapply sortedAgents_mid|done|].
  intros id' b. apply (sortedAgents_first t cs (λ b, b.(MState).(ID) ≠ j.(JTargetMachineID)) l1 a l2);
    [done..|]. eapply Forall_impl; [exact Hl1|]. naive_solver.
Qed.

Lemma lls_DecideReschedule_none t cs j e id :
  wf_cluster cs → lls_DecideReschedule t cs j = Err e →
  is_Some (cs.(machines) !! id) → id = j.(JTargetMachineID).
Proof.
  intros Hwf He. rewrite <- elem_of_dom, <- (agents_dom t), elem_of_dom by done. intros [a Ha].
  pose proof (agents_ID _ _ _ _ Hwf Ha) as Hid. rewrite <- Hid in Ha.
  apply elem_of_sortedAgents in Ha; [|done]. unfold lls_DecideReschedule in He. case_bool_decide as Hl.
  { apply nil_length_inv in Hl. rewrite Hl in Ha. by apply elem_of_nil in Ha. }
  destruct (first_other _ _) eqn:E; [done|]. apply first_other_None in E.
  rewrite Forall_forall in E. rewrite <- Hid. by apply E.
Qed.

#[export] Instance lls_laws : SchedulerLaws leastLoadedScheduler.
Proof.
  split; cbn.
  - intros t cs j dec Hwf (a & ? & ? & _)%lls_Decide_least; eauto.
  - intros t cs j e id a Hwf He Ha. by eapply lls_Decide_none.
  - intros t cs j dec Hwf (a & Ha & Hne & _)%lls_DecideReschedule_least; [|done].
    rewrite (agents_ID _ _ _ _ Hwf Ha) in Hne. split; [done|].
    rewrite <- elem_of_dom, <- (agents_dom t), elem_of_dom by done. by eexists.
  - intros t cs j e id. apply lls_DecideReschedule_none.
Qed.

(** ** Properties *)

(** C24: [Decide] returns a machine exactly when that machine is the
    least-loaded one (fewest units, then the smallest id) among those whose
    agent is able to run the job; so the decision is unique and does not
    depend on the order in which Go ranges over the maps of agents, nor on
    how [sort.Sort] works. *)
Theorem Decide_least_loaded t cs j dec :
  wf_cluster cs →
  lls_Decide t cs j = Ok dec ↔ least_loaded t cs (λ a, runnable a j) dec.(machineID).
Proof.
  intros Hwf. split; [by apply lls_Decide_least|]. intros Hl.
  destruct (lls_Decide t cs j) as [dec'|e] eqn:E.
  - apply lls_Decide_least in E; [|done]. pose proof (least_loaded_unique _ _ _ _ _ E Hl).
    destruct dec, dec'. cbn in *. congruence.
  - exfalso. destruct Hl as (a & Ha & Hr & _). by eapply lls_Decide_none.
Qed.

(** [Decide] fails with "zero agents available" exactly when the
    cluster has no machine, and with "no agents able to run job" exactly when
    it has machines and none is able to run the job. *)
Theorem Decide_errors t cs j :
  wf_cluster cs →
  (lls_Decide t cs j = Err ZeroAgents ↔ cs.(machines) = ∅) ∧
  (lls_Decide t cs j = Err NoAgentsAble ↔
    cs.(machines) ≠ ∅ ∧ ∀ id a, agents t cs !! id = Some a → ¬ runnable a j).
Proof.
  intros Hwf. rewrite <- (sortedAgents_nil t cs Hwf).
  destruct (sortedAgents t cs) as [|a0 l] eqn:El; unfold lls_Decide; rewrite El.
  { cbn. naive_solver. }
  rewrite bool_decide_eq_false_2 by done. destruct (first_able _ _ _) as [a|] eqn:E.
  - apply first_able_Some in E as (l1 & l2 & E & Hr & Hl1). rewrite <- El in E.
    apply sortedAgents_mid in E; [|done]. naive_solver.
  - apply first_able_None in E. rewrite Forall_forall, <- El in E.
    setoid_rewrite elem_of_sortedAgents in E; [|done].
    split; [naive_solver|]. split; [|done]. intros _. split; [done|]. intros id a Ha.
    apply E. by rewrite (agents_ID _ _ _ _ Hwf Ha).
Qed.

(** [DecideReschedule] returns the least-loaded machine other than the
    job's current one, and nothing else; it fails exactly when the cluster has
    no such machine.  No requirement of any unit is consulted. *)
Theorem DecideReschedule_least_loaded t cs j dec :
  wf_cluster cs →
  (lls_DecideReschedule t cs j = Ok dec ↔
    least_loaded t cs (λ a, a.(MState).(ID) ≠ j.(JTargetMachineID)) dec.(machineID)) ∧
  ((∃ e, lls_DecideReschedule t cs j = Err e) ↔
    ∀ id, is_Some (cs.(machines) !! id) → id = j.(JTargetMachineID)).
Proof.
  intros Hwf.
  pose proof (λ e id, lls_DecideReschedule_none t cs j e id Hwf) as Herr.
  destruct (lls_DecideReschedule t cs j) as [dec'|e] eqn:E.
  - apply lls_DecideReschedule_least in E as HE; [|done]. split; [split|split].
    + by intros [= ->].
    + intros Hl. pose proof (least_loaded_unique _ _ _ _ _ HE Hl). destruct dec, dec'. cbn in *. congruence.
    + by intros [].
    + intros Hall. apply (DecideReschedule_ok (S := leastLoadedScheduler)) in E as [Hne Hm]; [|done].
      by apply Hall in Hm.
  - split; [split; [done|]|split; [by eauto|by eauto]].
    intros (a & Ha & Hne & _). exfalso. apply Hne. rewrite (agents_ID _ _ _ _ Hwf Ha).
    apply (Herr e); [done|]. rewrite <- elem_of_dom, <- (agents_dom t), elem_of_dom by done. by eexists.
Qed.
End least_loaded.

(** ** Witnesses *)

Definition ex_machine (id : string) (md : gmap string string) : MachineState :=
  mkMachineState id "" md ∅ "".

Definition ex_unit (name : string) (opts : list (string * string)) : Unit :=
  mkUnit name (NewUnitFromOptions ((λ '(k, v), mkUnitOption "X-Fleet" k v) <$> opts)) JobStateLaunched.

(** Three machines, one of them with a unit; [web.service] wants a machine of
    the region "eu" and conflicts with the unit that is there. *)
Definition ex_cluster : clusterState :=
  newClusterState
    [ex_unit "db.service" []; ex_unit "web.service" [("MachineMetadata", "region=eu"); ("Conflicts", "db.*")]]
    [mkScheduledUnit "db.service" (Some JobStateLaunched) "m1"]
    [ex_machine "m1" {["region" := "eu"]}; ex_machine "m2" {["region" := "us"]};
     ex_machine "m3" {["region" := "eu"]}].

Definition ex_job : Job := unit_job (ex_unit "web.service"
  [("MachineMetadata", "region=eu"); ("Conflicts", "db.*")]).

Lemma Decide_least_loaded_witness :
  least_loaded (MR := canonical_range) [] ex_cluster (λ a, runnable a ex_job) "m3".
Proof.
  apply (Decide_least_loaded (GS := merge_go_sort) [] ex_cluster ex_job (mkDecision "m3")).
  - apply wf_newClusterState.
  - vm_compute. reflexivity.
Defined.

Lemma Decide_errors_witness :
  lls_Decide (MR := canonical_range) (GS := merge_go_sort) []
    (newClusterState [ex_unit "db.service" []] [] []) ex_job = Err ZeroAgents.
Proof.
  apply (Decide_errors (MR := canonical_range) (GS := merge_go_sort) []
    (newClusterState [ex_unit "db.service" []] [] []) ex_job).
  - apply wf_newClusterState.
  - vm_compute. reflexivity.
Defined.

Lemma DecideReschedule_least_loaded_witness :
  least_loaded (MR := canonical_range) [] ex_cluster
    (λ a, a.(MState).(ID) ≠ (set_target "m2" ex_job).(JTargetMachineID)) "m3".
Proof.
  apply (DecideReschedule_least_loaded (GS := merge_go_sort) [] ex_cluster
    (set_target "m2" ex_job) (mkDecision "m3")).
  - apply wf_newClusterState.
  - vm_compute. reflexivity.
Defined.
