(* ===== verification/EngineReconciler.v ===== *)
(** * [engine/reconciler.go]: from the cluster state to scheduling tasks

    [calculateClusterTasks] runs in a goroutine that sends tasks on a channel
    and updates its own copy of the cluster state as it goes.  The model passes
    that state explicitly: [calc] holds the cluster state, the tasks sent so
    far, and how many times the stop channel has been polled ([stopped n] says
    whether the [n]-th poll finds it closed).  The scheduler is the interface
    [Scheduler]; the theorems use its laws only. *)

From stdpp Require Import base list gmap strings.
From S2P Require Import Prelude GoStrings Pkg UnitFile Job Machine AgentState Cluster Scheduler.

Definition taskTypeUnscheduleUnit : string := "UnscheduleUnit".
Definition taskTypeAttemptScheduleUnit : string := "AttemptScheduleUnit".

(** The messages the source formats, as data. *)
Inductive task_reason :=
| ReasonInactive
| ReasonMachineAway (id : string)
| ReasonUnable (id : string) (why : AbleReason)
| ReasonNotScheduled (targetState : JobState)
| NoReason.

Record engine_task := mkEngineTask {
  ETType : string;
  ETReason : task_reason;
  ETJobName : string;
  ETMachineID : string
}.

Record calc := mkCalc {
  clust : clusterState;
  sent : list engine_task;
  polls : nat
}.

(** The schedule the registry holds: the machine of each scheduled job. *)
Abbreviation schedule_map := (gmap string string).

Section reconciler.
Context `{MR : MapRange, SCH : Scheduler}.
Variable stopped : nat → bool.

(** [send]: the boolean is the one the closure returns. *)
Definition send (typ : string) (reason : task_reason) (jName machID : string) (st : calc)
  : bool * calc :=
  if stopped st.(polls) then (false, mkCalc st.(clust) st.(sent) (S st.(polls)))
  else (true, mkCalc st.(clust) (st.(sent) ++ [mkEngineTask typ reason jName machID]) (S st.(polls))).

#[local] Arguments send : simpl never.

Definition update_clust (f : clusterState → clusterState) (st : calc) : calc :=
  mkCalc (f st.(clust)) st.(sent) st.(polls).

Definition decide_job (t : moment) (cs : clusterState) (j : Job) : JobAction * task_reason :=
  if bool_decide (j.(JTargetState) = JobStateInactive) then (JobActionUnschedule, ReasonInactive)
  else
    match agents (0 :: t) cs !! j.(JTargetMachineID) with
    | None => (JobActionUnschedule, ReasonMachineAway j.(JTargetMachineID))
    | Some a =>
        match AbleToRun (1 :: t) a j with
        | (JobActionSchedule, _) => (JobActionSchedule, NoReason)
        | (act, ableReason) => (act, ReasonUnable j.(JTargetMachineID) ableReason)
        end
    end.

(** One turn of the inner loop of [handle_reschedule], for the entry [cj] of
    the job map; [a] is the agent read before the loop.  The fields of [j] do
    not change during the loop: a replaced unit never has the name of [j]. *)
Definition reschedule_turn (t : moment) (a : AgentState) (j : Job) (reason : task_reason)
    (cj : Job) (st : calc) : bool * calc :=
  if negb (Scheduled cj) then (false, st)
  else if bool_decide (j.(JName) ≠ cj.(JName)) then (false, st)
  else
    match GetReplacedUnit (0 :: t) a j with
    | Err _ => (false, st)
    | Ok replacedUnit =>
        let '(ok, st) := send taskTypeUnscheduleUnit reason replacedUnit j.(JTargetMachineID) st in
        if negb ok then (false, st)
        else
          match DecideReschedule (1 :: t) st.(clust) j with
          | Err _ => (false, st)
          | Ok dec =>
              let '(ok, st) := send taskTypeAttemptScheduleUnit reason replacedUnit dec.(machineID) st in
              if negb ok then (false, st)
              else
                let st := update_clust (schedule replacedUnit dec.(machineID)) st in
                (true, update_clust (schedule j.(JName) j.(JTargetMachineID)) st)
          end
    end.

(** Ranging over [clust.jobs]: the loops of the reconciler never add or remove
    a key, they change the jobs the map points to, so a turn reads the job that
    its key has at that time. *)
Fixpoint reschedule_loop (t : moment) (a : AgentState) (j : Job) (reason : task_reason)
    (keys : list string) (isRescheduled : bool) (st : calc) : bool * calc :=
  match keys with
  | [] => (isRescheduled, st)
  | k :: keys =>
      match st.(clust).(jobs) !! k with
      | None => reschedule_loop t a j reason keys isRescheduled st
      | Some cj =>
          let '(done_, st) := reschedule_turn (length keys :: t) a j reason cj st in
          reschedule_loop t a j reason keys (isRescheduled || done_) st
      end
  end.

Definition handle_reschedule (t : moment) (j : Job) (reason : task_reason) (st : calc)
  : bool * calc :=
  match agents (0 :: t) st.(clust) !! j.(JTargetMachineID) with
  | None => (false, st)
  | Some a =>
      reschedule_loop (1 :: t) a j reason (range (2 :: t) st.(clust).(jobs)).*1 false st
  end.

(** A turn of the first loop; [false] is the early [return]. *)
Definition check_turn (t : moment) (j : Job) (st : calc) : bool * calc :=
  if negb (Scheduled j) then (true, st)
  else
    let '(act, reason) := decide_job (0 :: t) st.(clust) j in
    let '(rescheduled, st) :=
      if bool_decide (act = JobActionReschedule) then handle_reschedule (1 :: t) j reason st
      else (false, st) in
    if rescheduled then (true, st)
    else if bool_decide (act ≠ JobActionUnschedule) then (true, st)
    else
      let '(ok, st) := send taskTypeUnscheduleUnit reason j.(JName) j.(JTargetMachineID) st in
      if negb ok then (false, st)
      else (true, update_clust (unschedule j.(JName)) st).

(** A turn of the second loop. *)
Definition place_turn (t : moment) (j : Job) (st : calc) : bool * calc :=
  if Scheduled j || bool_decide (j.(JTargetState) = JobStateInactive) then (true, st)
  else
    match Decide t st.(clust) j with
    | Err _ => (true, st)
    | Ok dec =>
        let '(ok, st) :=
          send taskTypeAttemptScheduleUnit (ReasonNotScheduled j.(JTargetState)) j.(JName)
            dec.(machineID) st in
        if negb ok then (false, st)
        else (true, update_clust (schedule j.(JName) dec.(machineID)) st)
    end.

Fixpoint jobs_loop (turn : moment → Job → calc → bool * calc) (t : moment) (keys : list string)
    (st : calc) : bool * calc :=
  match keys with
  | [] => (true, st)
  | k :: keys =>
      match st.(clust).(jobs) !! k with
      | None => jobs_loop turn t keys st
      | Some j =>
          let '(go_on, st) := turn (length keys :: t) j st in
          if go_on then jobs_loop turn t keys st else (false, st)
      end
  end.

Definition check_loop (t : moment) (st : calc) : bool * calc :=
  jobs_loop check_turn (0 :: t) (range (1 :: t) st.(clust).(jobs)).*1 st.

Definition place_loop (t : moment) (st : calc) : bool * calc :=
  jobs_loop place_turn (0 :: t) (range (1 :: t) st.(clust).(jobs)).*1 st.

(** The tasks sent on the channel, the cluster state at the end, and whether
    both loops ran to their end. *)
Definition calculateClusterTasks (t : moment) (cs : clusterState) : bool * calc :=
  let '(go_on, st) := check_loop (0 :: t) (mkCalc cs [] 0) in
  if go_on then place_loop (1 :: t) st else (false, st).

(** ** Specification: what a task stands for *)

(** The reasons for which a scheduled job loses its machine. *)
Definition must_leave (cs : clusterState) (j : Job) : Prop :=
  j.(JTargetState) = JobStateInactive ∨
  cs.(machines) !! j.(JTargetMachineID) = None ∨
  ∃ t a, agents t cs !! j.(JTargetMachineID) = Some a ∧ ¬ runnable a j.

(** Job [j] may stay where it is, and the unit [r] that runs there is replaced
    by it (or replaces it). *)
Definition displaces (cs : clusterState) (j : Job) (r : string) : Prop :=
  j.(JTargetState) ≠ JobStateInactive ∧
  (∃ t a, agents t cs !! j.(JTargetMachineID) = Some a ∧ runnable a j) ∧
  ∃ t a e, agents t cs !! j.(JTargetMachineID) = Some a ∧ a.(Units) !! r = Some e ∧
    replacing j.(JName) (Job_Replaces j) r (Unit_Replaces e).

Definition interrupted : Prop := ∃ n, stopped n = true.

(** A step of the engine: the tasks it sends and the cluster it assumes next. *)
Inductive rstep (cs : clusterState) : list engine_task → clusterState → Prop :=
| rs_unschedule k j reason :
    cs.(jobs) !! k = Some j → Scheduled j = true → must_leave cs j →
    rstep cs [mkEngineTask taskTypeUnscheduleUnit reason k j.(JTargetMachineID)] (unschedule k cs)
| rs_replace k j r id reason :
    cs.(jobs) !! k = Some j → Scheduled j = true → displaces cs j r →
    id ≠ j.(JTargetMachineID) → is_Some (cs.(machines) !! id) →
    rstep cs [mkEngineTask taskTypeUnscheduleUnit reason r j.(JTargetMachineID);
              mkEngineTask taskTypeAttemptScheduleUnit reason r id] (schedule r id cs)
| rs_evict k j r reason :
    cs.(jobs) !! k = Some j → Scheduled j = true → displaces cs j r →
    interrupted ∨ (∀ id, is_Some (cs.(machines) !! id) → id = j.(JTargetMachineID)) →
    rstep cs [mkEngineTask taskTypeUnscheduleUnit reason r j.(JTargetMachineID)] cs
| rs_schedule k j t id a reason :
    cs.(jobs) !! k = Some j → Scheduled j = false → j.(JTargetState) ≠ JobStateInactive →
    agents t cs !! id = Some a → runnable a j →
    rstep cs [mkEngineTask taskTypeAttemptScheduleUnit reason k id] (schedule k id cs).

Inductive rsteps (cs : clusterState) : list engine_task → clusterState → Prop :=
| rsteps_refl : rsteps cs [] cs
| rsteps_step l1 cs1 l2 cs2 : rstep cs l1 cs1 → rsteps cs1 l2 cs2 → rsteps cs (l1 ++ l2) cs2.

Lemma rsteps_once cs l cs' : rstep cs l cs' → rsteps cs l cs'.
Proof. intros H. rewrite <- (app_nil_r l). eapply rsteps_step; [done|constructor]. Qed.

Lemma rsteps_trans cs l1 cs1 l2 cs2 : rsteps cs l1 cs1 → rsteps cs1 l2 cs2 → rsteps cs (l1 ++ l2) cs2.
Proof.
  induction 1 as [|cs l cs1' l' cs2' Hs _ IH]; intros H2; [done|].
  rewrite <- app_assoc. eapply rsteps_step; [done|auto].
Qed.

(** What no step changes. *)
Record same_frame (cs cs' : clusterState) : Prop := {
  sf_machines : cs'.(machines) = cs.(machines);
  sf_globals : cs'.(gUnits) = cs.(gUnits);
  sf_jobs : ∀ k, set_target "" <$> cs'.(jobs) !! k = set_target "" <$> cs.(jobs) !! k
}.

Lemma same_frame_alter cs k id :
  same_frame cs (mkClusterState (alter (set_target id) k cs.(jobs)) cs.(gUnits) cs.(machines)).
Proof.
  split; [done..|]. intros k'. cbn. destruct (decide (k' = k)) as [->|].
  - rewrite lookup_alter_eq. by destruct (jobs cs !! k).
  - by rewrite lookup_alter_ne by done.
Qed.

Lemma rstep_frame cs l cs' : rstep cs l cs' → same_frame cs cs'.
Proof. destruct 1; [apply same_frame_alter..|done|apply same_frame_alter]. Qed.

Lemma rsteps_frame cs l cs' : rsteps cs l cs' → same_frame cs cs'.
Proof.
  induction 1 as [|cs l cs1 l' cs2 [Hm Hg Hj]%rstep_frame _ [Hm' Hg' Hj']]; [done|].
  split; [congruence..|]. intros k. by rewrite Hj'.
Qed.

Lemma rstep_wf cs l cs' : wf_cluster cs → rstep cs l cs' → wf_cluster cs'.
Proof. intros Hwf. destruct 1; auto with fleet. Qed.

Lemma rsteps_wf cs l cs' : wf_cluster cs → rsteps cs l cs' → wf_cluster cs'.
Proof. intros Hwf H. induction H; eauto using rstep_wf. Qed.

(** ** The code follows the steps *)

Context `{SL : !SchedulerLaws SCH}.

Definition reaches (st st' : calc) : Prop :=
  ∃ l, st'.(sent) = st.(sent) ++ l ∧ rsteps st.(clust) l st'.(clust).

Lemma reaches_refl st : reaches st st.
Proof. exists []. split; [by rewrite app_nil_r|constructor]. Qed.

Lemma reaches_trans st1 st2 st3 : reaches st1 st2 → reaches st2 st3 → reaches st1 st3.
Proof.
  intros (l1 & E1 & H1) (l2 & E2 & H2). exists (l1 ++ l2).
  split; [by rewrite E2, E1, app_assoc|by eapply rsteps_trans].
Qed.

Lemma reaches_wf st st' : wf_cluster st.(clust) → reaches st st' → wf_cluster st'.(clust).
Proof. intros Hwf (l & _ & H). by eapply rsteps_wf. Qed.

Lemma send_spec typ reason jn mid st b st' :
  send typ reason jn mid st = (b, st') →
  st'.(clust) = st.(clust) ∧
  st'.(sent) = (if b then st.(sent) ++ [mkEngineTask typ reason jn mid] else st.(sent)) ∧
  (b = false → interrupted).
Proof.
  unfold send. destruct (stopped (polls st)) eqn:E; intros [= <- <-]; split_and!; try done.
  intros _. by eexists.
Qed.

Lemma decide_job_spec t cs j :
  wf_cluster cs →
  match (decide_job t cs j).1 with
  | JobActionUnschedule => must_leave cs j
  | JobActionSchedule => j.(JTargetState) ≠ JobStateInactive ∧
      ∃ t a, agents t cs !! j.(JTargetMachineID) = Some a ∧ runnable a j ∧
             ¬ has_replace a j.(JName) (Job_Replaces j)
  | JobActionReschedule => j.(JTargetState) ≠ JobStateInactive ∧
      ∃ t a, agents t cs !! j.(JTargetMachineID) = Some a ∧ runnable a j
  end.
Proof.
  intros Hwf. unfold decide_job, must_leave. case_bool_decide as Hi; [by left|].
  destruct (agents (0 :: t) cs !! JTargetMachineID j) as [a|] eqn:Ha.
  - pose proof (AbleToRun_able_spec (1 :: t) a j) as Hs.
    destruct (AbleToRun (1 :: t) a j) as [[] r]; cbn in *; inversion Hs; eauto 10.
  - right; left. rewrite agents_lookup in Ha by done. by apply fmap_None in Ha.
Qed.

(** Scheduling a job to the machine it has changes nothing. *)
Lemma schedule_same cs k j : cs.(jobs) !! k = Some j → schedule k j.(JTargetMachineID) cs = cs.
Proof.
  intros Hk. destruct cs as [js gs ms]. unfold schedule. cbn in *. f_equal.
  apply map_eq. intros k'. destruct (decide (k' = k)) as [->|].
  - rewrite lookup_alter_eq, Hk. by destruct j.
  - by rewrite lookup_alter_ne.
Qed.

Lemma GetReplacedUnit_Ok t a j r :
  GetReplacedUnit t a j = Ok r →
  ∃ k e, a.(Units) !! k = Some e ∧ r = e.(UName) ∧ replacing j.(JName) (Job_Replaces j) r (Unit_Replaces e).
Proof.
  unfold GetReplacedUnit. destruct (hasReplace _ _ _ _) as [x|] eqn:E; [|done].
  intros [= <-]. apply hasReplace_Some in E as (k & e & ? & -> & ?). eauto.
Qed.

(** The turn of [handle_reschedule] for the job itself. *)
Lemma reschedule_turn_reaches t t' a j reason st b st' :
  wf_cluster st.(clust) → st.(clust).(jobs) !! j.(JName) = Some j → Scheduled j = true →
  j.(JTargetState) ≠ JobStateInactive →
  (∃ t a, agents t st.(clust) !! j.(JTargetMachineID) = Some a ∧ runnable a j) →
  agents t' st.(clust) !! j.(JTargetMachineID) = Some a →
  reschedule_turn t a j reason j st = (b, st') → reaches st st'.
Proof.
  intros Hwf Hj Hs Hact Hrun Ha. unfold reschedule_turn. rewrite Hs, bool_decide_eq_false_2 by tauto. cbn.
  destruct (GetReplacedUnit (0 :: t) a j) as [r|] eqn:Hr; [|by intros [= <- <-]; apply reaches_refl].
  apply GetReplacedUnit_Ok in Hr as (k & e & Hk & -> & Hrep).
  pose proof (agents_Units_name _ _ _ _ _ _ Hwf Ha Hk) as Hne. rewrite Hne in *.
  assert (displaces st.(clust) j k) as Hd by (split_and!; eauto 10).
  destruct (send _ _ _ _ st) as [ok st1] eqn:E1. apply send_spec in E1 as (Hc1 & Hs1 & Hi1).
  destruct ok; cbn; [|intros [= <- <-]; exists []; rewrite Hc1, Hs1, app_nil_r; split; [done|constructor]].
  destruct (DecideReschedule (1 :: t) (clust st1) j) as [dec|err] eqn:Ed; rewrite Hc1 in Ed.
  - apply DecideReschedule_ok in Ed as [Hdne Hdm]; [|done].
    destruct (send _ _ _ _ st1) as [ok st2] eqn:E2. apply send_spec in E2 as (Hc2 & Hs2 & Hi2).
    destruct ok; cbn; intros [= <- <-].
    + exists [mkEngineTask taskTypeUnscheduleUnit reason k j.(JTargetMachineID);
              mkEngineTask taskTypeAttemptScheduleUnit reason k dec.(machineID)].
      cbn. rewrite Hs2, Hs1, Hc2, Hc1, <- app_assoc. split; [done|]. apply rsteps_once.
      rewrite schedule_same.
      * by eapply rs_replace.
      * cbn. rewrite lookup_alter_ne; [done|]. intros ->. by destruct Hrep.
    + eexists [_]. rewrite Hs2, Hs1, Hc2, Hc1. split; [done|]. apply rsteps_once.
      eapply rs_evict; eauto.
  - intros [= <- <-]. eexists [_]. rewrite Hs1, Hc1. split; [done|]. apply rsteps_once.
    eapply rs_evict; eauto. right. intros id. by eapply DecideReschedule_err.
Qed.

(** The inner loop of [handle_reschedule] acts at the key of the job only. *)
Lemma reschedule_loop_away t a j reason keys b st :
  wf_cluster st.(clust) → j.(JName) ∉ keys → reschedule_loop t a j reason keys b st = (b, st).
Proof.
  intros Hwf. induction keys as [|k keys IH]; cbn; [done|]. intros Hk.
  apply not_elem_of_cons in Hk as [Hne Hk].
  destruct (jobs (clust st) !! k) as [cj|] eqn:Ej; [|auto].
  unfold reschedule_turn. rewrite (wf_jobs _ Hwf _ _ Ej), bool_decide_eq_true_2 by done.
  destruct (Scheduled cj); cbn; rewrite orb_false_r; auto.
Qed.

Lemma reschedule_loop_at t a j reason keys st :
  wf_cluster st.(clust) → NoDup keys → j.(JName) ∈ keys →
  st.(clust).(jobs) !! j.(JName) = Some j →
  (∀ i b st', reschedule_turn (i :: t) a j reason j st = (b, st') → wf_cluster st'.(clust)) →
  ∃ i, reschedule_loop t a j reason keys false st = reschedule_turn (i :: t) a j reason j st.
Proof.
  intros Hwf Hnd Hin Hj Hpres. induction Hnd as [|k keys Hk Hnd IH]; cbn; [by apply elem_of_nil in Hin|].
  destruct (decide (k = JName j)) as [->|Hne].
  - rewrite Hj. exists (length keys). destruct (reschedule_turn _ _ _ _ _ _) as [b st'] eqn:E.
    apply reschedule_loop_away; [by eapply Hpres|done].
  - apply elem_of_cons in Hin as [?|Hin]; [congruence|].
    destruct (jobs (clust st) !! k) as [cj|] eqn:Ej; [|auto].
    unfold reschedule_turn at 1.
    rewrite (wf_jobs _ Hwf _ _ Ej), (bool_decide_eq_true_2 (_ ≠ _)) by congruence.
    destruct (Scheduled cj); cbn; auto.
Qed.

Lemma handle_reschedule_reaches t j reason st b st' :
  wf_cluster st.(clust) → st.(clust).(jobs) !! j.(JName) = Some j → Scheduled j = true →
  j.(JTargetState) ≠ JobStateInactive →
  (∃ t a, agents t st.(clust) !! j.(JTargetMachineID) = Some a ∧ runnable a j) →
  handle_reschedule t j reason st = (b, st') → reaches st st'.
Proof.
  intros Hwf Hj Hs Hact Hrun. unfold handle_reschedule.
  destruct (agents (0 :: t) (clust st) !! _) as [a|] eqn:Ha; [|by intros [= <- <-]; apply reaches_refl].
  destruct (reschedule_loop_at (1 :: t) a j reason (range (2 :: t) st.(clust).(jobs)).*1 st) as [i ->];
    [done|apply range_NoDup_fst|..].
  - apply elem_of_range_fst, elem_of_dom. by eexists.
  - done.
  - intros i b' st'' H. eapply reaches_wf; [done|]. by eapply reschedule_turn_reaches.
  - intros H. by eapply reschedule_turn_reaches.
Qed.

Lemma check_turn_reaches t k j st b st' :
  wf_cluster st.(clust) → st.(clust).(jobs) !! k = Some j →
  check_turn t j st = (b, st') → reaches st st'.
Proof.
  intros Hwf Hk. pose proof (wf_jobs _ Hwf _ _ Hk) as Hname. cbn in Hname. subst k. unfold check_turn.
  destruct (Scheduled j) eqn:Hs; cbn; [|by intros [= <- <-]; apply reaches_refl].
  pose proof (decide_job_spec (0 :: t) st.(clust) j Hwf) as Hd.
  destruct (decide_job (0 :: t) (clust st) j) as [act reason]. cbn in Hd. destruct act.
  - rewrite (bool_decide_eq_false_2 (_ = _)), (bool_decide_eq_true_2 (_ ≠ _)) by done.
    intros [= <- <-]. apply reaches_refl.
  - rewrite (bool_decide_eq_false_2 (_ = _)), (bool_decide_eq_false_2 (_ ≠ _)) by naive_solver.
    destruct (send _ _ _ _ st) as [ok st1] eqn:E1. apply send_spec in E1 as (Hc1 & Hs1 & Hi1).
    destruct ok; cbn; intros [= <- <-].
    + eexists [_]. cbn. rewrite Hs1, Hc1. split; [done|]. apply rsteps_once. by eapply rs_unschedule.
    + exists []. rewrite Hc1, Hs1, app_nil_r. split; [done|constructor].
  - destruct Hd as [Hact Hrun]. rewrite (bool_decide_eq_true_2 (_ = _)), (bool_decide_eq_true_2 (_ ≠ _)) by done.
    destruct (handle_reschedule _ _ _ _) as [[] st1] eqn:E; cbn; intros [= <- <-];
      by eapply handle_reschedule_reaches.
Qed.

Lemma place_turn_reaches t k j st b st' :
  wf_cluster st.(clust) → st.(clust).(jobs) !! k = Some j →
  place_turn t j st = (b, st') → reaches st st'.
Proof.
  intros Hwf Hk. pose proof (wf_jobs _ Hwf _ _ Hk) as Hname. cbn in Hname. subst k. unfold place_turn.
  destruct (Scheduled j) eqn:Hs; cbn; [by intros [= <- <-]; apply reaches_refl|].
  case_bool_decide as Hi; [by intros [= <- <-]; apply reaches_refl|].
  destruct (Decide t (clust st) j) as [dec|] eqn:Ed; [|by intros [= <- <-]; apply reaches_refl].
  apply Decide_ok in Ed as (a & Ha & Hr); [|done].
  destruct (send _ _ _ _ st) as [ok st1] eqn:E1. apply send_spec in E1 as (Hc1 & Hs1 & Hi1).
  destruct ok; cbn; intros [= <- <-].
  - eexists [_]. cbn. rewrite Hs1, Hc1. split; [done|]. apply rsteps_once. by eapply rs_schedule.
  - exists []. rewrite Hc1, Hs1, app_nil_r. split; [done|constructor].
Qed.

Definition turn_ok (turn : moment → Job → calc → bool * calc) : Prop :=
  ∀ t k j st b st', wf_cluster st.(clust) → st.(clust).(jobs) !! k = Some j →
    turn t j st = (b, st') → reaches st st'.

Lemma jobs_loop_reaches turn t keys st b st' :
  turn_ok turn → wf_cluster st.(clust) → jobs_loop turn t keys st = (b, st') → reaches st st'.
Proof.
  intros Hturn. revert st. induction keys as [|k keys IH]; intros st Hwf; cbn.
  { intros [= <- <-]. apply reaches_refl. }
  destruct (jobs (clust st) !! k) as [j|] eqn:Ek; [|auto].
  destruct (turn _ j st) as [go st1] eqn:E1. pose proof (Hturn _ _ _ _ _ _ Hwf Ek E1) as H1.
  destruct go; [|by intros [= <- <-]]. intros H2.
  eapply reaches_trans; [done|]. eapply IH; [by eapply reaches_wf|done].
Qed.

Lemma calculateClusterTasks_reaches t cs b st :
  wf_cluster cs → calculateClusterTasks t cs = (b, st) → reaches (mkCalc cs [] 0) st.
Proof.
  intros Hwf. unfold calculateClusterTasks, check_loop, place_loop.
  destruct (jobs_loop check_turn _ _ _) as [go st1] eqn:E1.
  apply jobs_loop_reaches in E1 as H1; [|exact check_turn_reaches|done].
  destruct go; [|by intros [= <- <-]]. intros E2.
  eapply reaches_trans; [done|]. eapply jobs_loop_reaches; [exact place_turn_reaches| |done].
  by eapply (reaches_wf (mkCalc cs [] 0)).
Qed.

(** ** Where the jobs are when the engine is done *)

(** No name is both a job and a global unit. *)
Definition names_disjoint (cs : clusterState) : Prop :=
  ∀ k, is_Some (cs.(jobs) !! k) → cs.(gUnits) !! k = None.

(** A job that has a machine is active and its machine exists. *)
Definition settled (cs : clusterState) (k : string) : Prop :=
  ∀ j, cs.(jobs) !! k = Some j → Scheduled j = true →
    j.(JTargetState) ≠ JobStateInactive ∧ is_Some (cs.(machines) !! j.(JTargetMachineID)).

Lemma same_frame_job cs cs' k j' :
  same_frame cs cs' → cs'.(jobs) !! k = Some j' →
  ∃ j, cs.(jobs) !! k = Some j ∧ j.(JTargetState) = j'.(JTargetState) ∧ j.(JName) = j'.(JName).
Proof.
  intros [_ _ Hj] Hk. specialize (Hj k). rewrite Hk in Hj. destruct (jobs cs !! k) as [j|]; [|done].
  injection Hj as ? ? ? ?. eauto.
Qed.

Lemma names_disjoint_frame cs cs' : same_frame cs cs' → names_disjoint cs → names_disjoint cs'.
Proof.
  intros Hf Hd k [j' Hj']. destruct (same_frame_job _ _ _ _ Hf Hj') as (j & Hj & _).
  rewrite (sf_globals _ _ Hf). apply Hd. by eexists.
Qed.

(** A displaced unit that is a job is active, and runs where it is displaced. *)
Lemma displaces_job cs j r jr :
  wf_cluster cs → names_disjoint cs → displaces cs j r → cs.(jobs) !! r = Some jr →
  runs_on j.(JTargetMachineID) jr = true.
Proof.
  intros Hwf Hd (_ & _ & t & a & e & Ha & Hr & _) Hjr.
  destruct (agents_Units _ _ _ _ _ _ Hwf Ha Hr) as [(jr' & Hjr' & Hrun & _)|[Hg _]]; [congruence|].
  rewrite (Hd r) in Hg by by eexists. done.
Qed.

Lemma agents_machine t cs id a : wf_cluster cs → agents t cs !! id = Some a → is_Some (cs.(machines) !! id).
Proof.
  intros Hwf Ha. rewrite <- elem_of_dom, <- (agents_dom t), elem_of_dom by done. by eexists.
Qed.

Lemma settled_alter cs k r id :
  settled cs k →
  (id ≠ "" → k = r → ∀ j, cs.(jobs) !! k = Some j →
     j.(JTargetState) ≠ JobStateInactive ∧ is_Some (cs.(machines) !! id)) →
  settled (mkClusterState (alter (set_target id) r cs.(jobs)) cs.(gUnits) cs.(machines)) k.
Proof.
  intros Hs Hr j'. cbn. rewrite lookup_alter_Some.
  intros [(-> & j & Hj & ->)|[_ Hj]]; [|by apply Hs]. cbn. intros Hsch. apply Hr; [|done|done].
  unfold Scheduled in Hsch. cbn in Hsch. by apply bool_decide_eq_true in Hsch.
Qed.

Lemma settled_rstep cs l cs' k :
  wf_cluster cs → names_disjoint cs → rstep cs l cs' → settled cs k → settled cs' k.
Proof.
  intros Hwf Hd Hstep Hs. destruct Hstep as [k' j reason Hk|k' j r id reason Hk ? Hdis ? Hid| |k' j t id a reason Hk ? ? Ha Hr];
    [| |done|]; apply settled_alter; try done.
  - intros _ -> jr Hjr. pose proof (displaces_job _ _ _ _ Hwf Hd Hdis Hjr) as Hrun%runs_on_true. tauto.
  - intros _ -> j' Hj'. rewrite Hk in Hj'. injection Hj' as <-. split; [done|]. by eapply agents_machine.
Qed.

Lemma settled_rsteps cs l cs' k :
  wf_cluster cs → names_disjoint cs → rsteps cs l cs' → settled cs k → settled cs' k.
Proof.
  intros Hwf Hd H. revert Hwf Hd. induction H as [|cs l cs1 l' cs2 Hstep _ IH]; [done|].
  intros Hwf Hd Hs. apply IH.
  - by eapply rstep_wf.
  - by eapply names_disjoint_frame; [eapply rstep_frame|].
  - by eapply settled_rstep.
Qed.

Lemma settled_reaches st st' k :
  wf_cluster st.(clust) → names_disjoint st.(clust) → reaches st st' →
  settled st.(clust) k → settled st'.(clust) k.
Proof. intros Hwf Hd (l & _ & H). by eapply settled_rsteps. Qed.

Lemma names_disjoint_reaches st st' :
  reaches st st' → names_disjoint st.(clust) → names_disjoint st'.(clust).
Proof. intros (l & _ & H). eapply names_disjoint_frame. by eapply rsteps_frame. Qed.

Lemma check_turn_settles t k j st st' :
  wf_cluster st.(clust) → names_disjoint st.(clust) → st.(clust).(jobs) !! k = Some j →
  check_turn t j st = (true, st') → settled st'.(clust) k.
Proof.
  intros Hwf Hdj Hk Hturn. pose proof (check_turn_reaches _ _ _ _ _ _ Hwf Hk Hturn) as Hreach.
  pose proof (wf_jobs _ Hwf _ _ Hk) as Hname. cbn in Hname. subst k.
  assert ((Scheduled j = true → j.(JTargetState) ≠ JobStateInactive ∧
    ∃ t a, agents t st.(clust) !! j.(JTargetMachineID) = Some a) → settled st'.(clust) j.(JName)) as Hgoal.
  { intros H. eapply settled_reaches; [done..|]. intros j' Hj' Hs.
    rewrite Hk in Hj'. injection Hj' as <-. destruct (H Hs) as (? & t' & a & Ha).
    split; [done|]. by eapply agents_machine. }
  revert Hturn. unfold check_turn. destruct (Scheduled j) eqn:Hs; cbn.
  2: { intros [= <-]. by apply Hgoal. }
  pose proof (decide_job_spec (0 :: t) st.(clust) j Hwf) as Hd.
  destruct (decide_job (0 :: t) (clust st) j) as [act reason]. cbn in Hd. destruct act.
  - intros _. apply Hgoal. intros _. naive_solver.
  - rewrite (bool_decide_eq_false_2 (_ = _)), (bool_decide_eq_false_2 (_ ≠ _)) by naive_solver.
    destruct (send _ _ _ _ st) as [ok st1] eqn:E1. apply send_spec in E1 as (Hc1 & _).
    destruct ok; cbn; intros [= <-]. intros j'. cbn. rewrite lookup_alter_eq, Hc1, Hk. by intros [= <-].
  - intros _. apply Hgoal. intros _. naive_solver.
Qed.

Lemma check_loop_settles t keys st st' k :
  wf_cluster st.(clust) → names_disjoint st.(clust) →
  jobs_loop check_turn t keys st = (true, st') →
  k ∈ keys ∨ settled st.(clust) k → settled st'.(clust) k.
Proof.
  revert st. induction keys as [|k' keys IH]; intros st Hwf Hd; cbn.
  { intros [= <-] [Hk|?]; [by apply elem_of_nil in Hk|done]. }
  destruct (jobs (clust st) !! k') as [j|] eqn:Ek.
  - destruct (check_turn _ j st) as [[] st1] eqn:E1; [|done].
    pose proof (check_turn_reaches _ _ _ _ _ _ Hwf Ek E1) as H1. intros H2 Hk.
    eapply IH; [by eapply reaches_wf|by eapply names_disjoint_reaches|done|].
    destruct Hk as [[->|?]%elem_of_cons|Hs]; [right|by left|right].
    + by eapply check_turn_settles.
    + by eapply settled_reaches.
  - intros H2 Hk. eapply IH; [done..|]. destruct Hk as [[->|?]%elem_of_cons|Hs]; [right|by left|by right].
    intros j. by rewrite Ek.
Qed.

(** ** The schedule the tasks produce *)

(** The registry's answer to a task: a unit can be unscheduled from the machine
    it is on (unscheduling a unit that has none is accepted), and scheduled when
    it has no machine; everything else is an error. *)
Definition apply_task (tk : engine_task) (v : schedule_map) : option schedule_map :=
  if bool_decide (tk.(ETType) = taskTypeUnscheduleUnit) then
    match v !! tk.(ETJobName) with
    | None => Some v
    | Some m => if bool_decide (m = tk.(ETMachineID)) then Some (delete tk.(ETJobName) v) else None
    end
  else
    match v !! tk.(ETJobName) with
    | None => Some (<[tk.(ETJobName) := tk.(ETMachineID)]> v)
    | Some _ => None
    end.

Fixpoint replay (tks : list engine_task) (v : schedule_map) : option schedule_map :=
  match tks with
  | [] => Some v
  | tk :: tks => match apply_task tk v with Some v => replay tks v | None => None end
  end.

Lemma replay_app l1 l2 v :
  replay (l1 ++ l2) v = match replay l1 v with Some v' => replay l2 v' | None => None end.
Proof. revert v. induction l1 as [|tk l1 IH]; intros v; cbn; [done|]. destruct (apply_task tk v); auto. Qed.

Definition job_target (j : Job) : option string :=
  if Scheduled j then Some j.(JTargetMachineID) else None.

Definition schedule_of (cs : clusterState) : schedule_map := omap job_target cs.(jobs).

(** The tasks about jobs: a displaced unit may also be a global one. *)
Definition job_tasks (cs : clusterState) (l : list engine_task) : list engine_task :=
  filter (λ tk, is_Some (cs.(jobs) !! tk.(ETJobName))) l.

(** The registry's schedule agrees with the engine's view, except that a unit
    evicted without a new machine may be missing from it ([loose]). *)
Definition agrees (loose : Prop) (v : schedule_map) (cs : clusterState) : Prop :=
  ∀ k, v !! k = schedule_of cs !! k ∨ (loose ∧ v !! k = None).

Lemma schedule_of_lookup cs k : schedule_of cs !! k = cs.(jobs) !! k ≫= job_target.
Proof. apply lookup_omap. Qed.

Lemma schedule_of_set_target cs k id k' :
  schedule_of (schedule k id cs) !! k' =
  if decide (k' = k)
  then cs.(jobs) !! k ≫= λ _, if decide (id = "") then None else Some id
  else schedule_of cs !! k'.
Proof.
  rewrite !schedule_of_lookup. cbn. case_decide as Hk; [subst k'|by rewrite lookup_alter_ne].
  rewrite lookup_alter_eq. destruct (jobs cs !! k) as [j|]; [|done]. cbn.
  unfold job_target, Scheduled. cbn. destruct (decide (id = "")) as [->|Hid].
  - done.
  - by rewrite bool_decide_eq_true_2.
Qed.

(** Unscheduling a unit from where the view has it. *)
Lemma replay_unschedule loose v cs k m reason :
  agrees loose v cs → schedule_of cs !! k = Some m →
  ∃ v', apply_task (mkEngineTask taskTypeUnscheduleUnit reason k m) v = Some v' ∧
    v' !! k = None ∧ ∀ k', k' ≠ k → v' !! k' = v !! k'.
Proof.
  intros Hv Hk. unfold apply_task. cbn [ETType ETJobName ETMachineID].
  rewrite bool_decide_eq_true_2 by done. destruct (Hv k) as [E|[_ E]]; rewrite E, ?Hk.
  - rewrite bool_decide_eq_true_2 by done. eexists. split; [done|].
    split; [apply lookup_delete_eq|]. intros k' Hne. by rewrite lookup_delete_ne.
  - exists v. done.
Qed.

Lemma replay_schedule v k m reason :
  v !! k = None →
  apply_task (mkEngineTask taskTypeAttemptScheduleUnit reason k m) v = Some (<[k := m]> v).
Proof. intros E. unfold apply_task. cbn [ETType ETJobName ETMachineID].
  by rewrite bool_decide_eq_false_2, E by done. Qed.

Lemma job_tasks_frame cs cs' l : same_frame cs cs' → job_tasks cs' l = job_tasks cs l.
Proof.
  intros [_ _ Hj]. unfold job_tasks. apply list_filter_iff. intros tk.
  specialize (Hj tk.(ETJobName)).
  by destruct (jobs cs !! ETJobName tk), (jobs cs' !! ETJobName tk).
Qed.

Lemma job_tasks_all cs l :
  Forall (λ tk, is_Some (cs.(jobs) !! tk.(ETJobName))) l → job_tasks cs l = l.
Proof.
  unfold job_tasks. induction 1 as [|tk l H _ IH]; [done|]. by rewrite filter_cons_True, IH.
Qed.

Lemma job_tasks_none cs l :
  Forall (λ tk, cs.(jobs) !! tk.(ETJobName) = None) l → job_tasks cs l = [].
Proof.
  unfold job_tasks. induction 1 as [|tk l H _ IH]; [done|].
  rewrite filter_cons_False; [done|]. rewrite H. by intros [].
Qed.

Lemma displaced_target cs j r jr :
  wf_cluster cs → names_disjoint cs → displaces cs j r → cs.(jobs) !! r = Some jr →
  schedule_of cs !! r = Some j.(JTargetMachineID).
Proof.
  intros Hwf Hd Hdis Hr. pose proof (displaces_job _ _ _ _ Hwf Hd Hdis Hr) as Hrun.
  rewrite schedule_of_lookup, Hr. cbn. unfold runs_on in Hrun. bool_to_prop.
  unfold job_target. case_match; [by f_equal|done].
Qed.

Lemma replay_rstep loose cs l cs' v :
  wf_cluster cs → names_disjoint cs → cs.(machines) !! "" = None →
  (∀ j, (interrupted ∨ (∀ id, is_Some (cs.(machines) !! id) → id = j.(JTargetMachineID))) → loose) →
  rstep cs l cs' → agrees loose v cs → ∃ v', replay (job_tasks cs l) v = Some v' ∧ agrees loose v' cs'.
Proof.
  intros Hwf Hd Hid0 Hloose Hstep Hv.
  assert (∀ id, is_Some (cs.(machines) !! id) → id ≠ "") as Hids.
  { intros id [ms Hms] ->. congruence. }
  destruct Hstep as [k j reason Hk Hs _|k j r id reason Hk Hs Hdis Hne Hid|k j r reason Hk Hs Hdis Hi|k j t id a reason Hk Hs Hact Ha Hr].
  - rewrite job_tasks_all by (repeat constructor; cbn; by eexists). cbn [replay].
    destruct (replay_unschedule loose v cs k (JTargetMachineID j) reason) as (v' & -> & Hv1 & Hv2); [done| |].
    { rewrite schedule_of_lookup, Hk. cbn. unfold job_target. by rewrite Hs. }
    eexists. split; [done|]. intros k'. change (unschedule k cs) with (schedule k "" cs).
    rewrite schedule_of_set_target. case_decide; [subst k'; left|rewrite Hv2 by done; apply Hv].
    by rewrite Hv1, Hk.
  - destruct (jobs cs !! r) as [jr|] eqn:Er.
    + rewrite job_tasks_all by (repeat constructor; cbn; by eexists). cbn [replay].
      destruct (replay_unschedule loose v cs r (JTargetMachineID j) reason) as (v' & -> & Hv1 & Hv2); [done|by eapply displaced_target|].
      rewrite replay_schedule by done. eexists. split; [done|].
      intros k'. rewrite schedule_of_set_target. case_decide.
      * subst k'. left. rewrite lookup_insert_eq, Er. cbn. by rewrite decide_False by auto.
      * rewrite lookup_insert_ne, Hv2 by done. apply Hv.
    + rewrite job_tasks_none by (repeat constructor; done). exists v. split; [done|].
      intros k'. rewrite schedule_of_set_target. case_decide; [subst k'|apply Hv].
      rewrite Er. cbn. pose proof (Hv r) as Hvr. rewrite schedule_of_lookup, Er in Hvr. cbn in Hvr. tauto.
  - pose proof (Hloose j Hi) as HL. destruct (jobs cs !! r) as [jr|] eqn:Er.
    + rewrite job_tasks_all by (repeat constructor; cbn; by eexists). cbn [replay].
      destruct (replay_unschedule loose v cs r (JTargetMachineID j) reason) as (v' & -> & Hv1 & Hv2); [done|by eapply displaced_target|].
      exists v'. split; [done|]. intros k'. destruct (decide (k' = r)) as [->|].
      * by right.
      * rewrite Hv2 by done. apply Hv.
    + rewrite job_tasks_none by (repeat constructor; done). by exists v.
  - rewrite job_tasks_all by (repeat constructor; cbn; by eexists). cbn [replay].
    assert (v !! k = None) as Hvk.
    { destruct (Hv k) as [->|[_ ->]]; [|done]. rewrite schedule_of_lookup, Hk. cbn. unfold job_target. by rewrite Hs. }
    rewrite replay_schedule by done. eexists. split; [done|].
    intros k'. rewrite schedule_of_set_target. case_decide.
    + subst k'. left. rewrite lookup_insert_eq, Hk. cbn.
      rewrite decide_False; [done|]. apply Hids. by eapply agents_machine.
    + rewrite lookup_insert_ne by done. apply Hv.
Qed.

Lemma replay_rsteps loose cs l cs' v :
  wf_cluster cs → names_disjoint cs → cs.(machines) !! "" = None →
  (∀ j : Job, (interrupted ∨ (∀ id, is_Some (cs.(machines) !! id) → id = j.(JTargetMachineID))) → loose) →
  rsteps cs l cs' → agrees loose v cs → ∃ v', replay (job_tasks cs l) v = Some v' ∧ agrees loose v' cs'.
Proof.
  intros Hwf Hd Hid Hl H. revert v Hwf Hd Hid Hl.
  induction H as [|cs l cs1 l' cs2 Hstep _ IH]; intros v Hwf Hd Hid Hl Hv; [by exists v|].
  destruct (replay_rstep loose _ _ _ _ Hwf Hd Hid Hl Hstep Hv) as (v1 & E1 & Hv1).
  pose proof (rstep_frame _ _ _ Hstep) as Hf.
  destruct (IH v1) as (v2 & E2 & Hv2).
  - by eapply rstep_wf.
  - by eapply names_disjoint_frame.
  - by rewrite (sf_machines _ _ Hf).
  - by rewrite (sf_machines _ _ Hf).
  - done.
  - exists v2. split; [|done]. unfold job_tasks. rewrite filter_app, replay_app.
    fold (job_tasks cs l). fold (job_tasks cs l'). by rewrite E1, <- (job_tasks_frame _ _ _ Hf).
Qed.

Lemma evict_single cs (j : Job) :
  (interrupted ∨ (∀ id, is_Some (cs.(machines) !! id) → id = j.(JTargetMachineID))) →
  interrupted ∨ size cs.(machines) ≤ 1.
Proof.
  intros [?|H]; [by left|right]. rewrite <- size_dom.
  transitivity (size ({[j.(JTargetMachineID)]} : gset string)); [|by rewrite size_singleton].
  apply subseteq_size. intros id Hid. apply elem_of_singleton, H. by apply elem_of_dom.
Qed.

(** *** Turns that find nothing to do *)

Lemma jobs_loop_idle turn t keys st :
  (∀ t k j, st.(clust).(jobs) !! k = Some j → turn t j st = (true, st)) →
  jobs_loop turn t keys st = (true, st).
Proof.
  intros H. induction keys as [|k keys IH]; cbn; [done|].
  destruct (jobs (clust st) !! k) as [j|] eqn:E; [|done]. by rewrite (H _ _ _ E).
Qed.

Lemma check_turn_idle t k j st :
  wf_cluster st.(clust) → st.(clust).(jobs) !! k = Some j →
  (Scheduled j = true →
    j.(JTargetState) ≠ JobStateInactive ∧ is_Some (st.(clust).(machines) !! j.(JTargetMachineID)) ∧
    ∀ t a, agents t st.(clust) !! j.(JTargetMachineID) = Some a →
      runnable a j ∧ ¬ has_replace a j.(JName) (Job_Replaces j)) →
  check_turn t j st = (true, st).
Proof.
  intros Hwf Hk Hq. unfold check_turn. destruct (Scheduled j); [|done].
  destruct Hq as (Hact & [ms Hms] & Hrun); [done|]. cbn. unfold decide_job.
  rewrite (bool_decide_eq_false_2 (_ = JobStateInactive)) by done.
  destruct (agents (0 :: 0 :: t) (clust st) !! _) as [a|] eqn:Ha.
  - destruct (Hrun _ _ Ha) as [Hr Hnr].
    pose proof (AbleToRun_able_spec (1 :: 0 :: t) a j) as Hs.
    destruct (AbleToRun (1 :: 0 :: t) a j) as [act r]. cbn in Hs.
    by rewrite (able_spec_fun _ _ _ _ Hs (able_schedule _ _ Hr Hnr)).
  - rewrite agents_lookup, Hms in Ha by done. done.
Qed.

Lemma place_turn_idle t k j st :
  wf_cluster st.(clust) → st.(clust).(jobs) !! k = Some j →
  (Scheduled j = false →
    j.(JTargetState) = JobStateInactive ∨ ∀ t id a, agents t st.(clust) !! id = Some a → ¬ runnable a j) →
  place_turn t j st = (true, st).
Proof.
  intros Hwf Hk Hq. unfold place_turn. destruct (Scheduled j); [done|]. cbn.
  destruct Hq as [Hi|Hno]; [done|by rewrite bool_decide_eq_true_2|].
  case_bool_decide; [done|]. destruct (Decide t (clust st) j) as [dec|] eqn:Ed; [|done].
  apply Decide_ok in Ed as (a & Ha & Hr); [|done]. by destruct (Hno _ _ _ Ha).
Qed.

(** *** Without an interruption both loops run to their end *)

Lemma jobs_loop_ends turn t keys st :
  (∀ t j st, (turn t j st).1 = true) → (jobs_loop turn t keys st).1 = true.
Proof.
  intros H. revert st. induction keys as [|k keys IH]; intros st; cbn; [done|].
  destruct (jobs (clust st) !! k) as [j|]; [|done].
  pose proof (H (length keys :: t) j st) as Ht. destruct (turn _ j st) as [b st']. cbn in Ht. by subst b.
Qed.

Lemma calculateClusterTasks_ends t cs :
  (∀ n, stopped n = false) → (calculateClusterTasks t cs).1 = true.
Proof.
  intros Hstop.
  assert (∀ typ reason jn mid st, (send typ reason jn mid st).1 = true) as Hsend.
  { intros. unfold send. by rewrite Hstop. }
  assert (∀ t j st, (check_turn t j st).1 = true) as Hc.
  { intros t' j st. unfold check_turn. destruct (Scheduled j); [|done]. cbn.
    destruct (decide_job _ _ _) as [act reason].
    destruct (if bool_decide _ then _ else _) as [[] st1]; [done|]. case_bool_decide; [done|].
    specialize (Hsend taskTypeUnscheduleUnit reason (JName j) (JTargetMachineID j) st1).
    destruct (send _ _ _ _ _) as [ok st2]. cbn in Hsend. by subst ok. }
  assert (∀ t j st, (place_turn t j st).1 = true) as Hp.
  { intros t' j st. unfold place_turn. case_match; [done|]. destruct (Decide _ _ _) as [dec|]; [|done].
    specialize (Hsend taskTypeAttemptScheduleUnit (ReasonNotScheduled (JTargetState j)) (JName j) (machineID dec) st).
    destruct (send _ _ _ _ _) as [ok st2]. cbn in Hsend. by subst ok. }
  unfold calculateClusterTasks, check_loop, place_loop.
  pose proof (jobs_loop_ends check_turn (0 :: 0 :: t) (range (1 :: 0 :: t) cs.(jobs)).*1 (mkCalc cs [] 0) Hc) as H.
  destruct (jobs_loop check_turn _ _ _) as [b st]. cbn in H. subst b. by apply jobs_loop_ends.
Qed.

(** The replay of the tasks, as the engine's client uses it. *)
Lemma calculateClusterTasks_agrees t cs b st :
  wf_cluster cs → names_disjoint cs → cs.(machines) !! "" = None →
  calculateClusterTasks t cs = (b, st) →
  ∃ v, replay (job_tasks cs st.(sent)) (schedule_of cs) = Some v ∧
    agrees (interrupted ∨ size cs.(machines) ≤ 1) v st.(clust).
Proof.
  intros Hwf Hd Hid H. apply calculateClusterTasks_reaches in H as (l & E & H); [|done].
  cbn in *. subst l. apply (replay_rsteps _ _ _ _ _ Hwf Hd Hid).
  - apply evict_single.
  - done.
  - by left.
Qed.

Lemma calculateClusterTasks_settled t cs st k :
  wf_cluster cs → names_disjoint cs → calculateClusterTasks t cs = (true, st) →
  settled st.(clust) k.
Proof.
  intros Hwf Hd. unfold calculateClusterTasks, check_loop, place_loop.
  destruct (jobs_loop check_turn _ _ _) as [[] st1] eqn:E1; [|done]. intros E2.
  apply jobs_loop_reaches in E1 as H1; [|exact check_turn_reaches|done].
  pose proof (reaches_wf (mkCalc cs [] 0) _ Hwf H1) as Hwf1.
  eapply settled_reaches; [done|by eapply (names_disjoint_reaches (mkCalc cs [] 0))| |].
  - by eapply jobs_loop_reaches; [exact place_turn_reaches| |exact E2].
  - eapply check_loop_settles; [| |exact E1|]; try done.
    destruct (jobs cs !! k) as [j|] eqn:Ek.
    + left. apply elem_of_range_fst, elem_of_dom. by eexists.
    + right. intros j. cbn. by rewrite Ek.
Qed.

(** ** Properties *)

(** C1: every task the reconciler sends, and every change of its view of the
    cluster, is a step of the specification: a job is unscheduled only when it
    must leave its machine, a unit is moved off a machine only when a job there
    displaces it, a job is scheduled only to a machine that can run it at that
    moment, and nothing else about the cluster changes. *)
Theorem calculateClusterTasks_refines t cs b st :
  wf_cluster cs → calculateClusterTasks t cs = (b, st) →
  rsteps cs st.(sent) st.(clust) ∧ same_frame cs st.(clust).
Proof.
  intros Hwf H. apply calculateClusterTasks_reaches in H as (l & E & H); [|done].
  cbn in *. subst l. split; [done|]. by eapply rsteps_frame.
Qed.

(** When the reconciler runs to its end, every job that has a machine in
    its view is active and its machine exists: inactive jobs and jobs of
    machines that went away have been unscheduled or moved. *)
Theorem calculateClusterTasks_settles t cs st k :
  wf_cluster cs → names_disjoint cs → calculateClusterTasks t cs = (true, st) →
  settled st.(clust) k.
Proof. apply calculateClusterTasks_settled. Qed.

(** C26: if no name is both that of a job and of a global unit and no machine has an empty
    id, the registry accepts every task about a job (none fails; the tasks about global
    units that were displaced are left out), and the schedule it then holds is the engine's
    view of it, except that a job evicted by another may be left without a machine: this
    happens only when the reconciler is interrupted or the cluster has a single machine. *)
Theorem calculateClusterTasks_replay t cs b st :
  wf_cluster cs → names_disjoint cs → cs.(machines) !! "" = None →
  calculateClusterTasks t cs = (b, st) →
  ∃ v, replay (job_tasks cs st.(sent)) (schedule_of cs) = Some v ∧
    ∀ k, v !! k = schedule_of st.(clust) !! k ∨
      ((interrupted ∨ size cs.(machines) ≤ 1) ∧ v !! k = None).
Proof. apply calculateClusterTasks_agrees. Qed.

(** The engine has nothing to do: scheduled jobs are active, on a machine that
    runs them whatever the placement of the global units, with nothing to
    replace; unscheduled jobs are inactive or fit nowhere. *)
Definition quiescent (cs : clusterState) : Prop :=
  ∀ k j, cs.(jobs) !! k = Some j →
    if Scheduled j then
      j.(JTargetState) ≠ JobStateInactive ∧ is_Some (cs.(machines) !! j.(JTargetMachineID)) ∧
      ∀ t a, agents t cs !! j.(JTargetMachineID) = Some a →
        runnable a j ∧ ¬ has_replace a j.(JName) (Job_Replaces j)
    else
      j.(JTargetState) = JobStateInactive ∨ ∀ t id a, agents t cs !! id = Some a → ¬ runnable a j.

(** A cluster where every job is where it should be is left alone: the
    reconciler sends no task, changes nothing, and does not even look at the
    stop channel. *)
Theorem calculateClusterTasks_quiescent t cs :
  wf_cluster cs → quiescent cs → calculateClusterTasks t cs = (true, mkCalc cs [] 0).
Proof.
  intros Hwf Hq. unfold calculateClusterTasks, check_loop, place_loop.
  rewrite jobs_loop_idle; [rewrite jobs_loop_idle|]; [done| |].
  - intros t' k j Hk. apply (place_turn_idle _ k); [done|done|]. specialize (Hq k j Hk). intros Hs. by rewrite Hs in Hq.
  - intros t' k j Hk. apply (check_turn_idle _ k); [done|done|]. specialize (Hq k j Hk). intros Hs. by rewrite Hs in Hq.
Qed.

End reconciler.

(** ** Witnesses *)

Lemma calculateClusterTasks_refines_witness :
  let st := (calculateClusterTasks (MR := canonical_range)
      (SCH := leastLoadedScheduler (MR := canonical_range) (GS := merge_go_sort)) (λ _, false) [] ex_cluster).2 in
  sent st ≠ [] ∧ rsteps (MR := canonical_range) (λ _, false) ex_cluster st.(sent) st.(clust).
Proof.
  split; [vm_compute; discriminate|].
  apply (calculateClusterTasks_refines (MR := canonical_range)
    (SCH := leastLoadedScheduler (MR := canonical_range) (GS := merge_go_sort)) (λ _, false) [] ex_cluster true).
  - apply wf_newClusterState.
  - vm_compute. reflexivity.
Defined.

(** One job is inactive, another sits on a machine that is gone. *)
Definition ex_unsettled : clusterState :=
  newClusterState
    [mkUnit "old.service" (NewUnitFromOptions []) JobStateInactive; ex_unit "web.service" []]
    [mkScheduledUnit "old.service" None "m1"; mkScheduledUnit "web.service" None "gone"]
    [ex_machine "m1" ∅; ex_machine "m2" ∅].

Lemma ex_unsettled_disjoint : names_disjoint ex_unsettled.
Proof. intros k _. reflexivity. Qed.

Lemma calculateClusterTasks_settles_witness :
  let run := calculateClusterTasks (MR := canonical_range)
      (SCH := leastLoadedScheduler (MR := canonical_range) (GS := merge_go_sort)) (λ _, false) [] ex_unsettled in
  (ETJobName <$> sent run.2 = ["old.service"; "web.service"; "web.service"]) ∧
  settled (clust run.2) "web.service".
Proof.
  split; [vm_compute; reflexivity|].
  apply (calculateClusterTasks_settles (MR := canonical_range)
    (SCH := leastLoadedScheduler (MR := canonical_range) (GS := merge_go_sort)) (λ _, false) [] ex_unsettled).
  - apply wf_newClusterState.
  - apply ex_unsettled_disjoint.
  - vm_compute. reflexivity.
Defined.

Lemma calculateClusterTasks_replay_witness :
  let st := (calculateClusterTasks (MR := canonical_range)
      (SCH := leastLoadedScheduler (MR := canonical_range) (GS := merge_go_sort)) (λ _, false) [] ex_unsettled).2 in
  ∃ v, replay (job_tasks ex_unsettled (sent st)) (schedule_of ex_unsettled) = Some v ∧
    ∀ k, v !! k = schedule_of (clust st) !! k ∨
      ((interrupted (λ _, false) ∨ size ex_unsettled.(machines) ≤ 1) ∧ v !! k = None).
Proof.
  apply (calculateClusterTasks_replay (MR := canonical_range)
    (SCH := leastLoadedScheduler (MR := canonical_range) (GS := merge_go_sort)) (λ _, false) [] ex_unsettled true).
  - apply wf_newClusterState.
  - apply ex_unsettled_disjoint.
  - reflexivity.
  - vm_compute. reflexivity.
Defined.

(** An inactive job without a machine: nothing to do. *)
Definition ex_quiet : clusterState :=
  newClusterState [mkUnit "old.service" (NewUnitFromOptions []) JobStateInactive] [] [ex_machine "m1" ∅].

Lemma ex_quiet_quiescent : quiescent (MR := canonical_range) ex_quiet.
Proof.
  intros k j Hk. change (jobs ex_quiet) with
    ({["old.service" := mkJob "old.service" None JobStateInactive "" (NewUnitFromOptions [])]} : gmap string Job) in Hk.
  apply lookup_singleton_Some in Hk as [_ <-]. by left.
Qed.

Lemma calculateClusterTasks_quiescent_witness :
  calculateClusterTasks (MR := canonical_range)
    (SCH := leastLoadedScheduler (MR := canonical_range) (GS := merge_go_sort)) (λ _, true) [] ex_quiet =
  (true, mkCalc ex_quiet [] 0).
Proof.
  apply (calculateClusterTasks_quiescent (MR := canonical_range)
    (SCH := leastLoadedScheduler (MR := canonical_range) (GS := merge_go_sort)) (λ _, true) [] ex_quiet).
  - apply wf_newClusterState.
  - apply ex_quiet_quiescent.
Defined.
