(* ===== verification/Engine.v ===== *)
(** * [engine/engine.go]: one reconciliation of the engine against a registry

    The registry is an interface: [EngineRegistry] has the calls the engine
    makes, [ScheduleLaws] what the engine needs of the two calls that write. *)

From stdpp Require Import base list gmap strings.
From S2P Require Import Prelude GoStrings Pkg UnitFile Job Machine AgentState Cluster Scheduler EngineReconciler.

Class EngineRegistry (St E : Type) := {
  reg_Units : St → res E (list Unit);
  reg_Schedule : St → res E (list ScheduledUnit);
  reg_Machines : St → res E (list MachineState);
  reg_ScheduleUnit : string → string → St → St * res E unit;
  reg_UnscheduleUnit : string → string → St → St * res E unit
}.

(** The target recorded for a unit: the empty string means none. *)
Definition recorded_target (l : list ScheduledUnit) (name : string) : option string :=
  sUnitMap l !! name ≫= λ su, if decide (su.(STargetMachineID) = "") then None else Some su.(STargetMachineID).

(** The target of each unit in a registry: for the states [reg_wf] and the unit
    names [reg_name] for which the registry works. *)
Class ScheduleLaws {St E} (R : EngineRegistry St E) := {
  reg_wf : St → Prop;
  reg_name : string → Prop;
  reg_target : St → string → option string;
  reg_Schedule_target : ∀ s l name,
    reg_wf s → reg_name name → reg_Schedule s = Ok l → reg_target s name ≠ Some "" →
    reg_target s name = recorded_target l name;
  reg_ScheduleUnit_target : ∀ name m s, reg_wf s → reg_name name →
    let s' := (reg_ScheduleUnit name m s).1 in
    reg_wf s' ∧ ∀ k, reg_name k →
      reg_target s' k = if decide (k = name ∧ reg_target s name = None) then Some m else reg_target s k;
  reg_UnscheduleUnit_target : ∀ name m s, m ≠ "" → reg_wf s → reg_name name →
    let s' := (reg_UnscheduleUnit name m s).1 in
    reg_wf s' ∧ ∀ k, reg_name k →
      reg_target s' k = if decide (k = name ∧ reg_target s name = Some m) then None else reg_target s k
}.

Inductive engine_error (E : Type) :=
| RegistryError (e : E)
| UnrecognizedTaskType (typ : string).
Arguments RegistryError {E} e.
Arguments UnrecognizedTaskType {E} typ.

Section engine.
#[local] Open Scope go_scope.
Context {St Er : Type} `{MR : MapRange, SCH : Scheduler, R : !EngineRegistry St Er}.
Variable stopped : nat → bool.

Definition engine_clusterState (s : St) : res Er clusterState :=
  let* units := reg_Units s in
  let* sUnits := reg_Schedule s in
  let* machs := reg_Machines s in
  Ok (newClusterState units sUnits machs).

Definition unscheduleUnit (name machID : string) (s : St) : St * res Er unit :=
  reg_UnscheduleUnit name machID s.

Definition attemptScheduleUnit (name machID : string) (s : St) : St * bool :=
  let '(s, r) := reg_ScheduleUnit name machID s in
  match r with Err _ => (s, false) | Ok _ => (s, true) end.

(** A failed attempt to schedule is logged and not reported as an error. *)
Definition doTask (tk : engine_task) (s : St) : St * res (engine_error Er) unit :=
  if bool_decide (tk.(ETType) = taskTypeUnscheduleUnit) then
    let '(s, r) := unscheduleUnit tk.(ETJobName) tk.(ETMachineID) s in
    (s, match r with Ok u => Ok u | Err e => Err (RegistryError e) end)
  else if bool_decide (tk.(ETType) = taskTypeAttemptScheduleUnit) then
    let '(s, _) := attemptScheduleUnit tk.(ETJobName) tk.(ETMachineID) s in (s, Ok tt)
  else (s, Err (UnrecognizedTaskType tk.(ETType))).

(** The tasks received from the channel are done in order; errors are logged. *)
Definition doTasks (tks : list engine_task) (s : St) : St :=
  foldl (λ s tk, (doTask tk s).1) s tks.

Definition Reconciler_Reconcile (t : moment) (s : St) : St :=
  match engine_clusterState s with
  | Err _ => s
  | Ok cs => doTasks (calculateClusterTasks stopped t cs).2.(sent) s
  end.

(** ** The registry after a reconciliation *)

Context `{SL : !SchedulerLaws SCH, RL : !ScheduleLaws R}.

(** The types of the tasks the reconciler sends. *)
Definition known_task (tk : engine_task) : Prop :=
  tk.(ETType) = taskTypeUnscheduleUnit ∨ tk.(ETType) = taskTypeAttemptScheduleUnit.

Lemma rsteps_known cs l cs' : rsteps stopped cs l cs' → Forall known_task l.
Proof.
  induction 1 as [|cs l cs1 l' cs2 Hs _ IH]; [constructor|]. apply Forall_app_2; [|done].
  destruct Hs; repeat constructor; unfold known_task; cbn; tauto.
Qed.

(** What a task does to the target of the unit [k]. *)
Definition task_effect (tk : engine_task) (f : string → option string) (k : string) : option string :=
  if decide (k = tk.(ETJobName)) then
    if bool_decide (tk.(ETType) = taskTypeUnscheduleUnit)
    then (if decide (f k = Some tk.(ETMachineID)) then None else f k)
    else (if decide (f k = None) then Some tk.(ETMachineID) else f k)
  else f k.

Lemma apply_task_effect tk v v' k :
  apply_task tk v = Some v' → v' !! k = task_effect tk (λ x, v !! x) k.
Proof.
  unfold apply_task, task_effect. intros H. destruct (decide (k = ETJobName tk)) as [->|Hk].
  - destruct (bool_decide (ETType tk = taskTypeUnscheduleUnit)).
    + destruct (v !! ETJobName tk) as [m|] eqn:E; [|simplify_eq; by rewrite E].
      case_bool_decide; simplify_eq. by rewrite lookup_delete_eq, decide_True.
    + destruct (v !! ETJobName tk) as [m|] eqn:E; simplify_eq. by rewrite lookup_insert_eq.
  - repeat case_match; simplify_eq; try done; [by rewrite lookup_delete_ne|by rewrite lookup_insert_ne].
Qed.

(** A task of the reconciler: its type is known, the registry works for the unit
    and the machine it names is a machine. *)
Definition good_task (tk : engine_task) : Prop :=
  known_task tk ∧ reg_name tk.(ETJobName) ∧ tk.(ETMachineID) ≠ "".

Lemma doTask_target tk s :
  good_task tk → reg_wf s →
  reg_wf (doTask tk s).1 ∧ ∀ k, reg_name k → reg_target (doTask tk s).1 k = task_effect tk (reg_target s) k.
Proof.
  intros (Hk & Hn & Hm) Hwf. unfold doTask, task_effect. case_bool_decide as Ht.
  - unfold unscheduleUnit. destruct (reg_UnscheduleUnit_target (ETJobName tk) (ETMachineID tk) s Hm Hwf Hn) as [Hwf' H].
    destruct (reg_UnscheduleUnit _ _ _) as [s' r]. cbn in *. split; [done|]. intros k Hkn. rewrite H by done.
    destruct (decide (k = ETJobName tk)) as [->|Hne]; [|by rewrite decide_False by tauto].
    destruct (decide (reg_target s (ETJobName tk) = Some (ETMachineID tk))) as [E|E].
    + by rewrite decide_True.
    + by rewrite decide_False by tauto.
  - destruct Hk as [?|Hk]; [done|]. rewrite bool_decide_eq_true_2 by done. unfold attemptScheduleUnit.
    destruct (reg_ScheduleUnit_target (ETJobName tk) (ETMachineID tk) s Hwf Hn) as [Hwf' H].
    destruct (reg_ScheduleUnit _ _ _) as [s' r]. cbn in *.
    split; [by destruct r|]. intros k Hkn. transitivity (reg_target s' k); [by destruct r|]. rewrite H by done.
    destruct (decide (k = ETJobName tk)) as [->|Hne]; [|by rewrite decide_False by tauto].
    destruct (decide (reg_target s (ETJobName tk) = None)) as [E|E].
    + by rewrite decide_True.
    + by rewrite decide_False by tauto.
Qed.

(** Two schedules that agree on the names of the jobs of [cs]. *)
Definition same_targets (cs : clusterState) (v : schedule_map) (w : string → option string) : Prop :=
  ∀ k, is_Some (cs.(jobs) !! k) → v !! k = w k.

Lemma task_effect_same cs tk v w v' :
  same_targets cs v w → apply_task tk v = Some v' → same_targets cs v' (task_effect tk w).
Proof.
  intros Hs H k Hk. rewrite (apply_task_effect _ _ _ _ H). unfold task_effect. by rewrite <- (Hs k Hk).
Qed.

Lemma doTasks_replay cs tks v v' s :
  Forall good_task tks → (∀ k, is_Some (cs.(jobs) !! k) → reg_name k) → reg_wf s →
  same_targets cs v (reg_target s) →
  replay (job_tasks cs tks) v = Some v' → same_targets cs v' (reg_target (doTasks tks s)).
Proof.
  intros Hk Hnames. revert v s. induction Hk as [|tk tks Htk _ IH]; intros v s Hwf Hs.
  { by intros [= <-]. }
  change (doTasks (tk :: tks) s) with (doTasks tks (doTask tk s).1).
  destruct (doTask_target tk s Htk Hwf) as [Hwf' Ht].
  unfold job_tasks in *. rewrite filter_cons. destruct (decide (is_Some (jobs cs !! ETJobName tk))) as [Hn|Hn].
  - cbn [replay]. destruct (apply_task tk v) as [v1|] eqn:E; [|done]. apply IH; [done|].
    intros k Hkj. rewrite Ht by auto. by eapply task_effect_same.
  - apply IH; [done|]. intros k Hkj. rewrite Ht by auto. unfold task_effect.
    rewrite decide_False; [by apply Hs|]. by intros ->.
Qed.

(** The units and machines that the tasks of the reconciler name. *)
Lemma rsteps_names cs l cs' :
  wf_cluster cs → cs.(machines) !! "" = None → rsteps stopped cs l cs' →
  Forall (λ tk, (is_Some (cs.(jobs) !! tk.(ETJobName)) ∨ is_Some (cs.(gUnits) !! tk.(ETJobName))) ∧
                tk.(ETMachineID) ≠ "") l.
Proof.
  intros Hwf Hid Hs. induction Hs as [|cs l1 cs1 l2 cs2 Hstep Hs IH]; [constructor|].
  pose proof (rstep_frame _ _ _ _ Hstep) as Hf. apply Forall_app_2.
  - assert (∀ j, Scheduled j = true → JTargetMachineID j ≠ "") as Hsch
      by (intros j Hj; unfold Scheduled in Hj; by apply bool_decide_eq_true in Hj).
    assert (∀ j r, displaces cs j r → is_Some (jobs cs !! r) ∨ is_Some (gUnits cs !! r)) as Hdis.
    { intros j r (_ & _ & t & a & e & Ha & Hr & _).
      destruct (agents_Units _ _ _ _ _ _ Hwf Ha Hr) as [(jr & Hjr & _)|[Hg _]]; eauto. }
    assert (∀ id, is_Some (machines cs !! id) → id ≠ "") as Hmach by (intros id [? ?] ->; congruence).
    destruct Hstep as [k j ? Hj|k j r id ? Hj ? Hd|k j r ? Hj ? Hd|k j t id a ? Hj ? ? Ha]; 
      repeat apply Forall_cons_2; try apply Forall_nil_2; (split; [by eauto|cbn; auto]).
    apply Hmach. by eapply agents_machine.
  - eapply Forall_impl; [apply IH|].
    + by eapply rstep_wf.
    + by rewrite (sf_machines _ _ Hf).
    + intros tk [Hn Hm]. split; [|done]. rewrite (sf_globals _ _ Hf) in Hn.
      destruct Hn as [[j' Hj']|]; [|by right]. left. destruct (same_frame_job _ _ _ _ Hf Hj') as (j & Hj & _). eauto.
Qed.

Lemma units_name_inj units u u' :
  NoDup (UName <$> units) → u ∈ units → u' ∈ units → u'.(UName) = u.(UName) → u = u'.
Proof.
  intros Hnd [i Hi]%list_elem_of_lookup [i' Hi']%list_elem_of_lookup Hn.
  assert (i = i') as <-; [|congruence].
  eapply NoDup_lookup; [exact Hnd| |]; rewrite list_lookup_fmap; [by rewrite Hi|by rewrite Hi', <- Hn].
Qed.

(** The units of the registry have distinct names. *)
Lemma newClusterState_disjoint units sUnits machs :
  NoDup (UName <$> units) → names_disjoint (newClusterState units sUnits machs).
Proof.
  intros Hnd k [j Hj]. rewrite newClusterState_jobs in Hj. apply fmap_Some in Hj as (u & Hu & _).
  apply last_Some_elem_of, list_elem_of_filter in Hu as [<- Hu].
  apply list_elem_of_filter in Hu as [Hg Hu].
  unfold newClusterState. rewrite newClusterState_units. cbn.
  rewrite (lookup_foldl_insert UName id), lookup_empty.
  destruct (last _) as [u'|] eqn:El; [exfalso|done].
  apply last_Some_elem_of, list_elem_of_filter in El as [Hn El]. apply list_elem_of_filter in El as [Hg' Hu'].
  rewrite (units_name_inj units u u') in Hg by done. congruence.
Qed.

(** The engine's view starts from what the registry holds. *)
Lemma schedule_of_new units sUnits machs s :
  reg_wf s → reg_Schedule s = Ok sUnits →
  (∀ k, is_Some ((newClusterState units sUnits machs).(jobs) !! k) → reg_name k ∧ reg_target s k ≠ Some "") →
  same_targets (newClusterState units sUnits machs)
    (schedule_of (newClusterState units sUnits machs)) (reg_target s).
Proof.
  intros Hwf Hs Hok k [j Hj]. destruct (Hok k) as [Hn Hne]; [by rewrite Hj|].
  rewrite (reg_Schedule_target _ _ _ Hwf Hn Hs Hne), schedule_of_lookup, Hj. cbn.
  rewrite newClusterState_jobs in Hj. apply fmap_Some in Hj as (u & Hu & ->).
  apply last_Some_elem_of, list_elem_of_filter in Hu as [<- _].
  unfold cluster_job, recorded_target. destruct (sUnitMap sUnits !! UName u) as [su|]; [|done]. cbn.
  unfold job_target, Scheduled. cbn. by case_decide; case_bool_decide.
Qed.

(** The names of the cluster are those of the units. *)
Lemma newClusterState_names units sUnits machs k :
  is_Some ((newClusterState units sUnits machs).(jobs) !! k) ∨
  is_Some ((newClusterState units sUnits machs).(gUnits) !! k) → k ∈ UName <$> units.
Proof.
  intros [[j Hj]|[u Hu]].
  - rewrite newClusterState_jobs in Hj. apply fmap_Some in Hj as (u & Hu & _).
    apply last_Some_elem_of, list_elem_of_filter in Hu as [<- [_ Hu]%list_elem_of_filter].
    by apply list_elem_of_fmap_2.
  - unfold newClusterState in Hu. rewrite newClusterState_units in Hu. cbn in Hu.
    rewrite (lookup_foldl_insert UName id), lookup_empty in Hu. destruct (last _) as [u'|] eqn:El; [|done].
    apply last_Some_elem_of, list_elem_of_filter in El as [<- [_ El]%list_elem_of_filter].
    by apply list_elem_of_fmap_2.
Qed.

Lemma unit_of_name u units :
  u ∈ units → IsGlobal u = false →
  is_Some (last (filter (λ v, UName v = UName u) (filter (λ v, IsGlobal v = false) units))).
Proof.
  intros Hu Hg. apply last_is_Some. intros Hnil. apply (not_elem_of_nil u). rewrite <- Hnil.
  apply list_elem_of_filter. split; [done|]. by apply list_elem_of_filter.
Qed.

Lemma newClusterState_machines units sUnits machs id ms :
  (newClusterState units sUnits machs).(machines) !! id = Some ms → ms ∈ machs ∧ ms.(ID) = id.
Proof.
  unfold newClusterState. rewrite newClusterState_units. cbn.
  rewrite (lookup_foldl_insert ID (λ x, x)), lookup_empty. destruct (last _) as [ms'|] eqn:El; [|done].
  intros [= <-]. apply last_Some_elem_of, list_elem_of_filter in El as [? ?]. done.
Qed.

(** Doing the tasks of an uninterrupted run leaves the reconciler's schedule. *)
Lemma doTasks_schedule t s cs b st :
  wf_cluster cs → names_disjoint cs → cs.(machines) !! "" = None →
  ¬ interrupted stopped → 2 ≤ size cs.(machines) → reg_wf s →
  (∀ k, is_Some (cs.(jobs) !! k) ∨ is_Some (cs.(gUnits) !! k) → reg_name k) →
  same_targets cs (schedule_of cs) (reg_target s) → calculateClusterTasks stopped t cs = (b, st) →
  same_targets cs (schedule_of st.(clust)) (reg_target (doTasks st.(sent) s)).
Proof.
  intros Hwf Hd Hid Hint Hsize Hrwf Hnames Hs Hrun k Hk.
  destruct (calculateClusterTasks_agrees stopped t cs b st) as (v & Hv & Hag); [done..|].
  destruct (calculateClusterTasks_reaches stopped t cs b st Hwf Hrun) as (l & El & Hsteps). cbn in El, Hsteps. subst l.
  assert (Forall good_task (sent st)) as Hgood.
  { pose proof (rsteps_known _ _ _ Hsteps) as H1. pose proof (rsteps_names _ _ _ Hwf Hid Hsteps) as H2.
    rewrite Forall_forall in H1, H2 |- *. intros tk Htk. destruct (H2 tk Htk) as [? ?]. split_and!; auto. }
  rewrite <- (doTasks_replay cs _ _ _ s Hgood (λ k H, Hnames k (or_introl H)) Hrwf Hs Hv k Hk).
  destruct (Hag k) as [->|[[?|?] _]]; [done|done|lia].
Qed.

(** What the reconciler schedules is wanted and on a machine of the cluster. *)
Lemma schedule_settled t cs st k m :
  wf_cluster cs → names_disjoint cs → calculateClusterTasks stopped t cs = (true, st) →
  schedule_of st.(clust) !! k = Some m →
  ∃ j, cs.(jobs) !! k = Some j ∧ j.(JTargetState) ≠ JobStateInactive ∧ is_Some (cs.(machines) !! m).
Proof.
  intros Hwf Hd Hrun. rewrite schedule_of_lookup. intros (j' & Hj' & Hm)%bind_Some.
  pose proof (calculateClusterTasks_settled stopped t cs st k Hwf Hd Hrun j' Hj') as Hset.
  unfold job_target in Hm. destruct (Scheduled j') eqn:Hs; [|done]. injection Hm as Hm. subst m.
  destruct (Hset eq_refl) as [Hact Hmach].
  destruct (calculateClusterTasks_reaches stopped t cs true st Hwf Hrun) as (l & El & Hsteps). apply rsteps_frame in Hsteps.
  destruct (same_frame_job _ _ _ _ Hsteps Hj') as (j & Hj & Ht & _).
  exists j. split_and!; [done|by rewrite Ht|]. by rewrite (sf_machines _ _ Hsteps) in Hmach.
Qed.

(** C25: after a reconciliation that is not interrupted, on a cluster of at
    least two machines, none with an empty id, and with distinct unit names that the
    registry can keep, none scheduled to an empty id, the registry's schedule of the
    non-global units is the one the reconciler computed, and every one of them that it
    schedules is wanted (its target state is not inactive) and on a machine of the cluster. *)
Theorem Reconcile_schedule t s units sUnits machs :
  reg_Units s = Ok units → reg_Schedule s = Ok sUnits → reg_Machines s = Ok machs →
  reg_wf s → Forall reg_name (UName <$> units) → NoDup (UName <$> units) →
  Forall (λ ms, ms.(ID) ≠ "") machs → (∀ k, reg_target s k ≠ Some "") →
  (∀ n, stopped n = false) → 2 ≤ size (newClusterState units sUnits machs).(machines) →
  ∀ k u, u ∈ units → IsGlobal u = false → u.(UName) = k →
    reg_target (Reconciler_Reconcile t s) k =
      schedule_of (calculateClusterTasks stopped t (newClusterState units sUnits machs)).2.(clust) !! k ∧
    ∀ m, reg_target (Reconciler_Reconcile t s) k = Some m →
      u.(UTargetState) ≠ JobStateInactive ∧ ∃ ms, ms ∈ machs ∧ ms.(ID) = m.
Proof.
  intros Hu Hs Hm Hrwf Hnm Hnd Hids Hne Hstop Hsize k u Hin Hg <-.
  set (cs := newClusterState units sUnits machs) in *.
  assert (wf_cluster cs) as Hwf by apply wf_newClusterState.
  assert (names_disjoint cs) as Hd by by apply newClusterState_disjoint.
  assert (cs.(machines) !! "" = None) as Hid.
  { destruct (machines cs !! "") as [ms|] eqn:E0; [|done]. apply newClusterState_machines in E0 as [E0 Hne0].
    rewrite Forall_forall in Hids. by destruct (Hids ms). }
  assert (cs.(jobs) !! UName u = Some (cluster_job (sUnitMap sUnits) u)) as Hj.
  { unfold cs. rewrite newClusterState_jobs. destruct (unit_of_name u units Hin Hg) as [u' Hu'].
    rewrite Hu'. apply last_Some_elem_of, list_elem_of_filter in Hu' as [Hn [_ Hu']%list_elem_of_filter].
    by rewrite (units_name_inj units u u'). }
  assert (Reconciler_Reconcile t s = doTasks (calculateClusterTasks stopped t cs).2.(sent) s) as ->.
  { unfold Reconciler_Reconcile, engine_clusterState. by rewrite Hu, Hs, Hm. }
  pose proof (calculateClusterTasks_ends stopped t cs Hstop) as Hb.
  destruct (calculateClusterTasks stopped t cs) as [b st] eqn:Erun. cbn in Hb. subst b. cbn [snd].
  assert (∀ k, is_Some (cs.(jobs) !! k) ∨ is_Some (cs.(gUnits) !! k) → reg_name k) as Hnames.
  { intros k Hk. rewrite Forall_forall in Hnm. by eapply Hnm, newClusterState_names. }
  rewrite <- (doTasks_schedule t s cs true st Hwf Hd Hid) with (k := UName u);
    [|intros [n Hn]; by rewrite Hstop in Hn|done|done|done|apply schedule_of_new; auto|done|by rewrite Hj].
  split; [done|]. intros m Hsch.
  destruct (schedule_settled t cs st (UName u) m Hwf Hd Erun Hsch) as (j & Hj' & Hact & [ms Hms]).
  rewrite Hj in Hj'. injection Hj' as <-. split.
  - unfold cluster_job in Hact. by case_match.
  - apply newClusterState_machines in Hms. by exists ms.
Qed.
End engine.

(** ** Witness: a registry held in memory *)

Record mem_registry := mkMemRegistry {
  mem_units : list Unit;
  mem_machines : list MachineState;
  mem_schedule : schedule_map
}.

#[export] Instance mem_EngineRegistry : EngineRegistry mem_registry string := {|
  reg_Units s := Ok s.(mem_units);
  reg_Schedule s := Ok ((λ '(n, m), mkScheduledUnit n None m) <$> map_to_list s.(mem_schedule));
  reg_Machines s := Ok s.(mem_machines);
  reg_ScheduleUnit n m s :=
    match s.(mem_schedule) !! n with
    | None => (mkMemRegistry s.(mem_units) s.(mem_machines) (<[n := m]> s.(mem_schedule)), Ok tt)
    | Some _ => (s, Err "exists")
    end;
  reg_UnscheduleUnit n m s :=
    if decide (s.(mem_schedule) !! n = Some m)
    then (mkMemRegistry s.(mem_units) s.(mem_machines) (delete n s.(mem_schedule)), Ok tt)
    else (s, Ok tt)
|}.

Lemma mem_recorded_target (m : schedule_map) name :
  m !! name ≠ Some "" →
  recorded_target ((λ '(n, m), mkScheduledUnit n None m) <$> map_to_list m) name = m !! name.
Proof.
  intros Hne. unfold recorded_target, sUnitMap. rewrite (lookup_foldl_insert SName (λ x, x)), lookup_empty.
  assert (∀ su, su ∈ filter (λ su, SName su = name)
      ((λ '(n, m), mkScheduledUnit n None m) <$> map_to_list m) ↔
      ∃ id, m !! name = Some id ∧ su = mkScheduledUnit name None id) as Hel.
  { intros su. rewrite list_elem_of_filter, list_elem_of_fmap. split.
    - intros (<- & [n id] & -> & Hin%elem_of_map_to_list). cbn. eauto.
    - intros (id & Hid & ->). split; [done|]. exists (name, id). split; [done|]. by apply elem_of_map_to_list. }
  destruct (last _) as [su|] eqn:El.
  - apply last_Some_elem_of, Hel in El as (id & Hid & ->). cbn. rewrite Hid in *.
    rewrite decide_False; congruence.
  - apply last_None in El. destruct (m !! name) as [id|] eqn:Hid; [|done].
    exfalso. apply (not_elem_of_nil (mkScheduledUnit name None id)). rewrite <- El. apply Hel. eauto.
Qed.

#[export] Instance mem_ScheduleLaws : ScheduleLaws mem_EngineRegistry.
Proof.
  refine {| reg_wf _ := True; reg_name _ := True; reg_target s k := s.(mem_schedule) !! k |}.
  - intros s l name _ _ [= <-] Hne. by rewrite mem_recorded_target.
  - intros name m s _ _. cbn. split; [done|]. intros k _. destruct (mem_schedule s !! name) eqn:E.
    + rewrite decide_False; [done|naive_solver].
    + cbn. destruct (decide (k = name)) as [->|Hne].
      * by rewrite lookup_insert_eq, decide_True.
      * rewrite lookup_insert_ne, decide_False by naive_solver. done.
  - intros name m s _ _ _. cbn. split; [done|]. intros k _. case_decide as Hm; cbn.
    + destruct (decide (k = name)) as [->|Hne].
      * by rewrite lookup_delete_eq, decide_True.
      * rewrite lookup_delete_ne, decide_False by naive_solver. done.
    + rewrite decide_False; [done|naive_solver].
Defined.

Definition ex_registry : mem_registry :=
  mkMemRegistry
    [mkUnit "old.service" (NewUnitFromOptions []) JobStateInactive; ex_unit "web.service" []]
    [ex_machine "m1" ∅; ex_machine "m2" ∅]
    {["old.service" := "m1"; "web.service" := "gone"]}.

Lemma Reconcile_schedule_witness :
  reg_target (Reconciler_Reconcile (MR := canonical_range)
      (SCH := leastLoadedScheduler (MR := canonical_range) (GS := merge_go_sort)) (λ _, false) [] ex_registry)
    "web.service" = Some "m1".
Proof.
  erewrite (proj1 (Reconcile_schedule (MR := canonical_range)
    (SCH := leastLoadedScheduler (MR := canonical_range) (GS := merge_go_sort)) (RL := mem_ScheduleLaws)
    (λ _, false) [] ex_registry
    _ _ _ eq_refl eq_refl eq_refl I _ _ _ _ _ _ "web.service" (ex_unit "web.service" []) _ _ _)).
  vm_compute; reflexivity.
  Unshelve.
  - repeat constructor.
  - apply (bool_decide_unpack _). vm_compute. exact I.
  - repeat constructor; vm_compute; discriminate.
  - intros k. cbn. rewrite lookup_insert_Some, lookup_singleton_Some. naive_solver.
  - reflexivity.
  - vm_compute. lia.
  - apply (bool_decide_unpack _). vm_compute. exact I.
  - reflexivity.
  - reflexivity.
Defined.
