(* ===== verification/Lease.v ===== *)
(** * [pkg/lease/interface.go]: leases

    The interfaces [lease.Manager] and [lease.Lease] as one class, and what an
    engine relies on: the laws of one named lease, as the comments of the
    interface state them, for a service that answers every request, at once.
    [EtcdLease] shows that the etcd implementation satisfies them. *)

From stdpp Require Import base strings.
From S2P Require Import Prelude.

(** A handle [L] is a value of type [lease.Lease]: [Renew] updates the handle
    in place, so it returns the new contents. *)
Class LeaseManager (St L E : Type) := {
  GetLease : string → St → res E (option L);
  AcquireLease : string → string → Z → Z → St → St * res E (option L);
  StealLease : string → string → Z → Z → Z → St → St * res E (option L);
  Renew : L → Z → St → St * res E L;
  Release : L → St → St * res E unit;
  MachineID : L → string;
  Version : L → Z;
  Index : L → Z;
  TimeRemaining : L → Z
}.

(** The lease as the service holds it; one that never expires has no
    expiration time. *)
Record lease_record := mkLeaseRecord {
  lr_owner : string; lr_version : Z; lr_index : Z; lr_expires : option Z
}.

(** The view of the service the laws are about: its clock, its last index,
    whether it holds the lease and, if so, for whom. *)
Class LeaseView (St L : Type) := {
  lease_now : St → Z;
  lease_clock : St → Z;
  lease_at : St → option lease_record;
  lease_wf : St → Prop;
  handle_of_lease : L → Prop;
  owner_ok : string → Prop;
  period_ok : Z → Prop
}.

Section view.
Context `{LV : LeaseView St L, LM : !LeaseManager St L E}.

(** Nothing changed that the laws are about. *)
Definition untouched (s s' : St) : Prop :=
  lease_wf s' ∧ lease_now s' = lease_now s ∧ (lease_clock s ≤ lease_clock s')%Z ∧ lease_at s' = lease_at s.

(** The lease now has the record [r], at a new index. *)
Definition wrote (s : St) (r : lease_record) (s' : St) : Prop :=
  lease_wf s' ∧ lease_now s' = lease_now s ∧
  (lease_clock s < r.(lr_index))%Z ∧ (r.(lr_index) ≤ lease_clock s')%Z ∧ lease_at s' = Some r.

Definition describes (r : lease_record) (l : L) : Prop :=
  handle_of_lease l ∧ MachineID l = r.(lr_owner) ∧ Version l = r.(lr_version) ∧ Index l = r.(lr_index).

(** The lease has not changed since the handle was last updated. *)
Definition current (s : St) (idx : Z) : Prop := ∃ r, lease_at s = Some r ∧ r.(lr_index) = idx.

(** A new lease of [period] was written for [owner] and is described by the
    handle in the answer. *)
Definition granted (s : St) (owner : string) (ver period : Z) (s' : St) (l : L) : Prop :=
  ∃ idx, let r := mkLeaseRecord owner ver idx (Some (lease_now s + period)%Z) in
    wrote s r s' ∧ describes r l.

End view.

Class LeaseLaws {St L E} (LM : LeaseManager St L E) (LV : LeaseView St L) (name : string) := {
  lease_live : ∀ s r e, lease_wf s → lease_at s = Some r → r.(lr_expires) = Some e → (lease_now s < e)%Z;
  lease_indexed : ∀ s r, lease_wf s → lease_at s = Some r → (0 < r.(lr_index) ≤ lease_clock s)%Z;
  period_fits : ∀ p, period_ok p → (- 2 ^ 63 ≤ p < 2 ^ 63)%Z;
  GetLease_free : ∀ s, lease_wf s → lease_at s = None → GetLease name s = Ok None;
  GetLease_held : ∀ s r, lease_wf s → lease_at s = Some r →
    ∃ l, GetLease name s = Ok (Some l) ∧ describes r l ∧ (0 ≤ TimeRemaining l)%Z ∧
      ∀ e, r.(lr_expires) = Some e → (e ≤ lease_now s + TimeRemaining l)%Z;
  AcquireLease_free : ∀ s m v p, lease_wf s → lease_at s = None → owner_ok m → period_ok p →
    ∃ l, (AcquireLease name m v p s).2 = Ok (Some l) ∧ granted s m v p (AcquireLease name m v p s).1 l;
  AcquireLease_held : ∀ s m v p, lease_wf s → lease_at s ≠ None →
    (∀ l, (AcquireLease name m v p s).2 ≠ Ok (Some l)) ∧ untouched s (AcquireLease name m v p s).1;
  StealLease_current : ∀ s m v p idx, lease_wf s → current s idx → owner_ok m → period_ok p →
    ∃ l, (StealLease name m v p idx s).2 = Ok (Some l) ∧ granted s m v p (StealLease name m v p idx s).1 l;
  StealLease_changed : ∀ s m v p idx, lease_wf s → idx ≠ 0%Z → ¬ current s idx →
    (∀ l, (StealLease name m v p idx s).2 ≠ Ok (Some l)) ∧ untouched s (StealLease name m v p idx s).1;
  Renew_current : ∀ s l p, lease_wf s → handle_of_lease l → current s (Index l) →
    owner_ok (MachineID l) → period_ok p →
    ∃ l', (Renew l p s).2 = Ok l' ∧ granted s (MachineID l) (Version l) p (Renew l p s).1 l';
  Renew_changed : ∀ s l p, lease_wf s → handle_of_lease l → ¬ current s (Index l) →
    (∀ l', (Renew l p s).2 ≠ Ok l') ∧ untouched s (Renew l p s).1;
  Release_current : ∀ s l, lease_wf s → handle_of_lease l → current s (Index l) →
    let s' := (Release l s).1 in
    (Release l s).2 = Ok tt ∧ lease_wf s' ∧ lease_now s' = lease_now s ∧
    (lease_clock s ≤ lease_clock s')%Z ∧ lease_at s' = None;
  Release_changed : ∀ s l, lease_wf s → handle_of_lease l → ¬ current s (Index l) →
    untouched s (Release l s).1
}.
