(* ===== verification/Leadership.v ===== *)
(** * [engine/engine.go], [engine/rpcengine.go]: the engine's leadership

    One turn of the engine's loop: the version check, the lease, and the
    reconciliation when this engine leads; [Purge]; and the proof that at most one
    engine of a cluster reconciles at any time, whatever keeps the lease. *)

From stdpp Require Import base list gmap strings.
From S2P Require Import Prelude GoStrings Pkg UnitFile Job Machine AgentState Cluster Scheduler EngineReconciler Engine Lease.

Definition engineLeaseName : string := "engine-leader".
Definition engineVersion : Z := 1.

(** [registry.ClusterRegistry]. *)
Class ClusterRegistry (St E : Type) := {
  clr_EngineVersion : St → res E Z;
  clr_UpdateEngineVersion : Z → Z → St → St * res E unit
}.

(** What the registry of the engine says of itself at a turn.  That of an engine with
    gRPC is a [RegistryMux]: its answers are those of the registry it uses then, etcd
    (which answers [true] and [true]) or the one over gRPC ([false], and whether the
    connection is ready). *)
Record registry_status := mkStatus { st_UseEtcdRegistry : bool; st_IsRegistryReady : bool }.

Definition may_take (rg : registry_status) : bool := rg.(st_UseEtcdRegistry) || negb rg.(st_IsRegistryReady).

(** What one call of the reconcile closure did: the lease it leaves in the
    engine, the machine announced as the engine ([updateEngineState]), how long
    it waited for a stolen lease to expire, and whether it goes on to
    reconcile. *)
Record turn (St L : Type) := mkTurn {
  tn_world : St; tn_lease : option L; tn_announced : option MachineState; tn_wait : Z; tn_leads : bool
}.
Arguments mkTurn {St L}.
Arguments tn_world {St L}.
Arguments tn_lease {St L}.
Arguments tn_announced {St L}.
Arguments tn_wait {St L}.
Arguments tn_leads {St L}.

Inductive grpc_answer (E : Type) :=
| GrpcIs (b : bool)
| GrpcError (e : E)
| GrpcNoLeader
| GrpcPanic.
Arguments GrpcIs {E} b.
Arguments GrpcError {E} e.
Arguments GrpcNoLeader {E}.
Arguments GrpcPanic {E}.

Section leadership.
Context {St L E : Type} `{LM : !LeaseManager St L E, CR : !ClusterRegistry St E, R : !EngineRegistry St E}.

Definition isLeader (l : option L) (machID : string) : bool :=
  match l with
  | None => false
  | Some l => if bool_decide (MachineID l ≠ machID) then false else true
  end.

Definition ensureEngineVersionMatch (expect : Z) (s : St) : St * bool :=
  match clr_EngineVersion s with
  | Err _ => (s, false)
  | Ok v =>
      if (v <? expect)%Z then
        let '(s, r) := clr_UpdateEngineVersion v expect s in
        match r with Err _ => (s, false) | Ok _ => (s, true) end
      else if (v >? expect)%Z then (s, false)
      else (s, true)
  end.

(** The last component is the time spent waiting for the previous lease to
    expire. *)
Definition acquireLeadership (machID : string) (ver ttl : Z) (s : St) : St * option L * Z :=
  match GetLease engineLeaseName s with
  | Err _ => (s, None, 0%Z)
  | Ok None =>
      let '(s, r) := AcquireLease engineLeaseName machID ver ttl s in
      match r with
      | Err _ => (s, None, 0%Z)
      | Ok None => (s, None, 0%Z)
      | Ok (Some l) => (s, Some l, 0%Z)
      end
  | Ok (Some existing) =>
      if (Version existing >=? ver)%Z then (s, Some existing, 0%Z)
      else
        let rem := TimeRemaining existing in
        let '(s, r) := StealLease engineLeaseName machID ver (int64_wrap (ttl + rem)) (Index existing) s in
        match r with
        | Err _ => (s, None, 0%Z)
        | Ok None => (s, None, 0%Z)
        | Ok (Some l) => (s, Some l, if (rem >? 0)%Z then rem else 0%Z)
        end
  end.

Definition renewLeadership (l : L) (ttl : Z) (s : St) : St * option L :=
  let '(s, r) := Renew l ttl s in
  match r with Err _ => (s, None) | Ok l => (s, Some l) end.

(** ** With gRPC *)

(** [server_key_not_found err]: [err] is a [*etcdErr.Error], the type of the
    etcd server's package, with the code "key not found". *)
Variable server_key_not_found : E → bool.

Definition getMachineState (machID : string) (s : St) : res E (option MachineState) :=
  match reg_Machines s with
  | Err e => Err e
  | Ok machs => Ok (snd <$> list_find (λ ms, ms.(ID) = machID) machs)
  end.

Definition IsGrpcLeader (s : St) : grpc_answer E :=
  match GetLease engineLeaseName s with
  | Err e => GrpcError e
  | Ok None => GrpcNoLeader
  | Ok (Some leader) =>
      match getMachineState (MachineID leader) s with
      | Err e => GrpcError e
      | Ok None => GrpcPanic
      | Ok (Some leaderState) => GrpcIs (Capabilities_Has leaderState.(Capabilities) CapGRPC)
      end
  end.

Definition rpcAcquireLeadership (rg : registry_status) (machID : string) (ver ttl : Z) (s : St) : St * option L * Z :=
  match GetLease engineLeaseName s with
  | Err _ => (s, None, 0%Z)
  | Ok existing =>
      match existing with
      | None =>
          if may_take rg then
            let '(s, r) := AcquireLease engineLeaseName machID ver ttl s in
            match r with
            | Err _ => (s, None, 0%Z)
            | Ok None => (s, None, 0%Z)
            | Ok (Some l) => (s, Some l, 0%Z)
            end
          else (s, None, 0%Z)
      | Some ex =>
          if (Version ex >=? ver)%Z then (s, Some ex, 0%Z)
          else if may_take rg then
            let rem := TimeRemaining ex in
            let '(s, r) := StealLease engineLeaseName machID ver (int64_wrap (ttl + rem)) (Index ex) s in
            match r with
            | Err _ => (s, None, 0%Z)
            | Ok None => (s, None, 0%Z)
            | Ok (Some l) => (s, Some l, if (rem >? 0)%Z then rem else 0%Z)
            end
          else (s, Some ex, 0%Z)
      end
  end.

Definition rpcRenewLeadership (l : L) (ver ttl : Z) (s : St) : St * option L :=
  let '(s, r) := Renew l ttl s in
  match r with
  | Err e =>
      if server_key_not_found e then
        let '(s, r) := AcquireLease engineLeaseName (MachineID l) ver ttl s in
        match r with
        | Err _ => (s, None)
        | Ok None => (s, None)
        | Ok (Some l) => (s, Some l)
        end
      else (s, None)
  | Ok l => (s, Some l)
  end.

(** The lease, what is announced, and the time waited. *)
Definition rpcLeadership (rg : registry_status) (e_lease : option L) (leaseTTL : Z) (machID : string) (ver : Z) (s : St)
  : St * option L * option MachineState * Z :=
  let previousEngine := match e_lease with Some l => MachineID l | None => "" end in
  let '(s, l, wait) :=
    match e_lease with
    | Some el =>
        if isLeader e_lease machID
        then let '(s, l) := rpcRenewLeadership el ver leaseTTL s in (s, l, 0%Z)
        else rpcAcquireLeadership rg machID ver leaseTTL s
    | None => rpcAcquireLeadership rg machID ver leaseTTL s
    end in
  let announced :=
    match l with
    | None => None
    | Some l =>
        if bool_decide (previousEngine ≠ MachineID l) then
          match getMachineState (MachineID l) s with Err _ => None | Ok engineState => engineState end
        else None
    end in
  (s, l, announced, wait).

(** ** The loop of the engine *)

(** [caps] are the capabilities of the machine the engine runs on. *)
Definition lease_ttl (caps : gmap string bool) (ival : Z) : Z :=
  if Capabilities_Has caps CapGRPC then int64_wrap (ival * 500000) else int64_wrap (ival * 5).

(** The reconcile closure of [Run] up to the point where it reconciles; [ver]
    is [engineVersion]. *)
Definition leadership_turn (rg : registry_status) (caps : gmap string bool) (machID : string) (ver leaseTTL : Z)
    (e_lease : option L) (s : St) : turn St L :=
  let '(s, ok) := ensureEngineVersionMatch ver s in
  if negb ok then mkTurn s e_lease None 0 false
  else
    let '(s, l, announced, wait) :=
      if Capabilities_Has caps CapGRPC then rpcLeadership rg e_lease leaseTTL machID ver s
      else
        let '(s, l, wait) :=
          match e_lease with
          | Some el =>
              if isLeader e_lease machID
              then let '(s, l) := renewLeadership el leaseTTL s in (s, l, 0%Z)
              else acquireLeadership machID ver leaseTTL s
          | None => acquireLeadership machID ver leaseTTL s
          end in
        (s, l, None, wait) in
    mkTurn s l announced wait (isLeader l machID).

(** The whole closure: [abort] is the channel given to [Reconcile]. *)
Definition engine_turn `{MR : MapRange, SCH : Scheduler} (abort : nat → bool) (t : moment)
    (rg : registry_status) (caps : gmap string bool) (machID : string) (ival : Z) (e_lease : option L) (s : St) : turn St L :=
  let tn := leadership_turn rg caps machID engineVersion (lease_ttl caps ival) e_lease s in
  if tn.(tn_leads)
  then mkTurn (Reconciler_Reconcile abort t tn.(tn_world)) tn.(tn_lease) tn.(tn_announced) tn.(tn_wait) true
  else tn.

Definition engine_Purge (machID : string) (e_lease : option L) (s : St) : St :=
  match e_lease with
  | Some l => if isLeader e_lease machID then (Release l s).1 else s
  | None => s
  end.

End leadership.

(** ** The version gate *)

(** The cluster's engine version, read and compared-and-swapped. *)
Class VersionLaws {St E} (CR : ClusterRegistry St E) := {
  version_wf : St → Prop;
  version_at : St → Z;
  EngineVersion_reads : ∀ s v, version_wf s → clr_EngineVersion s = Ok v → v = version_at s;
  UpdateEngineVersion_swaps : ∀ s from to, version_wf s → int_range to →
    match (clr_UpdateEngineVersion from to s).2 with
    | Ok _ => version_at s = from → version_at (clr_UpdateEngineVersion from to s).1 = to
    | Err _ => version_at (clr_UpdateEngineVersion from to s).1 = version_at s
    end
}.

Section version.
Context {St L E : Type} `{CR : !ClusterRegistry St E, VL : !VersionLaws CR}.

(** An engine takes part only at the cluster's version: when the check
    passes, the recorded version is the engine's own; the version is never
    lowered; and an engine older than the cluster is kept out and writes
    nothing. *)
Theorem ensureEngineVersionMatch_gate (expect : Z) (s : St) :
  version_wf s → int_range expect →
  let '(s', ok) := ensureEngineVersionMatch expect s in
  (ok = true → version_at s' = expect) ∧ (version_at s ≤ version_at s')%Z ∧
  ((expect < version_at s)%Z → ok = false ∧ s' = s).
Proof.
  intros Hwf Hexp. unfold ensureEngineVersionMatch.
  destruct (clr_EngineVersion s) as [v|e] eqn:Hv; [|split_and!; done || lia].
  apply EngineVersion_reads in Hv as ->; [|done]. destruct (Z.ltb_spec (version_at s) expect) as [Hlt|Hge].
  - pose proof (UpdateEngineVersion_swaps s (version_at s) expect Hwf Hexp) as Hs.
    destruct (clr_UpdateEngineVersion _ _ _) as [s' [u|e]]; cbn in Hs; [specialize (Hs eq_refl)|];
      split_and!; done || lia.
  - destruct (Z.gtb_spec (version_at s) expect); split_and!; done || lia.
Qed.

End version.

(** ** At most one engine reconciles

    The engines of a cluster share the lease.  An engine that takes a turn and
    leads starts to reconcile after the time it waited, and is aborted [ttl]
    later: its window.  Time passes, leases expire, other clients write other
    keys, engines stop (releasing their lease) and start. *)

Record estate (L : Type) := mkEstate { es_lease : option L; es_busy : option (Z * Z) }.
Arguments mkEstate {L}.
Arguments es_lease {L}.
Arguments es_busy {L}.

Record run (St L : Type) := mkRun { world : St; engines : gmap string (estate L) }.
Arguments mkRun {St L}.
Arguments world {St L}.
Arguments engines {St L}.

(** *** Windows

    The invariant of the windows, for the time [now], the lease [at_] and the
    window [busy m] of each engine [m]: the lease lasts at least until every
    window that is not over ends; an engine that does not own the lease is done
    before the owner starts; and no two windows overlap. *)

Definition live (now : Z) (busy : string → option (Z * Z)) (m : string) (a d : Z) : Prop :=
  busy m = Some (a, d) ∧ (now < d)%Z.

Record win_inv (now : Z) (at_ : option lease_record) (busy : string → option (Z * Z)) : Prop := {
  win_cover m a d : live now busy m a d →
    ∃ r e, at_ = Some r ∧ r.(lr_expires) = Some e ∧ (d ≤ e)%Z;
  win_wait r m a d : at_ = Some r → live now busy m a d → m ≠ r.(lr_owner) →
    ∃ a' d', busy r.(lr_owner) = Some (a', d') ∧ (d ≤ a')%Z;
  win_disjoint m a d m' a' d' : live now busy m a d → live now busy m' a' d' → m ≠ m' →
    (d ≤ a' ∨ d' ≤ a)%Z
}.

Definition set_window (m : string) (w : option (Z * Z)) (busy : string → option (Z * Z)) : string → option (Z * Z) :=
  λ x, if decide (x = m) then w else busy x.

(** When the lease is free, or its owner is not busy, every window is over. *)
Lemma win_none now at_ busy m a d :
  win_inv now at_ busy → (∀ r, at_ = Some r → busy r.(lr_owner) = None) → ¬ live now busy m a d.
Proof.
  intros Hw Hr Hl. destruct (win_cover _ _ _ Hw m a d Hl) as (r & e & -> & _).
  specialize (Hr r eq_refl). destruct (decide (m = lr_owner r)) as [->|Hne].
  - destruct Hl as [Hl _]. congruence.
  - destruct (win_wait _ _ _ Hw r m a d eq_refl Hl Hne) as (? & ? & ? & _). congruence.
Qed.

Lemma win_ext now at_ busy busy' : win_inv now at_ busy → (∀ m, busy' m = busy m) → win_inv now at_ busy'.
Proof.
  intros Hw E'. split; unfold live.
  - intros m a d. rewrite E'. apply (win_cover _ _ _ Hw).
  - intros r m a d Hr Hl Hm. rewrite E' in Hl. rewrite E'. by apply (win_wait _ _ _ Hw r m a d).
  - intros m a d m' a' d'. rewrite !E'. apply (win_disjoint _ _ _ Hw).
Qed.

Lemma win_dead now at_ busy : (∀ m a d, ¬ live now busy m a d) → win_inv now at_ busy.
Proof. intros Hd. split; intros; exfalso; eapply Hd; eauto. Qed.

(** Time passes: a lease expires only after the windows it covers. *)
Lemma win_elapse now now' at_ busy :
  (now ≤ now')%Z → win_inv now at_ busy →
  win_inv now' (r ← at_; if (match r.(lr_expires) with Some e => (e <=? now')%Z | None => false end) then None else Some r) busy.
Proof.
  intros Hn Hw. assert (∀ m a d, live now' busy m a d → live now busy m a d) as Hlive by
    (intros ? ? ? [? ?]; split; [done|lia]).
  split.
  - intros m a d Hl. destruct (win_cover _ _ _ Hw m a d (Hlive _ _ _ Hl)) as (r & e & -> & He & Hd).
    exists r, e. cbn. rewrite He. destruct Hl as [_ Hl]. by destruct (Z.leb_spec e now'); [lia|].
  - intros r m a d Hr Hl Hne. apply bind_Some in Hr as (r0 & Hr0 & Hr). destruct (match lr_expires r0 with Some _ => _ | None => _ end); [done|].
    injection Hr as ->. apply (win_wait _ _ _ Hw r m a d); auto.
  - intros m a d m' a' d' H1 H2. apply (win_disjoint _ _ _ Hw); by apply Hlive.
Qed.

(** An engine finishes, in the window. *)
Lemma win_finish now at_ busy m a d :
  win_inv now at_ busy → busy m = Some (a, d) → (a ≤ now)%Z → win_inv now at_ (set_window m None busy).
Proof.
  intros Hw Hb Ha. assert (∀ x a' d', live now (set_window m None busy) x a' d' → x ≠ m ∧ live now busy x a' d') as Hlive.
  { intros x a' d' [Hx ?]. unfold set_window in Hx. by destruct (decide (x = m)). }
  split.
  - intros x a' d' [_ Hl]%Hlive. by apply (win_cover _ _ _ Hw x a' d').
  - intros r x a' d' Hr [Hx Hl]%Hlive Hne. destruct (win_wait _ _ _ Hw r x a' d' Hr Hl Hne) as (ao & do_ & Ho & Hd).
    unfold set_window. destruct (decide (lr_owner r = m)) as [E'|]; [|eauto].
    rewrite E', Hb in Ho. simplify_eq. destruct Hl. lia.
  - intros x1 a1 d1 x2 a2 d2 [_ H1]%Hlive [_ H2]%Hlive. by apply (win_disjoint _ _ _ Hw).
Qed.

(** An engine takes the lease: it was free, its own, or will be over when the
    engine starts. *)
Lemma win_took now at_ busy m w p idx v :
  win_inv now at_ busy → busy m = None → (0 ≤ p)%Z → (0 ≤ w)%Z →
  (∀ r, at_ = Some r → r.(lr_owner) = m ∨ ∀ e, r.(lr_expires) = Some e → (e ≤ now + w)%Z) →
  win_inv now (Some (mkLeaseRecord m v idx (Some (now + (p + w))%Z)))
    (set_window m (Some (now + w, now + w + p)%Z) busy).
Proof.
  intros Hw Hb Hp Hww Hr.
  assert (∀ x a d, x ≠ m → live now (set_window m (Some (now + w, now + w + p)%Z) busy) x a d → (d ≤ now + w)%Z) as Hold.
  { intros x a d Hx [Hl Hd]. unfold set_window in Hl. rewrite decide_False in Hl by done.
    assert (live now busy x a d) as Hlx by done.
    destruct (win_cover _ _ _ Hw x a d Hlx) as (r & e & -> & He & Hde).
    destruct (Hr r eq_refl) as [Ho|Hexp]; [|specialize (Hexp e He); lia].
    destruct (win_wait _ _ _ Hw r x a d eq_refl Hlx) as (? & ? & Hbo & _); congruence. }
  assert (∀ a d, live now (set_window m (Some (now + w, now + w + p)%Z) busy) m a d → a = (now + w)%Z ∧ d = (now + w + p)%Z) as Hnew.
  { intros a d [Hl _]. unfold set_window in Hl. rewrite decide_True in Hl by done. by simplify_eq. }
  split.
  - intros x a d Hl. do 2 eexists. split_and!; [done..|]. destruct (decide (x = m)) as [->|Hx].
    + apply Hnew in Hl as [_ ->]. lia.
    + apply Hold in Hl; [lia|done].
  - intros r x a d [= <-] Hl Hx. cbn in *. unfold set_window at 1. rewrite decide_True by done.
    apply Hold in Hl; eauto.
  - intros x1 a1 d1 x2 a2 d2 H1 H2 Hne. destruct (decide (x1 = m)) as [->|H1m], (decide (x2 = m)) as [->|H2m]; [done| | |].
    + apply Hnew in H1 as [-> ->]. apply Hold in H2; [by right|done].
    + apply Hnew in H2 as [-> ->]. apply Hold in H1; [by left|done].
    + destruct H1 as [H1 ?], H2 as [H2 ?]. unfold set_window in H1, H2.
      rewrite decide_False in H1 by done. rewrite decide_False in H2 by done.
      by apply (win_disjoint _ _ _ Hw x1 a1 d1 x2 a2 d2).
Qed.

Section exclusion.
Context {St L E : Type} `{LM : !LeaseManager St L E, CR : !ClusterRegistry St E, R : !EngineRegistry St E}.
Context `{LV : !LeaseView St L}.
Variables (snf : E → bool) (caps : string → gmap string bool) (ver ttl : string → Z).

Definition take_turn (rg : registry_status) (m : string) (es : estate L) (s : St) : turn St L :=
  leadership_turn snf rg (caps m) m (ver m) (ttl m) es.(es_lease) s.

(** The window in which an engine reconciles after its turn. *)
Definition window (m : string) (now : Z) (tn : turn St L) : option (Z * Z) :=
  if tn.(tn_leads) then Some (now + tn.(tn_wait), now + tn.(tn_wait) + ttl m)%Z else None.

Definition expired (now : Z) (r : lease_record) : bool :=
  match r.(lr_expires) with Some e => (e <=? now)%Z | None => false end.

(** The sum of the durations of a new lease and of the one it replaces is a
    duration the service accepts. *)
Definition in_range (m : string) (s : St) : Prop :=
  ∀ l, GetLease engineLeaseName s = Ok (Some l) → period_ok (ttl m + TimeRemaining l).

Inductive eng_step (st : run St L) : run St L → Prop :=
| step_turn rg m es :
    st.(engines) !! m = Some es → es.(es_busy) = None →
    in_range m (ensureEngineVersionMatch (ver m) st.(world)).1 →
    let tn := take_turn rg m es st.(world) in
    eng_step st (mkRun tn.(tn_world)
      (<[m := mkEstate tn.(tn_lease) (window m (lease_now st.(world)) tn)]> st.(engines)))
| step_finish m es a d :
    st.(engines) !! m = Some es → es.(es_busy) = Some (a, d) → (a ≤ lease_now st.(world))%Z →
    eng_step st (mkRun st.(world) (<[m := mkEstate es.(es_lease) None]> st.(engines)))
| step_stop m es :
    st.(engines) !! m = Some es → es.(es_busy) = None →
    eng_step st (mkRun (engine_Purge m es.(es_lease) st.(world)) (delete m st.(engines)))
| step_start m :
    st.(engines) !! m = None → owner_ok m → period_ok (ttl m) → (0 ≤ ttl m)%Z →
    eng_step st (mkRun st.(world) (<[m := mkEstate None None]> st.(engines)))
| step_others s :
    untouched st.(world) s → eng_step st (mkRun s st.(engines))
| step_elapse s :
    lease_wf s → (lease_now st.(world) ≤ lease_now s)%Z → (lease_clock st.(world) ≤ lease_clock s)%Z →
    lease_at s = (r ← lease_at st.(world); if expired (lease_now s) r then None else Some r) →
    eng_step st (mkRun s st.(engines)).

(** The cluster starts with no lease and no engine. *)
Definition initial (st : run St L) : Prop :=
  lease_wf st.(world) ∧ lease_at st.(world) = None ∧ st.(engines) = ∅.

Definition run_reachable (st : run St L) : Prop := ∃ st0, initial st0 ∧ rtc eng_step st0 st.

Definition reconciling (st : run St L) (m : string) : Prop :=
  ∃ es a d, st.(engines) !! m = Some es ∧ es.(es_busy) = Some (a, d) ∧
    (a ≤ lease_now st.(world))%Z ∧ (lease_now st.(world) < d)%Z.

(** An engine that crashed and starts again has forgotten its lease. *)
Inductive crash_step (st : run St L) : run St L → Prop :=
| step_crash m : is_Some (st.(engines) !! m) →
    crash_step st (mkRun st.(world) (<[m := mkEstate None None]> st.(engines))).

Definition run_reachable_with_crashes (st : run St L) : Prop :=
  ∃ st0, initial st0 ∧ rtc (λ a b, eng_step a b ∨ crash_step a b) st0 st.

(** *** One turn *)

Context `{LL : !LeaseLaws LM LV engineLeaseName}.
Hypothesis version_untouched : ∀ from to s, lease_wf s → untouched s (clr_UpdateEngineVersion from to s).1.

(** What an engine knows of the lease through its handle. *)
Definition knows (s : St) (m : string) (el : option L) : Prop :=
  (∀ r, lease_at s = Some r → r.(lr_owner) = m → ∃ l, el = Some l ∧ describes r l) ∧
  (∀ l, el = Some l → handle_of_lease l ∧ (Index l ≤ lease_clock s)%Z ∧
    ∀ r, lease_at s = Some r → r.(lr_index) = Index l → describes r l).

(** A turn leaves the lease alone and does not lead, or takes the lease when it
    is free, or renews its own, or takes one that will have expired when the
    wait is over. *)
Inductive outcome (s : St) (m : string) (tn : turn St L) : Prop :=
| out_idle :
    untouched s tn.(tn_world) → tn.(tn_leads) = false → knows tn.(tn_world) m tn.(tn_lease) → outcome s m tn
| out_took l v :
    tn.(tn_leads) = true → tn.(tn_lease) = Some l → (0 ≤ tn.(tn_wait))%Z →
    granted s m v (ttl m + tn.(tn_wait)) tn.(tn_world) l →
    (∀ r, lease_at s = Some r → r.(lr_owner) = m ∨
      ∀ e, r.(lr_expires) = Some e → (e ≤ lease_now s + tn.(tn_wait))%Z) →
    outcome s m tn.

Lemma untouched_trans s s1 s2 : untouched s s1 → untouched s1 s2 → untouched s s2.
Proof. intros (? & ? & ? & ?) (? & ? & ? & ?). split_and!; try congruence. lia. Qed.

Lemma untouched_refl s : lease_wf s → untouched s s.
Proof. intros ?. unfold untouched. split_and!; done || lia. Qed.

Lemma granted_from s s1 m v p s2 l : untouched s s1 → granted s1 m v p s2 l → granted s m v p s2 l.
Proof.
  intros (_ & En & Hc & _) (idx & (? & ? & ? & ? & ?) & Hd). exists idx. rewrite <- En.
  split; [split_and!|]; done || congruence || lia.
Qed.

Lemma knows_from s s1 m el : untouched s s1 → knows s m el → knows s1 m el.
Proof.
  intros (_ & _ & Hc & E') [H1 H2]. unfold knows. rewrite E'. split; [done|].
  intros l Hl. destruct (H2 l Hl) as (? & ? & ?). split_and!; done || lia.
Qed.

Lemma outcome_from s s1 m tn : untouched s s1 → outcome s1 m tn → outcome s m tn.
Proof.
  intros Hu [Hu1 Hl Hk|l v Hl Hs Hw Hg Hr].
  - apply out_idle; [by eapply untouched_trans|done|done].
  - destruct Hu as (? & En & ? & Ea). rewrite En, Ea in Hr.
    eapply out_took; eauto. eapply granted_from; [|done]. by split_and!.
Qed.

(** The engine has no lease of its own and forgets what it had. *)
Lemma knows_nothing s m : (∀ r, lease_at s = Some r → r.(lr_owner) ≠ m) → knows s m None.
Proof. intros H. split; [intros r Hr Ho; by destruct (H r Hr)|done]. Qed.

Lemma knows_described s m r l : lease_wf s → lease_at s = Some r → describes r l → knows s m (Some l).
Proof.
  intros Hwf Hr Hd. split.
  - intros r' Hr' _. simplify_eq. eauto.
  - intros l' [= <-]. destruct Hd as (? & ? & ? & Hi). split_and!; [done| |].
    + rewrite Hi. by apply lease_indexed in Hr as [_ ?].
    + intros r' Hr' _. by simplify_eq.
Qed.

Lemma describes_leads r l m : describes r l → isLeader (Some l) m = true ↔ r.(lr_owner) = m.
Proof.
  intros (_ & E' & _). cbn. rewrite E'. case_bool_decide; split; intros; done || congruence.
Qed.

Lemma granted_leads s m v p s' l : granted s m v p s' l → isLeader (Some l) m = true.
Proof. intros (idx & _ & Hd). by apply (describes_leads _ _ _ Hd). Qed.

Lemma AcquireLease_cases s m v p s' r :
  lease_wf s → owner_ok m → period_ok p → AcquireLease engineLeaseName m v p s = (s', r) →
  (∃ l, r = Ok (Some l) ∧ lease_at s = None ∧ granted s m v p s' l) ∨
  ((∀ l, r ≠ Ok (Some l)) ∧ untouched s s').
Proof.
  intros Hwf Hm Hp Heq. destruct (lease_at s) as [r0|] eqn:Hat.
  - right. destruct (AcquireLease_held s m v p Hwf) as [H1 H2]; [congruence|]. by rewrite Heq in H1, H2.
  - left. destruct (AcquireLease_free s m v p Hwf Hat Hm Hp) as (l & H1 & H2). rewrite Heq in H1, H2. eauto.
Qed.

Lemma StealLease_cases s m v p idx s' r :
  lease_wf s → owner_ok m → period_ok p → idx ≠ 0%Z → StealLease engineLeaseName m v p idx s = (s', r) →
  (∃ l, r = Ok (Some l) ∧ granted s m v p s' l) ∨ ((∀ l, r ≠ Ok (Some l)) ∧ untouched s s').
Proof.
  intros Hwf Hm Hp H0 Heq. destruct (lease_at s) as [r0|] eqn:Hat; [destruct (decide (lr_index r0 = idx)) as [Hi|Hi]|].
  - left. destruct (StealLease_current s m v p idx Hwf) as (l & H1 & H2); [by exists r0|done|done|].
    rewrite Heq in H1, H2. eauto.
  - right. destruct (StealLease_changed s m v p idx Hwf H0) as [H1 H2]; [|by rewrite Heq in H1, H2].
    intros (r' & ? & ?). simplify_eq.
  - right. destruct (StealLease_changed s m v p idx Hwf H0) as [H1 H2]; [|by rewrite Heq in H1, H2].
    intros (r' & ? & ?). congruence.
Qed.

Lemma Renew_cases s l p s' r :
  lease_wf s → handle_of_lease l → owner_ok (MachineID l) → period_ok p → Renew l p s = (s', r) →
  (∃ l', r = Ok l' ∧ current s (Index l) ∧ granted s (MachineID l) (Version l) p s' l') ∨
  ((∃ e, r = Err e) ∧ ¬ current s (Index l) ∧ untouched s s').
Proof.
  intros Hwf Hh Hm Hp Heq.
  assert (current s (Index l) ∨ ¬ current s (Index l)) as [Hc|Hc].
  { unfold current. destruct (lease_at s) as [r0|]; [destruct (decide (lr_index r0 = Index l))|].
    - left. eauto.
    - right. intros (? & ? & ?). simplify_eq.
    - right. intros (? & ? & ?). done. }
  - left. destruct (Renew_current s l p Hwf Hh Hc Hm Hp) as (l' & H1 & H2). rewrite Heq in H1, H2. eauto.
  - right. destruct (Renew_changed s l p Hwf Hh Hc) as [H1 H2]. rewrite Heq in H1, H2.
    split_and!; [|done|done]. destruct r as [l'|e]; [by destruct (H1 l')|eauto].
Qed.

(** The lease manager refused: the engine ends its turn without a lease. *)
Lemma outcome_refused s s' m ann :
  untouched s s' → (∀ r, lease_at s = Some r → r.(lr_owner) ≠ m) →
  outcome s m (mkTurn s' None ann 0 (isLeader None m)).
Proof.
  intros Hu Hn. apply out_idle; [done|done|]. apply knows_nothing. cbn. by destruct Hu as (_ & _ & _ & ->).
Qed.

Lemma outcome_acquired s m v s' l ann :
  lease_at s = None → granted s m v (ttl m) s' l → outcome s m (mkTurn s' (Some l) ann 0 (isLeader (Some l) m)).
Proof.
  intros Hat Hg. eapply out_took; [by eapply granted_leads|done|cbn; lia| |].
  - cbn. by rewrite Z.add_0_r.
  - intros r Hr. congruence.
Qed.

(** An engine that finds a lease of another engine follows it. *)
Lemma outcome_followed s m r l ann :
  lease_wf s → lease_at s = Some r → r.(lr_owner) ≠ m → describes r l →
  outcome s m (mkTurn s (Some l) ann 0 (isLeader (Some l) m)).
Proof.
  intros Hwf Hr Ho Hd. apply out_idle; [by apply untouched_refl| |by eapply knows_described].
  apply not_true_iff_false. cbn [tn_leads]. by rewrite (describes_leads r l m Hd).
Qed.

(** An engine that may hold leases, in a state where the lease, if any, is
    another engine's. *)
Definition may_lead (m : string) : Prop := owner_ok m ∧ period_ok (ttl m) ∧ (0 ≤ ttl m)%Z.

Definition acquired (s : St) (m : string) (res : St * option L * Z) : Prop :=
  ∀ ann, outcome s m (mkTurn res.1.1 res.1.2 ann res.2 (isLeader res.1.2 m)).

Lemma acquire_outcome s m v :
  lease_wf s → may_lead m → (∀ r, lease_at s = Some r → r.(lr_owner) ≠ m) →
  let '(s', r) := AcquireLease engineLeaseName m v (ttl m) s in
  acquired s m match r with Err _ => (s', None, 0%Z) | Ok None => (s', None, 0%Z) | Ok (Some l) => (s', Some l, 0%Z) end.
Proof.
  intros Hwf (Hm & Hp & _) Ho. destruct (AcquireLease _ _ _ _ _) as [s' r] eqn:Ha. intros ann.
  destruct (AcquireLease_cases _ _ _ _ _ _ Hwf Hm Hp Ha) as [(l & -> & Hat & Hg)|[Hr Hu]].
  - by eapply outcome_acquired.
  - destruct r as [[l|]|e]; [by destruct (Hr l)|by apply outcome_refused|by apply outcome_refused].
Qed.

Lemma steal_outcome s m r v ex :
  lease_wf s → may_lead m → in_range m s → lease_at s = Some r → r.(lr_owner) ≠ m →
  GetLease engineLeaseName s = Ok (Some ex) →
  let '(s', res) := StealLease engineLeaseName m v (int64_wrap (ttl m + TimeRemaining ex)) (Index ex) s in
  acquired s m match res with
    | Err _ => (s', None, 0%Z) | Ok None => (s', None, 0%Z)
    | Ok (Some l) => (s', Some l, if (TimeRemaining ex >? 0)%Z then TimeRemaining ex else 0%Z) end.
Proof.
  intros Hwf (Hm & Hp & Ht) Hov Hat Ho Hex. specialize (Hov ex Hex).
  destruct (GetLease_held s r Hwf Hat) as (l & Hl & (_ & _ & _ & Hidx) & Hrem & Hexp).
  rewrite Hex in Hl. injection Hl as <-.
  rewrite int64_wrap_small by (by apply period_fits). destruct (StealLease _ _ _ _ _ _) as [s' res] eqn:Hs. intros ann.
  assert ((if (TimeRemaining ex >? 0)%Z then TimeRemaining ex else 0%Z) = TimeRemaining ex) as -> by
    (destruct (Z.gtb_spec (TimeRemaining ex) 0); lia).
  assert (∀ r0, lease_at s = Some r0 → lr_owner r0 ≠ m) as Hn by (intros; simplify_eq; done).
  assert (Index ex ≠ 0%Z) as H0 by (apply lease_indexed in Hat; [lia|done]).
  destruct (StealLease_cases _ _ _ _ _ _ _ Hwf Hm Hov H0 Hs) as [(l' & -> & Hg)|[Hr Hu]].
  - eapply out_took; [by eapply granted_leads|done|done|done|]. intros r0 Hr0. simplify_eq. by right.
  - destruct res as [[l'|]|e]; [by destruct (Hr l')|by apply outcome_refused|by apply outcome_refused].
Qed.

Lemma acquireLeadership_outcome s m :
  lease_wf s → may_lead m → in_range m s → (∀ r, lease_at s = Some r → r.(lr_owner) ≠ m) →
  acquired s m (acquireLeadership m (ver m) (ttl m) s).
Proof.
  intros Hwf Hm Hov Ho. unfold acquireLeadership. destruct (lease_at s) as [r|] eqn:Hat.
  - destruct (GetLease_held s r Hwf Hat) as (ex & Hex & Hd & _). rewrite Hex.
    destruct (Version ex >=? ver m)%Z.
    + intros ann. eapply outcome_followed; eauto.
    + assert (H := steal_outcome s m r (ver m) ex Hwf Hm Hov Hat (Ho r eq_refl) Hex).
      destruct (StealLease _ _ _ _ _ _) as [s' [[l|]|e]]; exact H.
  - rewrite (GetLease_free s Hwf Hat). assert (H := acquire_outcome s m (ver m) Hwf Hm).
    rewrite Hat in H. specialize (H Ho). destruct (AcquireLease _ _ _ _ _) as [s' [[l|]|e]]; exact H.
Qed.

Lemma rpcAcquireLeadership_outcome rg s m :
  lease_wf s → may_lead m → in_range m s → (∀ r, lease_at s = Some r → r.(lr_owner) ≠ m) →
  acquired s m (rpcAcquireLeadership rg m (ver m) (ttl m) s).
Proof.
  intros Hwf Hm Hov Ho. unfold rpcAcquireLeadership. destruct (lease_at s) as [r|] eqn:Hat.
  - destruct (GetLease_held s r Hwf Hat) as (ex & Hex & Hd & _). rewrite Hex.
    destruct (Version ex >=? ver m)%Z; [intros ann; eapply outcome_followed; eauto|].
    destruct (may_take rg); [|intros ann; eapply outcome_followed; eauto].
    assert (H := steal_outcome s m r (ver m) ex Hwf Hm Hov Hat (Ho r eq_refl) Hex).
    destruct (StealLease _ _ _ _ _ _) as [s' [[l|]|e]]; exact H.
  - rewrite (GetLease_free s Hwf Hat). assert (H := acquire_outcome s m (ver m) Hwf Hm).
    rewrite Hat in H. specialize (H Ho). destruct (may_take rg).
    + destruct (AcquireLease _ _ _ _ _) as [s' [[l|]|e]]; exact H.
    + intros ann. apply outcome_refused; [by apply untouched_refl|by rewrite Hat].
Qed.

(** The engine's own lease: it is renewed, or the engine has lost it and, if the
    error is the one [rpcRenewLeadership] looks for, tries to get it again. *)
Lemma renew_outcome s m el s' r :
  lease_wf s → may_lead m → knows s m (Some el) → isLeader (Some el) m = true →
  Renew el (ttl m) s = (s', r) →
  (∃ l, r = Ok l ∧ acquired s m (s', Some l, 0%Z)) ∨
  ((∃ e, r = Err e) ∧ untouched s s' ∧ ∀ r, lease_at s = Some r → r.(lr_owner) ≠ m).
Proof.
  intros Hwf (Hm & Hp & Ht) [Hk1 Hk2] Hlead Hr. destruct (Hk2 el eq_refl) as (Hh & _ & Hag).
  assert (MachineID el = m) as Hid by (cbn in Hlead; case_bool_decide as Hb; [done|]; destruct (decide (MachineID el = m)); tauto).
  destruct (Renew_cases s el (ttl m) s' r Hwf Hh) as [(l & -> & (r0 & Hr0 & Hi) & Hg)|(He & Hc & Hu)]; subst m; try done.
  - left. exists l. split; [done|]. intros ann.
    eapply out_took; [by eapply granted_leads|done|cbn; lia|cbn; rewrite Z.add_0_r; done|].
    intros r1 Hr1. left. assert (r1 = r0) as -> by congruence. by destruct (Hag _ Hr0 Hi) as (_ & ? & _).
  - right. split_and!; [done|done|]. intros r0 Hr0 Ho.
    destruct (Hk1 r0 Hr0 Ho) as (l & [= <-] & _ & _ & _ & Hi). apply Hc. by exists r0.
Qed.

Lemma ensureEngineVersionMatch_untouched v s : lease_wf s → untouched s (ensureEngineVersionMatch v s).1.
Proof.
  intros Hwf. unfold ensureEngineVersionMatch. destruct (clr_EngineVersion s) as [v0|]; [|by apply untouched_refl].
  pose proof (version_untouched v0 v s Hwf) as Hu. destruct (_ <? _)%Z.
  - by destruct (clr_UpdateEngineVersion v0 v s) as [s' [|]].
  - destruct (_ >? _)%Z; by apply untouched_refl.
Qed.

(** An engine that does not think it leads does not own the lease. *)
Lemma not_leader_not_owner s m el :
  knows s m el → isLeader el m = false → ∀ r, lease_at s = Some r → r.(lr_owner) ≠ m.
Proof.
  intros [Hk _] Hl r Hr Ho. destruct (Hk r Hr Ho) as (l & -> & Hd).
  apply (describes_leads r l m) in Ho; [|done]. congruence.
Qed.

Lemma take_turn_outcome rg s m es :
  lease_wf s → may_lead m → in_range m (ensureEngineVersionMatch (ver m) s).1 →
  knows s m es.(es_lease) → outcome s m (take_turn rg m es s).
Proof.
  intros Hwf Hm Hr Hk. unfold take_turn, leadership_turn.
  pose proof (ensureEngineVersionMatch_untouched (ver m) s Hwf) as Hu.
  destruct (ensureEngineVersionMatch (ver m) s) as [s1 ok]. cbn [fst] in *.
  assert (lease_wf s1) as Hwf1 by apply Hu.
  apply (knows_from _ _ _ _ Hu) in Hk. apply (outcome_from _ _ _ _ Hu). clear Hu Hwf s.
  destruct ok; cbn [negb]; [|by apply out_idle; [apply untouched_refl|..]].
  destruct (isLeader (es_lease es) m) eqn:Hlead.
  - destruct (es_lease es) as [el|] eqn:Hel; [|done]. unfold rpcLeadership, renewLeadership, rpcRenewLeadership.
    rewrite !Hlead. destruct (Renew el (ttl m) s1) as [s2 r] eqn:Hrn.
    assert (MachineID el = m) as Hid by (cbn in Hlead; by case_bool_decide as Hb; [|destruct (decide (MachineID el = m))]).
    destruct (renew_outcome s1 m el s2 r Hwf1 Hm Hk Hlead Hrn) as [(l & -> & Ha)|((e & ->) & Hu & Ho)].
    + destruct (Capabilities_Has _ _); apply Ha.
    + destruct (Capabilities_Has _ _); [|by apply outcome_refused].
      destruct (snf e); [|by apply outcome_refused]. rewrite Hid.
      assert (lease_wf s2) as Hwf2 by apply Hu.
      assert (∀ r, lease_at s2 = Some r → lr_owner r ≠ m) as Ho2 by (by destruct Hu as (_ & _ & _ & ->)).
      assert (H := acquire_outcome s2 m (ver m) Hwf2 Hm Ho2). apply (outcome_from _ _ _ _ Hu).
      destruct (AcquireLease _ _ _ _ _) as [s3 [[l|]|e']]; apply H.
  - pose proof (not_leader_not_owner _ _ _ Hk Hlead) as Ho. unfold rpcLeadership.
    pose proof (acquireLeadership_outcome s1 m Hwf1 Hm Hr Ho) as H1.
    pose proof (rpcAcquireLeadership_outcome rg s1 m Hwf1 Hm Hr Ho) as H2.
    destruct (acquireLeadership _ _ _ _) as [[s2 l2] w2], (rpcAcquireLeadership _ _ _ _ _) as [[s3 l3] w3].
    destruct (Capabilities_Has _ _); destruct (es_lease es); try rewrite Hlead; apply H1 || apply H2.
Qed.

(** *** The invariant *)

Definition busy_of (st : run St L) (m : string) : option (Z * Z) := st.(engines) !! m ≫= es_busy.

Record run_inv (st : run St L) : Prop := {
  inv_wf : lease_wf st.(world);
  inv_engines m es : st.(engines) !! m = Some es → may_lead m ∧ knows st.(world) m es.(es_lease);
  inv_owner r : lease_at st.(world) = Some r → is_Some (st.(engines) !! r.(lr_owner));
  inv_windows : win_inv (lease_now st.(world)) (lease_at st.(world)) (busy_of st)
}.

Lemma busy_of_insert s es m e x :
  busy_of (mkRun s (<[m := e]> es)) x = set_window m e.(es_busy) (busy_of (mkRun s es)) x.
Proof.
  unfold busy_of, set_window. cbn. destruct (decide (x = m)) as [->|Hne].
  - by rewrite lookup_insert_eq.
  - by rewrite lookup_insert_ne.
Qed.

Lemma busy_of_world s s' es x : busy_of (mkRun s es) x = busy_of (mkRun s' es) x.
Proof. done. Qed.

Lemma inv_untouched st s : run_inv st → untouched st.(world) s → run_inv (mkRun s st.(engines)).
Proof.
  intros [Hwf He Ho Hw] Hu. pose proof Hu as (Hwf' & En & Hc & Ea). split; cbn; [done|..].
  - intros m es Hm. destruct (He m es Hm). split; [done|]. by eapply knows_from.
  - rewrite Ea. done.
  - rewrite En, Ea. by eapply win_ext.
Qed.

(** The engine [m] is idle before and after: only its handle changes. *)
Lemma inv_handle st m es el :
  run_inv st → st.(engines) !! m = Some es → es.(es_busy) = None → knows st.(world) m el →
  run_inv (mkRun st.(world) (<[m := mkEstate el None]> st.(engines))).
Proof.
  intros [Hwf He Ho Hw] Hm Hb Hk. split; cbn; [done|..].
  - intros x e [[<- <-]|[Hne Hx]]%lookup_insert_Some; [|by apply He]. split; [by eapply He|done].
  - intros r Hr. destruct (decide (lr_owner r = m)) as [->|Hne].
    + rewrite lookup_insert_eq. eauto.
    + rewrite lookup_insert_ne by done. by apply Ho.
  - eapply win_ext; [exact Hw|]. intros x. rewrite busy_of_insert. unfold set_window. cbn.
    destruct (decide (x = m)) as [->|]; [|done]. unfold busy_of. by rewrite Hm.
Qed.

(** A record written for [m] is news to every other engine. *)
Lemma knows_other s r s' m el :
  wrote s r s' → knows s m el → r.(lr_owner) ≠ m → knows s' m el.
Proof.
  intros (_ & _ & Hi & Hc & Ea) [_ Hk] Ho. split; rewrite Ea.
  - intros r' [= <-]. done.
  - intros l Hl. destruct (Hk l Hl) as (? & ? & _). split_and!; [done|lia|]. intros r' [= <-]. lia.
Qed.

Lemma inv_took st m es tn l v :
  run_inv st → st.(engines) !! m = Some es → es.(es_busy) = None →
  tn.(tn_lease) = Some l → (0 ≤ tn.(tn_wait))%Z →
  granted st.(world) m v (ttl m + tn.(tn_wait)) tn.(tn_world) l →
  (∀ r, lease_at st.(world) = Some r → r.(lr_owner) = m ∨
     ∀ e, r.(lr_expires) = Some e → (e ≤ lease_now st.(world) + tn.(tn_wait))%Z) →
  run_inv (mkRun tn.(tn_world) (<[m := mkEstate tn.(tn_lease)
    (Some (lease_now st.(world) + tn.(tn_wait), lease_now st.(world) + tn.(tn_wait) + ttl m)%Z)]> st.(engines))).
Proof.
  intros [Hwf He Ho Hw] Hm Hb Htl Hwt (idx & Hwr & Hd) Hr. pose proof Hwr as (Hwf' & En & Hi & Hc & Ea).
  destruct (He m es Hm) as [Hml _]. split; cbn; [done|..].
  - intros x e [[<- <-]|[Hne Hx]]%lookup_insert_Some.
    + split; [done|]. cbn. rewrite Htl. eapply knows_described; [exact Hwf'|exact Ea|done].
    + destruct (He x e Hx). split; [done|]. eapply knows_other; [exact Hwr|done|]. done.
  - rewrite Ea. intros r [= <-]. cbn. rewrite lookup_insert_eq. eauto.
  - rewrite En, Ea. eapply win_ext; [|intros x; apply busy_of_insert].
    apply (win_took _ (lease_at (world st))); [|unfold busy_of; cbn; by rewrite Hm|apply Hml|done|done].
    by eapply win_ext.
Qed.

Lemma inv_turn rg st m es :
  run_inv st → st.(engines) !! m = Some es → es.(es_busy) = None →
  in_range m (ensureEngineVersionMatch (ver m) st.(world)).1 →
  let tn := take_turn rg m es st.(world) in
  run_inv (mkRun tn.(tn_world)
    (<[m := mkEstate tn.(tn_lease) (window m (lease_now st.(world)) tn)]> st.(engines))).
Proof.
  intros Hinv Hm Hb Hr tn. destruct (inv_engines _ Hinv m es Hm) as [Hml Hk].
  pose proof (take_turn_outcome rg _ m es (inv_wf _ Hinv) Hml Hr Hk) as [Hu Hl Hkt|l v Hl Htl Hw Hg Hold];
    unfold window; subst tn; rewrite Hl.
  - pose proof (inv_untouched _ _ Hinv Hu) as Hi. by apply (inv_handle _ m es _ Hi).
  - by eapply inv_took.
Qed.

(** Without an owner that is busy, every window is over. *)
Lemma idle_owner_windows st at_ m es :
  run_inv st → st.(engines) !! m = Some es → es.(es_busy) = None →
  (∀ r, lease_at st.(world) = Some r → r.(lr_owner) = m) →
  win_inv (lease_now st.(world)) at_ (busy_of st).
Proof.
  intros Hinv Hm Hb Ho. apply win_dead. intros x a d.
  apply (win_none _ _ _ x a d (inv_windows _ Hinv)). intros r Hr. rewrite (Ho r Hr).
  unfold busy_of. by rewrite Hm.
Qed.

(** A stopping engine releases the lease if it holds it. *)
Lemma Purge_cases st m es :
  run_inv st → st.(engines) !! m = Some es →
  let s := st.(world) in let s' := engine_Purge m es.(es_lease) s in
  (untouched s s' ∧ ∀ r, lease_at s = Some r → r.(lr_owner) ≠ m) ∨
  (lease_wf s' ∧ lease_now s' = lease_now s ∧ (lease_clock s ≤ lease_clock s')%Z ∧ lease_at s' = None ∧
   ∀ r, lease_at s = Some r → r.(lr_owner) = m).
Proof.
  intros Hinv Hm s s'. pose proof (inv_wf _ Hinv) as Hwf. destruct (inv_engines _ Hinv m es Hm) as [_ Hk].
  subst s'. unfold engine_Purge. destruct (isLeader (es_lease es) m) eqn:Hl.
  - destruct (es_lease es) as [l|] eqn:Hel; [|done]. destruct Hk as [Hk1 Hk2].
    destruct (Hk2 l eq_refl) as (Hh & _ & Hag).
    assert ((∃ r, lease_at s = Some r ∧ lr_index r = Index l) ∨ ¬ current s (Index l)) as [(r & Hr & Hi)|Hc].
    { unfold current. destruct (lease_at s) as [r|]; [destruct (decide (lr_index r = Index l))|].
      - left; eauto.
      - right. intros (? & ? & ?). simplify_eq.
      - right. intros (? & ? & ?). done. }
    + right. destruct (Release_current s l Hwf Hh) as (_ & ? & ? & ? & ?); [by exists r|]. split_and!; try done.
      intros r' Hr'. assert (r' = r) as -> by congruence. by apply (describes_leads r l m); [apply Hag|].
    + left. split; [by apply Release_changed|]. intros r Hr Ho.
      destruct (Hk1 r Hr Ho) as (l' & [= <-] & _ & _ & _ & Hi). apply Hc. by exists r.
  - left. split; [|by eapply not_leader_not_owner]. destruct (es_lease es); by apply untouched_refl.
Qed.

Lemma inv_stop st m es :
  run_inv st → st.(engines) !! m = Some es → es.(es_busy) = None →
  run_inv (mkRun (engine_Purge m es.(es_lease) st.(world)) (delete m st.(engines))).
Proof.
  intros Hinv Hm Hb.
  assert (∀ x e, delete m (engines st) !! x = Some e ↔ m ≠ x ∧ engines st !! x = Some e) as Hdel
    by (intros; apply lookup_delete_Some).
  revert Hdel. generalize (delete m (engines st)) as rest. intros rest Hdel.
  assert (∀ s x, busy_of (mkRun s rest) x = busy_of st x) as Hbusy.
  { intros s x. unfold busy_of. cbn. destruct (rest !! x) as [e|] eqn:Hx.
    - apply Hdel in Hx as [_ ->]. done.
    - destruct (engines st !! x) as [e|] eqn:Hx'; [|done]. destruct (decide (m = x)) as [<-|Hne]; [by simplify_eq|].
      destruct (Hdel x e) as [_ H]. by rewrite H in Hx. }
  destruct (Purge_cases st m es Hinv Hm) as [[Hu Ho]|(Hwf & En & Hc & Ea & Ho)].
  - refine (inv_untouched (mkRun (world st) rest) _ _ Hu). destruct Hinv as [Hwf He Hown Hw].
    split; cbn; [done|..].
    + intros x e [_ Hx]%Hdel. by apply He.
    + intros r Hr. destruct (Hown r Hr) as [e He']. exists e. apply Hdel. split; [|done]. intros ->. by destruct (Ho r Hr).
    + by eapply win_ext.
  - split; cbn; [done|..].
    + intros x e [Hne Hx]%Hdel. destruct (inv_engines _ Hinv x e Hx) as [? [_ Hk]]. split; [done|].
      split; rewrite Ea; [done|]. intros l Hl. destruct (Hk l Hl) as (? & ? & _). split_and!; [done|lia|done].
    + by rewrite Ea.
    + rewrite En, Ea. eapply win_ext; [|apply Hbusy]. by eapply idle_owner_windows.
Qed.

Lemma inv_start st m :
  run_inv st → st.(engines) !! m = None → may_lead m →
  run_inv (mkRun st.(world) (<[m := mkEstate None None]> st.(engines))).
Proof.
  intros [Hwf He Ho Hw] Hm Hml. split; cbn; [done|..].
  - intros x e [[<- <-]|[Hne Hx]]%lookup_insert_Some; [|by apply He]. split; [done|].
    apply knows_nothing. intros r Hr <-. destruct (Ho r Hr). congruence.
  - intros r Hr. destruct (decide (lr_owner r = m)) as [->|]; [rewrite lookup_insert_eq; eauto|].
    rewrite lookup_insert_ne by done. by apply Ho.
  - eapply win_ext; [exact Hw|]. intros x. rewrite busy_of_insert. unfold set_window. cbn.
    destruct (decide (x = m)) as [->|]; [|done]. unfold busy_of. by rewrite Hm.
Qed.

Lemma inv_elapse st s :
  run_inv st → lease_wf s → (lease_now st.(world) ≤ lease_now s)%Z → (lease_clock st.(world) ≤ lease_clock s)%Z →
  lease_at s = (r ← lease_at st.(world); if expired (lease_now s) r then None else Some r) →
  run_inv (mkRun s st.(engines)).
Proof.
  intros [Hwf He Ho Hw] Hwf' Hn Hc Ea.
  assert (∀ r, lease_at s = Some r → lease_at (world st) = Some r) as Hsub.
  { intros r. rewrite Ea. destruct (lease_at (world st)) as [r0|]; cbn; [|done]. by destruct (expired _ _). }
  split; cbn; [done|..].
  - intros m es Hm. destruct (He m es Hm) as [? [Hk1 Hk2]]. split; [done|]. split; [eauto|].
    intros l Hl. destruct (Hk2 l Hl) as (? & ? & ?). split_and!; [done|lia|eauto].
  - eauto.
  - rewrite Ea. by apply (win_elapse (lease_now (world st))).
Qed.

Lemma inv_step st st' : run_inv st → eng_step st st' → run_inv st'.
Proof.
  intros Hinv Hs. destruct Hs as [m es Hm Hb Hr|m es a d Hm Hb Ha|m es Hm Hb|m Hm Ho Hp Ht|s Hu|s Hwf Hn Hc Ea].
  - by apply inv_turn.
  - destruct Hinv as [Hwf He Ho Hw]. split; cbn; [done|..].
    + intros x e [[<- <-]|[Hne Hx]]%lookup_insert_Some; [exact (He m es Hm)|by apply He].
    + intros r Hr. destruct (decide (lr_owner r = m)) as [->|]; [rewrite lookup_insert_eq; eauto|].
      rewrite lookup_insert_ne by done. by apply Ho.
    + eapply win_ext; [|intros x; apply busy_of_insert].
      eapply (win_finish _ _ _ m a d); [by eapply win_ext| |done]. unfold busy_of. cbn. by rewrite Hm.
  - by apply inv_stop.
  - by apply inv_start.
  - by apply inv_untouched.
  - by apply inv_elapse.
Qed.

Lemma run_reachable_inv st : run_reachable st → run_inv st.
Proof.
  intros (st0 & (Hwf & Ha & He) & Hs).
  assert (run_inv st0) as H0.
  { split; [done|..].
    - intros m es. by rewrite He.
    - by rewrite Ha.
    - apply win_dead. intros m a d [Hl _]. unfold busy_of in Hl. by rewrite He in Hl. }
  clear Hwf Ha He. induction Hs as [|x y z Hxy Hyz IH]; [done|]. apply IH. by eapply inv_step.
Qed.

(** Two engines that reconcile at the same time are the same engine. *)
Lemma reachable_exclusive st m m' :
  run_reachable st → reconciling st m → reconciling st m' → m = m'.
Proof.
  intros Hr%run_reachable_inv (es & a & d & Hm & Hb & Ha & Hd) (es' & a' & d' & Hm' & Hb' & Ha' & Hd').
  destruct (decide (m = m')) as [|Hne]; [done|].
  destruct (win_disjoint _ _ _ (inv_windows _ Hr) m a d m' a' d'); [..|done|lia|lia];
    (split; [unfold busy_of; by rewrite ?Hm, ?Hm'|done]).
Qed.

End exclusion.
