(* ===== verification/UnitManager.v ===== *)
(** * Package [unit]: the unit manager interface and its users

    [unit/manager.go] is an interface, [UnitManager]; [UnitManagerLaws] says
    what the agent relies on, in terms of the unit files the manager holds.
    [unit/fake.go] is an implementation; [unit/generator.go] reports the states
    of the subscribed units. *)

From stdpp Require Import base list gmap strings.
From S2P Require Import Prelude GoStrings Pkg UnitFile.

(** Every call may fail; the calls that only read leave the manager as it is. *)
Class UnitManager (U E : Type) := {
  um_Load : string → UnitFile → U → U * res E unit;
  um_Unload : string → U → U * res E unit;
  um_ReloadUnitFiles : U → U * res E unit;
  um_TriggerStart : string → U → U * res E unit;
  um_TriggerStop : string → U → U * res E unit;
  um_Units : moment → U → res E (list string);
  um_GetUnitStates : moment → unsafeSet → U → res E (gmap string UnitState);
  um_GetUnitState : string → U → res E (option UnitState)
}.

(** [um_files u] maps the name of each loaded unit to the hash of its file;
    [um_name] are the names that the manager can load units under; [um_started] are the
    units that the manager was last told to start, and not to stop.  A unit that is
    unloaded may leave its file behind, without a hash. *)
Class UnitManagerLaws `{Digest} {U E} (UM : UnitManager U E) := {
  um_files : U → gmap string string;
  um_name : string → Prop;
  um_files_name : ∀ n u, is_Some (um_files u !! n) → um_name n;
  um_Load_files : ∀ n f u, um_name n → is_ok (um_Load n f u).2 = true →
    um_files (um_Load n f u).1 = <[n := Hash_String (UnitFile_Hash f)]> (um_files u);
  um_Unload_files : ∀ n u, um_name n →
    um_files (um_Unload n u).1 = delete n (um_files u) ∨ um_files (um_Unload n u).1 = alter (λ _, "") n (um_files u);
  um_Reload_files : ∀ u, um_files (um_ReloadUnitFiles u).1 = um_files u;
  um_TriggerStart_files : ∀ n u, um_files (um_TriggerStart n u).1 = um_files u;
  um_TriggerStop_files : ∀ n u, um_files (um_TriggerStop n u).1 = um_files u;
  um_started : U → gset string;
  um_Load_started : ∀ n f u, um_started (um_Load n f u).1 = um_started u;
  um_Unload_started : ∀ n u, um_started (um_Unload n u).1 = um_started u;
  um_Reload_started : ∀ u, um_started (um_ReloadUnitFiles u).1 = um_started u;
  um_TriggerStart_started : ∀ n u, is_ok (um_TriggerStart n u).2 = true →
    um_started (um_TriggerStart n u).1 = {[n]} ∪ um_started u;
  um_TriggerStop_started : ∀ n u, is_ok (um_TriggerStop n u).2 = true →
    um_started (um_TriggerStop n u).1 = um_started u ∖ {[n]};
  um_Units_files : ∀ t u l, um_Units t u = Ok l → ∀ n, n ∈ l ↔ is_Some (um_files u !! n);
  um_GetUnitStates_files : ∀ t f u m, um_GetUnitStates t f u = Ok m → ∀ n,
    (n ∈ unsafeSet_members f → is_Some (um_files u !! n) → UnitHash <$> m !! n = um_files u !! n) ∧
    (n ∉ unsafeSet_members f → m !! n = None)
}.

(** ** [unit/fake.go] *)

Record FakeUnitManager := mkFakeUnitManager { fum_u : gmap string bool }.

Definition NewFakeUnitManager : FakeUnitManager := mkFakeUnitManager ∅.

Definition fum_Load (name : string) (u : UnitFile) (fum : FakeUnitManager)
  : FakeUnitManager * res string unit :=
  (mkFakeUnitManager (<[name := false]> fum.(fum_u)), Ok tt).

Definition fum_ReloadUnitFiles (fum : FakeUnitManager) : FakeUnitManager * res string unit := (fum, Ok tt).

Definition fum_Unload (name : string) (fum : FakeUnitManager) : FakeUnitManager * res string unit :=
  (mkFakeUnitManager (delete name fum.(fum_u)), Ok tt).

Definition fum_TriggerStart (name : string) (fum : FakeUnitManager) : FakeUnitManager * res string unit :=
  (fum, Ok tt).

Definition fum_TriggerStop (name : string) (fum : FakeUnitManager) : FakeUnitManager * res string unit :=
  (fum, Ok tt).

Definition fum_Units `{MapRange} (t : moment) (fum : FakeUnitManager) : res string (list string) :=
  Ok (range t fum.(fum_u)).*1.

Definition fum_GetUnitState (name : string) (fum : FakeUnitManager) : res string (option UnitState) :=
  match fum.(fum_u) !! name with
  | Some _ => Ok (Some (mkUnitState "loaded" "active" "running" "" "" ""))
  | None => Ok None
  end.

Definition fum_GetUnitStates `{MapRange} (t : moment) (filter : unsafeSet) (fum : FakeUnitManager)
  : res string (gmap string UnitState) :=
  Ok (foldl (λ states name,
        match fum.(fum_u) !! name with
        | Some _ => <[name := mkUnitState "loaded" "active" "running" "" "" name]> states
        | None => states
        end) ∅ (unsafeSet_Values t filter)).

#[export] Instance FakeUnitManager_UnitManager `{MapRange} : UnitManager FakeUnitManager string := {|
  um_Load := fum_Load; um_Unload := fum_Unload; um_ReloadUnitFiles := fum_ReloadUnitFiles;
  um_TriggerStart := fum_TriggerStart; um_TriggerStop := fum_TriggerStop; um_Units := fum_Units;
  um_GetUnitStates := fum_GetUnitStates; um_GetUnitState := fum_GetUnitState |}.

(** ** [unit/generator.go] *)

Record UnitStateHeartbeat := mkHeartbeat {
  HbName : string;
  HbState : option UnitState
}.

(** The manager [g.mgr] is shared with the agent: it is an argument of
    [Generate]. *)
Record UnitStateGenerator := mkGenerator {
  subscribed : tsafeSet;
  lastSubscribed : option tsafeSet
}.

Definition NewUnitStateGenerator : UnitStateGenerator := mkGenerator (NewThreadsafeSet []) None.

Definition Subscribe (name : string) (g : UnitStateGenerator) : UnitStateGenerator :=
  mkGenerator (tsafeSet_Add name g.(subscribed)) g.(lastSubscribed).

Definition Unsubscribe (name : string) (g : UnitStateGenerator) : UnitStateGenerator :=
  mkGenerator (tsafeSet_Remove name g.(subscribed)) g.(lastSubscribed).

Section generator.
Context `{MR : MapRange} {U E : Type} `{UM : !UnitManager U E}.

(** The heartbeats sent on the channel, in order. *)
Definition Generate (t : moment) (u : U) (g : UnitStateGenerator)
  : UnitStateGenerator * res E (list UnitStateHeartbeat) :=
  let last := tsafeSet_Copy (0 :: t) <$> g.(lastSubscribed) in
  let subs := tsafeSet_Copy (1 :: t) g.(subscribed) in
  let g := mkGenerator g.(subscribed) (Some subs) in
  match um_GetUnitStates (2 :: t) subs.(ts_us) u with
  | Err e => (g, Err e)
  | Ok reportable =>
      let beats := (λ '(name, us), mkHeartbeat name (Some us)) <$> range (3 :: t) reportable in
      let removed :=
        match last with
        | None => []
        | Some last => (λ name, mkHeartbeat name None) <$>
            tsafeSet_Values (4 :: t) (tsafeSet_Sub (5 :: t) last subs)
        end in
      (g, Ok (beats ++ removed))
  end.

(** The units known at the last call of [Generate]. *)
Definition last_known (g : UnitStateGenerator) : gset string :=
  match g.(lastSubscribed) with None => ∅ | Some s => members s end.

Lemma Generate_last t u g : last_known (Generate t u g).1 = members g.(subscribed).
Proof.
  unfold Generate, last_known. destruct (um_GetUnitStates _ _ _); cbn; apply members_Copy.
Qed.

Lemma Generate_spec t u g beats :
  (Generate t u g).2 = Ok beats →
  (∃ reportable, um_GetUnitStates (2 :: t) (tsafeSet_Copy (1 :: t) g.(subscribed)).(ts_us) u = Ok reportable ∧
    ∀ n us, mkHeartbeat n (Some us) ∈ beats ↔ reportable !! n = Some us) ∧
  (∀ n, mkHeartbeat n None ∈ beats ↔ n ∈ last_known g ∖ members g.(subscribed)) ∧
  NoDup beats.
Proof.
  unfold Generate. destruct (um_GetUnitStates _ _ _) as [rep|e] eqn:Er; [|done]. cbn. intros [= <-].
  set (removed := match _ with None => _ | Some _ => _ end).
  assert (∀ b, b ∈ removed ↔ ∃ n, b = mkHeartbeat n None ∧ n ∈ last_known g ∖ members g.(subscribed)) as Hrem.
  { intros b. unfold removed, last_known. destruct (lastSubscribed g) as [s|]; cbn.
    - rewrite list_elem_of_fmap. apply exist_proper. intros n. apply and_iff_compat_l.
      change (n ∈ Values (GoSet := tsafeSet_GoSet) (4 :: t) (tsafeSet_Sub (5 :: t) (tsafeSet_Copy (0 :: t) s)
        (tsafeSet_Copy (1 :: t) (subscribed g))) ↔ n ∈ members s ∖ members (subscribed g)).
      by rewrite Values_members, members_tsafe_Sub, !members_tsafe_Copy.
    - split; [by intros ?%elem_of_nil|]. intros (n & _ & Hn). set_solver. }
  assert (NoDup removed) as Hnd.
  { unfold removed. destruct (lastSubscribed g) as [s|]; cbn; [|constructor].
    apply NoDup_fmap_2; [intros ? ? [= ?]; done|]. apply range_NoDup_fst. }
  split_and!.
  - exists rep. split; [done|]. intros n us. rewrite elem_of_app, list_elem_of_fmap, Hrem. split.
    + intros [([n' us'] & [= -> ->] & Hin%elem_of_range)|(n' & [=] & _)]. done.
    + intros Hn. left. exists (n, us). split; [done|]. by apply elem_of_range.
  - intros n. rewrite elem_of_app, list_elem_of_fmap, Hrem. split.
    + intros [([n' us'] & [=] & _)|(n' & [= ->] & Hn)]. done.
    + intros Hn. right. eauto.
  - apply NoDup_app. split_and!; [|intros b|done].
    + apply NoDup_fmap_2_strong; [|apply (NoDup_fmap_1 fst), range_NoDup_fst].
      intros [] [] _ _ [= -> ->]. done.
    + rewrite list_elem_of_fmap, Hrem. intros ([n us] & -> & _) (n' & [=] & _).
Qed.

(** A successful [Generate] sends exactly one heartbeat with the state of
    each unit the manager reports on, and a heartbeat without a state, the sign
    of removal, for exactly the units that were subscribed at the previous call
    and no longer are. *)
Theorem Generate_beats t u g beats :
  (Generate t u g).2 = Ok beats →
  (∃ reportable, um_GetUnitStates (2 :: t) (tsafeSet_Copy (1 :: t) g.(subscribed)).(ts_us) u = Ok reportable ∧
    ∀ n us, mkHeartbeat n (Some us) ∈ beats ↔ reportable !! n = Some us) ∧
  (∀ n, mkHeartbeat n None ∈ beats ↔ n ∈ last_known g ∖ members g.(subscribed)) ∧
  NoDup beats.
Proof. apply Generate_spec. Qed.

(** When the manager cannot report, [Generate] has already replaced the
    record of the previous subscription: a unit unsubscribed since the last call
    gets no removal heartbeat, then or at any later call while it stays
    unsubscribed. *)
Theorem Generate_error_loses_removal t t' u u' g e beats n :
  (Generate t u g).2 = Err e → n ∉ members g.(subscribed) →
  (Generate t' u' (Generate t u g).1).2 = Ok beats → mkHeartbeat n None ∉ beats.
Proof.
  intros _ Hn H. apply Generate_spec in H as (_ & H & _). rewrite H, Generate_last. set_solver.
Qed.
End generator.

(** ** Witnesses *)

(** A generator that reported on two units, one of which was unsubscribed since. *)
Definition ex_generator : UnitStateGenerator :=
  Unsubscribe "a.service" (mkGenerator (NewThreadsafeSet ["a.service"; "b.service"])
    (Some (NewThreadsafeSet ["a.service"; "b.service"]))).

Lemma Generate_beats_witness :
  mkHeartbeat "a.service" None ∈
    [mkHeartbeat "b.service" (Some (mkUnitState "loaded" "active" "running" "" "" "b.service"));
     mkHeartbeat "a.service" None].
Proof.
  refine (proj2 (proj1 (proj2 (Generate_beats (MR := canonical_range)
    (UM := FakeUnitManager_UnitManager (H := canonical_range)) [] (mkFakeUnitManager {["b.service" := false]}) ex_generator _ _)) _) _).
  - vm_compute. reflexivity.
  - apply (bool_decide_eq_true_1 _). vm_compute. reflexivity.
Defined.

(** A manager whose calls fail in the state [true]. *)
Definition flaky_manager : UnitManager bool string := {|
  um_Load _ _ u := (u, Ok tt); um_Unload _ u := (u, Ok tt); um_ReloadUnitFiles u := (u, Ok tt);
  um_TriggerStart _ u := (u, Ok tt); um_TriggerStop _ u := (u, Ok tt); um_Units _ _ := Ok [];
  um_GetUnitStates _ _ (u : bool) := if u then Err "dbus" else Ok ∅; um_GetUnitState _ _ := Ok None |}.

Lemma Generate_error_loses_removal_witness :
  (Generate (MR := canonical_range) (UM := flaky_manager) [] false ex_generator).2 =
    Ok [mkHeartbeat "a.service" None] ∧
  mkHeartbeat "a.service" None ∉ ([] : list UnitStateHeartbeat).
Proof.
  split; [vm_compute; reflexivity|].
  apply (Generate_error_loses_removal (MR := canonical_range) (UM := flaky_manager) [] [] true false
    ex_generator "dbus").
  - vm_compute. reflexivity.
  - apply (bool_decide_eq_true_1 _). vm_compute. reflexivity.
  - vm_compute. reflexivity.
Defined.
