(* ===== verification/Agent.v ===== *)
(** * Package [agent]: the agent and its tasks

    [agent/cache.go], [agent/agent.go] and [agent/task.go].  The agent keeps a
    cache of target states, drives a unit manager and a generator of unit
    states, and tells the registry which units it runs.  The unit manager and
    the registry are interfaces. *)

From stdpp Require Import base list gmap strings.
From Stdlib Require Import ZArith.
From S2P Require Import Prelude GoStrings Pkg UnitFile Job Machine AgentState UnitManager.

Class AgentRegistry (Rg E : Type) := {
  ar_Units : Rg → res E (list Unit);
  ar_Schedule : Rg → res E (list ScheduledUnit);
  ar_MachineState : string → Rg → res E MachineState;
  ar_UnitHeartbeat : string → string → Z → Rg → Rg * res E unit;
  ar_ClearUnitHeartbeat : string → Rg → Rg
}.

(** ** [agent/cache.go] *)

Abbreviation agentCache := (gmap string JobState).

Definition setTargetState (jobName : string) (state : JobState) (ac : agentCache) : agentCache :=
  <[jobName := state]> ac.

Definition dropTargetState (jobName : string) (ac : agentCache) : agentCache := delete jobName ac.

Section cache.
Context `{MR : MapRange}.

Definition launchedJobs (t : moment) (ac : agentCache) : list string :=
  (filter (λ '(_, ts), ts = JobStateLaunched) (range t ac)).*1.

Definition loadedJobs (t : moment) (ac : agentCache) : list string :=
  (filter (λ '(_, ts), ts = JobStateLoaded) (range t ac)).*1.

Lemma elem_of_launchedJobs t ac n : n ∈ launchedJobs t ac ↔ ac !! n = Some JobStateLaunched.
Proof.
  unfold launchedJobs. rewrite list_elem_of_fmap. split.
  - intros ([n' ts] & -> & [-> Hin]%list_elem_of_filter). by apply elem_of_range in Hin.
  - intros Hn. exists (n, JobStateLaunched). split; [done|]. apply list_elem_of_filter.
    split; [done|]. by apply elem_of_range.
Qed.

Lemma elem_of_loadedJobs t ac n : n ∈ loadedJobs t ac ↔ ac !! n = Some JobStateLoaded.
Proof.
  unfold loadedJobs. rewrite list_elem_of_fmap. split.
  - intros ([n' ts] & -> & [-> Hin]%list_elem_of_filter). by apply elem_of_range in Hin.
  - intros Hn. exists (n, JobStateLoaded). split; [done|]. apply list_elem_of_filter.
    split; [done|]. by apply elem_of_range.
Qed.
End cache.

(** ** [agent/agent.go] *)

Record Agent (U Rg : Type) := mkAgent {
  a_registry : Rg;
  a_um : U;
  a_uGen : UnitStateGenerator;
  a_Machine : MachineState;
  a_ttl : Z;
  a_cache : agentCache
}.
Arguments mkAgent {U Rg} _ _ _ _ _ _.
Arguments a_registry {U Rg} _.
Arguments a_um {U Rg} _.
Arguments a_uGen {U Rg} _.
Arguments a_Machine {U Rg} _.
Arguments a_ttl {U Rg} _.
Arguments a_cache {U Rg} _.

Record unitState := mkUnitStateOf { us_state : JobState; us_hash : string }.
Abbreviation unitStates := (gmap string unitState).

#[export] Instance unitState_eq_dec : EqDecision unitState.
Proof. solve_decision. Defined.

Definition taskTypeLoadUnit : string := "LoadUnit".
Definition taskTypeUnloadUnit : string := "UnloadUnit".
Definition taskTypeStartUnit : string := "StartUnit".
Definition taskTypeStopUnit : string := "StopUnit".
Definition taskTypeReloadUnitFiles : string := "ReloadUnitFiles".

Definition taskReasonScheduledButNotRunnable : string := "unit scheduled locally but unable to run".
Definition taskReasonScheduledButUnloaded : string := "unit scheduled here but not loaded".
Definition taskReasonLoadedButNotScheduled : string := "unit loaded but not scheduled here".
Definition taskReasonLoadedButHashDiffers : string := "unit loaded but hash differs to expected".
Definition taskReasonLoadedDesiredStateLaunched : string := "unit currently loaded but desired state is launched".
Definition taskReasonLaunchedDesiredStateLoaded : string := "unit currently launched but desired state is loaded".
Definition taskReasonPurgingAgent : string := "purging agent".
Definition taskReasonAlwaysReloadUnitFiles : string := "always reload unit files".

Record agent_task := mkAgentTask {
  ATtyp : string;
  ATreason : string;
  ATunit : option Unit
}.

(** What a task ends with, beside success: an error of the unit manager, an
    unknown task type, or a nil unit that is dereferenced (a panic). *)
Inductive agent_error (E : Type) :=
| ManagerError (e : E)
| UnrecognizedAgentTask (typ : string)
| NilUnit.
Arguments ManagerError {E} e.
Arguments UnrecognizedAgentTask {E} typ.
Arguments NilUnit {E}.

Definition lift_um {E A} (r : res E A) : res (agent_error E) A :=
  match r with Ok a => Ok a | Err e => Err (ManagerError e) end.

(** ** [agent/task.go]: the order of tasks *)

Definition taskTypeSortOrder : gmap string nat :=
  list_to_map [(taskTypeUnloadUnit, 1); (taskTypeLoadUnit, 2); (taskTypeReloadUnitFiles, 3);
               (taskTypeStopUnit, 4); (taskTypeStartUnit, 5)].

Definition task_phase (tk : agent_task) : nat := default 0 (taskTypeSortOrder !! tk.(ATtyp)).

Definition sortableTasks_Less (a b : agent_task) : bool := bool_decide (task_phase a < task_phase b).

Record taskResult (E : Type) := mkTaskResult {
  tr_task : agent_task;
  tr_err : option (agent_error E)
}.
Arguments mkTaskResult {E} _ _.
Arguments tr_task {E} _.
Arguments tr_err {E} _.

Section agent.
#[local] Open Scope go_scope.
Context `{MR : MapRange} {U Eu Rg Er : Type} `{UM : !UnitManager U Eu, AR : !AgentRegistry Rg Er}.
Implicit Type a : Agent U Rg.

Definition agent_New (mgr : U) (uGen : UnitStateGenerator) (reg : Rg) (mach : MachineState) (ttl : Z) : Agent U Rg :=
  mkAgent reg mgr uGen mach ttl ∅.

Definition with_um (r : U * res Eu unit) a : Agent U Rg * res Eu unit :=
  (mkAgent a.(a_registry) r.1 a.(a_uGen) a.(a_Machine) a.(a_ttl) a.(a_cache), r.2).

Definition with_cache (f : agentCache → agentCache) a : Agent U Rg :=
  mkAgent a.(a_registry) a.(a_um) a.(a_uGen) a.(a_Machine) a.(a_ttl) (f a.(a_cache)).

Definition with_gen (f : UnitStateGenerator → UnitStateGenerator) a : Agent U Rg :=
  mkAgent a.(a_registry) a.(a_um) (f a.(a_uGen)) a.(a_Machine) a.(a_ttl) a.(a_cache).

Definition with_registry (f : Rg → Rg) a : Agent U Rg :=
  mkAgent (f a.(a_registry)) a.(a_um) a.(a_uGen) a.(a_Machine) a.(a_ttl) a.(a_cache).

(** One beat of [heartbeatJobs]: the launched units are acknowledged. *)
Definition heartbeat (t : moment) a : Agent U Rg :=
  let machID := a.(a_Machine).(ID) in
  with_registry (λ r, foldl (λ r j, (ar_UnitHeartbeat j machID a.(a_ttl) r).1) r
    (launchedJobs t a.(a_cache))) a.

(** The period of the heartbeat, in nanoseconds. *)
Definition heartbeat_interval (ttl : Z) : Z :=
  if bool_decide (10 * 1000000000 < ttl)%Z then Z.quot (int64_wrap (ttl * 4)) 5 else Z.quot ttl 2.

Definition reloadUnitFiles a : Agent U Rg * res Eu unit := with_um (um_ReloadUnitFiles a.(a_um)) a.

Definition loadUnit (u : Unit) a : Agent U Rg * res Eu unit :=
  let a := with_cache (setTargetState u.(UName) JobStateLoaded) a in
  let a := with_gen (Subscribe u.(UName)) a in
  with_um (um_Load u.(UName) u.(UUnit) a.(a_um)) a.

(** A unit that cannot be stopped is not unloaded, and no error is returned. *)
Definition unloadUnit (unitName : string) a : Agent U Rg * res Eu unit :=
  let a := with_registry (ar_ClearUnitHeartbeat unitName) a in
  let a := with_cache (dropTargetState unitName) a in
  let '(a, errStop) := with_um (um_TriggerStop unitName a.(a_um)) a in
  let a := with_gen (Unsubscribe unitName) a in
  match errStop with
  | Ok _ => with_um (um_Unload unitName a.(a_um)) a
  | Err _ => (a, Ok tt)
  end.

Definition startUnit (unitName : string) a : Agent U Rg * res Eu unit :=
  let a := with_cache (setTargetState unitName JobStateLaunched) a in
  let machID := a.(a_Machine).(ID) in
  let a := with_registry (λ r, (ar_UnitHeartbeat unitName machID a.(a_ttl) r).1) a in
  with_um (um_TriggerStart unitName a.(a_um)) a.

Definition stopUnit (unitName : string) a : Agent U Rg * res Eu unit :=
  let a := with_cache (setTargetState unitName JobStateLoaded) a in
  let a := with_registry (ar_ClearUnitHeartbeat unitName) a in
  with_um (um_TriggerStop unitName a.(a_um)) a.

(** The state of one unit, from the two sets built from the cache. *)
Definition state_of_unit (loaded launched : unsafeSet) (uName : string) : JobState :=
  if unsafeSet_Contains uName loaded then JobStateLoaded
  else if unsafeSet_Contains uName launched then JobStateLaunched
  else JobStateInactive.

Definition agent_units (t : moment) a : res Eu unitStates :=
  let launched := foldl (λ s j, unsafeSet_Add j s) (NewUnsafeSet []) (launchedJobs (0 :: t) a.(a_cache)) in
  let loaded := foldl (λ s j, unsafeSet_Add j s) (NewUnsafeSet []) (loadedJobs (1 :: t) a.(a_cache)) in
  let* names := um_Units (2 :: t) a.(a_um) in
  let filter := foldl (λ s u, unsafeSet_Add u s) (NewUnsafeSet []) names in
  let* uStates := um_GetUnitStates (3 :: t) filter a.(a_um) in
  Ok (foldl (λ states '(uName, uState),
        <[uName := mkUnitStateOf (state_of_unit loaded launched uName) uState.(UnitHash)]> states)
      ∅ (range (4 :: t) uStates)).

(** ** [agent/task.go]: doing tasks *)

Definition mapTaskToFunc (tk : agent_task) (a : Agent U Rg) : Agent U Rg * res (agent_error Eu) unit :=
  let on_unit (f : Unit → Agent U Rg → Agent U Rg * res Eu unit) :=
    match tk.(ATunit) with
    | None => (a, Err NilUnit)
    | Some u => let '(a, r) := f u a in (a, lift_um r)
    end in
  if bool_decide (tk.(ATtyp) = taskTypeLoadUnit) then on_unit loadUnit
  else if bool_decide (tk.(ATtyp) = taskTypeUnloadUnit) then on_unit (λ u, unloadUnit u.(UName))
  else if bool_decide (tk.(ATtyp) = taskTypeStartUnit) then on_unit (λ u, startUnit u.(UName))
  else if bool_decide (tk.(ATtyp) = taskTypeStopUnit) then on_unit (λ u, stopUnit u.(UName))
  else if bool_decide (tk.(ATtyp) = taskTypeReloadUnitFiles) then
    let '(a, r) := reloadUnitFiles a in (a, lift_um r)
  else (a, Err (UnrecognizedAgentTask tk.(ATtyp))).

(** The tasks are done in order, up to the first one that fails. *)
Fixpoint taskManager_Do (tasks : list agent_task) (a : Agent U Rg) : Agent U Rg * list (taskResult Eu) :=
  match tasks with
  | [] => (a, [])
  | tk :: tasks =>
      match mapTaskToFunc tk a with
      | (a, Ok _) => let '(a, results) := taskManager_Do tasks a in (a, mkTaskResult tk None :: results)
      | (a, Err e) => (a, [mkTaskResult tk (Some e)])
      end
  end.

(** ** Specification *)

(** A task that [mapTaskToFunc] can attempt. *)
Definition proper_task (tk : agent_task) : Prop :=
  tk.(ATtyp) = taskTypeReloadUnitFiles ∨
  (is_Some tk.(ATunit) ∧
   tk.(ATtyp) ∈ [taskTypeLoadUnit; taskTypeUnloadUnit; taskTypeStartUnit; taskTypeStopUnit]).

Context `{DG : Digest, UL : !UnitManagerLaws UM}.

(** The calls of the unit manager succeed, and files can be removed. *)
Record um_reliable : Prop := {
  rel_Load : ∀ n f u, is_ok (um_Load n f u).2 = true;
  rel_Unload : ∀ n u, is_ok (um_Unload n u).2 = true;
  rel_Unload_gone : ∀ n u, um_files (um_Unload n u).1 !! n = None;
  rel_Reload : ∀ u, is_ok (um_ReloadUnitFiles u).2 = true;
  rel_Start : ∀ n u, is_ok (um_TriggerStart n u).2 = true;
  rel_Stop : ∀ n u, is_ok (um_TriggerStop n u).2 = true;
  rel_Units : ∀ t u, is_ok (um_Units t u) = true;
  rel_States : ∀ t f u, is_ok (um_GetUnitStates t f u) = true
}.

Lemma rel_Unload_files n u : um_reliable → um_name n → um_files (um_Unload n u).1 = delete n (um_files u).
Proof.
  intros Hr Hn. destruct (um_Unload_files n u Hn) as [E|E]; [done|]. pose proof (rel_Unload_gone Hr n u) as Hg.
  rewrite E in *. rewrite lookup_alter_eq in Hg. apply map_eq. intros n'. destruct (decide (n' = n)) as [->|Hne].
  - by rewrite lookup_alter_eq, Hg, lookup_delete_eq.
  - by rewrite lookup_alter_ne, lookup_delete_ne by done.
Qed.


(** What the cache says of a unit that is loaded. *)
Definition cache_state (ac : agentCache) (n : string) : JobState :=
  match ac !! n with
  | Some s => if decide (s = JobStateLoaded) then JobStateLoaded
              else if decide (s = JobStateLaunched) then JobStateLaunched else JobStateInactive
  | None => JobStateInactive
  end.

(** The current state of the agent: the loaded units, with the states of the
    cache and the hashes of the manager. *)
Definition current a : unitStates :=
  map_imap (λ n h, Some (mkUnitStateOf (cache_state a.(a_cache) n) h)) (um_files a.(a_um)).

Lemma current_lookup a n :
  current a !! n = mkUnitStateOf (cache_state a.(a_cache) n) <$> um_files a.(a_um) !! n.
Proof. unfold current. rewrite map_lookup_imap. by destruct (um_files _ !! n). Qed.

Lemma state_of_unit_cache t t' (ac : agentCache) n :
  state_of_unit (foldl (λ s j, unsafeSet_Add j s) (NewUnsafeSet []) (loadedJobs t ac))
    (foldl (λ s j, unsafeSet_Add j s) (NewUnsafeSet []) (launchedJobs t' ac)) n = cache_state ac n.
Proof.
  unfold state_of_unit, cache_state.
  assert (∀ l, unsafeSet_Contains n (foldl (λ s j, unsafeSet_Add j s) (NewUnsafeSet []) l) =
    bool_decide (n ∈ l)) as Hc.
  { intros l. apply eq_true_iff_eq. rewrite Contains_members, members_foldl_Add, members_New, bool_decide_eq_true.
    set_solver. }
  rewrite !Hc. rewrite (bool_decide_ext _ _ (elem_of_loadedJobs t ac n)),
    (bool_decide_ext _ _ (elem_of_launchedJobs t' ac n)).
  destruct (ac !! n) as [s|]; repeat case_bool_decide; repeat case_decide; naive_solver.
Qed.

Lemma foldl_insert_imap {A B} (f : string → A → B) (l : list (string * A)) (m : gmap string B) n :
  NoDup l.*1 →
  foldl (λ m '(k, v), <[k := f k v]> m) m l !! n =
  match (list_to_map l : gmap string A) !! n with Some v => Some (f n v) | None => m !! n end.
Proof.
  revert m. induction l as [|[k v] l IH]; intros m; cbn; [done|].
  intros [Hk Hnd]%NoDup_cons. rewrite IH by done. destruct (decide (k = n)) as [->|Hne].
  - rewrite !lookup_insert_eq. by rewrite (not_elem_of_list_to_map_1 (M := gmap string)).
  - by rewrite !lookup_insert_ne.
Qed.

Lemma list_to_map_range {A} t (m : gmap string A) : list_to_map (range t m) = m.
Proof.
  apply map_eq. intros k. apply option_eq. intros v. rewrite <- elem_of_list_to_map by apply range_NoDup_fst.
  apply elem_of_range.
Qed.

(** [units] reports the current state. *)
Lemma agent_units_current t a m : agent_units t a = Ok m → m = current a.
Proof.
  unfold agent_units. destruct (um_Units (2 :: t) (a_um a)) as [names|] eqn:En; [|done]. cbn [res_bind].
  set (f := foldl _ _ names). destruct (um_GetUnitStates (3 :: t) f (a_um a)) as [us|] eqn:Es; [|done].
  cbn [res_bind]. intros [= <-]. apply map_eq. intros n. rewrite current_lookup.
  rewrite (foldl_insert_imap (λ uName uState, mkUnitStateOf (state_of_unit _ _ uName) (UnitHash uState)))
    by apply range_NoDup_fst.
  rewrite list_to_map_range, lookup_empty. pose proof (um_GetUnitStates_files _ _ _ _ Es n) as Hh.
  assert (n ∈ unsafeSet_members f ↔ is_Some (um_files (a_um a) !! n)) as Hf.
  { unfold f. rewrite members_foldl_Add, members_New, <- (um_Units_files _ _ _ En n). set_solver. }
  rewrite (state_of_unit_cache (1 :: t) (0 :: t)). destruct (decide (n ∈ unsafeSet_members f)) as [Hd|Hd].
  - rewrite <- (proj1 Hh Hd (proj1 Hf Hd)). by destruct (us !! n).
  - rewrite (proj2 Hh Hd). destruct (um_files (a_um a) !! n) eqn:E; [|done]. destruct Hd. apply Hf. by eexists.
Qed.

Lemma agent_units_ok t a : um_reliable → agent_units t a = Ok (current a).
Proof.
  intros Hr. destruct (agent_units t a) as [m|e] eqn:E; [by rewrite (agent_units_current _ _ _ E)|].
  exfalso. unfold agent_units in E. pose proof (rel_Units Hr (2 :: t) (a_um a)) as H1.
  destruct (um_Units (2 :: t) (a_um a)) as [l|]; [|done]. cbn [res_bind] in E.
  pose proof (rel_States Hr (3 :: t) (foldl (λ s u, unsafeSet_Add u s) (NewUnsafeSet []) l) (a_um a)) as H2.
  by destruct (um_GetUnitStates _ _ _).
Qed.

(** What a task does to the current state. *)
Definition set_state (s : JobState) (us : unitState) : unitState := mkUnitStateOf s us.(us_hash).

Definition unit_effect (typ : string) (u : Unit) (o : option unitState) : option unitState :=
  if decide (typ = taskTypeLoadUnit) then
    Some (mkUnitStateOf JobStateLoaded (Hash_String (UnitFile_Hash u.(UUnit))))
  else if decide (typ = taskTypeUnloadUnit) then None
  else if decide (typ = taskTypeStartUnit) then set_state JobStateLaunched <$> o
  else if decide (typ = taskTypeStopUnit) then set_state JobStateLoaded <$> o
  else o.

Definition task_effect (tk : agent_task) (n : string) (o : option unitState) : option unitState :=
  match tk.(ATunit) with
  | Some u => if decide (u.(UName) = n) then unit_effect tk.(ATtyp) u o else o
  | None => o
  end.

(** And to what the manager was told to run. *)
Definition task_starts (tk : agent_task) (n : string) (b : bool) : bool :=
  match tk.(ATunit) with
  | Some u =>
      if decide (u.(UName) = n) then
        if decide (tk.(ATtyp) = taskTypeStartUnit) then true
        else if decide (tk.(ATtyp) = taskTypeUnloadUnit ∨ tk.(ATtyp) = taskTypeStopUnit) then false else b
      else b
  | None => b
  end.

Definition started a (n : string) : bool := bool_decide (n ∈ um_started a.(a_um)).

Lemma cache_state_set ac n s :
  s = JobStateLoaded ∨ s = JobStateLaunched → cache_state (setTargetState n s ac) n = s.
Proof.
  intros Hs. unfold cache_state, setTargetState. rewrite lookup_insert_eq.
  destruct Hs as [-> | ->]; [done|]. rewrite decide_False by done. done.
Qed.

Lemma cache_state_set_ne ac n n' s : n ≠ n' → cache_state (setTargetState n s ac) n' = cache_state ac n'.
Proof. intros Hn. unfold cache_state, setTargetState. by rewrite lookup_insert_ne. Qed.

Lemma cache_state_drop_ne ac n n' : n ≠ n' → cache_state (dropTargetState n ac) n' = cache_state ac n'.
Proof. intros Hn. unfold cache_state, dropTargetState. by rewrite lookup_delete_ne. Qed.

(** *** The effect of each operation, when the manager's call succeeds *)

Lemma loadUnit_current u a n :
  um_reliable → um_name u.(UName) →
  is_ok (loadUnit u a).2 = true ∧
  (current (loadUnit u a).1 !! n =
    if decide (UName u = n) then Some (mkUnitStateOf JobStateLoaded (Hash_String (UnitFile_Hash (UUnit u))))
    else current a !! n) ∧
  started (loadUnit u a).1 n = started a n.
Proof.
  intros Hr Hname. unfold loadUnit, started. cbn [with_um with_gen with_cache a_um fst snd]. rewrite um_Load_started. split; [apply Hr|split; [|done]].
  rewrite !current_lookup. cbn [with_um with_gen with_registry with_cache a_cache a_um]. rewrite um_Load_files by (done || apply Hr). case_decide as Hn.
  - subst n. rewrite lookup_insert_eq. cbn. by rewrite cache_state_set by auto.
  - by rewrite lookup_insert_ne, cache_state_set_ne by done.
Qed.

Lemma unloadUnit_current m a n :
  um_reliable → um_name m →
  is_ok (unloadUnit m a).2 = true ∧
  current (unloadUnit m a).1 !! n = (if decide (m = n) then None else current a !! n) ∧
  started (unloadUnit m a).1 n = (if decide (m = n) then false else started a n).
Proof.
  intros Hr Hname. unfold unloadUnit, started. cbn [with_um with_registry with_cache a_um fst snd].
  pose proof (rel_Stop Hr m (a_um a)) as Hs. pose proof (um_TriggerStop_files m (a_um a)) as Hf.
  pose proof (um_TriggerStop_started m (a_um a) Hs) as Hst.
  destruct (um_TriggerStop m (a_um a)) as [u' [[]|e]]; [|done]. cbn in Hf, Hst.
  cbn [with_um with_gen a_um fst snd]. split; [apply Hr|split].
  2: { rewrite um_Unload_started. cbn [with_um with_gen with_registry with_cache a_um]. rewrite Hst. by case_decide; repeat case_bool_decide; set_solver. }
  rewrite !current_lookup. cbn [with_um with_gen with_registry with_cache a_cache a_um]. rewrite rel_Unload_files by done. rewrite Hf. case_decide as Hn.
  - subst n. by rewrite lookup_delete_eq.
  - by rewrite lookup_delete_ne, cache_state_drop_ne by done.
Qed.

Lemma startUnit_current m a n :
  um_reliable →
  is_ok (startUnit m a).2 = true ∧
  current (startUnit m a).1 !! n =
    (if decide (m = n) then set_state JobStateLaunched <$> current a !! n else current a !! n) ∧
  started (startUnit m a).1 n = (if decide (m = n) then true else started a n).
Proof.
  intros Hr. unfold startUnit, started. cbn [with_um with_registry with_cache a_um fst snd]. split; [apply Hr|split].
  2: { rewrite um_TriggerStart_started by apply Hr. by case_decide; repeat case_bool_decide; set_solver. }
  rewrite !current_lookup. cbn [with_um with_gen with_registry with_cache a_cache a_um]. rewrite um_TriggerStart_files. case_decide as Hn.
  - subst n. rewrite cache_state_set by auto. by destruct (um_files _ !! m).
  - by rewrite cache_state_set_ne by done.
Qed.

Lemma stopUnit_current m a n :
  um_reliable →
  is_ok (stopUnit m a).2 = true ∧
  current (stopUnit m a).1 !! n =
    (if decide (m = n) then set_state JobStateLoaded <$> current a !! n else current a !! n) ∧
  started (stopUnit m a).1 n = (if decide (m = n) then false else started a n).
Proof.
  intros Hr. unfold stopUnit, started. cbn [with_um with_registry with_cache a_um fst snd]. split; [apply Hr|split].
  2: { rewrite um_TriggerStop_started by apply Hr. by case_decide; repeat case_bool_decide; set_solver. }
  rewrite !current_lookup. cbn [with_um with_gen with_registry with_cache a_cache a_um]. rewrite um_TriggerStop_files. case_decide as Hn.
  - subst n. rewrite cache_state_set by auto. by destruct (um_files _ !! m).
  - by rewrite cache_state_set_ne by done.
Qed.

(** The unit of the task can be loaded. *)
Definition loadable_task (tk : agent_task) : Prop := ∀ u, tk.(ATunit) = Some u → um_name u.(UName).

Lemma mapTaskToFunc_effect tk a n :
  um_reliable → proper_task tk → loadable_task tk →
  is_ok (mapTaskToFunc tk a).2 = true ∧
  current (mapTaskToFunc tk a).1 !! n = task_effect tk n (current a !! n) ∧
  started (mapTaskToFunc tk a).1 n = task_starts tk n (started a n).
Proof.
  intros Hr Hp Hname. unfold mapTaskToFunc, task_effect, unit_effect, task_starts.
  destruct Hp as [Ht|[[u Hu] Ht]].
  - rewrite Ht. repeat (rewrite bool_decide_eq_false_2 by done). rewrite bool_decide_eq_true_2 by done.
    unfold reloadUnitFiles. pose proof (rel_Reload Hr (a_um a)) as Ho.
    pose proof (um_Reload_files (a_um a)) as Hf. pose proof (um_Reload_started (a_um a)) as Hst. unfold with_um, started.
    destruct (um_ReloadUnitFiles (a_um a)) as [u' [[]|e]]; [|done]. cbn in *. split; [done|].
    rewrite !current_lookup. cbn. rewrite Hf, Hst. destruct (ATunit tk) as [u|]; [|done].
    by destruct (decide (UName u = n)).
  - rewrite Hu.
    repeat (apply elem_of_cons in Ht as [Ht|Ht]); [| | | |by apply elem_of_nil in Ht]; rewrite Ht;
      repeat (rewrite bool_decide_eq_false_2 by done); rewrite bool_decide_eq_true_2 by done.
    + destruct (loadUnit_current u a n Hr (Hname u Hu)) as (Ho & Hc & Hst). destruct (loadUnit u a) as [a' [[]|]]; [|done].
      cbn in *. rewrite Hc, Hst. by destruct (decide (UName u = n)).
    + destruct (unloadUnit_current (UName u) a n Hr (Hname u Hu)) as (Ho & Hc & Hst).
      destruct (unloadUnit (UName u) a) as [a' [[]|]]; [|done]. cbn in *. rewrite Hc, Hst. by destruct (decide (UName u = n)).
    + destruct (startUnit_current (UName u) a n Hr) as (Ho & Hc & Hst).
      destruct (startUnit (UName u) a) as [a' [[]|]]; [|done]. cbn in *. rewrite Hc, Hst. by destruct (decide (UName u = n)).
    + destruct (stopUnit_current (UName u) a n Hr) as (Ho & Hc & Hst).
      destruct (stopUnit (UName u) a) as [a' [[]|]]; [|done]. cbn in *. rewrite Hc, Hst. by destruct (decide (UName u = n)).
Qed.

(** Doing proper tasks applies their effects in order, and none fails. *)
Lemma Do_effect tasks a n :
  um_reliable → Forall proper_task tasks → Forall loadable_task tasks →
  (taskManager_Do tasks a).2 = (λ tk, mkTaskResult tk None) <$> tasks ∧
  current (taskManager_Do tasks a).1 !! n = foldl (λ o tk, task_effect tk n o) (current a !! n) tasks ∧
  started (taskManager_Do tasks a).1 n = foldl (λ b tk, task_starts tk n b) (started a n) tasks.
Proof.
  intros Hr Hp Hl. revert a. induction Hp as [|tk tasks Htk _ IH]; intros a; cbn; [done|].
  apply Forall_cons in Hl as [Hltk Hl]. specialize (IH Hl).
  destruct (mapTaskToFunc_effect tk a n Hr Htk Hltk) as (Ho & Hc & Hst).
  destruct (mapTaskToFunc tk a) as [a' [[]|e]]; [|done]. cbn in *.
  destruct (IH a') as (IH1 & IH2 & IH3). destruct (taskManager_Do tasks a') as [a'' rs]. cbn in *.
  by rewrite IH1, IH2, IH3, Hc, Hst.
Qed.

(** [Do] attempts the tasks in order and stops at the first failure: the
    results are those of a prefix of the tasks, every one before the last
    succeeded, and a task is left out only when the last result is an error. *)
Theorem Do_halts tasks a :
  let results := (taskManager_Do tasks a).2 in
  (∃ rest, tasks = (tr_task <$> results) ++ rest ∧
    (rest ≠ [] → ∃ rs tk e, results = rs ++ [mkTaskResult tk (Some e)])) ∧
  (∀ rs r, results = rs ++ [r] → Forall (λ r, tr_err r = None) rs).
Proof.
  cbn. revert a. induction tasks as [|tk tasks IH]; intros a; cbn.
  { split; [by exists []|]. by intros [] ? [=]. }
  destruct (mapTaskToFunc tk a) as [a' [[]|e]].
  - destruct (IH a') as [(rest & Hrest & Hlast) Hall].
    destruct (taskManager_Do tasks a') as [a'' rs]. cbn in *. split.
    + exists rest. split; [by f_equal|]. intros Hne. destruct (Hlast Hne) as (rs' & tk' & e & ->).
      by exists (mkTaskResult tk None :: rs'), tk', e.
    + intros [|r0 rs0] r [= <- E]; [constructor|]. constructor; [done|]. by eapply Hall.
  - cbn. split.
    + exists tasks. split; [done|]. intros _. by exists [], tk, e.
    + intros [|r0 [|]] r [=]; subst; constructor.
Qed.

End agent.
