(* ===== verification/AgentReconcile.v ===== *)
(** * [agent/reconcile.go]: driving the agent to its desired state *)

From stdpp Require Import base list gmap strings sorting.
From S2P Require Import Prelude GoStrings Pkg UnitFile Job Machine AgentState Cluster UnitManager Agent.

Section reconcile.
#[local] Open Scope go_scope.
Context `{MR : MapRange, GS : GoSort, DG : Digest}.
Context {U Eu Rg Er : Type} `{UM : !UnitManager U Eu, AR : !AgentRegistry Rg Er}.
Implicit Type a : Agent U Rg.

(** ** The desired state *)

(** The tests on one unit of the registry: [true] when the unit is skipped. *)
Definition skip_unit (t : moment) (ms : MachineState) (sched : gmap string ScheduledUnit)
    (agent : AgentState) (u : Unit) : bool :=
  let md := Unit_RequiredTargetMetadata u in
  if IsGlobal u && negb (HasMetadata (0 :: t) ms md) then true
  else
    if negb (IsGlobal u) &&
       match sched !! u.(UName) with
       | None => true
       | Some sUnit => bool_decide (sUnit.(STargetMachineID) = "") ||
                       bool_decide (sUnit.(STargetMachineID) ≠ ms.(ID))
       end
    then true
    else (HasConflict (1 :: t) agent u.(UName) (Unit_Conflicts u)).1.

Fixpoint desired_units (t : moment) (ms : MachineState) (sched : gmap string ScheduledUnit)
    (us : list Unit) (agent : AgentState) : AgentState :=
  match us with
  | [] => agent
  | u :: us =>
      desired_units t ms sched us
        (if skip_unit (length us :: t) ms sched agent u then agent else set_unit u.(UName) u agent)
  end.

Definition desiredAgentState (t : moment) a : res Er AgentState :=
  let* us := ar_Units a.(a_registry) in
  let* sUnits := ar_Schedule a.(a_registry) in
  let* ms := ar_MachineState a.(a_Machine).(ID) a.(a_registry) in
  Ok (desired_units t ms (sUnitMap sUnits) us (mkAgentState ms ∅)).

(** ** The tasks *)

Definition calculateTasksForUnit (dState : option AgentState) (cState : unitStates) (jName : string)
  : list agent_task :=
  let dJob := dState ≫= λ d, d.(Units) !! jName in
  let dJHash := match dJob with Some u => Hash_String (UnitFile_Hash u.(UUnit)) | None => "" end in
  let cJState := us_state <$> cState !! jName in
  let cJHash := match cState !! jName with Some us => us.(us_hash) | None => "" end in
  let unload u := mkAgentTask taskTypeUnloadUnit taskReasonLoadedButNotScheduled (Some u) in
  let load u := mkAgentTask taskTypeLoadUnit taskReasonScheduledButUnloaded (Some u) in
  let start u := mkAgentTask taskTypeStartUnit taskReasonLoadedDesiredStateLaunched (Some u) in
  let blank := mkUnit jName empty_UnitFile "" in
  match dJob, cJState with
  | None, None => []
  | None, Some _ => [unload blank]
  | Some dj, _ =>
      if bool_decide (dj.(UTargetState) = JobStateInactive) then
        match cJState with None => [] | Some _ => [unload blank] end
      else
        let u := mkUnit jName dj.(UUnit) "" in
        let starting := if bool_decide (dj.(UTargetState) = JobStateLaunched) then [start u] else [] in
        match cJState with
        | None => load u :: starting
        | Some cs =>
            if bool_decide (cJHash ≠ dJHash) then
              mkAgentTask taskTypeUnloadUnit taskReasonLoadedButHashDiffers (Some u) :: load u :: starting
            else if bool_decide (cs = dj.(UTargetState)) then []
            else
              (if bool_decide (cs = JobStateInactive) then [load u] else []) ++
              (if (bool_decide (cs = JobStateInactive) || bool_decide (cs = JobStateLoaded)) &&
                  bool_decide (dj.(UTargetState) = JobStateLaunched) then [start u] else []) ++
              (if bool_decide (cs = JobStateLaunched) && bool_decide (dj.(UTargetState) = JobStateLoaded)
               then [mkAgentTask taskTypeStopUnit taskReasonLaunchedDesiredStateLoaded (Some u)] else [])
        end
  end.

Definition unit_names (t : moment) (dState : AgentState) (cState : unitStates) : list string :=
  let jobs := foldl (λ s n, unsafeSet_Add n s) (NewUnsafeSet []) (range (0 :: t) cState).*1 in
  let jobs := foldl (λ s n, unsafeSet_Add n s) jobs (range (1 :: t) dState.(Units)).*1 in
  go_sort string_less (unsafeSet_Values (2 :: t) jobs).

Definition reload_task : agent_task :=
  mkAgentTask taskTypeReloadUnitFiles taskReasonAlwaysReloadUnitFiles None.

Definition calculateTasksForUnits (t : moment) (dState : AgentState) (cState : unitStates)
  : list agent_task :=
  let tasks := concat (calculateTasksForUnit (Some dState) cState <$> unit_names t dState cState) in
  if bool_decide (length tasks = 0) then []
  else
    let tasks := go_sort sortableTasks_Less (tasks ++ [reload_task]) in
    match tasks with
    | tk :: rest => if bool_decide (tk.(ATtyp) = taskTypeReloadUnitFiles) then rest else tasks
    | [] => []
    end.

Definition launchTasks (tasks : list agent_task) a : Agent U Rg := (taskManager_Do tasks a).1.

Definition AgentReconciler_Reconcile (t : moment) a : Agent U Rg :=
  match desiredAgentState (0 :: t) a with
  | Err _ => a
  | Ok dAgentState =>
      match agent_units (1 :: t) a with
      | Err _ => a
      | Ok cAgentState => launchTasks (calculateTasksForUnits (2 :: t) dAgentState cAgentState) a
      end
  end.

Definition purge_task (name : string) : agent_task :=
  mkAgentTask taskTypeUnloadUnit taskReasonPurgingAgent (Some (mkUnit name empty_UnitFile "")).

(** [Purge] loops until no unit is left: [None] is a loop that goes on after
    [fuel] rounds. *)
Fixpoint Purge (fuel : nat) (t : moment) a : option (Agent U Rg) :=
  match agent_units (fuel :: 0 :: t) a with
  | Err _ => Some a
  | Ok cAgentState =>
      if bool_decide (size cAgentState = 0) then Some a
      else
        match fuel with
        | 0 => None
        | S fuel' =>
            Purge fuel' t (launchTasks (purge_task <$> (range (fuel :: 1 :: t) cAgentState).*1) a)
        end
  end.

(** ** The shape of the tasks *)

Definition task_for (n : string) (tk : agent_task) : Prop := UName <$> tk.(ATunit) = Some n.

#[export] Instance task_for_dec n tk : Decision (task_for n tk).
Proof. unfold task_for. apply _. Defined.

Definition phase_lt (x y : agent_task) : Prop := task_phase x < task_phase y.
Definition phase_le (x y : agent_task) : Prop := task_phase x ≤ task_phase y.

Lemma task_phase_unload r u : task_phase (mkAgentTask taskTypeUnloadUnit r u) = 1.
Proof. reflexivity. Qed.
Lemma task_phase_load r u : task_phase (mkAgentTask taskTypeLoadUnit r u) = 2.
Proof. reflexivity. Qed.
Lemma task_phase_stop r u : task_phase (mkAgentTask taskTypeStopUnit r u) = 4.
Proof. reflexivity. Qed.
Lemma task_phase_start r u : task_phase (mkAgentTask taskTypeStartUnit r u) = 5.
Proof. reflexivity. Qed.

(** A task for a unit, of one of the four types. *)
Definition unit_task (n : string) (tk : agent_task) : Prop :=
  task_for n tk ∧ tk.(ATtyp) ∈ [taskTypeLoadUnit; taskTypeUnloadUnit; taskTypeStartUnit; taskTypeStopUnit].

(** Two different states cannot be equal to the same thing. *)
Ltac congruence_states :=
  exfalso; repeat match goal with
  | H1 : ?x = JobStateLaunched, H2 : ?x = JobStateLoaded |- _ => rewrite H1 in H2; discriminate H2
  | H1 : ?x = JobStateLaunched, H2 : ?x = JobStateInactive |- _ => rewrite H1 in H2; discriminate H2
  | H1 : ?x = JobStateLoaded, H2 : ?x = JobStateInactive |- _ => rewrite H1 in H2; discriminate H2
  end.

Lemma calculateTasksForUnit_tasks d c n : Forall (unit_task n) (calculateTasksForUnit d c n).
Proof.
  unfold calculateTasksForUnit. repeat (case_goal; cbn [app]);
    repeat (apply Forall_cons_2; [split; [done|set_solver]|]); try apply Forall_nil_2.
Qed.

Lemma calculateTasksForUnit_sorted d c n : StronglySorted phase_lt (calculateTasksForUnit d c n).
Proof.
  unfold calculateTasksForUnit. repeat (case_goal; cbn [app]);
    repeat (apply SSorted_cons; [|repeat (apply Forall_cons_2;
      [unfold phase_lt; rewrite ?task_phase_unload, ?task_phase_load, ?task_phase_stop, ?task_phase_start; lia|]);
      apply Forall_nil_2]); try apply SSorted_nil; bool_to_prop; congruence_states.
Qed.

(** A list ordered by phase is determined by its tasks when the phases differ. *)
Lemma phase_sorted_unique l1 l2 :
  StronglySorted phase_lt l1 → StronglySorted phase_le l2 → l1 ≡ₚ l2 → l1 = l2.
Proof.
  intros H1 H2 Hp. apply (StronglySorted_unique_strong phase_le); [| |done|done].
  - intros x y Hx Hy%(elem_of_Permutation_proper _ _ _ (symmetry Hp)) Hxy Hyx.
    assert (task_phase x = task_phase y) as E by (unfold phase_le in *; lia). clear -H1 Hx Hy E.
    induction H1 as [|z l H1 IH Hz]; [by apply elem_of_nil in Hx|]. rewrite Forall_forall in Hz.
    apply elem_of_cons in Hx as [->|Hx]; apply elem_of_cons in Hy as [->|Hy]; auto.
    + specialize (Hz _ Hy). unfold phase_lt in Hz. lia.
    + specialize (Hz _ Hx). unfold phase_lt in Hz. lia.
  - clear -H1. induction H1 as [|z l H1 IH Hz]; constructor; [done|].
    eapply Forall_impl; [exact Hz|]. unfold phase_lt, phase_le. intros; lia.
Qed.

Lemma sortableTasks_sorted l : StronglySorted phase_le (go_sort sortableTasks_Less l).
Proof.
  pose proof (go_sort_sorted _ sortableTasks_Less l (strict_weak_key task_phase)) as Hs. revert Hs.
  generalize (go_sort sortableTasks_Less l). induction 1 as [|x l' _ IH Hx]; constructor; [done|].
  eapply Forall_impl; [exact Hx|]. intros y. unfold sortableTasks_Less, phase_le.
  rewrite bool_decide_eq_false. lia.
Qed.

Lemma StronglySorted_filter {A} (R : relation A) (P : A → Prop) `{∀ x, Decision (P x)} l :
  StronglySorted R l → StronglySorted R (filter P l).
Proof.
  induction 1 as [|x l _ IH Hx]; [constructor|]. rewrite filter_cons. case_decide; [|done].
  constructor; [done|]. rewrite Forall_forall in *. intros y [_ Hy]%list_elem_of_filter. auto.
Qed.

(** *** The names considered *)

Lemma elem_of_unit_names t d c n :
  n ∈ unit_names t d c ↔ is_Some (c !! n) ∨ is_Some (d.(Units) !! n).
Proof.
  unfold unit_names. rewrite go_sort_perm.
  change (n ∈ Values (GoSet := unsafeSet_GoSet) (2 :: t)
    (foldl (λ s n, unsafeSet_Add n s) (foldl (λ s n, unsafeSet_Add n s) (NewUnsafeSet []) (range (0 :: t) c).*1)
       (range (1 :: t) (Units d)).*1) ↔ is_Some (c !! n) ∨ is_Some (Units d !! n)).
  rewrite Values_members. cbn [members unsafeSet_GoSet]. rewrite !members_foldl_Add, members_New.
  rewrite !elem_of_union, !elem_of_list_to_set, !elem_of_range_fst, !elem_of_dom. set_solver.
Qed.

Lemma unit_names_NoDup t d c : NoDup (unit_names t d c).
Proof. unfold unit_names. rewrite go_sort_perm. apply range_NoDup_fst. Qed.

(** *** The tasks of one unit among all tasks *)

Lemma filter_other_unit n n' l :
  Forall (unit_task n') l → n ≠ n' → filter (task_for n) l = [].
Proof.
  intros Hl Hn. induction Hl as [|tk l [Ht _] _ IH]; [done|]. rewrite filter_cons_False; [done|].
  unfold task_for in *. congruence.
Qed.

Lemma filter_own_unit n l : Forall (unit_task n) l → filter (task_for n) l = l.
Proof.
  induction 1 as [|tk l [Ht _] _ IH]; [done|]. by rewrite filter_cons_True, IH.
Qed.

Lemma filter_concat_tasks d c n names :
  NoDup names →
  filter (task_for n) (concat (calculateTasksForUnit d c <$> names)) =
  if decide (n ∈ names) then calculateTasksForUnit d c n else [].
Proof.
  induction 1 as [|n' names Hn' _ IH]; [done|]. cbn [fmap list_fmap concat]. rewrite filter_app, IH.
  destruct (decide (n = n')) as [->|Hne].
  - rewrite filter_own_unit by apply calculateTasksForUnit_tasks.
    rewrite (decide_False (P := n' ∈ names)), decide_True by (done || left). by rewrite app_nil_r.
  - rewrite (filter_other_unit n n') by (done || apply calculateTasksForUnit_tasks). cbn.
    apply decide_ext. rewrite elem_of_cons. naive_solver.
Qed.

Lemma calculateTasksForUnit_none d c n :
  c !! n = None → d.(Units) !! n = None → calculateTasksForUnit (Some d) c n = [].
Proof. intros Hc Hd. unfold calculateTasksForUnit. cbn. by rewrite Hc, Hd. Qed.

(** All tasks, before the sort. *)
Definition all_tasks (t : moment) (d : AgentState) (c : unitStates) : list agent_task :=
  concat (calculateTasksForUnit (Some d) c <$> unit_names t d c).

Lemma filter_all_tasks t d c n :
  filter (task_for n) (all_tasks t d c) = calculateTasksForUnit (Some d) c n.
Proof.
  unfold all_tasks. rewrite filter_concat_tasks by apply unit_names_NoDup. case_decide as Hn; [done|].
  rewrite elem_of_unit_names in Hn. symmetry. apply calculateTasksForUnit_none.
  - destruct (c !! n); [by destruct Hn; left|done].
  - destruct (Units d !! n); [by destruct Hn; right|done].
Qed.

Lemma all_tasks_units t d c tk : tk ∈ all_tasks t d c → ∃ n, unit_task n tk.
Proof.
  unfold all_tasks. rewrite list_elem_of_In, in_concat. setoid_rewrite <- list_elem_of_In.
  intros (l & Hl & Htk). apply list_elem_of_fmap in Hl as (n & -> & _). exists n.
  pose proof (calculateTasksForUnit_tasks (Some d) c n) as H. rewrite Forall_forall in H. auto.
Qed.

(** The result is a sorted rearrangement of the tasks and the reload, from
    which a reload in the first place may be dropped. *)
Lemma calculateTasksForUnits_cases t d c :
  (all_tasks t d c = [] ∧ calculateTasksForUnits t d c = []) ∨
  ∃ l, all_tasks t d c ≠ [] ∧ l ≡ₚ all_tasks t d c ++ [reload_task] ∧ StronglySorted phase_le l ∧
    ((calculateTasksForUnits t d c = l ∧ ∀ tk rest, l = tk :: rest → tk.(ATtyp) ≠ taskTypeReloadUnitFiles) ∨
     l = reload_task :: calculateTasksForUnits t d c).
Proof.
  unfold calculateTasksForUnits. fold (all_tasks t d c). case_bool_decide as Hlen.
  { left. split; [|done]. by apply nil_length_inv. }
  right. exists (go_sort sortableTasks_Less (all_tasks t d c ++ [reload_task])). split_and!.
  - by intros Hn; rewrite Hn in Hlen.
  - apply go_sort_perm.
  - apply sortableTasks_sorted.
  - destruct (go_sort sortableTasks_Less _) as [|tk rest] eqn:E; [left; split; [done|by intros]|].
    case_bool_decide as Ht; [right|left; split; [done|by intros ? ? [= <- <-]]].
    f_equal. assert (tk ∈ all_tasks t d c ++ [reload_task]) as Hin.
    { rewrite <- (go_sort_perm _ sortableTasks_Less), E. left. }
    apply elem_of_app in Hin as [Hin|Hin%list_elem_of_singleton]; [|done].
    apply all_tasks_units in Hin as (n & _ & Hty). rewrite Ht in Hty. exfalso. revert Hty. clear.
    rewrite !elem_of_cons, elem_of_nil. by intros [|[|[|[|]]]].
Qed.

Lemma filter_calculateTasks t d c n :
  filter (task_for n) (calculateTasksForUnits t d c) = calculateTasksForUnit (Some d) c n.
Proof.
  destruct (calculateTasksForUnits_cases t d c) as [[H0 ->]|(l & _ & Hp & Hs & Hl)].
  { by rewrite <- (filter_all_tasks t), H0. }
  assert (filter (task_for n) l = calculateTasksForUnit (Some d) c n) as Hf.
  { symmetry. apply phase_sorted_unique; [apply calculateTasksForUnit_sorted|by apply StronglySorted_filter|].
    rewrite Hp, filter_app, filter_all_tasks. cbn. by rewrite app_nil_r. }
  destruct Hl as [[-> _]|Hl]; [done|]. by rewrite Hl in Hf.
Qed.

Lemma calculateTasksForUnits_proper t d c : Forall proper_task (calculateTasksForUnits t d c).
Proof.
  assert (∀ tk, tk ∈ all_tasks t d c ++ [reload_task] → proper_task tk) as H.
  { intros tk [(n & Hn & Hty)%all_tasks_units| ->%list_elem_of_singleton]%elem_of_app; [right|by left].
    split; [|done]. unfold task_for in Hn. destruct (ATunit tk); [by eexists|done]. }
  apply Forall_forall. intros tk Htk. apply H.
  destruct (calculateTasksForUnits_cases t d c) as [[_ H0]|(l & _ & Hp & _ & Hl)].
  - rewrite H0 in Htk. by apply elem_of_nil in Htk.
  - rewrite <- Hp. destruct Hl as [[<- _]| ->]; [done|by right].
Qed.

(** ** Convergence *)

Definition valid_state (s : JobState) : Prop :=
  s = JobStateInactive ∨ s = JobStateLoaded ∨ s = JobStateLaunched.

(** The state in which the agent should have one unit, and all units. *)
Definition desired_state (u : Unit) : option unitState :=
  if decide (u.(UTargetState) = JobStateInactive) then None
  else Some (mkUnitStateOf u.(UTargetState) (Hash_String (UnitFile_Hash u.(UUnit)))).

Definition desired_states (d : AgentState) : unitStates := omap desired_state d.(Units).

(** Decide the tests on the constants. *)
Ltac decide_states :=
  repeat first
    [ rewrite bool_decide_eq_true_2 by done | rewrite bool_decide_eq_false_2 by done
    | rewrite decide_True by (done || auto) | rewrite decide_False by (done || by intros [])
    | progress cbn [app foldl ATunit ATtyp UName UUnit andb orb fmap option_fmap option_map us_hash us_state] ].

Lemma foldl_effect_filter n l o :
  foldl (λ o tk, task_effect tk n o) o l = foldl (λ o tk, task_effect tk n o) o (filter (task_for n) l).
Proof.
  revert o. induction l as [|tk l IH]; intros o; [done|]. rewrite filter_cons. cbn [foldl]. case_decide as Hf.
  - apply IH.
  - rewrite IH. f_equal. unfold task_effect, task_for in *. destruct (ATunit tk) as [u|]; [|done].
    rewrite decide_False; [done|]. intros Hu. apply Hf. cbn. by rewrite Hu.
Qed.

Lemma foldl_starts_filter n l b :
  foldl (λ b tk, task_starts tk n b) b l = foldl (λ b tk, task_starts tk n b) b (filter (task_for n) l).
Proof.
  revert b. induction l as [|tk l IH]; intros b; [done|]. rewrite filter_cons. cbn [foldl]. case_decide as Hf.
  - apply IH.
  - rewrite IH. f_equal. unfold task_starts, task_for in *. destruct (ATunit tk) as [u|]; [|done].
    rewrite decide_False; [done|]. intros Hu. apply Hf. cbn. by rewrite Hu.
Qed.

(** The unit is there, and launched. *)
Definition launched (o : option unitState) : Prop := us_state <$> o = Some JobStateLaunched.

(** The tasks of a unit start and stop it as the desired state says, when the
    current state tells whether it was started. *)
Lemma unit_started d c n b :
  (∀ us, c !! n = Some us → valid_state us.(us_state)) →
  (∀ u, d.(Units) !! n = Some u → valid_state u.(UTargetState)) →
  ((launched (c !! n) → b = true) → launched (desired_states d !! n) →
   foldl (λ b tk, task_starts tk n b) b (calculateTasksForUnit (Some d) c n) = true) ∧
  ((b = true → launched (c !! n)) →
   foldl (λ b tk, task_starts tk n b) b (calculateTasksForUnit (Some d) c n) = true →
   launched (desired_states d !! n)).
Proof.
  intros Hc Hd. unfold desired_states, launched. rewrite lookup_omap. unfold calculateTasksForUnit. cbn [mbind option_bind].
  destruct (Units d !! n) as [dj|]; [specialize (Hd _ eq_refl)|]; cbn [mbind option_bind];
    (destruct (c !! n) as [us|]; [specialize (Hc _ eq_refl)|]); cbn [fmap option_fmap option_map]; try (split; done).
  2: { unfold desired_state, task_starts. destruct Hd as [->|[-> | ->]]; decide_states; naive_solver. }
  2: { unfold task_starts. decide_states. naive_solver. }
  destruct us as [st h]. cbn [us_state us_hash] in *. unfold desired_state, task_starts.
  destruct (decide (h = Hash_String (UnitFile_Hash (UUnit dj)))) as [->|Hh].
  - rewrite (bool_decide_eq_false_2 (_ ≠ _)) by tauto.
    destruct Hd as [->|[-> | ->]]; destruct Hc as [->|[-> | ->]]; decide_states; naive_solver.
  - rewrite (bool_decide_eq_true_2 (_ ≠ _)) by done.
    destruct Hd as [->|[-> | ->]]; decide_states; naive_solver.
Qed.

(** The tasks of a unit take it from its current state to the desired one. *)
Lemma unit_converges d c n :
  (∀ us, c !! n = Some us → valid_state us.(us_state)) →
  (∀ u, d.(Units) !! n = Some u → valid_state u.(UTargetState)) →
  foldl (λ o tk, task_effect tk n o) (c !! n) (calculateTasksForUnit (Some d) c n) = desired_states d !! n.
Proof.
  intros Hc Hd. unfold desired_states. rewrite lookup_omap. unfold calculateTasksForUnit. cbn [mbind option_bind].
  destruct (Units d !! n) as [dj|]; [specialize (Hd _ eq_refl)|]; cbn [mbind option_bind];
    (destruct (c !! n) as [us|]; [specialize (Hc _ eq_refl)|]); cbn [fmap option_fmap option_map]; try done.
  2: { unfold desired_state, task_effect, unit_effect. destruct Hd as [->|[-> | ->]]; by decide_states. }
  2: { unfold task_effect, unit_effect. by decide_states. }
  destruct us as [st h]. cbn [us_state us_hash] in *. unfold desired_state, task_effect, unit_effect, set_state.
  destruct (decide (h = Hash_String (UnitFile_Hash (UUnit dj)))) as [->|Hh].
  - rewrite (bool_decide_eq_false_2 (_ ≠ _)) by tauto.
    destruct Hd as [->|[-> | ->]]; destruct Hc as [->|[-> | ->]]; by decide_states.
  - rewrite (bool_decide_eq_true_2 (_ ≠ _)) by done. destruct Hd as [->|[-> | ->]]; by decide_states.
Qed.

Lemma cache_state_valid ac n : valid_state (cache_state ac n).
Proof. unfold cache_state, valid_state. repeat case_match; auto. Qed.

Context `{UL : !UnitManagerLaws UM}.

Definition valid_targets (d : AgentState) : Prop :=
  map_Forall (λ _ u, valid_state u.(UTargetState)) d.(Units).

(** The names of the desired units can be loaded. *)
Definition loadable_units (d : AgentState) : Prop := map_Forall (λ n _, um_name n) d.(Units).

Lemma calculateTasksForUnits_loadable t d a :
  loadable_units d → Forall loadable_task (calculateTasksForUnits t d (current a)).
Proof.
  intros Hd. apply Forall_forall. intros tk Htk u Hu.
  assert (tk ∈ filter (task_for (UName u)) (calculateTasksForUnits t d (current a))) as Hin.
  { apply list_elem_of_filter. split; [|done]. unfold task_for. by rewrite Hu. }
  rewrite filter_calculateTasks in Hin. destruct (Units d !! UName u) as [u'|] eqn:Hdu; [by eapply Hd|].
  destruct (current a !! UName u) as [us|] eqn:Hc.
  - apply (um_files_name _ a.(a_um)). rewrite current_lookup in Hc. apply fmap_Some in Hc as (h & -> & _). by eexists.
  - rewrite calculateTasksForUnit_none in Hin by done. by apply not_elem_of_nil in Hin.
Qed.

Lemma launchTasks_converges t d a :
  um_reliable → loadable_units d → valid_targets d →
  current (launchTasks (calculateTasksForUnits t d (current a)) a) = desired_states d.
Proof.
  intros Hr Hl Hd. apply map_eq. intros n. unfold launchTasks.
  destruct (Do_effect (calculateTasksForUnits t d (current a)) a n Hr) as (_ & -> & _).
  { apply calculateTasksForUnits_proper. }
  { by apply calculateTasksForUnits_loadable. }
  rewrite foldl_effect_filter, filter_calculateTasks. apply unit_converges; [|by intros u; apply Hd].
  intros us. rewrite current_lookup. intros (h & _ & ->)%fmap_Some. apply cache_state_valid.
Qed.

(** The agent's record of what it launched agrees with what the manager was
    told to run: in one direction, and in the other. *)
Definition launched_started a : Prop := ∀ n, launched (current a !! n) → n ∈ um_started a.(a_um).
Definition started_launched a : Prop := ∀ n, n ∈ um_started a.(a_um) → launched (current a !! n).

Lemma launchTasks_started t d a :
  um_reliable → loadable_units d → valid_targets d →
  let a' := launchTasks (calculateTasksForUnits t d (current a)) a in
  (launched_started a → launched_started a') ∧ (started_launched a → started_launched a').
Proof.
  intros Hr Hl Hd a'.
  assert (∀ n, started a' n =
    foldl (λ b tk, task_starts tk n b) (started a n) (calculateTasksForUnit (Some d) (current a) n)) as Hs.
  { intros n. unfold a', launchTasks.
    destruct (Do_effect (calculateTasksForUnits t d (current a)) a n Hr) as (_ & _ & ->);
      [apply calculateTasksForUnits_proper|by apply calculateTasksForUnits_loadable|].
    by rewrite foldl_starts_filter, filter_calculateTasks. }
  assert (current a' = desired_states d) as Hc by by apply launchTasks_converges.
  assert (∀ (b : Agent U Rg) n, started b n = true ↔ n ∈ um_started b.(a_um)) as Hst by (intros; apply bool_decide_eq_true).
  split; intros H n; [rewrite <- Hst|rewrite <- Hst]; rewrite Hs, Hc;
    (destruct (unit_started d (current a) n (started a n)) as [H1 H2];
      [intros us; rewrite current_lookup; intros (h & _ & ->)%fmap_Some; apply cache_state_valid|by intros u; apply Hd|]).
  - apply H1. rewrite Hst. apply H.
  - apply H2. rewrite Hst. apply H.
Qed.

(** C2: one reconciliation is enough.  When the unit manager's calls succeed, it
    can load units of the desired names, and the target states of the registry are
    job states, the agent's units after [Reconcile] are exactly the desired ones, each with
    its desired file and in its desired state, whatever the agent was running
    before, in whatever order the maps are traversed and however [sort.Sort]
    orders the tasks of a phase.  And the manager is told so: when it was told to
    start the units that the agent counts as launched, it has been told to start
    every unit to be launched; and when it was told to start no others, it has been
    told to start no unit but those. *)
Theorem Reconcile_converges t t' a d :
  um_reliable → desiredAgentState (0 :: t) a = Ok d → loadable_units d → valid_targets d →
  let a' := AgentReconciler_Reconcile t a in
  agent_units t' a' = Ok (desired_states d) ∧
  ((∀ n, launched (current a !! n) → n ∈ um_started a.(a_um)) →
   ∀ n, launched (desired_states d !! n) → n ∈ um_started a'.(a_um)) ∧
  ((∀ n, n ∈ um_started a.(a_um) → launched (current a !! n)) →
   ∀ n, n ∈ um_started a'.(a_um) → launched (desired_states d !! n)).
Proof.
  intros Hr Hd Hl Hv. unfold AgentReconciler_Reconcile. rewrite Hd, (agent_units_ok (1 :: t) a Hr).
  cbn zeta. rewrite (agent_units_ok t' _ Hr).
  pose proof (launchTasks_converges (2 :: t) d a Hr Hl Hv) as Hc.
  destruct (launchTasks_started (2 :: t) d a Hr Hl Hv) as [H1 H2].
  unfold launched_started, started_launched in *. rewrite Hc in *. auto.
Qed.

(** An agent in its desired state is left alone: there is no task, not
    even a reload. *)
Theorem calculateTasks_fixpoint t d :
  valid_targets d → calculateTasksForUnits t d (desired_states d) = [].
Proof.
  intros Hv.
  assert (∀ n, calculateTasksForUnit (Some d) (desired_states d) n = []) as Hn.
  { intros n. unfold calculateTasksForUnit, desired_states. rewrite lookup_omap. cbn [mbind option_bind].
    destruct (Units d !! n) as [u|] eqn:Hu; [|done]. cbn [mbind option_bind]. apply Hv in Hu. unfold desired_state.
    destruct (decide (UTargetState u = JobStateInactive)) as [Hi|Hi].
    - by rewrite bool_decide_eq_true_2.
    - rewrite bool_decide_eq_false_2 by done. cbn. rewrite bool_decide_eq_false_2 by tauto.
      by rewrite bool_decide_eq_true_2. }
  assert (all_tasks t d (desired_states d) = []) as H0.
  { unfold all_tasks. generalize (unit_names t d (desired_states d)).
    induction l as [|n l IH]; [done|]. cbn. by rewrite Hn. }
  destruct (calculateTasksForUnits_cases t d (desired_states d)) as [[_ H]|(l & Hne & _)]; done.
Qed.

Lemma phase_of_unit_task n tk :
  unit_task n tk → task_phase tk ≤ 3 ↔ tk.(ATtyp) = taskTypeUnloadUnit ∨ tk.(ATtyp) = taskTypeLoadUnit.
Proof.
  intros [_ Ht]. unfold task_phase.
  repeat (apply elem_of_cons in Ht as [Ht|Ht]); [| | | |by apply elem_of_nil in Ht]; rewrite Ht;
    vm_compute; split; intros H; auto; try lia; by destruct H.
Qed.

(** Tasks come in phases: every unload before every load, then the reload
    of unit files, then the stops, then the starts; and unit files are reloaded
    exactly when some unit file is loaded or unloaded. *)
Theorem calculateTasks_phases t d c :
  let tasks := calculateTasksForUnits t d c in
  StronglySorted phase_le tasks ∧
  (reload_task ∈ tasks ↔
   ∃ tk, tk ∈ tasks ∧ (tk.(ATtyp) = taskTypeUnloadUnit ∨ tk.(ATtyp) = taskTypeLoadUnit)).
Proof.
  cbn. destruct (calculateTasksForUnits_cases t d c) as [[_ ->]|(l & Hne & Hp & Hs & Hl)].
  { split; [constructor|]. split; [by intros ?%elem_of_nil|]. by intros (tk & ?%elem_of_nil & _). }
  assert (∀ tk, tk ∈ l → tk = reload_task ∨ ∃ n, unit_task n tk) as Hel.
  { intros tk. rewrite Hp, elem_of_app, list_elem_of_singleton. intros [?%all_tasks_units|?]; auto. }
  destruct Hl as [[Hl Hhead]|Hl].
  - rewrite Hl. split; [done|]. split; [|intros _; rewrite Hp; set_solver]. intros Hre.
    destruct l as [|tk rest]; [by apply elem_of_nil in Hre|]. exists tk. split; [left|].
    destruct (Hel tk) as [->|[n Hn]]; [left|by destruct (Hhead _ _ eq_refl)|].
    apply (phase_of_unit_task n); [done|]. apply elem_of_cons in Hre as [<-|Hre]; [done|].
    apply StronglySorted_inv in Hs as [_ Hs]. rewrite Forall_forall in Hs. apply (Hs _ Hre).
  - set (rest := calculateTasksForUnits t d c) in *. subst l.
    apply StronglySorted_inv in Hs as [Hs Hge]. split; [done|]. rewrite Forall_forall in Hge.
    assert (rest ≡ₚ all_tasks t d c) as Hrest.
    { apply (Permutation_cons_inv (a := reload_task)). rewrite Hp. by rewrite Permutation_app_comm. }
    assert (∀ tk, tk ∈ rest → tk.(ATtyp) ≠ taskTypeUnloadUnit ∧ tk.(ATtyp) ≠ taskTypeLoadUnit ∧ tk ≠ reload_task) as Hno.
    { intros tk Htk. pose proof (Hge _ Htk) as Hph. rewrite Hrest in Htk.
      apply all_tasks_units in Htk as (n & Hn).
      destruct Hn as [Hfor Hty]. split_and!.
      - intros E. unfold phase_le, task_phase in Hph. rewrite E in Hph. vm_compute in Hph. lia.
      - intros E. unfold phase_le, task_phase in Hph. rewrite E in Hph. vm_compute in Hph. lia.
      - intros ->. by unfold task_for in Hfor. }
    split; [intros H; by destruct (Hno _ H) as (_ & _ & ?)|].
    intros (tk & Htk & Hty). destruct (Hno _ Htk) as (? & ? & _). tauto.
Qed.

(** ** Purging *)

Lemma foldl_purge_effect n names (o : option unitState) :
  foldl (λ o tk, task_effect tk n o) o (purge_task <$> names) = if decide (n ∈ names) then None else o.
Proof.
  revert o. induction names as [|n' names IH]; intros o; cbn [fmap list_fmap foldl].
  { by rewrite decide_False by apply not_elem_of_nil. }
  rewrite IH. unfold purge_task at 1. unfold task_effect at 1. cbn [ATunit UName ATtyp].
  destruct (decide (n' = n)) as [->|Hne].
  - rewrite (decide_True (P := n ∈ n :: names)) by left. by case_decide.
  - apply decide_ext. rewrite elem_of_cons. naive_solver.
Qed.

(** [Purge] terminates: when the unit manager's calls succeed, one round
    unloads every unit and the loop then ends with no unit left. *)
Theorem Purge_terminates t a :
  um_reliable → ∃ a', Purge 1 t a = Some a' ∧ current a' = ∅.
Proof.
  intros Hr. cbn [Purge]. rewrite (agent_units_ok _ a Hr). case_bool_decide as Hs.
  { exists a. split; [done|]. by apply map_size_empty_iff. }
  set (a' := launchTasks _ a).
  assert (current a' = ∅) as Ha'.
  { apply map_empty. intros n. unfold a', launchTasks.
    destruct (Do_effect (purge_task <$> (range (1 :: 1 :: t) (current a)).*1) a n Hr) as (_ & -> & _).
    - apply Forall_fmap, Forall_forall. intros n' _. right. split; [by eexists|]. set_solver.
    - apply Forall_fmap, Forall_forall. intros n' Hn' u [= <-]. cbn. apply elem_of_range_fst, elem_of_dom in Hn' as [us Hus].
      apply (um_files_name _ a.(a_um)). rewrite current_lookup in Hus. apply fmap_Some in Hus as (h & -> & _). by eexists.
    - rewrite foldl_purge_effect. case_decide as Hn; [done|].
      by rewrite elem_of_range_fst, not_elem_of_dom in Hn. }
  rewrite (agent_units_ok _ a' Hr), Ha', bool_decide_eq_true_2 by apply map_size_empty. by exists a'.
Qed.

(** ** The desired state is consistent *)

(** What puts unit [u] on the machine. *)
Definition belongs (ms : MachineState) (sched : gmap string ScheduledUnit) (u : Unit) : Prop :=
  if IsGlobal u then HasMetadata [] ms (Unit_RequiredTargetMetadata u) = true
  else ∃ su, sched !! u.(UName) = Some su ∧ su.(STargetMachineID) = ms.(ID) ∧ ms.(ID) ≠ "".

Lemma skip_unit_false t ms sched agent u :
  skip_unit t ms sched agent u = false →
  belongs ms sched u ∧ ¬ has_conflict agent u.(UName) (Unit_Conflicts u).
Proof.
  unfold skip_unit, belongs. rewrite <- (HasConflict_true (1 :: t)), (HasMetadata_order (0 :: t) []).
  destruct (IsGlobal u); cbn.
  - destruct (HasMetadata _ _ _); cbn; [|done]. intros ->. by split.
  - destruct (sched !! UName u) as [su|]; [|done].
    destruct (bool_decide _ || bool_decide _) eqn:Hb; [done|]. intros ->. bool_to_prop.
    apply dec_stable in H0. split; [|done]. exists su. split_and!; [done..|congruence].
Qed.

(** Units are indexed by name, belong here, and do not conflict. *)
Record consistent (ms : MachineState) (sched : gmap string ScheduledUnit) (us : list Unit)
    (agent : AgentState) : Prop := {
  cons_units : map_Forall (λ n u, u.(UName) = n ∧ u ∈ us ∧ belongs ms sched u) agent.(Units);
  cons_conflicts : ∀ n1 u1 n2 u2,
    agent.(Units) !! n1 = Some u1 → agent.(Units) !! n2 = Some u2 →
    ¬ conflicting n1 (Unit_Conflicts u1) n2 (Unit_Conflicts u2)
}.

Lemma consistent_set ms sched us agent u :
  consistent ms sched us agent → u ∈ us → belongs ms sched u →
  ¬ has_conflict agent u.(UName) (Unit_Conflicts u) → consistent ms sched us (set_unit u.(UName) u agent).
Proof.
  intros [Hu Hc] Hin Hb Hno. split; cbn.
  - by apply map_Forall_insert_2.
  - assert (∀ n v, agent.(Units) !! n = Some v →
      ¬ conflicting u.(UName) (Unit_Conflicts u) n (Unit_Conflicts v)) as Hu'.
    { intros n v Hv Hcf. apply Hno. exists n, v. split; [done|]. by destruct (Hu _ _ Hv) as [-> _]. }
    intros n1 u1 n2 u2 [[<- <-]|[Hn1 H1]]%lookup_insert_Some [[<- <-]|[Hn2 H2]]%lookup_insert_Some.
    + by intros [? _].
    + by apply Hu'.
    + rewrite conflicting_sym. by apply Hu'.
    + by apply (Hc n1 u1 n2 u2).
Qed.

Lemma desired_units_consistent t ms sched us l agent :
  (∀ u, u ∈ l → u ∈ us) → consistent ms sched us agent →
  consistent ms sched us (desired_units t ms sched l agent).
Proof.
  revert agent. induction l as [|u l IH]; intros agent Hl Hc; cbn; [done|].
  apply IH; [intros; apply Hl; by right|]. destruct (skip_unit _ _ _ _ _) eqn:E; [done|].
  apply skip_unit_false in E as [Hb Hno]. apply consistent_set; try done. apply Hl. by left.
Qed.

(** C29: every unit of the desired state is a unit of the registry that is
    either global, on a machine with its metadata, or scheduled to this machine;
    and no two of them conflict. *)
Theorem desiredAgentState_consistent t a d :
  desiredAgentState t a = Ok d →
  ∃ us sUnits ms, ar_Units a.(a_registry) = Ok us ∧ ar_Schedule a.(a_registry) = Ok sUnits ∧
    ar_MachineState a.(a_Machine).(ID) a.(a_registry) = Ok ms ∧
    consistent ms (sUnitMap sUnits) us d.
Proof.
  unfold desiredAgentState. destruct (ar_Units _) as [us|]; [|done].
  destruct (ar_Schedule _) as [sUnits|]; [|done]. destruct (ar_MachineState _ _) as [ms|]; [|done].
  intros [= <-]. exists us, sUnits, ms. split_and!; [done..|].
  apply desired_units_consistent; [done|]. split; cbn.
  - apply map_Forall_empty.
  - intros n1 u1 n2 u2. by rewrite lookup_empty.
Qed.

End reconcile.

(** ** Witnesses: a unit manager and a registry held in memory *)

(** The hashes of the loaded units, and the units that were started. *)
Definition mem_units : Type := gmap string string * gset string.

Definition mem_manager `{Digest} : UnitManager mem_units string := {|
  um_Load n f u := ((<[n := Hash_String (UnitFile_Hash f)]> u.1, u.2), Ok tt);
  um_Unload n u := ((delete n u.1, u.2), Ok tt);
  um_ReloadUnitFiles u := (u, Ok tt);
  um_TriggerStart n u := ((u.1, {[n]} ∪ u.2), Ok tt);
  um_TriggerStop n u := ((u.1, u.2 ∖ {[n]}), Ok tt);
  um_Units _ u := Ok (map_to_list u.1).*1;
  um_GetUnitStates _ f u :=
    Ok ((λ h, mkUnitState "loaded" "active" "running" "" h "") <$>
        base.filter (λ '(n, _), n ∈ unsafeSet_members f) u.1);
  um_GetUnitState _ _ := Ok None
|}.

Definition mem_manager_laws `{Digest} : UnitManagerLaws mem_manager.
Proof.
  refine {| um_files := (fst : mem_units → gmap string string); um_name _ := True;
    um_started := (snd : mem_units → gset string) |}; try done.
  - intros n u _. by left.
  - intros t [u s] l [= <-] n. rewrite list_elem_of_fmap. split.
    + intros ([n' h] & -> & Hin%elem_of_map_to_list). by eexists.
    + intros [h Hh]. exists (n, h). split; [done|]. by apply elem_of_map_to_list.
  - intros t f [u s] m [= <-] n. cbn. rewrite lookup_fmap, map_lookup_filter. split; intros Hn.
    + destruct (u !! n); [|done]. cbn. by rewrite option_guard_True.
    + destruct (u !! n); [|done]. cbn. by rewrite option_guard_False.
Defined.

Definition padded_digest : Digest.
Proof.
  refine {| sha1_sum := λ s, str_take 20 (s +:+ "00000000000000000000") |}.
  intros s. rewrite str_length_take, str_length_app.
  change (String.length "00000000000000000000") with 20. lia.
Defined.

Definition mem_agent_registry : AgentRegistry (list Unit * list ScheduledUnit * MachineState) string := {|
  ar_Units r := Ok r.1.1; ar_Schedule r := Ok r.1.2; ar_MachineState _ r := Ok r.2;
  ar_UnitHeartbeat _ _ _ r := (r, Ok tt); ar_ClearUnitHeartbeat _ r := r |}.


Definition ex_agent_unit (name desc : string) (state : JobState) : Unit :=
  mkUnit name (NewUnitFromOptions [mkUnitOption "Unit" "Description" desc]) state.

(** The agent runs an old [web.service] and a [gone.service] that is no longer
    wanted; [db.service] is to be loaded. *)
Definition ex_agent : Agent mem_units (list Unit * list ScheduledUnit * MachineState) :=
  mkAgent
    ([ex_agent_unit "db.service" "db" JobStateLoaded; ex_agent_unit "web.service" "new" JobStateLaunched;
      ex_agent_unit "else.service" "else" JobStateLaunched],
     [mkScheduledUnit "db.service" None "m1"; mkScheduledUnit "web.service" None "m1";
      mkScheduledUnit "else.service" None "m2"],
     mkMachineState "m1" "" ∅ ∅ "")
    ({["web.service" := "old-hash"; "gone.service" := "some-hash"]}, {["web.service"]})
    NewUnitStateGenerator (mkMachineState "m1" "" ∅ ∅ "") 30%Z
    {["web.service" := JobStateLaunched; "gone.service" := JobStateLoaded]}.

Lemma mem_manager_reliable `{Digest} : um_reliable (UM := mem_manager) (UL := mem_manager_laws).
Proof. split; try done. intros n u. apply lookup_delete_eq. Qed.

Definition ex_desired : AgentState :=
  mkAgentState (mkMachineState "m1" "" ∅ ∅ "")
    {["db.service" := ex_agent_unit "db.service" "db" JobStateLoaded;
      "web.service" := ex_agent_unit "web.service" "new" JobStateLaunched]}.

Lemma ex_desired_valid : valid_targets ex_desired.
Proof.
  intros n u. cbn. rewrite lookup_insert_Some, lookup_singleton_Some. unfold valid_state. naive_solver.
Qed.

(** What it counts as launched is what the manager was told to start. *)
Lemma ex_agent_in_step n :
  launched (current (UL := mem_manager_laws (H := padded_digest)) ex_agent !! n) ↔ n ∈ ex_agent.(a_um).2.
Proof.
  transitivity (n = "web.service"); [|symmetry; apply elem_of_singleton].
  unfold launched. rewrite current_lookup. split; [|by intros ->].
  change (um_files ex_agent.(a_um)) with ({["web.service" := "old-hash"; "gone.service" := "some-hash"]} : gmap string string).
  rewrite <- option_fmap_compose. intros (h & Hh & Hs)%fmap_Some.
  apply lookup_insert_Some in Hh as [[<- _]|[_ [<- _]%lookup_singleton_Some]]; [done|].
  revert Hs. cbn [compose us_state a_cache ex_agent]. by vm_compute.
Qed.

Lemma Reconcile_converges_witness :
  let a' := AgentReconciler_Reconcile (MR := canonical_range) (GS := merge_go_sort) (DG := padded_digest)
       (UM := mem_manager (H := padded_digest)) (AR := mem_agent_registry) [] ex_agent in
  agent_units (MR := canonical_range) (UM := mem_manager (H := padded_digest)) [] a' =
    Ok (desired_states (DG := padded_digest) ex_desired) ∧
  "web.service" ∈ a'.(a_um).2 ∧ "db.service" ∉ a'.(a_um).2.
Proof.
  destruct (Reconcile_converges (UL := mem_manager_laws (H := padded_digest)) (AR := mem_agent_registry)
    (MR := canonical_range) (GS := merge_go_sort) [] [] ex_agent ex_desired) as (H1 & H2 & H3).
  - apply mem_manager_reliable.
  - vm_compute. reflexivity.
  - by intros n u _.
  - apply ex_desired_valid.
  - split; [exact H1|split].
    + apply (H2 (λ n, proj1 (ex_agent_in_step n)) "web.service"). vm_compute. reflexivity.
    + intros Hdb. pose proof (H3 (λ n, proj2 (ex_agent_in_step n)) "db.service" Hdb) as Hl.
      vm_compute in Hl. discriminate Hl.
Defined.

Lemma calculateTasks_fixpoint_witness :
  calculateTasksForUnits (MR := canonical_range) (GS := merge_go_sort) (DG := padded_digest) [] ex_desired
    (desired_states (DG := padded_digest) ex_desired) = [].
Proof.
  apply (calculateTasks_fixpoint (MR := canonical_range) (GS := merge_go_sort) (DG := padded_digest) [] ex_desired).
  apply ex_desired_valid.
Defined.

Lemma Purge_terminates_witness :
  ∃ a', Purge (MR := canonical_range) (UM := mem_manager (H := padded_digest)) (AR := mem_agent_registry)
    1 [] ex_agent = Some a' ∧
    current (UL := mem_manager_laws (H := padded_digest)) a' = ∅.
Proof.
  apply (Purge_terminates (UL := mem_manager_laws (H := padded_digest)) (AR := mem_agent_registry)
    (MR := canonical_range) [] ex_agent).
  apply mem_manager_reliable.
Defined.

Lemma desiredAgentState_consistent_witness :
  ∃ us sUnits ms, ar_Units (AgentRegistry := mem_agent_registry) ex_agent.(a_registry) = Ok us ∧
    ar_Schedule (AgentRegistry := mem_agent_registry) ex_agent.(a_registry) = Ok sUnits ∧
    ar_MachineState (AgentRegistry := mem_agent_registry) ex_agent.(a_Machine).(ID) ex_agent.(a_registry) = Ok ms ∧
    consistent (MR := canonical_range) ms (sUnitMap sUnits) us ex_desired.
Proof.
  apply (desiredAgentState_consistent (MR := canonical_range) (AR := mem_agent_registry) [] ex_agent).
  vm_compute. reflexivity.
Defined.
