(* ===== verification/Systemd.v ===== *)
(** * [systemd/manager.go]: the unit manager on systemd

    The files of a directory, the hashes of the units that were loaded, and
    systemd behind D-Bus.  The file system and D-Bus are parameters; [FileSystem]
    and [DBus] are the calls that are made, their laws what the manager relies on.
    The manager satisfies [UnitManagerLaws], so what is proved of the agent holds
    on systemd. *)

From stdpp Require Import base list gmap strings.
From S2P Require Import Prelude GoStrings GoPath Pkg UnitFile UnitSerial UnitManager.

(** ** The environment *)

Class FileSystem (F : Type) := {
  MkdirAll : string → F → F * res string unit;
  WriteFile : string → string → F → F * res string unit;
  ReadFile : string → F → res string string;
  Remove : string → F → F * res string unit;
  ReadDir : string → F → res string (list string)
}.

(** The files of one directory.  A write that fails may leave anything in its file; a
    removal that fails leaves the file. *)
Class FileSystemLaws `(FS : FileSystem F) (dir : string) := {
  dir_files : F → gmap string string;
  dir_files_good : ∀ f n, is_Some (dir_files f !! n) → good_elem n;
  MkdirAll_dir : ∀ f, dir_files (MkdirAll dir f).1 = dir_files f;
  WriteFile_dir : ∀ f n c, good_elem n → is_ok (WriteFile (path_join [dir; n]) c f).2 = true →
    dir_files (WriteFile (path_join [dir; n]) c f).1 = <[n := c]> (dir_files f);
  WriteFile_failed : ∀ f n c, good_elem n → is_ok (WriteFile (path_join [dir; n]) c f).2 = false →
    ∃ o, dir_files (WriteFile (path_join [dir; n]) c f).1 = partial_alter (λ _, o) n (dir_files f);
  ReadFile_dir : ∀ f n c, good_elem n → dir_files f !! n = Some c → ReadFile (path_join [dir; n]) f = Ok c;
  Remove_dir : ∀ f n, good_elem n → is_ok (Remove (path_join [dir; n]) f).2 = true →
    dir_files (Remove (path_join [dir; n]) f).1 = delete n (dir_files f);
  Remove_failed : ∀ f n, good_elem n → is_ok (Remove (path_join [dir; n]) f).2 = false →
    dir_files (Remove (path_join [dir; n]) f).1 = dir_files f;
  ReadDir_dir : ∀ f l, ReadDir dir f = Ok l → ∀ n, n ∈ l ↔ is_Some (dir_files f !! n)
}.

Record UnitStatus := mkUnitStatus { dus_Name : string; dus_LoadState : string; dus_ActiveState : string; dus_SubState : string }.

(** The calls of a connection; [EnableUnitFiles] answers whether the units carry
    install information. *)
Class DBus (D : Type) := {
  StartUnit : string → string → D → D * res string Z;
  StopUnit : string → string → D → D * res string Z;
  Reload : D → D * res string unit;
  LinkUnitFiles : list string → bool → bool → D → D * res string unit;
  EnableUnitFiles : list string → bool → bool → D → D * res string bool;
  DisableUnitFiles : list string → bool → D → D * res string unit;
  ResetFailedUnit : string → D → D * res string unit;
  GetUnitProperties : string → D → res string (gmap string string);
  ListUnits : D → res string (list UnitStatus);
  ListUnitsByNames : list string → D → res string (list UnitStatus)
}.

(** Systemd answers a request by names with one status for each name; it starts and
    stops a unit when it accepts the request, and on no other call. *)
Class DBusLaws `(DB : DBus D) := {
  db_started : D → gset string;
  StartUnit_started : ∀ n mode d, is_ok (StartUnit n mode d).2 = true →
    db_started (StartUnit n mode d).1 = {[n]} ∪ db_started d;
  StopUnit_started : ∀ n mode d, is_ok (StopUnit n mode d).2 = true →
    db_started (StopUnit n mode d).1 = db_started d ∖ {[n]};
  Reload_started : ∀ d, db_started (Reload d).1 = db_started d;
  LinkUnitFiles_started : ∀ l b1 b2 d, db_started (LinkUnitFiles l b1 b2 d).1 = db_started d;
  EnableUnitFiles_started : ∀ l b1 b2 d, db_started (EnableUnitFiles l b1 b2 d).1 = db_started d;
  DisableUnitFiles_started : ∀ l b d, db_started (DisableUnitFiles l b d).1 = db_started d;
  ResetFailedUnit_started : ∀ n d, db_started (ResetFailedUnit n d).1 = db_started d;
  ListUnitsByNames_names : ∀ names d l, ListUnitsByNames names d = Ok l → ∀ n, n ∈ dus_Name <$> l ↔ n ∈ names
}.

(** ** [pkg/filesystem.go] *)


(** ** The manager *)

(** [unitsDir], which is set once, is a parameter of the operations. *)
Record systemdUnitManager (F D : Type) := mkSystemdUnitManager {
  sd_systemd : D;
  sd_fs : F;
  sd_hashes : gmap string Hash
}.
Arguments mkSystemdUnitManager {F D}.
Arguments sd_systemd {F D}.
Arguments sd_fs {F D}.
Arguments sd_hashes {F D}.

(** An error, or a failed type assertion, which ends the process. *)
Inductive systemd_error := SdError (e : string) | SdPanic.

Section manager.
#[local] Open Scope go_scope.
Context `{MR : MapRange, DG : Digest, FS : FileSystem F, DB : DBus D}.
Variable unitsDir : string.
#[local] Abbreviation mgr := (systemdUnitManager F D).


Definition with_dbus (d : D) (m : mgr) : mgr := mkSystemdUnitManager d m.(sd_fs) m.(sd_hashes).
Definition with_fs (f : F) (m : mgr) : mgr := mkSystemdUnitManager m.(sd_systemd) f m.(sd_hashes).
Definition with_hashes (h : gmap string Hash) (m : mgr) : mgr := mkSystemdUnitManager m.(sd_systemd) m.(sd_fs) h.






Definition getUnitFilePath (name : string) : string := path_join [unitsDir; name].

Definition writeUnit (name contents : string) (m : mgr) : mgr * res string unit :=
  let ufPath := getUnitFilePath name in
  let '(f, r) := WriteFile ufPath contents m.(sd_fs) in
  let m := with_fs f m in
  match r with
  | Err err => (m, Err err)
  | Ok _ => let '(d, r) := LinkUnitFiles [ufPath] true true m.(sd_systemd) in (with_dbus d m, r)
  end.

Definition enableUnit (name : string) (m : mgr) : mgr * res string bool :=
  let '(d, r) := EnableUnitFiles [getUnitFilePath name] true true m.(sd_systemd) in (with_dbus d m, r).

(** The error collects those of both calls; the file is removed all the same, and
    the error of removing it is dropped. *)
Definition removeUnit (name : string) (m : mgr) : mgr * res string unit :=
  let '(d, r1) := DisableUnitFiles [name] true m.(sd_systemd) in
  let err := match r1 with Err errf => Some ("<nil>, " +:+ errf) | Ok _ => None end in
  let '(d, r2) := ResetFailedUnit name d in
  let err := match r2 with Err errf => Some (default "<nil>" err +:+ ", " +:+ errf) | Ok _ => err end in
  let '(f, _) := Remove (getUnitFilePath name) m.(sd_fs) in
  (with_fs f (with_dbus d m), match err with Some e => Err e | None => Ok tt end).

Definition sd_Load (name : string) (u : UnitFile) (m : mgr) : mgr * res systemd_error unit :=
  let '(m, r) := writeUnit name (UnitFile_String u) m in
  match r with
  | Err err => (m, Err (SdError err))
  | Ok _ =>
      let loaded m := (with_hashes (<[name := UnitFile_Hash u]> m.(sd_hashes)) m, Ok tt) in
      let failed err m := ((removeUnit name m).1, Err (SdError ("Failed to enable systemd unit " +:+ name +:+ ": " +:+ err))) in
      if bool_decide (is_Some (u.(Contents) !! "Install")) then
        let '(m, r) := enableUnit name m in
        match r with
        | Ok true => loaded m
        | Ok false => failed "<nil>" m
        | Err err => failed err m
        end
      else loaded m
  end.






Definition sd_getUnitState (name : string) (m : mgr) : res systemd_error UnitState :=
  match GetUnitProperties name m.(sd_systemd) with
  | Err err => Err (SdError err)
  | Ok info =>
      match info !! "LoadState", info !! "ActiveState", info !! "SubState" with
      | Some l, Some a, Some s => Ok (mkUnitState l a s "" "" "")
      | _, _, _ => Err SdPanic
      end
  end.

(** The hash, for a unit that was loaded. *)
Definition with_hash (m : mgr) (name : string) (us : UnitState) : UnitState :=
  match m.(sd_hashes) !! name with
  | Some h => mkUnitState us.(LoadState) us.(ActiveState) us.(SubState) us.(UsMachineID) (Hash_String h) us.(UnitName)
  | None => us
  end.


Definition readUnit (name : string) (m : mgr) : res string string :=
  match ReadFile (getUnitFilePath name) m.(sd_fs) with
  | Ok contents => Ok contents
  | Err _ => Err ("no unit file at local path " +:+ getUnitFilePath name)
  end.

Definition status_state (dus : UnitStatus) : UnitState := mkUnitState dus.(dus_LoadState) dus.(dus_ActiveState) dus.(dus_SubState) "" "" "".

Definition add_statuses (m : mgr) (l : list UnitStatus) : gmap string UnitState :=
  foldl (λ states dus, <[dus.(dus_Name) := with_hash m dus.(dus_Name) (status_state dus)]> states) ∅ l.

(** The units that were not listed, asked for one by one. *)
Fixpoint add_missing (m : mgr) (names : list string) (states : gmap string UnitState) : res systemd_error (gmap string UnitState) :=
  match names with
  | [] => Ok states
  | name :: names =>
      match states !! name with
      | Some _ => add_missing m names states
      | None => let* us := sd_getUnitState name m in add_missing m names (<[name := with_hash m name us]> states)
      end
  end.

Definition sd_GetUnitStates (t : moment) (filter_ : unsafeSet) (m : mgr) : res systemd_error (gmap string UnitState) :=
  match ListUnitsByNames (unsafeSet_Values (0 :: t) filter_) m.(sd_systemd) with
  | Ok dbusStatuses => Ok (add_statuses m dbusStatuses)
  | Err _ =>
      match ListUnits m.(sd_systemd) with
      | Err err => Err (SdError err)
      | Ok dbusStatuses =>
          let listed := filter (λ dus, unsafeSet_Contains dus.(dus_Name) filter_ = true) dbusStatuses in
          add_missing m (unsafeSet_Values (1 :: t) filter_) (add_statuses m listed)
      end
  end.



(** ** The laws of a unit manager *)

Context `{FL : !FileSystemLaws FS unitsDir, DL : !DBusLaws DB}.

#[local] Arguments RecognizedUnitType : simpl never.
#[local] Arguments Hash_String : simpl never.

(** The unit files on disk, with the hashes that are known of them. *)
Definition sd_files (m : mgr) : gmap string string :=
  map_imap (λ n _, if RecognizedUnitType n then Some (default "" (Hash_String <$> m.(sd_hashes) !! n)) else None)
    (dir_files m.(sd_fs)).













(** What is on disk and the hashes decide the files. *)
Lemma sd_files_ext m m' :
  dir_files m'.(sd_fs) = dir_files m.(sd_fs) → m'.(sd_hashes) = m.(sd_hashes) → sd_files m' = sd_files m.
Proof. intros E1 E2. unfold sd_files. by rewrite E1, E2. Qed.

(** The reported states carry the hash that is known. *)
Definition hashed (m : mgr) (states : gmap string UnitState) : Prop :=
  map_Forall (λ n us, us.(UnitHash) = default "" (Hash_String <$> m.(sd_hashes) !! n)) states.

Lemma hashed_insert m states n us :
  hashed m states → us.(UnitHash) = "" → hashed m (<[n := with_hash m n us]> states).
Proof.
  intros H Hus. apply map_Forall_insert_2; [|done]. unfold with_hash. by destruct (sd_hashes m !! n).
Qed.

Lemma add_statuses_hashed m l : hashed m (add_statuses m l).
Proof.
  unfold add_statuses. assert (hashed m ∅) as H by apply map_Forall_empty. revert H. generalize (∅ : gmap string UnitState).
  induction l as [|dus l IH]; intros states H; [done|]. cbn. apply IH. by apply hashed_insert.
Qed.

Lemma add_statuses_dom m l n : is_Some (add_statuses m l !! n) ↔ n ∈ dus_Name <$> l.
Proof.
  unfold add_statuses. rewrite (lookup_foldl_insert dus_Name (λ dus, with_hash m (dus_Name dus) (status_state dus))), lookup_empty.
  rewrite list_elem_of_fmap. destruct (last _) as [dus|] eqn:E.
  - apply last_Some_elem_of, list_elem_of_filter in E as [<- Hin]. split; [eauto|by eexists].
  - apply last_None in E. split; [by intros []|]. intros (dus & -> & Hin). exfalso.
    apply (not_elem_of_nil dus). rewrite <- E. by apply list_elem_of_filter.
Qed.

Lemma sd_getUnitState_hash n m us : sd_getUnitState n m = Ok us → us.(UnitHash) = "".
Proof. unfold sd_getUnitState. repeat case_match; naive_solver. Qed.

Lemma add_missing_spec m names states states' :
  hashed m states → add_missing m names states = Ok states' →
  hashed m states' ∧ ∀ n, is_Some (states' !! n) ↔ is_Some (states !! n) ∨ n ∈ names.
Proof.
  revert states. induction names as [|name names IH]; intros states Hh; cbn.
  { intros [= <-]. split; [done|]. intros n. rewrite elem_of_nil. tauto. }
  destruct (states !! name) as [us|] eqn:E.
  - intros H. destruct (IH _ Hh H) as [Hh' Hd]. split; [done|]. intros n. rewrite Hd, elem_of_cons.
    split; [tauto|]. intros [?|[->|?]]; [by left| |by right]. left. by eexists.
  - destruct (sd_getUnitState name m) as [us|] eqn:Hus; [|done]. cbn. intros H.
    destruct (IH _ (hashed_insert m states name us Hh (sd_getUnitState_hash _ _ _ Hus)) H) as [Hh' Hd].
    split; [done|]. intros n. rewrite Hd, elem_of_cons, lookup_insert_is_Some'. naive_solver.
Qed.

Lemma elem_of_unsafeSet_Values t f n : n ∈ unsafeSet_Values t f ↔ n ∈ unsafeSet_members f.
Proof. apply (Values_members (GoSet := unsafeSet_GoSet)). Qed.

Lemma sd_GetUnitStates_spec t f m states :
  sd_GetUnitStates t f m = Ok states →
  hashed m states ∧ ∀ n, is_Some (states !! n) ↔ n ∈ unsafeSet_members f.
Proof.
  unfold sd_GetUnitStates. destruct (ListUnitsByNames _ _) as [l|] eqn:El.
  - intros [= <-]. split; [apply add_statuses_hashed|]. intros n.
    by rewrite add_statuses_dom, (ListUnitsByNames_names _ _ _ El), elem_of_unsafeSet_Values.
  - destruct (ListUnits _) as [l|]; [|done]. intros H.
    destruct (add_missing_spec _ _ _ _ (add_statuses_hashed _ _) H) as [Hh Hd]. split; [done|]. intros n.
    rewrite Hd, elem_of_unsafeSet_Values, add_statuses_dom, list_elem_of_fmap. split; [|by right].
    intros [(dus & -> & [Hc _]%list_elem_of_filter)|?]; [|done]. by apply Contains_members.
Qed.

Lemma with_dbus_files d m : sd_files (with_dbus d m) = sd_files m.
Proof. done. Qed.


(** The states that the manager reports are of exactly the units that were asked
    for, also the inactive ones, each with the hash of the file it was loaded from;
    so they are whether systemd can list units by name or has to list all of them. *)
Theorem sd_GetUnitStates_complete t f m states :
  sd_GetUnitStates t f m = Ok states →
  (∀ n, is_Some (states !! n) ↔ n ∈ unsafeSet_members f) ∧
  (∀ n us, states !! n = Some us → us.(UnitHash) = default "" (Hash_String <$> m.(sd_hashes) !! n)).
Proof. intros H. apply sd_GetUnitStates_spec in H as [Hh Hd]. split; [done|]. intros n us. apply Hh. Qed.

(** ** Restarts *)










End manager.

(** ** Witnesses: one directory and a systemd that does as it is told *)

Definition ex_units_dir : string := "/run/fleet/units".

Definition good_files (f : gmap string string) : gmap string string := base.filter (λ p, good_elem p.1) f.

(** One of the files cannot be removed. *)
#[local] Instance mem_fs : FileSystem (gmap string string) := {|
  MkdirAll _ f := (f, Ok tt);
  WriteFile p c f := (<[path_split_file p := c]> f, Ok tt);
  ReadFile p f := match f !! path_split_file p with Some c => Ok c | None => Err "no such file" end;
  Remove p f :=
    if decide (path_split_file p = "stuck.service") then (f, Err "operation not permitted")
    else (delete (path_split_file p) f, Ok tt);
  ReadDir _ f := Ok (map_to_list (good_files f)).*1 |}.

Lemma ex_path n : good_elem n → path_split_file (path_join [ex_units_dir; n]) = n.
Proof.
  intros Hn. change ex_units_dir with (key_of ["run"; "fleet"; "units"]).
  rewrite path_join_child; [|by repeat constructor|done]. by apply path_split_file_key.
Qed.

#[local] Instance mem_fs_laws : FileSystemLaws mem_fs ex_units_dir.
Proof.
  refine {| dir_files := good_files |}; cbn.
  - intros f n [c Hc]. by apply map_lookup_filter_Some in Hc as [_ ?].
  - done.
  - intros f n c Hn _. rewrite ex_path by done. by apply map_filter_insert_True.
  - done.
  - intros f n c Hn Hc. rewrite ex_path by done. apply map_lookup_filter_Some in Hc as [-> _]. done.
  - intros f n Hn. rewrite ex_path by done. case_decide; [done|]. intros _. apply map_filter_delete.
  - intros f n Hn. rewrite ex_path by done. by case_decide.
  - intros f l [= <-] n. rewrite list_elem_of_fmap. split.
    + intros ([n' c] & -> & Hin%elem_of_map_to_list). by eexists.
    + intros [c Hc]. exists (n, c). split; [done|]. by apply elem_of_map_to_list.
Defined.

(** Systemd of version 230, or an older one that cannot list by names, with the units
    that it was told to start. *)
#[local] Instance mem_dbus : DBus (bool * gset string) := {|
  StartUnit n _ d := ((d.1, {[n]} ∪ d.2), Ok 1%Z); StopUnit n _ d := ((d.1, d.2 ∖ {[n]}), Ok 1%Z); Reload d := (d, Ok tt);
  LinkUnitFiles _ _ _ d := (d, Ok tt); EnableUnitFiles _ _ _ d := (d, Ok true); DisableUnitFiles _ _ d := (d, Ok tt);
  ResetFailedUnit _ d := (d, Ok tt);
  GetUnitProperties _ _ := Ok {[ "LoadState" := "loaded"; "ActiveState" := "inactive"; "SubState" := "dead" ]};
  ListUnits _ := Ok [mkUnitStatus "web.service" "loaded" "active" "running"; mkUnitStatus "sshd.service" "loaded" "active" "running"];
  ListUnitsByNames names d :=
    if (d.1 : bool) then Ok ((λ n, mkUnitStatus n "loaded" "active" "running") <$> names) else Err "Unknown method" |}.

#[local] Instance mem_dbus_laws : DBusLaws mem_dbus.
Proof.
  refine {| db_started := (snd : bool * gset string → gset string) |}; try done.
  intros names [[] st] l; [|done]. intros [= <-] n. rewrite <- list_fmap_compose.
  by rewrite (list_fmap_ext _ id), list_fmap_id by done.
Defined.

#[local] Existing Instance canonical_range.

#[local] Instance sd_digest : Digest.
Proof.
  refine {| sha1_sum := λ s, str_take 20 (s +:+ "00000000000000000000") |}.
  intros s. rewrite str_length_take, str_length_app. change (String.length "00000000000000000000") with 20. lia.
Defined.


(** The options of the first section come in two parts. *)
Definition ex_sd_file (cmd : string) : UnitFile :=
  NewUnitFromOptions [mkUnitOption "Unit" "Description" "example"; mkUnitOption "Service" "ExecStart" cmd;
                      mkUnitOption "Unit" "After" "docker.service"].

Definition sd_empty (d : bool) : systemdUnitManager (gmap string string) (bool * gset string) := mkSystemdUnitManager (d, ∅) ∅ ∅.
Definition sd_web (d : bool) : systemdUnitManager (gmap string string) (bool * gset string) :=
  (sd_Load ex_units_dir "web.service" (ex_sd_file "/usr/bin/web") (sd_empty d)).1.



(** An older systemd: one of the units is not listed, one was not asked for. *)
Definition sd_states : gmap string UnitState :=
  match sd_GetUnitStates [] (NewUnsafeSet ["web.service"; "db.service"]) (sd_web false) with Ok states => states | Err _ => ∅ end.

Lemma sd_GetUnitStates_complete_witness :
  is_Some (sd_states !! "db.service") ∧ (is_Some (sd_states !! "sshd.service") ↔
    "sshd.service" ∈ unsafeSet_members (NewUnsafeSet ["web.service"; "db.service"])).
Proof.
  assert (sd_GetUnitStates [] (NewUnsafeSet ["web.service"; "db.service"]) (sd_web false) = Ok sd_states) as E by (vm_compute; reflexivity).
  destruct (sd_GetUnitStates_complete [] (NewUnsafeSet ["web.service"; "db.service"]) (sd_web false) sd_states E) as [H _].
  split; [apply H; vm_compute; reflexivity|apply H].
Defined.
