(* ===== verification/Publisher.v ===== *)
(** * [agent/unit_state.go]: publishing unit states

    The publisher is concurrent: beats arrive, a timer re-queues everything,
    goroutines queue states for publication and a pool of workers publishes
    them.  Each critical section is an operation; [pub_step] interleaves them. *)

From stdpp Require Import base list gmap strings.
From Stdlib Require Import ZArith.
From S2P Require Import Prelude GoStrings Pkg UnitFile UnitManager.

Definition numPublishers : nat := 5.

Class StateRegistry (Rg E : Type) := {
  sr_RemoveUnitState : string → Rg → Rg * res E unit;
  sr_SaveUnitState : string → UnitState → Z → Rg → Rg
}.

(** What one call of the publish function does to the registry. *)
Definition newPublisher `{StateRegistry Rg E} (ttl : Z) (name : string) (us : option UnitState) (reg : Rg) : Rg :=
  match us with
  | None => (sr_RemoveUnitState name reg).1
  | Some us =>
      if bool_decide (String.length us.(UnitHash) = 0) then reg
      else if bool_decide (String.length us.(UsMachineID) = 0) then reg
      else sr_SaveUnitState name us ttl reg
  end.

(** The period between two publications of the whole cache, in nanoseconds. *)
Definition publish_period (ttl : Z) : Z :=
  if bool_decide (10 * 1000000000 < ttl)%Z then Z.quot (int64_wrap (ttl * 4)) 5 else Z.quot ttl 2.

(** The maps hold pointers: [None] is a nil state, the sign of a removal. *)
Abbreviation state_map := (gmap string (option UnitState)).

Record UnitStatePublisher := mkPublisher {
  p_machID : string;
  p_cache : state_map;
  p_toPublishStates : state_map
}.

Definition NewUnitStatePublisher (machID : string) : UnitStatePublisher := mkPublisher machID ∅ ∅.

Definition updateCache (update : UnitStateHeartbeat) (p : UnitStatePublisher) : bool * UnitStatePublisher :=
  let last := p.(p_cache) !! update.(HbName) in
  (negb (bool_decide (last = Some update.(HbState))),
   mkPublisher p.(p_machID) (<[update.(HbName) := update.(HbState)]> p.(p_cache)) p.(p_toPublishStates)).

Definition pruneCache (p : UnitStatePublisher) : UnitStatePublisher :=
  mkPublisher p.(p_machID) (filter (λ '(_, us), us ≠ None) p.(p_cache)) p.(p_toPublishStates).

(** The part of [queueForPublish] under the lock. *)
Definition queueForPublish (name : string) (us : option UnitState) (p : UnitStatePublisher) : UnitStatePublisher :=
  mkPublisher p.(p_machID) p.(p_cache) (<[name := us]> p.(p_toPublishStates)).

(** A worker received [name]: it takes the state out, if there is one. *)
Definition takeState (name : string) (p : UnitStatePublisher) : option (option UnitState) * UnitStatePublisher :=
  match p.(p_toPublishStates) !! name with
  | None => (None, p)
  | Some us => (Some us, mkPublisher p.(p_machID) p.(p_cache) (delete name p.(p_toPublishStates)))
  end.

(** A beat gets the machine's id before it is cached. *)
Definition stamp (machID : string) (bt : UnitStateHeartbeat) : UnitStateHeartbeat :=
  mkHeartbeat bt.(HbName)
    ((λ us, mkUnitState us.(LoadState) us.(ActiveState) us.(SubState) machID us.(UnitHash) us.(UnitName))
       <$> bt.(HbState)).

Definition Purge_publisher `{MapRange, StateRegistry Rg E} (t : moment) (ttl : Z) (p : UnitStatePublisher)
    (reg : Rg) : Rg :=
  foldl (λ reg name, newPublisher ttl name None reg) reg (range t p.(p_cache)).*1.

(** ** The concurrent publisher *)

(** Goroutines about to queue a state, goroutines blocked sending a name to the
    workers, workers holding a state, and the publications done so far. *)
Record pub_state := mkPub {
  pub : UnitStatePublisher;
  queuers : list (string * option UnitState);
  senders : list string;
  workers : list (string * option UnitState);
  published : list (string * option UnitState)
}.

Definition pub_init (machID : string) : pub_state := mkPub (NewUnitStatePublisher machID) [] [] [] [].

Section publisher.
Context `{MR : MapRange}.

Inductive pub_step : pub_state → pub_state → Prop :=
| pub_beat p q s w l bt :
    let bt' := stamp p.(p_machID) bt in
    let r := updateCache bt' p in
    pub_step (mkPub p q s w l)
      (mkPub r.2 (if r.1 then q ++ [(bt'.(HbName), bt'.(HbState))] else q) s w l)
| pub_tick t p q s w l :
    pub_step (mkPub p q s w l) (mkPub (pruneCache p) (q ++ range t p.(p_cache)) s w l)
| pub_queue p q1 q2 s w l n us :
    pub_step (mkPub p (q1 ++ (n, us) :: q2) s w l) (mkPub (queueForPublish n us p) (q1 ++ q2) (s ++ [n]) w l)
| pub_receive p q s1 s2 w l n :
    length w < numPublishers →
    let r := takeState n p in
    pub_step (mkPub p q (s1 ++ n :: s2) w l)
      (mkPub r.2 q (s1 ++ s2) (match r.1 with Some us => w ++ [(n, us)] | None => w end) l)
| pub_publish p q s w1 w2 l n us :
    pub_step (mkPub p q s (w1 ++ (n, us) :: w2) l) (mkPub p q s (w1 ++ w2) (l ++ [(n, us)])).

Inductive pub_reachable (machID : string) : pub_state → Prop :=
| reach_init : pub_reachable machID (pub_init machID)
| reach_step st st' : pub_reachable machID st → pub_step st st' → pub_reachable machID st'.

(** ** Invariants *)

Definition stamped (machID : string) (x : string * option UnitState) : Prop :=
  match x.2 with Some us => us.(UsMachineID) = machID | None => True end.

Record pub_inv (machID : string) (st : pub_state) : Prop := {
  inv_machID : st.(pub).(p_machID) = machID;
  inv_pending : ∀ n, is_Some (st.(pub).(p_toPublishStates) !! n) → n ∈ st.(senders);
  inv_workers : length st.(workers) ≤ numPublishers;
  inv_cache : map_Forall (λ n us, stamped machID (n, us)) st.(pub).(p_cache);
  inv_states : map_Forall (λ n us, stamped machID (n, us)) st.(pub).(p_toPublishStates);
  inv_lists : Forall (stamped machID) (st.(queuers) ++ st.(workers) ++ st.(published))
}.

Lemma stamped_stamp machID bt : stamped machID ((stamp machID bt).(HbName), (stamp machID bt).(HbState)).
Proof. by destruct bt as [n [us|]]. Qed.

Lemma pub_inv_step machID st st' : pub_inv machID st → pub_step st st' → pub_inv machID st'.
Proof.
  intros [Hm Hp Hw Hc Hs Hl] Hstep.
  destruct Hstep as [p q s w l bt|t p q s w l|p q1 q2 s w l n us|p q s1 s2 w l n Hlt|p q s w1 w2 l n us];
    repeat match goal with x := _ |- _ => subst x end;
    cbn [pub queuers senders workers published p_machID p_cache p_toPublishStates] in *; subst machID.
  - split; cbn; try done.
    + apply map_Forall_insert_2; [apply stamped_stamp|done].
    + case_bool_decide; cbn; [done|]. rewrite <- !app_assoc, !Forall_app in *.
      destruct Hl as (? & ? & ?). split_and!; try done. repeat constructor. apply stamped_stamp.
  - split; cbn; try done.
    + intros n us [? _]%map_lookup_filter_Some. by apply Hc.
    + rewrite !Forall_app in *. destruct Hl as (? & ? & ?). split_and!; try done.
      apply Forall_forall. intros [n us] Hin%elem_of_range. by apply Hc.
  - rewrite !Forall_app, Forall_cons in Hl. destruct Hl as ((? & ? & ?) & ? & ?). split; cbn; try done.
    + intros n'. rewrite lookup_insert_is_Some. intros [<-|[_ Hn']]; [set_solver|].
      apply elem_of_app. left. auto.
    + by apply map_Forall_insert_2.
    + by rewrite !Forall_app.
  - unfold takeState. destruct (p_toPublishStates p !! n) as [us|] eqn:E; split; cbn; try done.
    + intros n'. rewrite lookup_delete_is_Some. intros [Hne Hn']. apply Hp in Hn'. set_solver.
    + rewrite length_app. cbn. lia.
    + by apply map_Forall_delete.
    + rewrite !Forall_app in *. destruct Hl as (? & ? & ?). split_and!; try done.
      constructor; [|done]. by apply Hs in E.
    + intros n' Hn'. destruct (decide (n' = n)) as [->|]; [by rewrite E in Hn'; destruct Hn'|].
      apply Hp in Hn'. set_solver.
  - rewrite !Forall_app, Forall_cons in Hl. destruct Hl as (? & (? & ? & ?) & ?). split; cbn; try done.
    + rewrite !length_app in *. cbn in *. lia.
    + rewrite !Forall_app. repeat split; try done. by constructor.
Qed.

Lemma pub_reachable_inv machID st : pub_reachable machID st → pub_inv machID st.
Proof.
  induction 1 as [|st st' _ IH Hstep]; [|by eapply pub_inv_step].
  split; cbn; try done; try lia; try apply map_Forall_empty.
  intros n. rewrite lookup_empty. by intros [].
Qed.

(** C27: no update is lost: in every reachable state of the publisher, a state
    that waits to be published has a goroutine that will wake a worker for it;
    so when no goroutine is left to run, nothing is left to publish.  There are
    never more than [numPublishers] publications under way. *)
Theorem publisher_no_lost_update machID st n :
  pub_reachable machID st →
  (is_Some (st.(pub).(p_toPublishStates) !! n) → n ∈ st.(senders)) ∧
  (st.(senders) = [] → st.(pub).(p_toPublishStates) = ∅) ∧
  length st.(workers) ≤ numPublishers.
Proof.
  intros [_ Hp Hw _ _ _]%pub_reachable_inv. split_and!; [apply Hp| |done].
  intros Hs. apply map_empty. intros n'. destruct (p_toPublishStates (pub st) !! n') eqn:E; [|done].
  exfalso. apply (not_elem_of_nil n'). rewrite <- Hs. apply Hp. by rewrite E.
Qed.

(** What is published carries the id of this machine; and the publish
    function saves a state in the registry only when it has both a machine id
    and the hash of a unit file. *)
Theorem publisher_stamps `{StateRegistry Rg E} machID st n us ttl (reg : Rg) :
  pub_reachable machID st → (n, Some us) ∈ st.(published) → machID ≠ "" →
  us.(UsMachineID) = machID ∧
  newPublisher ttl n (Some us) reg =
    if decide (us.(UnitHash) = "") then reg else sr_SaveUnitState n us ttl reg.
Proof.
  intros [_ _ _ _ _ Hl]%pub_reachable_inv Hin Hm. rewrite !Forall_app in Hl. destruct Hl as (_ & _ & Hl).
  rewrite Forall_forall in Hl. apply Hl in Hin. cbn in Hin. split; [done|]. unfold newPublisher.
  destruct us as [? ? ? m h ?]. cbn in *. subst m.
  destruct h as [|c h]; cbn; [done|]. rewrite bool_decide_eq_false_2 by done.
  by destruct machID.
Qed.

(** Everything is published in the end, but not always the latest state. *)
Definition stale (st : pub_state) : Prop :=
  st.(queuers) = [] ∧ st.(senders) = [] ∧ st.(workers) = [] ∧
  ∃ n us us', st.(pub).(p_cache) !! n = Some us ∧ last st.(published) = Some (n, us') ∧ us' ≠ us.

(** The goroutines that queue two states of one unit may run in either
    order: the publisher can come to rest having published, last, a state that
    is older than the one in its cache. *)
Theorem publisher_may_be_stale : ∃ st, pub_reachable "m1" st ∧ stale st.
Proof.
  set (a := mkUnitState "loaded" "active" "running" "m1" "h" "").
  set (b := mkUnitState "loaded" "failed" "failed" "m1" "h" "").
  set (p0 := NewUnitStatePublisher "m1").
  set (p1 := (updateCache (mkHeartbeat "u" (Some a)) p0).2).
  set (p2 := (updateCache (mkHeartbeat "u" (Some b)) p1).2).
  assert (pub_reachable "m1" (mkPub p1 [("u", Some a)] [] [] [])) as H1.
  { eapply reach_step; [apply reach_init|]. exact (pub_beat p0 [] [] [] [] (mkHeartbeat "u" (Some a))). }
  assert (pub_reachable "m1" (mkPub p2 [("u", Some a); ("u", Some b)] [] [] [])) as H2.
  { eapply reach_step; [exact H1|]. exact (pub_beat p1 [("u", Some a)] [] [] [] (mkHeartbeat "u" (Some b))). }
  set (p3 := queueForPublish "u" (Some b) p2). set (p4 := queueForPublish "u" (Some a) p3).
  assert (pub_reachable "m1" (mkPub p3 [("u", Some a)] ["u"] [] [])) as H3.
  { eapply reach_step; [exact H2|]. exact (pub_queue p2 [("u", Some a)] [] [] [] [] "u" (Some b)). }
  assert (pub_reachable "m1" (mkPub p4 [] ["u"; "u"] [] [])) as H4.
  { eapply reach_step; [exact H3|]. exact (pub_queue p3 [] [] ["u"] [] [] "u" (Some a)). }
  set (p5 := (takeState "u" p4).2).
  assert (pub_reachable "m1" (mkPub p5 [] ["u"] [("u", Some a)] [])) as H5.
  { eapply reach_step; [exact H4|]. refine (pub_receive p4 [] [] ["u"] [] [] "u" _). cbn. unfold numPublishers. lia. }
  assert (pub_reachable "m1" (mkPub p5 [] [] [("u", Some a)] [])) as H6.
  { eapply reach_step; [exact H5|]. refine (pub_receive p5 [] [] [] [("u", Some a)] [] "u" _). cbn. unfold numPublishers. lia. }
  eexists. split.
  - eapply reach_step; [exact H6|]. exact (pub_publish p5 [] [] [] [] [] "u" (Some a)).
  - split_and!; try done. exists "u", (Some b), (Some a). split_and!; [reflexivity|reflexivity|].
    unfold a, b. congruence.
Qed.
End publisher.

(** ** Witnesses *)

Definition ex_beat : UnitStateHeartbeat :=
  mkHeartbeat "u" (Some (mkUnitState "loaded" "active" "running" "" "h" "")).

(** One beat, queued, taken by a worker and published. *)
Definition ex_queued : pub_state :=
  let p := (updateCache (stamp "m1" ex_beat) (NewUnitStatePublisher "m1")).2 in
  mkPub (queueForPublish "u" (stamp "m1" ex_beat).(HbState) p) [] ["u"] [] [].

Lemma ex_queued_reachable : pub_reachable (MR := canonical_range) "m1" ex_queued.
Proof.
  eapply reach_step; [eapply reach_step; [apply reach_init|]|].
  - exact (pub_beat (NewUnitStatePublisher "m1") [] [] [] [] ex_beat).
  - exact (pub_queue _ [] [] [] [] [] "u" (stamp "m1" ex_beat).(HbState)).
Qed.

Definition ex_published : pub_state :=
  mkPub (takeState "u" ex_queued.(pub)).2 [] [] [] [("u", (stamp "m1" ex_beat).(HbState))].

Lemma ex_published_reachable : pub_reachable (MR := canonical_range) "m1" ex_published.
Proof.
  eapply reach_step; [eapply reach_step; [apply ex_queued_reachable|]|].
  - refine (pub_receive _ [] [] [] [] [] "u" _). cbn. unfold numPublishers. lia.
  - exact (pub_publish _ [] [] [] [] [] "u" _).
Qed.

Lemma publisher_no_lost_update_witness :
  is_Some (ex_queued.(pub).(p_toPublishStates) !! "u") ∧ "u" ∈ ex_queued.(senders).
Proof.
  assert (is_Some (ex_queued.(pub).(p_toPublishStates) !! "u")) as Hq by (vm_compute; eauto).
  split; [exact Hq|].
  apply (publisher_no_lost_update (MR := canonical_range) "m1" ex_queued "u"); [|exact Hq].
  apply ex_queued_reachable.
Defined.

Definition log_registry : StateRegistry (list string) string := {|
  sr_RemoveUnitState n r := (r ++ ["remove " +:+ n], Ok tt);
  sr_SaveUnitState n _ _ r := r ++ ["save " +:+ n] |}.

Lemma publisher_stamps_witness :
  newPublisher (H := log_registry) 30 "u" (Some (mkUnitState "loaded" "active" "running" "m1" "h" "")) [] =
  ["save u"].
Proof.
  refine (proj2 (publisher_stamps (MR := canonical_range) (H := log_registry) "m1" ex_published "u"
    (mkUnitState "loaded" "active" "running" "m1" "h" "") 30 [] _ _ _)).
  - apply ex_published_reachable.
  - left.
  - discriminate.
Defined.
