(* ===== verification/Components.v ===== *)
(** * The goroutines of a running server

    [Server.Run] starts loops that end when the channel [stop] is closed:
    [CoreOSMachine.PeriodicRefresh] ([machine/coreos.go]), [Agent.Heartbeat]
    ([agent/agent.go]), and the two ends of the channel of heartbeats,
    [UnitStateGenerator.Run] ([unit/generator.go]) and [UnitStatePublisher.Run]
    ([agent/unit_state.go]).  A [select] with several cases ready takes any of them. *)

From Stdlib Require Import ZArith.
From stdpp Require Import base list gmap strings relations.
From S2P Require Import Prelude GoStrings Pkg UnitFile Job Machine UnitManager Agent Publisher.

(** ** Loops around a ticker *)

Record looping (S : Type) := mkLoop { lp_state : S; lp_stop : bool; lp_done : bool }.
Arguments mkLoop {S} lp_state lp_stop lp_done.
Arguments lp_state {S} l.
Arguments lp_stop {S} l.
Arguments lp_done {S} l.

(** A tick runs the body, a closed channel ends the loop, and the server may close the
    channel at any time. *)
Inductive loop_step {S} (body : S → S → Prop) : looping S → looping S → Prop :=
| lp_tick s s' stop : body s s' → loop_step body (mkLoop s stop false) (mkLoop s' stop false)
| lp_return s : loop_step body (mkLoop s true false) (mkLoop s true true)
| lp_close s d : loop_step body (mkLoop s false d) (mkLoop s true d).

(** What the body keeps, the loop keeps, and it ends only after it was told to. *)
Lemma loop_invariant {S} (body : S → S → Prop) (P : S → Prop) s l :
  (∀ s s', P s → body s s' → P s') → P s → rtc (loop_step body) (mkLoop s false false) l →
  P l.(lp_state) ∧ (l.(lp_done) = true → l.(lp_stop) = true).
Proof.
  intros Hb Hs Hr.
  cut (∀ l0, P l0.(lp_state) ∧ (l0.(lp_done) = true → l0.(lp_stop) = true) → rtc (loop_step body) l0 l →
    P l.(lp_state) ∧ (l.(lp_done) = true → l.(lp_stop) = true)); [intros H; by eapply H; [|exact Hr]|].
  clear s Hs Hr. induction 2 as [|l1 l2 l3 Hstep _ IH]; [done|]. apply IH. destruct Hstep; naive_solver.
Qed.

(** *** [PeriodicRefresh]: every tick may find another machine file and other addresses *)
Definition PeriodicRefresh : looping CoreOSMachine → looping CoreOSMachine → Prop :=
  loop_step (λ m m', ∃ file publicIP, m' = CoreOSMachine_Refresh (currentState file publicIP) m).

(** What is configured stays, whatever the system says while the daemon runs, and once
    the machine has an identity it is never without one. *)
Theorem PeriodicRefresh_keeps m l :
  rtc PeriodicRefresh (mkLoop m false false) l →
  let st := CoreOSMachine_State m in
  let st' := CoreOSMachine_State l.(lp_state) in
  l.(lp_state).(staticState) = m.(staticState) ∧
  (m.(staticState).(PublicIP) ≠ "" → st'.(PublicIP) = m.(staticState).(PublicIP)) ∧
  (m.(staticState).(Metadata) ≠ ∅ → st'.(Metadata) = m.(staticState).(Metadata)) ∧
  (m.(staticState).(Capabilities) ≠ ∅ → st'.(Capabilities) = m.(staticState).(Capabilities)) ∧
  (st.(ID) ≠ "" → st'.(ID) ≠ "").
Proof.
  intros Hr. cbn zeta.
  assert (Hs : l.(lp_state).(staticState) = m.(staticState) ∧
    ((CoreOSMachine_State m).(ID) ≠ "" → (CoreOSMachine_State l.(lp_state)).(ID) ≠ "")).
  { revert Hr. intros Hr. refine (proj1 (loop_invariant _ (λ m', m'.(staticState) = m.(staticState) ∧
      ((CoreOSMachine_State m).(ID) ≠ "" → (CoreOSMachine_State m').(ID) ≠ "")) m l _ _ Hr)); [|done].
    intros m1 m2 [Hst Hid] (file & ip & ->). unfold CoreOSMachine_Refresh, currentState, readLocalMachineID.
    destruct file as [contents|]; [|done]. cbn zeta. case_decide as Hd; [done|]. cbn. split; [done|]. intros _.
    by case_decide. }
  destruct Hs as [Hst Hid]. split; [done|]. unfold CoreOSMachine_State at 1 2 3.
  destruct (dynamicState (lp_state l)) as [dyn|]; cbn; rewrite Hst; split_and!; try done;
    intros Hne; by rewrite decide_False.
Qed.

(** *** [Heartbeat] *)
Section heartbeats.
Context `{MR : MapRange} {U Eu Rg Er : Type} `{AR : !AgentRegistry Rg Er}.

Definition agent_Heartbeat : looping (Agent U Rg) → looping (Agent U Rg) → Prop :=
  loop_step (λ a a', ∃ t, a' = heartbeat t a).
End heartbeats.

(** ** The channel of heartbeats *)

Section pipeline.
Context `{MR : MapRange} {U E : Type} `{UM : !UnitManager U E}.

(** The generator waits for its ticker ([pl_sending] is [None]), or hands over what
    [Generate] found, of which the heartbeats in [pl_sending] are left; [pl_generated] is
    all that it found, [pl_received] all that the publisher got. *)
Record pipeline := mkPipeline {
  pl_manager : U; pl_gen : UnitStateGenerator; pl_sending : option (list UnitStateHeartbeat); pl_gen_done : bool;
  pl_pub : UnitStatePublisher; pl_pub_done : bool; pl_stop : bool;
  pl_generated : list UnitStateHeartbeat; pl_received : list UnitStateHeartbeat
}.

(** The case of the publisher that receives a heartbeat. *)
Definition pub_receives (bt : UnitStateHeartbeat) (p : UnitStatePublisher) : UnitStatePublisher :=
  (updateCache (stamp p.(p_machID) bt) p).2.

(** [pl_agent]: the agent subscribes and unsubscribes, and the units change. *)
Inductive pipeline_step : pipeline → pipeline → Prop :=
| pl_tick t u g g' beats p pd stop gen rec :
    Generate t u g = (g', Ok beats) →
    pipeline_step (mkPipeline u g None false p pd stop gen rec) (mkPipeline u g' (Some beats) false p pd stop (gen ++ beats) rec)
| pl_tick_error t u g g' e p pd stop gen rec :
    Generate t u g = (g', Err e) →
    pipeline_step (mkPipeline u g None false p pd stop gen rec) (mkPipeline u g' None false p pd stop gen rec)
| pl_handover u g bt beats p stop gen rec :
    pipeline_step (mkPipeline u g (Some (bt :: beats)) false p false stop gen rec)
      (mkPipeline u g (Some beats) false (pub_receives bt p) false stop gen (rec ++ [bt]))
| pl_handed_over u g p pd stop gen rec :
    pipeline_step (mkPipeline u g (Some []) false p pd stop gen rec) (mkPipeline u g None false p pd stop gen rec)
| pl_gen_return u g p pd gen rec :
    pipeline_step (mkPipeline u g None false p pd true gen rec) (mkPipeline u g None true p pd true gen rec)
| pl_pub_return u g s d p gen rec :
    pipeline_step (mkPipeline u g s d p false true gen rec) (mkPipeline u g s d p true true gen rec)
| pl_close u g s d p pd gen rec :
    pipeline_step (mkPipeline u g s d p pd false gen rec) (mkPipeline u g s d p pd true gen rec)
| pl_prune u g s d p pd stop gen rec :
    pipeline_step (mkPipeline u g s d p pd stop gen rec) (mkPipeline u g s d (pruneCache p) pd stop gen rec)
| pl_agent u u' g g' s d p pd stop gen rec :
    g'.(lastSubscribed) = g.(lastSubscribed) →
    pipeline_step (mkPipeline u g s d p pd stop gen rec) (mkPipeline u' g' s d p pd stop gen rec).

Definition pipeline_init (u : U) (machID : string) : pipeline :=
  mkPipeline u NewUnitStateGenerator None false (NewUnitStatePublisher machID) false false [] [].

Definition pipeline_reachable (u : U) (machID : string) : pipeline → Prop := rtc pipeline_step (pipeline_init u machID).

(** *** Nothing is lost or overtaken on the way *)

Definition pipeline_inv (st : pipeline) : Prop :=
  st.(pl_received) ++ default [] st.(pl_sending) = st.(pl_generated) ∧
  (st.(pl_gen_done) = true → st.(pl_sending) = None ∧ st.(pl_stop) = true) ∧
  (st.(pl_pub_done) = true → st.(pl_stop) = true).

Lemma pipeline_inv_step st st' : pipeline_inv st → pipeline_step st st' → pipeline_inv st'.
Proof.
  intros (Hl & Hg & Hp) Hstep. destruct Hstep; unfold pipeline_inv in *; cbn in *; split_and!;
    try done; try (intros Hd; first [discriminate Hd|by apply Hg|by apply Hp|by split; [apply Hg|]]).
  - by rewrite <- Hl, app_nil_r.
  - rewrite <- Hl. by rewrite <- app_assoc.
Qed.

Lemma pipeline_reachable_inv u machID st : pipeline_reachable u machID st → pipeline_inv st.
Proof.
  intros Hr. assert (Hi : pipeline_inv (pipeline_init u machID)) by done. revert Hi.
  induction Hr as [|a b c Hab _ IH]; [done|]. intros Hi. by apply IH, (pipeline_inv_step a).
Qed.

(** The publisher gets the heartbeats in the order in which they were generated; all of
    them have arrived whenever the generator waits for its ticker, and when it has
    returned. *)
Theorem heartbeats_in_order u machID st : pipeline_reachable u machID st →
  st.(pl_received) `prefix_of` st.(pl_generated) ∧
  (st.(pl_sending) = None ∨ st.(pl_gen_done) = true → st.(pl_received) = st.(pl_generated)).
Proof.
  intros (Hl & Hg & _)%pipeline_reachable_inv. split; [by eexists|].
  intros Hn. assert (st.(pl_sending) = None) as Hs by (destruct Hn as [?|Hn]; [done|by apply Hg]).
  rewrite Hs in Hl. cbn in Hl. by rewrite app_nil_r in Hl.
Qed.

(** *** Shutting down *)

(** The generator is handing over a heartbeat and there is nobody to take it. *)
Definition stuck (st : pipeline) : Prop :=
  st.(pl_pub_done) = true ∧ st.(pl_gen_done) = false ∧ ∃ bt beats, st.(pl_sending) = Some (bt :: beats).

Lemma stuck_step st st' : stuck st → pipeline_step st st' → stuck st'.
Proof. intros (Hp & Hg & bt & beats & Hs) Hstep. unfold stuck. destruct Hstep; cbn in *; simplify_eq; eauto 10. Qed.

Lemma stuck_steps st st' : stuck st → rtc pipeline_step st st' → stuck st'.
Proof. intros Hs Hr. induction Hr as [|a b c Hab _ IH]; [done|]. by apply IH, (stuck_step a). Qed.

(** C36: the components of a server cannot always be stopped: if the manager has a state
    to report, the publisher may return while the generator hands over a heartbeat, and
    from then on the generator never returns, so that the supervisor waits in vain and
    panics.  While the publisher has not returned, the generator can always finish. *)
Theorem generator_stuck u machID st t g' bt beats :
  pipeline_reachable u machID st → st.(pl_sending) = None → st.(pl_gen_done) = false → st.(pl_pub_done) = false →
  Generate t st.(pl_manager) st.(pl_gen) = (g', Ok (bt :: beats)) →
  (∃ st1, rtc pipeline_step st st1 ∧ st1.(pl_stop) = true ∧
     ∀ st2, rtc pipeline_step st1 st2 → st2.(pl_pub_done) = true ∧ st2.(pl_gen_done) = false) ∧
  (∀ st1, rtc pipeline_step st st1 → st1.(pl_pub_done) = false →
     ∃ st2, rtc pipeline_step st1 st2 ∧ st2.(pl_gen_done) = true ∧ st2.(pl_received) = st1.(pl_generated)).
Proof.
  intros Hr Hs Hg Hp Hgen. split.
  - destruct st as [u1 g s d p pd stop gen rec]. cbn in *. subst s d pd.
    exists (mkPipeline u1 g' (Some (bt :: beats)) false p true true (gen ++ bt :: beats) rec). split_and!; [|done|].
    + eapply rtc_l; [by eapply pl_tick|]. destruct stop; [|eapply rtc_l; [apply pl_close|]];
        eapply rtc_l; [apply pl_pub_return|constructor|apply pl_pub_return|constructor].
    + intros st2 Hr2. apply stuck_steps in Hr2 as (? & ? & _); [done|]. split_and!; eauto.
  - intros st1 Hr1 Hp1. assert (Hr' : pipeline_reachable u machID st1) by (unfold pipeline_reachable in *; by etrans).
    apply pipeline_reachable_inv in Hr' as (Hl & Hg1 & _). clear Hr Hs Hg Hp Hgen Hr1.
    destruct st1 as [u1 g1 s d p pd stop gen rec]. cbn in *. subst pd.
    destruct d; [destruct Hg1 as [-> ->]; [done|]; cbn in *; rewrite app_nil_r in Hl; by eexists; split; [constructor|]|].
    assert (Hsend : ∀ beats p rec, ∃ p', rtc pipeline_step (mkPipeline u1 g1 (Some beats) false p false stop gen rec)
      (mkPipeline u1 g1 None false p' false stop gen (rec ++ beats))).
    { clear. induction beats as [|b beats IH]; intros p rec.
      - exists p. rewrite app_nil_r. apply rtc_once, pl_handed_over.
      - destruct (IH (pub_receives b p) (rec ++ [b])) as [p' Hp']. exists p'. rewrite <- app_assoc in Hp'.
        eapply rtc_l; [apply pl_handover|done]. }
    assert (Hwait : ∃ p', rtc pipeline_step (mkPipeline u1 g1 s false p false stop gen rec)
      (mkPipeline u1 g1 None false p' false stop gen (rec ++ default [] s))).
    { destruct s as [beats'|]; cbn; [apply Hsend|]. exists p. rewrite app_nil_r. constructor. }
    destruct Hwait as [p' Hwait]. rewrite Hl in Hwait. exists (mkPipeline u1 g1 None true p' false true gen gen). split_and!; [|done|done].
    etrans; [exact Hwait|]. destruct stop; [apply rtc_once, pl_gen_return|].
    eapply rtc_l; [apply pl_close|]. apply rtc_once, pl_gen_return.
Qed.
End pipeline.
Arguments pipeline : clear implicits.

(** ** Examples *)

(** A manager with a unit that the agent subscribed to. *)
Definition ex_manager : FakeUnitManager := mkFakeUnitManager {["a.service" := false]}.

Definition ex_subscribed : pipeline FakeUnitManager :=
  mkPipeline ex_manager (Subscribe "a.service" NewUnitStateGenerator) None false (NewUnitStatePublisher "m1") false false [] [].

Definition ex_pipeline_step : pipeline FakeUnitManager → pipeline FakeUnitManager → Prop :=
  pipeline_step (MR := canonical_range) (UM := FakeUnitManager_UnitManager (H := canonical_range)).

Lemma generator_stuck_witness :
  ∃ st1, rtc ex_pipeline_step ex_subscribed st1 ∧ st1.(pl_stop) = true ∧
    ∀ st2, rtc ex_pipeline_step st1 st2 → st2.(pl_pub_done) = true ∧ st2.(pl_gen_done) = false.
Proof.
  refine (proj1 (generator_stuck (MR := canonical_range) (UM := FakeUnitManager_UnitManager (H := canonical_range))
    ex_manager "m1" ex_subscribed [] _ _ _ _ _ _ _ _)).
  - apply rtc_once, pl_agent. reflexivity.
  - reflexivity.
  - reflexivity.
  - reflexivity.
  - vm_compute. reflexivity.
Defined.
