(* ===== verification/Pagination.v ===== *)
(** * [api/pagination.go] and the paging of collections

    A page token is two 16-bit integers, written little-endian and encoded in
    URL-safe base64.  Bytes are integers in [0, 256); the arithmetic on tokens
    wraps at 16 bits, as in the source. *)

From stdpp Require Import base list gmap strings.
From Stdlib Require Import ZArith Ascii.
From S2P Require Import Prelude GoStrings.

#[local] Open Scope Z_scope.

Definition uint16 (z : Z) : Z := z mod 65536.

(** ** [encoding/base64], URL alphabet *)

Definition b64_alphabet : string :=
  "ABCDEFGHIJKLMNOPQRSTUVWXYZabcdefghijklmnopqrstuvwxyz0123456789-_".

Definition b64_char (v : Z) : ascii := default "A"%char (String.get (Z.to_nat v) b64_alphabet).

Definition b64_value (c : ascii) : option Z := Z.of_nat <$> index_byte c b64_alphabet.

Fixpoint b64_encode (l : list Z) : string :=
  match l with
  | [] => ""
  | [a] => String (b64_char (Z.shiftr a 2))
             (String (b64_char (Z.shiftl (Z.land a 3) 4)) "==")
  | [a; b] => String (b64_char (Z.shiftr a 2))
                (String (b64_char (Z.lor (Z.shiftl (Z.land a 3) 4) (Z.shiftr b 4)))
                   (String (b64_char (Z.shiftl (Z.land b 15) 2)) "="))
  | a :: b :: c :: l =>
      String (b64_char (Z.shiftr a 2))
        (String (b64_char (Z.lor (Z.shiftl (Z.land a 3) 4) (Z.shiftr b 4)))
           (String (b64_char (Z.lor (Z.shiftl (Z.land b 15) 2) (Z.shiftr c 6)))
              (String (b64_char (Z.land c 63)) (b64_encode l))))
  end.

Definition byte (z : Z) : Z := z mod 256.

(** A quantum of four characters; the bits that do not fill a byte are ignored,
    padding is accepted in the last quantum only. *)
Fixpoint b64_quanta (s : string) : option (list Z) :=
  match s with
  | "" => Some []
  | String a (String b (String c (String d rest))) =>
      va ← b64_value a; vb ← b64_value b;
      let b0 := byte (Z.lor (Z.shiftl va 2) (Z.shiftr vb 4)) in
      if bool_decide (d = "="%char) then
        if bool_decide (rest = "") then
          if bool_decide (c = "="%char) then Some [b0]
          else vc ← b64_value c; Some [b0; byte (Z.lor (Z.shiftl vb 4) (Z.shiftr vc 2))]
        else None
      else
        vc ← b64_value c; vd ← b64_value d; l ← b64_quanta rest;
        Some (b0 :: byte (Z.lor (Z.shiftl vb 4) (Z.shiftr vc 2)) :: byte (Z.lor (Z.shiftl vc 6) vd) :: l)
  | _ => None
  end.

(** Line breaks are skipped. *)
Fixpoint drop_newlines (s : string) : string :=
  match s with
  | "" => ""
  | String c s =>
      if bool_decide (c = "010"%char) || bool_decide (c = "013"%char) then drop_newlines s
      else String c (drop_newlines s)
  end.

Definition b64_decode (s : string) : option (list Z) := b64_quanta (drop_newlines s).

(** ** Page tokens *)

Record PageToken := mkPageToken { Limit : Z; Page : Z }.

Definition DefaultPageToken (limit : Z) : PageToken := mkPageToken limit 1.

Definition Next (tok : PageToken) : PageToken := mkPageToken tok.(Limit) (uint16 (tok.(Page) + 1)).

Definition le16 (z : Z) : list Z := [byte z; byte (Z.shiftr z 8)].

Definition Encode (tok : PageToken) : string := b64_encode (le16 tok.(Limit) ++ le16 tok.(Page)).

Inductive token_error := BadBase64 | ShortToken | WrongLimit (limit : Z) | PageZero | TooManyTokens.

Definition decodePageToken (value : string) : res token_error PageToken :=
  match b64_decode value with
  | None => Err BadBase64
  | Some (a :: b :: c :: d :: _) =>
      Ok (mkPageToken (Z.lor a (Z.shiftl b 8)) (Z.lor c (Z.shiftl d 8)))
  | Some _ => Err ShortToken
  end.

Definition validatePageToken (tok : PageToken) (limit : Z) : res token_error unit :=
  if bool_decide (tok.(Limit) ≠ limit) then Err (WrongLimit limit)
  else if bool_decide (tok.(Page) = 0) then Err PageZero
  else Ok tt.

(** [values] are the values of the query parameter. *)
Definition findNextPageToken (values : list string) (limit : Z) : res token_error (option PageToken) :=
  match values with
  | [] => Ok None
  | [val] =>
      match decodePageToken val with
      | Err e => Err e
      | Ok tok => match validatePageToken tok limit with Err e => Err e | Ok _ => Ok (Some tok) end
      end
  | _ => Err TooManyTokens
  end.

(** ** A page of a collection

    [extractUnitPageData], [extractUnitStatePageData] and [extractMachinePage]
    compute the same bounds; [None] is the panic of a slice whose start is after
    its end. *)
Definition page_slice {A} (all : list A) (tok : PageToken) : option (list A * option PageToken) :=
  let total := Z.of_nat (length all) in
  let startIndex := uint16 (uint16 (tok.(Page) - 1) * tok.(Limit)) in
  let stopIndex := uint16 (tok.(Page) * tok.(Limit)) in
  if bool_decide (startIndex < total) then
    let '(stopIndex, next) :=
      if bool_decide (stopIndex > total) then (total, None) else (stopIndex, Some (Next tok)) in
    if bool_decide (startIndex > stopIndex) then None
    else Some (take (Z.to_nat (stopIndex - startIndex)) (drop (Z.to_nat startIndex) all), next)
  else Some ([], None).

(** Following the tokens from the first page; [None] is a panic or a walk that
    is not over after [fuel] pages. *)
Fixpoint walk_pages {A} (fuel : nat) (all : list A) (tok : PageToken) : option (list A) :=
  match fuel with
  | O => None
  | S fuel =>
      '(items, next) ← page_slice all tok;
      match next with
      | None => Some items
      | Some tok => rest ← walk_pages fuel all tok; Some (items ++ rest)
      end
  end.

(** ** Round trip of tokens *)

Lemma b64_char_value v : 0 ≤ v < 64 → b64_value (b64_char v) = Some v.
Proof.
  intros Hv. assert (∃ n, v = Z.of_nat n ∧ (n < 64)%nat) as (n & -> & Hn).
  { exists (Z.to_nat v). lia. }
  do 64 (destruct n as [|n]; [reflexivity|]). lia.
Qed.

(** The characters of the alphabet are neither padding nor line breaks. *)
Lemma b64_char_plain v :
  0 ≤ v < 64 → b64_char v ≠ "="%char ∧ b64_char v ≠ "010"%char ∧ b64_char v ≠ "013"%char.
Proof.
  intros Hv. pose proof (b64_char_value v Hv) as H.
  split_and!; intros E; rewrite E in H; discriminate H.
Qed.

Lemma lor_shiftl x k y : 0 ≤ k → 0 ≤ y < 2 ^ k → Z.lor (Z.shiftl x k) y = x * 2 ^ k + y.
Proof.
  intros Hk Hy. rewrite <- Z.shiftl_mul_pow2 by done. symmetry.
  assert (Z.land (Z.shiftl x k) y = 0) as Hl.
  { apply Z.bits_inj'. intros n Hn. rewrite Z.land_spec, Z.bits_0. destruct (decide (n < k)).
    - by rewrite Z.shiftl_spec_low.
    - destruct (decide (y = 0)) as [->|]; [by rewrite Z.bits_0, andb_false_r|].
      rewrite (Z.bits_above_log2 y n), andb_false_r; [done|lia|].
      apply Z.log2_lt_pow2; [lia|]. apply Z.lt_le_trans with (2 ^ k); [lia|]. apply Z.pow_le_mono_r; lia. }
  by apply Z.add_nocarry_lor.
Qed.

Definition is_byte (z : Z) : Prop := 0 ≤ z < 256.

(** The four values a group of three bytes is split into. *)
Lemma b64_split a b c :
  is_byte a → is_byte b → is_byte c →
  Z.shiftr a 2 = a / 4 ∧
  Z.shiftl (Z.land a 3) 4 = a mod 4 * 16 ∧
  Z.shiftl (Z.land b 15) 2 = b mod 16 * 4 ∧
  Z.lor (Z.shiftl (Z.land a 3) 4) (Z.shiftr b 4) = a mod 4 * 16 + b / 16 ∧
  Z.lor (Z.shiftl (Z.land b 15) 2) (Z.shiftr c 6) = b mod 16 * 4 + c / 64 ∧
  Z.land c 63 = c mod 64.
Proof.
  intros Ha Hb Hc. unfold is_byte in *.
  change 3 with (Z.ones 2). change 15 with (Z.ones 4). change 63 with (Z.ones 6).
  rewrite !Z.land_ones, !Z.shiftr_div_pow2, !Z.shiftl_mul_pow2 by lia.
  rewrite <- !Z.shiftl_mul_pow2 by lia.
  rewrite !lor_shiftl by (lia || (split; [apply Z.div_pos; lia|apply Z.div_lt_upper_bound; lia])).
  rewrite !Z.shiftl_mul_pow2 by lia. done.
Qed.

(** ... and the bytes four such values are joined into. *)
Lemma b64_join a b c :
  is_byte a → is_byte b → is_byte c →
  byte (Z.lor (Z.shiftl (a / 4) 2) (Z.shiftr (a mod 4 * 16 + b / 16) 4)) = a ∧
  byte (Z.lor (Z.shiftl (a mod 4 * 16 + b / 16) 4) (Z.shiftr (b mod 16 * 4 + c / 64) 2)) = b ∧
  byte (Z.lor (Z.shiftl (b mod 16 * 4 + c / 64) 6) (c mod 64)) = c.
Proof.
  intros Ha Hb Hc. unfold is_byte, byte in *. rewrite !Z.shiftr_div_pow2 by lia.
  change (2 ^ 4) with 16. change (2 ^ 2) with 4.
  rewrite !lor_shiftl by (try lia; Z.div_mod_to_equations; lia).
  change (2 ^ 4) with 16. change (2 ^ 2) with 4. change (2 ^ 6) with 64.
  split_and!; Z.div_mod_to_equations; lia.
Qed.

Lemma drop_newlines_plain c s :
  c ≠ "010"%char → c ≠ "013"%char → drop_newlines (String c s) = String c (drop_newlines s).
Proof. intros H1 H2. cbn. by rewrite !bool_decide_eq_false_2. Qed.

Lemma b64_ranges a b c :
  is_byte a → is_byte b → is_byte c →
  0 ≤ a / 4 < 64 ∧ 0 ≤ a mod 4 * 16 + b / 16 < 64 ∧ 0 ≤ b mod 16 * 4 + c / 64 < 64 ∧ 0 ≤ c mod 64 < 64.
Proof. unfold is_byte. intros. split_and!; Z.div_mod_to_equations; lia. Qed.

(** Decoding one full quantum. *)
Lemma b64_quantum a b c rest :
  is_byte a → is_byte b → is_byte c →
  b64_quanta (drop_newlines
    (String (b64_char (a / 4)) (String (b64_char (a mod 4 * 16 + b / 16))
      (String (b64_char (b mod 16 * 4 + c / 64)) (String (b64_char (c mod 64)) rest))))) =
  l ← b64_quanta (drop_newlines rest); Some (a :: b :: c :: l).
Proof.
  intros Ha Hb Hc. destruct (b64_ranges a b c Ha Hb Hc) as (R0 & R1 & R2 & R3).
  destruct (b64_char_plain _ R0) as (_ & ? & ?), (b64_char_plain _ R1) as (_ & ? & ?),
    (b64_char_plain _ R2) as (_ & ? & ?), (b64_char_plain _ R3) as (Hd & ? & ?).
  rewrite !drop_newlines_plain by done. cbn [b64_quanta]. rewrite !b64_char_value by done.
  cbn [mbind option_bind]. rewrite bool_decide_eq_false_2 by done.
  destruct (b64_join a b c Ha Hb Hc) as (-> & -> & ->). done.
Qed.

Lemma b64_quantum_1 a :
  is_byte a →
  b64_quanta (drop_newlines (String (b64_char (a / 4)) (String (b64_char (a mod 4 * 16)) "=="))) = Some [a].
Proof.
  intros Ha. assert (is_byte 0) as H0 by (unfold is_byte; lia).
  destruct (b64_ranges a 0 0 Ha H0 H0) as (R0 & R1 & _). destruct (b64_join a 0 0 Ha H0 H0) as (J & _).
  change (0 / 16) with 0 in *. rewrite Z.add_0_r in *.
  destruct (b64_char_plain _ R0) as (_ & ? & ?), (b64_char_plain _ R1) as (_ & ? & ?).
  rewrite !drop_newlines_plain by done. change (drop_newlines "==") with "==". cbn [b64_quanta].
  rewrite !b64_char_value by done. cbn [mbind option_bind].
  rewrite !bool_decide_eq_true_2 by done. by rewrite J.
Qed.

Lemma b64_quantum_2 a b :
  is_byte a → is_byte b →
  b64_quanta (drop_newlines (String (b64_char (a / 4)) (String (b64_char (a mod 4 * 16 + b / 16))
    (String (b64_char (b mod 16 * 4)) "=")))) = Some [a; b].
Proof.
  intros Ha Hb. assert (is_byte 0) as H0 by (unfold is_byte; lia).
  destruct (b64_ranges a b 0 Ha Hb H0) as (R0 & R1 & R2 & _). destruct (b64_join a b 0 Ha Hb H0) as (J & J' & _).
  change (0 / 64) with 0 in *. rewrite (Z.add_0_r (b mod 16 * 4)) in *.
  destruct (b64_char_plain _ R0) as (_ & ? & ?), (b64_char_plain _ R1) as (_ & ? & ?),
    (b64_char_plain _ R2) as (Hc & ? & ?).
  rewrite !drop_newlines_plain by done. change (drop_newlines "=") with "=". cbn [b64_quanta].
  rewrite !b64_char_value by done. cbn [mbind option_bind].
  rewrite (bool_decide_eq_false_2 (b64_char _ = _)) by done. rewrite !bool_decide_eq_true_2 by done.
  by rewrite J, J'.
Qed.

Lemma b64_roundtrip l : Forall is_byte l → b64_decode (b64_encode l) = Some l.
Proof.
  unfold b64_decode. remember (length l) as n eqn:Hn. revert l Hn.
  induction (lt_wf n) as [n _ IH]. intros l -> Hl. assert (is_byte 0) as H0 by (unfold is_byte; lia).
  destruct l as [|a [|b [|c l]]]; [done|..]; cbn [b64_encode].
  - apply Forall_cons in Hl as [Ha _]. destruct (b64_split a 0 0 Ha H0 H0) as (-> & -> & _).
    by apply b64_quantum_1.
  - apply Forall_cons in Hl as [Ha [Hb _]%Forall_cons]. destruct (b64_split a b 0 Ha Hb H0) as (-> & _ & -> & -> & _).
    by apply b64_quantum_2.
  - apply Forall_cons in Hl as [Ha [Hb [Hc Hl]%Forall_cons]%Forall_cons].
    destruct (b64_split a b c Ha Hb Hc) as (-> & _ & _ & -> & -> & ->). rewrite b64_quantum by done.
    rewrite (IH (length l)); [done|cbn; lia|done|done].
Qed.

Definition uint16_range (z : Z) : Prop := 0 ≤ z < 65536.

Lemma le16_bytes z : Forall is_byte (le16 z).
Proof. repeat constructor; unfold byte; apply Z.mod_pos_bound; lia. Qed.

Lemma le16_join z : uint16_range z → Z.lor (byte z) (Z.shiftl (byte (Z.shiftr z 8)) 8) = z.
Proof.
  intros Hz. rewrite Z.lor_comm, lor_shiftl by (lia || apply Z.mod_pos_bound; lia).
  rewrite Z.shiftr_div_pow2 by lia. unfold byte, uint16_range in *. change (2 ^ 8) with 256.
  Z.div_mod_to_equations; lia.
Qed.

Lemma decode_Encode tok :
  uint16_range tok.(Limit) → uint16_range tok.(Page) → decodePageToken (Encode tok) = Ok tok.
Proof.
  intros Hl Hp. unfold decodePageToken, Encode.
  rewrite b64_roundtrip by (apply Forall_app; split; apply le16_bytes). cbn [app le16].
  rewrite !le16_join by done. by destruct tok.
Qed.

(** Encoding a page token and decoding the result gives the token back,
    for every pair of 16-bit values. *)
Theorem PageToken_roundtrip tok :
  uint16_range tok.(Limit) → uint16_range tok.(Page) → decodePageToken (Encode tok) = Ok tok.
Proof. apply decode_Encode. Qed.

(** ** Paging *)

Lemma uint16_small z : uint16_range z → uint16 z = z.
Proof. intros Hz. apply Z.mod_small, Hz. Qed.

(** A page within the range of 16 bits is the slice one expects. *)
Lemma page_slice_at {A} (all : list A) limit p :
  0 < limit → 0 ≤ p → (p + 1) * limit < 65536 →
  let start := Z.to_nat (p * limit) in
  let stop := Z.to_nat ((p + 1) * limit) in
  page_slice all (mkPageToken limit (p + 1)) =
  Some (take (stop - start) (drop start all),
        if decide (stop ≤ length all)%nat then
          if decide (start < length all)%nat then Some (mkPageToken limit (uint16 (p + 2))) else None
        else None).
Proof.
  intros Hl Hp Hb start stop. unfold page_slice. cbn [Page Limit Next].
  assert (p * limit < (p + 1) * limit) by nia. assert (p + 1 ≤ (p + 1) * limit) by nia.
  assert (0 ≤ p * limit) by nia.
  replace (p + 1 - 1) with p by lia. rewrite (uint16_small p) by (unfold uint16_range; lia).
  rewrite !uint16_small by (unfold uint16_range; lia).
  assert (Next (mkPageToken limit (p + 1)) = mkPageToken limit (uint16 (p + 2))) as ->.
  { unfold Next. cbn. do 2 f_equal. lia. }
  case_bool_decide as Hs.
  - case_bool_decide as Ht.
    + rewrite bool_decide_eq_false_2 by lia. rewrite (decide_False (P := (stop ≤ length all)%nat)) by lia.
      by rewrite !take_ge by (rewrite length_drop; lia).
    + rewrite bool_decide_eq_false_2 by lia. rewrite (decide_True (P := (stop ≤ length all)%nat)),
        (decide_True (P := (start < length all)%nat)) by lia.
      by replace (Z.to_nat ((p + 1) * limit - p * limit)) with (stop - start)%nat by lia.
  - rewrite (decide_False (P := (start < length all)%nat)) by lia. rewrite drop_ge, take_nil by lia.
    by destruct (decide _).
Qed.

Lemma walk_pages_S {A} fuel (all : list A) tok :
  walk_pages (S fuel) all tok =
  '(items, next) ← page_slice all tok;
  match next with
  | None => Some items
  | Some tok => rest ← walk_pages fuel all tok; Some (items ++ rest)
  end.
Proof. reflexivity. Qed.

Lemma walk_pages_from {A} (all : list A) limit fuel p :
  0 < limit → 0 ≤ p → Z.of_nat (length all) + limit < 65536 → p * limit ≤ Z.of_nat (length all) →
  (length all < fuel + Z.to_nat p)%nat →
  walk_pages (S fuel) all (mkPageToken limit (p + 1)) = Some (drop (Z.to_nat (p * limit)) all).
Proof.
  intros Hl Hp Hb. revert p Hp. induction fuel as [|fuel IH]; intros p Hp Hle Hf; [nia|].
  assert ((p + 1) * limit < 65536) as Hr by nia.
  rewrite walk_pages_S, page_slice_at by done. cbn [mbind option_bind]. case_decide as Hstop.
  - destruct (decide (Z.to_nat (p * limit) < length all)%nat) as [Hs|Hs].
    + rewrite uint16_small by (unfold uint16_range; nia). replace (p + 2) with (p + 1 + 1) by lia.
      rewrite (IH (p + 1)); [|lia|nia|lia]. cbn [mbind option_bind]. f_equal.
      rewrite <- (take_drop (Z.to_nat ((p + 1) * limit) - Z.to_nat (p * limit)) (drop (Z.to_nat (p * limit)) all)) at 2.
      f_equal. rewrite drop_drop. f_equal. nia.
    + f_equal. rewrite !drop_ge by lia. by rewrite take_nil.
  - f_equal. rewrite take_ge; [done|]. rewrite length_drop. lia.
Qed.

(** A client that starts at the first page and follows the tokens gets
    every item of the collection exactly once, in order, after finitely many
    pages, as long as the collection and one page fit in 16 bits. *)
Theorem walk_pages_complete {A} (all : list A) limit :
  0 < limit → Z.of_nat (length all) + limit < 65536 →
  walk_pages (S (S (length all))) all (DefaultPageToken limit) = Some all.
Proof.
  intros Hl Hb. unfold DefaultPageToken. change 1 with (0 + 1).
  rewrite walk_pages_from; [done|lia..].
Qed.

(** Beyond that the 16-bit product wraps: with pages of 100 items, the page
    that starts at item 65500 of a larger collection makes the server slice
    from 65500 to 64, which panics. *)
Theorem page_slice_overflow {A} (all : list A) :
  65500 < Z.of_nat (length all) → page_slice all (mkPageToken 100 656) = None.
Proof.
  intros Hlen. unfold page_slice. cbn [Page Limit].
  change (uint16 (uint16 (656 - 1) * 100)) with 65500. change (uint16 (656 * 100)) with 64.
  rewrite bool_decide_eq_true_2 by lia. rewrite (bool_decide_eq_false_2 (64 > _)) by lia.
  by rewrite bool_decide_eq_true_2 by lia.
Qed.

(** ** Witnesses *)

Lemma PageToken_roundtrip_witness : decodePageToken (Encode (mkPageToken 100 513)) = Ok (mkPageToken 100 513).
Proof. apply (PageToken_roundtrip (mkPageToken 100 513)); vm_compute; split; congruence. Defined.

Lemma walk_pages_complete_witness :
  walk_pages 7 ["a"; "b"; "c"; "d"; "e"] (DefaultPageToken 2) = Some ["a"; "b"; "c"; "d"; "e"].
Proof. apply (walk_pages_complete ["a"; "b"; "c"; "d"; "e"] 2); vm_compute; congruence. Defined.

Lemma page_slice_overflow_witness : page_slice (replicate 65501 tt) (mkPageToken 100 656) = None.
Proof. apply (page_slice_overflow (replicate 65501 tt)). rewrite length_replicate. reflexivity. Defined.
