(* ===== verification/Schema.v ===== *)
(** * [schema/mapper.go] and [client/registry.go]: the API's entities

    The entities of the HTTP API ([schema/v1-gen.go]), the functions that map
    them to and from fleet's own types, and the client the API server calls,
    which is a thin layer over a registry. *)

From stdpp Require Import base list gmap strings.
From S2P Require Import Prelude GoStrings Pkg UnitFile Job Machine Cluster.

(** ** Entities *)

Record SchemaUnitOption := mkSchemaUnitOption { SOSection : string; SOName : string; SOValue : string }.

Record SchemaUnit := mkSchemaUnit {
  SUCurrentState : string;
  SUDesiredState : string;
  SUMachineID : string;
  SUName : string;
  SUOptions : list SchemaUnitOption
}.

Record SchemaUnitState := mkSchemaUnitState {
  SSHash : string;
  SSMachineID : string;
  SSName : string;
  SystemdActiveState : string;
  SystemdLoadState : string;
  SystemdSubState : string
}.

Record SchemaMachine := mkSchemaMachine {
  SMId : string;
  SMMetadata : gmap string string;
  SMPrimaryIP : string
}.

(** ** The mapper *)

Definition MapUnitFileToSchemaUnitOptions (uf : UnitFile) : list SchemaUnitOption :=
  (λ opt, mkSchemaUnitOption opt.(Section_) opt.(OptName) opt.(OptValue)) <$> uf.(Options).

Definition MapSchemaUnitOptionsToUnitFile (sopts : list SchemaUnitOption) : UnitFile :=
  NewUnitFromOptions ((λ sopt, mkUnitOption sopt.(SOSection) sopt.(SOName) sopt.(SOValue)) <$> sopts).

Definition MapSchemaUnitToUnit (entity : SchemaUnit) : Unit :=
  mkUnit entity.(SUName) (MapSchemaUnitOptionsToUnitFile entity.(SUOptions)) "".

Definition MapUnitToSchemaUnit (u : Unit) (su : option ScheduledUnit) : SchemaUnit :=
  mkSchemaUnit
    (match su with Some su => default "" su.(SState) | None => "" end)
    u.(UTargetState)
    (match su with Some su => su.(STargetMachineID) | None => "" end)
    u.(UName)
    (MapUnitFileToSchemaUnitOptions u.(UUnit)).

Definition MapSchemaUnitsToUnits (entities : list SchemaUnit) : list Unit := MapSchemaUnitToUnit <$> entities.

Definition MapMachineStateToSchema (ms : MachineState) : SchemaMachine :=
  mkSchemaMachine ms.(ID) ms.(Metadata) ms.(PublicIP).

Definition MapSchemaToMachineStates (entities : list SchemaMachine) : list MachineState :=
  (λ me, mkMachineState me.(SMId) me.(SMPrimaryIP) me.(SMMetadata) ∅ "") <$> entities.

Definition MapUnitStateToSchemaUnitState (entity : UnitState) : SchemaUnitState :=
  mkSchemaUnitState entity.(UnitHash) entity.(UsMachineID) entity.(UnitName)
    entity.(ActiveState) entity.(LoadState) entity.(SubState).

Definition MapUnitStatesToSchemaUnitStates (entities : list UnitState) : list SchemaUnitState :=
  MapUnitStateToSchemaUnitState <$> entities.

Definition MapSchemaUnitStatesToUnitStates (entities : list SchemaUnitState) : list UnitState :=
  (λ e, mkUnitState e.(SystemdLoadState) e.(SystemdActiveState) e.(SystemdSubState)
          e.(SSMachineID) e.(SSHash) e.(SSName)) <$> entities.

Definition MapSchemaUnitToScheduledUnit (entity : SchemaUnit) : ScheduledUnit :=
  mkScheduledUnit entity.(SUName) (Some entity.(SUCurrentState)) entity.(SUMachineID).

Definition MapSchemaUnitsToScheduledUnits (entities : list SchemaUnit) : list ScheduledUnit :=
  MapSchemaUnitToScheduledUnit <$> entities.

(** ** The client *)

Class ClientRegistry (Rg E : Type) := {
  cr_Units : Rg → res E (list Unit);
  cr_Schedule : Rg → res E (list ScheduledUnit);
  cr_Unit : string → Rg → res E (option Unit);
  cr_ScheduledUnit : string → Rg → res E (option ScheduledUnit);
  cr_UnitState : string → Rg → res E (option UnitState);
  cr_UnitStates : Rg → res E (list UnitState);
  cr_CreateUnit : Unit → Rg → Rg * res E unit;
  cr_SetUnitTargetState : string → JobState → Rg → Rg * res E unit;
  cr_DestroyUnit : string → Rg → Rg * res E unit;
  cr_Machines : Rg → res E (list MachineState);
  cr_SetMachineMetadata : string → string → string → Rg → Rg * res E unit;
  cr_DeleteMachineMetadata : string → string → Rg → Rg * res E unit
}.

(** The errors of the client: the registry's, a target state that does not
    parse, and the dereference of a nil pointer, which is a panic. *)
Inductive client_error (E : Type) :=
| ClientRegistryError (e : E)
| BadTargetState (s : string)
| ClientPanic.
Arguments ClientRegistryError {E} e.
Arguments BadTargetState {E} s.
Arguments ClientPanic {E}.

Definition lift_reg {E A} (r : res E A) : res (client_error E) A :=
  match r with Ok a => Ok a | Err e => Err (ClientRegistryError e) end.

Section client.
#[local] Open Scope go_scope.
Context {Rg E : Type} `{CR : !ClientRegistry Rg E}.

Definition RegistryClient_Units (reg : Rg) : res (client_error E) (list SchemaUnit) :=
  let* rUnits := lift_reg (cr_Units reg) in
  let* sUnits := lift_reg (cr_Schedule reg) in
  let sUnitMap := sUnitMap sUnits in
  Ok ((λ ru, MapUnitToSchemaUnit ru (sUnitMap !! ru.(UName))) <$> rUnits).

Definition RegistryClient_Unit (name : string) (reg : Rg) : res (client_error E) (option SchemaUnit) :=
  let* rUnit := lift_reg (cr_Unit name reg) in
  match rUnit with
  | None => Ok None
  | Some rUnit =>
      if IsGlobal rUnit then Ok (Some (MapUnitToSchemaUnit rUnit None))
      else
        let* sUnit := lift_reg (cr_ScheduledUnit name reg) in
        Ok (Some (MapUnitToSchemaUnit rUnit sUnit))
  end.

Definition RegistryClient_CreateUnit (u : SchemaUnit) (reg : Rg) : Rg * res (client_error E) unit :=
  let create ts :=
    let '(reg, r) := cr_CreateUnit (mkUnit u.(SUName) (MapSchemaUnitOptionsToUnitFile u.(SUOptions)) ts) reg in
    (reg, lift_reg r) in
  if bool_decide (0 < String.length u.(SUDesiredState)) then
    match ParseJobState u.(SUDesiredState) with
    | Err s => (reg, Err (BadTargetState s))
    | Ok ts => create ts
    end
  else create JobStateInactive.

(** The registry's answer for a unit without a state is a nil pointer, which
    the mapper dereferences. *)
Definition RegistryClient_UnitState (name : string) (reg : Rg)
  : res (client_error E) (option SchemaUnitState) :=
  let* rUnitState := lift_reg (cr_UnitState name reg) in
  match rUnitState with
  | None => Err ClientPanic
  | Some us => Ok (Some (MapUnitStateToSchemaUnitState us))
  end.

Definition RegistryClient_UnitStates (reg : Rg) : res (client_error E) (list SchemaUnitState) :=
  let* rUnitStates := lift_reg (cr_UnitStates reg) in
  Ok (MapUnitStateToSchemaUnitState <$> rUnitStates).

Definition RegistryClient_SetUnitTargetState (name target : string) (reg : Rg)
  : Rg * res (client_error E) unit :=
  let '(reg, r) := cr_SetUnitTargetState name target reg in (reg, lift_reg r).

(** The methods the client inherits from the registry. *)
Definition RegistryClient_DestroyUnit (name : string) (reg : Rg) : Rg * res (client_error E) unit :=
  let '(reg, r) := cr_DestroyUnit name reg in (reg, lift_reg r).
End client.

(** ** Round trips *)

(** A unit file whose contents are those of its options, as every unit file
    built by [NewUnitFromOptions] is. *)
Definition canonical_file (uf : UnitFile) : Prop := uf = NewUnitFromOptions uf.(Options).

Lemma options_roundtrip (l : list UnitOption) :
  (λ sopt, mkUnitOption sopt.(SOSection) sopt.(SOName) sopt.(SOValue)) <$>
    ((λ opt, mkSchemaUnitOption opt.(Section_) opt.(OptName) opt.(OptValue)) <$> l) = l.
Proof. induction l as [|[] l IH]; cbn; [done|]. by rewrite IH. Qed.

Lemma unit_file_roundtrip uf :
  canonical_file uf → MapSchemaUnitOptionsToUnitFile (MapUnitFileToSchemaUnitOptions uf) = uf.
Proof.
  intros Hc. unfold MapSchemaUnitOptionsToUnitFile, MapUnitFileToSchemaUnitOptions.
  by rewrite options_roundtrip, <- Hc.
Qed.

(** A unit survives the trip through the API's entities: its name, its
    file, its machine and its states are all recovered.  (The target state is
    carried by the desired state of the entity.) *)
Theorem schema_unit_roundtrip u su :
  canonical_file u.(UUnit) → su.(SName) = u.(UName) → is_Some su.(SState) →
  let e := MapUnitToSchemaUnit u (Some su) in
  MapSchemaUnitToUnit e = mkUnit u.(UName) u.(UUnit) "" ∧ e.(SUDesiredState) = u.(UTargetState) ∧
  MapSchemaUnitToScheduledUnit e = su.
Proof.
  intros Hc Hn [s Hs]. cbn. unfold MapSchemaUnitToUnit, MapSchemaUnitToScheduledUnit. cbn.
  rewrite unit_file_roundtrip by done. rewrite Hs, <- Hn. cbn. split_and!; try done.
  destruct su; cbn in *. by rewrite Hs.
Qed.

(** Unit states survive the trip through the API's entities unchanged. *)
Theorem schema_unit_states_roundtrip l :
  MapSchemaUnitStatesToUnitStates (MapUnitStatesToSchemaUnitStates l) = l ∧
  ∀ sl, MapUnitStatesToSchemaUnitStates (MapSchemaUnitStatesToUnitStates sl) = sl.
Proof.
  split; [|intros sl]; [induction l as [|[] l IH]|induction sl as [|[] sl IH]]; cbn; try done.
  - f_equal. apply IH.
  - f_equal. apply IH.
Qed.

Lemma schema_unit_roundtrip_witness :
  MapSchemaUnitToScheduledUnit
    (MapUnitToSchemaUnit (mkUnit "a.service" (NewUnitFromOptions [mkUnitOption "Unit" "Description" "x"]) "loaded")
       (Some (mkScheduledUnit "a.service" (Some "loaded") "m1"))) =
  mkScheduledUnit "a.service" (Some "loaded") "m1".
Proof.
  apply (schema_unit_roundtrip
    (mkUnit "a.service" (NewUnitFromOptions [mkUnitOption "Unit" "Description" "x"]) "loaded")
    (mkScheduledUnit "a.service" (Some "loaded") "m1")); [reflexivity|reflexivity|by eexists].
Defined.
