(* ===== verification/FakeRegistry.v ===== *)
(** * [registry/fake.go]: the registries in memory

    [FakeRegistry] keeps jobs, machines and unit states in maps;
    [FakeClusterRegistry] keeps the engine's version; [FakeLeaseRegistry] keeps leases that
    their holders share.  The locks make each call atomic.  A nil map of metadata is
    not told from an empty one. *)

From stdpp Require Import base list gmap strings.
From Stdlib Require Import ZArith.
From S2P Require Import Prelude GoStrings Pkg UnitFile Job Machine UnitManager Publisher Lease Leadership Schema.

Record FakeRegistry := mkFakeRegistry {
  fr_machines : list MachineState;
  fr_jobStates : gmap string (gmap string UnitState);
  fr_jobs : gmap string Job
}.

Definition NewFakeRegistry : FakeRegistry := mkFakeRegistry [] ∅ ∅.

Section fake.
#[local] Open Scope go_scope.
Context `{MR : MapRange, GS : GoSort}.

Definition fr_SetMachines (machines : list MachineState) (f : FakeRegistry) : FakeRegistry :=
  mkFakeRegistry machines f.(fr_jobStates) f.(fr_jobs).

Definition with_jobs (jobs : gmap string Job) (f : FakeRegistry) : FakeRegistry :=
  mkFakeRegistry f.(fr_machines) f.(fr_jobStates) jobs.

Definition with_jobStates (states : gmap string (gmap string UnitState)) (f : FakeRegistry) : FakeRegistry :=
  mkFakeRegistry f.(fr_machines) states f.(fr_jobs).

Definition fr_SetJobs (jobs : list Job) (f : FakeRegistry) : FakeRegistry :=
  with_jobs (foldl (λ m j, <[j.(JName) := j]> m) ∅ jobs) f.

(** Writing into the map of a unit, which is made when there is none. *)
Definition put_state (name : string) (us : UnitState) (m : gmap string (gmap string UnitState)) : gmap string (gmap string UnitState) :=
  <[name := <[us.(UsMachineID) := us]> (default ∅ (m !! name))]> m.

Definition fr_SetUnitStates (states : list UnitState) (f : FakeRegistry) : FakeRegistry :=
  with_jobStates (foldl (λ m us, put_state us.(UnitName) us m) ∅ states) f.

Definition fake_unit (j : Job) : Unit := mkUnit j.(JName) j.(JUnit) j.(JTargetState).

Definition fake_scheduled (j : Job) : ScheduledUnit := mkScheduledUnit j.(JName) j.(JState) j.(JTargetMachineID).

(** The zero value that a missing key reads as. *)
Definition zero_job : Job := mkJob "" None "" "" empty_UnitFile.

(** The names of the jobs, sorted. *)
Definition sorted_names (t : moment) (f : FakeRegistry) : list string :=
  go_sort string_less ((λ '(_, j), j.(JName)) <$> range t f.(fr_jobs)).

Definition fr_Units (t : moment) (f : FakeRegistry) : res string (list Unit) :=
  Ok ((λ jName, fake_unit (default zero_job (f.(fr_jobs) !! jName))) <$> sorted_names t f).

Definition fr_Schedule (t : moment) (f : FakeRegistry) : res string (list ScheduledUnit) :=
  Ok ((λ jName, fake_scheduled (default zero_job (f.(fr_jobs) !! jName))) <$> sorted_names t f).

Definition fr_Unit (name : string) (f : FakeRegistry) : res string (option Unit) :=
  Ok (fake_unit <$> f.(fr_jobs) !! name).

Definition fr_ScheduledUnit (name : string) (f : FakeRegistry) : res string (option ScheduledUnit) :=
  Ok (fake_scheduled <$> f.(fr_jobs) !! name).

Definition unsafeSetUnitTargetState (name : string) (target : JobState) (f : FakeRegistry) : FakeRegistry * res string unit :=
  match f.(fr_jobs) !! name with
  | None => (f, Err "job does not exist")
  | Some j =>
      (with_jobs (<[name := mkJob j.(JName) j.(JState) target j.(JTargetMachineID) j.(JUnit)]> f.(fr_jobs)) f, Ok tt)
  end.

Definition fr_CreateUnit (u : Unit) (f : FakeRegistry) : FakeRegistry * res string unit :=
  match f.(fr_jobs) !! u.(UName) with
  | Some _ => (f, Err "unit already exists")
  | None =>
      unsafeSetUnitTargetState u.(UName) u.(UTargetState)
        (with_jobs (<[u.(UName) := mkJob u.(UName) None "" "" u.(UUnit)]> f.(fr_jobs)) f)
  end.

Definition fr_DestroyUnit (name : string) (f : FakeRegistry) : FakeRegistry * res string unit :=
  (with_jobs (delete name f.(fr_jobs)) f, Ok tt).

Definition fr_SetUnitTargetState (name : string) (target : JobState) (f : FakeRegistry) : FakeRegistry * res string unit :=
  unsafeSetUnitTargetState name target f.

Definition fr_ScheduleUnit (name machID : string) (f : FakeRegistry) : FakeRegistry * res string unit :=
  match f.(fr_jobs) !! name with
  | None => (f, Err "unit does not exist")
  | Some j => (with_jobs (<[name := mkJob j.(JName) j.(JState) j.(JTargetState) machID j.(JUnit)]> f.(fr_jobs)) f, Ok tt)
  end.

Definition fr_SaveUnitState (jobName : string) (us : UnitState) (f : FakeRegistry) : FakeRegistry :=
  with_jobStates (put_state jobName us f.(fr_jobStates)) f.

Definition fr_RemoveUnitState (jobName : string) (f : FakeRegistry) : FakeRegistry * res string unit :=
  (with_jobStates (delete jobName f.(fr_jobStates)) f, Ok tt).

(** Sorted by the name of the unit, then by the machine. *)
Definition fr_UnitStates (t : moment) (f : FakeRegistry) : res string (list UnitState) :=
  let names := go_sort string_less (range t f.(fr_jobStates)).*1 in
  Ok (concat (imap (λ i name,
    let m := default ∅ (f.(fr_jobStates) !! name) in
    omap (λ mID, m !! mID) (go_sort string_less (range (i :: t) m).*1)) names)).

(** The argument is only used in the message: the state of the last unit in the
    order of the map that has one under its own name. *)
Definition fr_UnitState (t : moment) (unitName : string) (f : FakeRegistry) : res string (option UnitState) :=
  let step us '(i, (name, m)) :=
    match list_find (λ '(_, js), js.(UnitName) = name) (range (i :: t) m) with
    | Some (_, (_, js)) => Some js
    | None => us
    end in
  match foldl step None (imap pair (range t f.(fr_jobStates))) with
  | None => Err ("Cannot find unit(" +:+ unitName +:+ ") from fakeRegistry")
  | Some us => Ok (Some us)
  end.

(** The copy of a machine in the loop shares its map of metadata. *)
Definition on_machine (machID : string) (g : gmap string string → gmap string string) (f : FakeRegistry) : FakeRegistry :=
  fr_SetMachines ((λ mach,
    if decide (mach.(ID) = machID) then mkMachineState mach.(ID) mach.(PublicIP) (g mach.(Metadata)) mach.(Capabilities) mach.(Machine.Version)
    else mach) <$> f.(fr_machines)) f.

Definition fr_SetMachineMetadata (machID key value : string) (f : FakeRegistry) : FakeRegistry * res string unit :=
  (on_machine machID (insert key value) f, Ok tt).

Definition fr_DeleteMachineMetadata (machID key : string) (f : FakeRegistry) : FakeRegistry * res string unit :=
  (on_machine machID (delete key) f, Ok tt).

Definition fr_MachineState (machID : string) (f : FakeRegistry) : res string MachineState :=
  match list_find (λ mach, mach.(ID) = machID) f.(fr_machines) with
  | Some (_, mach) => Ok mach
  | None => Err "Machine state not found"
  end.

(** What the client uses of it; the maps are read at the moment [t]. *)
Definition fake_client (t : moment) : ClientRegistry FakeRegistry string := {|
  cr_Units := fr_Units t; cr_Schedule := fr_Schedule t; cr_Unit := fr_Unit; cr_ScheduledUnit := fr_ScheduledUnit;
  cr_UnitState := fr_UnitState t; cr_UnitStates := fr_UnitStates t; cr_CreateUnit := fr_CreateUnit;
  cr_SetUnitTargetState := fr_SetUnitTargetState; cr_DestroyUnit := fr_DestroyUnit;
  cr_Machines f := Ok f.(fr_machines); cr_SetMachineMetadata := fr_SetMachineMetadata;
  cr_DeleteMachineMetadata := fr_DeleteMachineMetadata |}.

End fake.

(** ** The version of the engine *)

Record FakeClusterRegistry := mkFakeClusterRegistry { eVersion : Z }.

Definition fc_EngineVersion (fc : FakeClusterRegistry) : res string Z := Ok fc.(eVersion).

Definition fc_UpdateEngineVersion (from to : Z) (fc : FakeClusterRegistry) : FakeClusterRegistry * res string unit :=
  if bool_decide (fc.(eVersion) ≠ from) then (fc, Err "version mismatch") else (mkFakeClusterRegistry to, Ok tt).

#[export] Instance fake_cluster : ClusterRegistry FakeClusterRegistry string := {|
  clr_EngineVersion := fc_EngineVersion; clr_UpdateEngineVersion := fc_UpdateEngineVersion |}.

#[export] Instance fake_cluster_laws : VersionLaws fake_cluster.
Proof.
  refine {| version_wf := λ _, True; version_at := eVersion |}.
  - intros s v _ H. by injection H as <-.
  - intros s from to _ _. simpl. unfold fc_UpdateEngineVersion. by case_bool_decide.
Defined.

(** ** Leases

    A lease is shared by its holder and the map: leases live in a heap, and a
    pointer is an index of it. *)

Record fakeLease := mkFakeLease { fle_name : string; fle_machID : string; fle_ver : Z; fle_ttl : Z; fle_reg : bool }.

Record FakeLeaseRegistry := mkFakeLeaseRegistry { fl_heap : list fakeLease; fl_leaseMap : gmap string nat }.

Definition NewFakeLeaseRegistry : FakeLeaseRegistry := mkFakeLeaseRegistry [] ∅.

Definition fl_SetLease (name machID : string) (ver ttl : Z) (fl : FakeLeaseRegistry) : FakeLeaseRegistry * nat :=
  let p := length fl.(fl_heap) in
  (mkFakeLeaseRegistry (fl.(fl_heap) ++ [mkFakeLease name machID ver ttl true]) (<[name := p]> fl.(fl_leaseMap)), p).

Definition fl_GetLease (name : string) (fl : FakeLeaseRegistry) : res string (option nat) := Ok (fl.(fl_leaseMap) !! name).

Definition fl_AcquireLease (name machID : string) (ver ttl : Z) (fl : FakeLeaseRegistry) : FakeLeaseRegistry * res string nat :=
  match fl.(fl_leaseMap) !! name with
  | Some _ => (fl, Err "already exists")
  | None => let '(fl, p) := fl_SetLease name machID ver ttl fl in (fl, Ok p)
  end.

(** [None]: a panic. *)
Definition fl_StealLease (name machID : string) (ver ttl idx : Z) (fl : FakeLeaseRegistry)
  : option (FakeLeaseRegistry * res string nat) :=
  if bool_decide (idx ≠ 0%Z) then None
  else
    match fl.(fl_leaseMap) !! name with
    | None => Some (fl, Err "does not exist")
    | Some _ => let '(fl, p) := fl_SetLease name machID ver ttl fl in Some (fl, Ok p)
    end.

Definition fle_Renew (p : nat) (ttl : Z) (fl : FakeLeaseRegistry) : FakeLeaseRegistry * res string unit :=
  match fl.(fl_heap) !! p with
  | Some (mkFakeLease name machID ver _ true) =>
      (mkFakeLeaseRegistry (<[p := mkFakeLease name machID ver ttl true]> fl.(fl_heap)) fl.(fl_leaseMap), Ok tt)
  | _ => (fl, Err "already released")
  end.

Definition fle_Release (p : nat) (fl : FakeLeaseRegistry) : FakeLeaseRegistry * res string unit :=
  match fl.(fl_heap) !! p with
  | Some (mkFakeLease name machID ver ttl true) =>
      (mkFakeLeaseRegistry (<[p := mkFakeLease name machID ver ttl false]> fl.(fl_heap)) (delete name fl.(fl_leaseMap)), Ok tt)
  | _ => (fl, Err "already released")
  end.
