(* ===== verification/Api.v ===== *)
(** * Package [api]: the HTTP server's resources

    [api/units.go], [api/state.go], [api/machines.go], [api/path.go] and
    [api/serialization.go].  A handler takes the request and the registry (the
    server calls it through [RegistryClient]) and returns the registry and the
    response.  Of the request the model keeps what the handlers read: JSON
    bodies are already decoded ([None] when decoding fails), query parameters
    are lists of values. *)

From stdpp Require Import base list gmap strings.
From Stdlib Require Import ZArith Ascii NArith.
From S2P Require Import Prelude GoStrings GoPath Pkg UnitFile Job Machine Schema Pagination.

(** ** Responses *)

Definition StatusOK : Z := 200.
Definition StatusCreated : Z := 201.
Definition StatusNoContent : Z := 204.
Definition StatusBadRequest : Z := 400.
Definition StatusNotFound : Z := 404.
Definition StatusMethodNotAllowed : Z := 405.
Definition StatusConflict : Z := 409.
Definition StatusUnsupportedMediaType : Z := 415.
Definition StatusInternalServerError : Z := 500.
Definition StatusServiceUnavailable : Z := 503.

Inductive name_error :=
| NameEmpty | NameTooLong | NameNoDot | NameEndsInDot
| BadUnitType (suffix : string) | BadTemplateType (suffix : string)
| BadNameChar (r : N) | NameStartsInAt.

Inductive options_error :=
| OptionsUnparsable (e : string)
| PeerMatchesConflict (peer conflict : string)
| PeerMatchesReplace (peer replace : string)
| MachineIDWithPeers | MachineIDWithConflicts | MachineIDWithGlobal | MachineIDWithReplaces
| GlobalWithPeers | GlobalWithReplaces | ConflictsWithReplaces.

Inductive api_error :=
| ContentTypeCount (n : nat) | ContentTypeNotJSON
| BodyUndecodable | NameMismatch (item name : string)
| InvalidName (e : name_error) | InvalidOptions (e : options_error)
| NoSuchUnitNoOptions | NoDesiredState | CannotActivateTemplate (name : string)
| UnitDoesNotExist | UnitStateDoesNotExist | InvalidToken (e : token_error)
| OnlyMethods (methods : list string)
| InvalidOp | InvalidMetadataPath | MissingValue | MetadataCallFailed.

Inductive body :=
| NoBody
| ErrorBody (message : option api_error)
| UnitBody (u : SchemaUnit)
| UnitPageBody (us : list SchemaUnit) (next : string)
| UnitStateBody (us : SchemaUnitState)
| UnitStatePageBody (us : list SchemaUnitState) (next : string)
| MachinePageBody (ms : list SchemaMachine) (next : string)
| DiscoveryBody
| MetricsBody.

Inductive response :=
| Respond (code : Z) (b : body)
| PanicResponse.

Definition sendError (code : Z) (err : option api_error) : response := Respond code (ErrorBody err).

(** ** [api/serialization.go] *)

Definition validateContentType (values : list string) : res api_error unit :=
  match values with
  | [v] =>
      let val := trim_space (default "" (head (split_byte_2 ";" v))) in
      if bool_decide (val ≠ "application/json") then Err ContentTypeNotJSON else Ok tt
  | _ => Err (ContentTypeCount (length values))
  end.

(** ** [api/path.go] *)

Definition isCollectionPath (base p : string) : bool := bool_decide (p = base).

(** [None] is a path that is not the path of an item. *)
Definition isItemPath (base p : string) : option string :=
  if has_suffix "/" p then None
  else if default false (path_match (path_join [base; "*"]) p) then Some (path_base p) else None.

(** ** Validation of units *)

Definition unitNameMax : nat := 256.
Definition digits : string := "0123456789".
Definition lowercase : string := "abcdefghijklmnopqrstuvwxyz".
Definition uppercase : string := "ABCDEFGHIJKLMNOPQRSTUVWXYZ".
Definition alphanumerical : string := digits +:+ lowercase +:+ uppercase.
Definition validChars : string := alphanumerical +:+ ":-_.\@".

Definition validUnitTypes : unsafeSet := NewUnsafeSet [
  "automount"; "busname"; "device"; "mount"; "path"; "scope"; "service"; "slice";
  "snapshot"; "socket"; "swap"; "target"; "timer" ].

Definition validTemplateTypes : unsafeSet := NewUnsafeSet ["path"; "service"; "socket"; "target"; "timer"].

(** [strings.ContainsRune(validChars, r)]: the valid characters are ASCII. *)
Definition valid_rune (r : N) : bool := (r <? 128)%N && has_byte (ascii_of_N r) validChars.

Definition ValidateName (name : string) : res name_error unit :=
  let length := String.length name in
  if bool_decide (length = 0) then Err NameEmpty
  else if bool_decide (unitNameMax < length) then Err NameTooLong
  else
    match last_index_byte "." name with
    | None => Err NameNoDot
    | Some dot =>
        if bool_decide (dot = length - 1) then Err NameEndsInDot
        else
          let suffix := str_drop (S dot) name in
          if negb (unsafeSet_Contains suffix validUnitTypes) then Err (BadUnitType suffix)
          else if has_byte "@" name && negb (unsafeSet_Contains suffix validTemplateTypes)
          then Err (BadTemplateType suffix)
          else
            match list_find (λ '(r, _), negb (valid_rune r)) (runes (str_take dot name)) with
            | Some (_, (r, _)) => Err (BadNameChar r)
            | None => if has_prefix "@" name then Err NameStartsInAt else Ok tt
            end
    end.

Section validate_options.
Context `{MR : MapRange}.

(** [matched, _ := path.Match(...)]: a bad pattern matches nothing. *)
Definition matches (pattern name : string) : bool := default false (path_match pattern name).

(** The first pair of a peer and a pattern that matches it. *)
Fixpoint check_peers (conflicts replaces : moment → list string) (t : moment) (ps : list string)
  : option options_error :=
  match ps with
  | [] => None
  | peer :: ps =>
      match list_find (λ c, matches c peer) (conflicts (length ps :: 0 :: t)) with
      | Some (_, c) => Some (PeerMatchesConflict peer c)
      | None =>
          match list_find (λ r, matches r peer) (replaces (length ps :: 1 :: t)) with
          | Some (_, r) => Some (PeerMatchesReplace peer r)
          | None => check_peers conflicts replaces t ps
          end
      end
  end.

Definition ValidateOptions (t : moment) (opts : list SchemaUnitOption) : res options_error unit :=
  let uf := MapSchemaUnitOptionsToUnitFile opts in
  match Deserialize (Serialize uf.(Options)) with
  | Err e => Err (OptionsUnparsable e)
  | Ok _ =>
      let j := mkJob "" None "" "" uf in
      let conflicts := NewUnsafeSet (Job_Conflicts j) in
      let replaces := NewUnsafeSet (Job_Replaces j) in
      let peers := NewUnsafeSet (Job_Peers j) in
      match check_peers (λ t, unsafeSet_Values t conflicts)
              (λ t, unsafeSet_Values t replaces) (0 :: t) (unsafeSet_Values (1 :: t) peers) with
      | Some e => Err e
      | None =>
          let hasPeers := negb (bool_decide (unsafeSet_Length peers = 0)) in
          let hasConflicts := negb (bool_decide (unsafeSet_Length conflicts = 0)) in
          let hasReplaces := negb (bool_decide (unsafeSet_Length replaces = 0)) in
          let hasReqTarget := match Job_RequiredTarget j with Some _ => true | None => false end in
          let isGlobal := IsGlobal (mkUnit "" uf "") in
          if hasReqTarget && hasPeers then Err MachineIDWithPeers
          else if hasReqTarget && hasConflicts then Err MachineIDWithConflicts
          else if hasReqTarget && isGlobal then Err MachineIDWithGlobal
          else if hasReqTarget && hasReplaces then Err MachineIDWithReplaces
          else if isGlobal && hasPeers then Err GlobalWithPeers
          else if isGlobal && hasReplaces then Err GlobalWithReplaces
          else if hasConflicts && hasReplaces then Err ConflictsWithReplaces
          else Ok tt
      end
  end.
End validate_options.

(** ** Handlers *)

Record request := mkRequest {
  rq_Method : string;
  rq_Path : string;
  rq_ContentType : list string;
  rq_nextPageToken : list string;
  rq_machineID : list string;
  rq_unitName : list string;
  rq_unit : option SchemaUnit
}.

Section handlers.
Context `{MR : MapRange, DG : Digest} {Rg E : Type} `{CR : !ClientRegistry Rg E}.

(** A failed call of the client; a panic in the client is one of the handler. *)
Definition client_failure (e : client_error E) : response :=
  match e with
  | ClientPanic => PanicResponse
  | _ => sendError StatusInternalServerError None
  end.

Definition create (u : SchemaUnit) (reg : Rg) : Rg * response :=
  match RegistryClient_CreateUnit u reg with
  | (reg, Err e) => (reg, client_failure e)
  | (reg, Ok _) => (reg, Respond StatusCreated NoBody)
  end.

Definition update (item ds : string) (reg : Rg) : Rg * response :=
  match RegistryClient_SetUnitTargetState item ds reg with
  | (reg, Err e) => (reg, client_failure e)
  | (reg, Ok _) => (reg, Respond StatusNoContent NoBody)
  end.

Definition units_destroy (item : string) (reg : Rg) : Rg * response :=
  match RegistryClient_Unit item reg with
  | Err e => (reg, client_failure e)
  | Ok None => (reg, sendError StatusNotFound (Some UnitDoesNotExist))
  | Ok (Some _) =>
      match RegistryClient_DestroyUnit item reg with
      | (reg, Err e) => (reg, client_failure e)
      | (reg, Ok _) => (reg, Respond StatusNoContent NoBody)
      end
  end.

Definition units_get (item : string) (reg : Rg) : Rg * response :=
  match RegistryClient_Unit item reg with
  | Err e => (reg, client_failure e)
  | Ok None => (reg, sendError StatusNotFound (Some UnitDoesNotExist))
  | Ok (Some u) => (reg, Respond StatusOK (UnitBody u))
  end.

(** What [set] decides once the unit of the registry is known. *)
Inductive set_decision :=
| SetFail (code : Z) (e : api_error)
| SetCreate
| SetUpdate.

Definition decide_set (t : moment) (su : SchemaUnit) (eu : option SchemaUnit) : set_decision :=
  let update_existing :=
    if bool_decide (String.length su.(SUDesiredState) = 0) then SetFail StatusConflict NoDesiredState
    else if match NewUnitNameInfo su.(SUName) with Some un => IsTemplate un | None => false end &&
            bool_decide (su.(SUDesiredState) ≠ JobStateInactive)
    then SetFail StatusBadRequest (CannotActivateTemplate su.(SUName))
    else SetUpdate in
  match eu with
  | None =>
      if bool_decide (length su.(SUOptions) = 0) then SetFail StatusConflict NoSuchUnitNoOptions
      else
        match ValidateOptions t su.(SUOptions) with
        | Err e => SetFail StatusBadRequest (InvalidOptions e)
        | Ok _ => SetCreate
        end
  | Some eu =>
      if bool_decide (eu.(SUName) = su.(SUName)) && negb (bool_decide (length su.(SUOptions) = 0)) then
        if negb (MatchUnitFiles (MapSchemaUnitOptionsToUnitFile su.(SUOptions))
                   (MapSchemaUnitOptionsToUnitFile eu.(SUOptions)))
        then SetCreate else update_existing
      else update_existing
  end.

Definition with_name (item : string) (su : SchemaUnit) : SchemaUnit :=
  if bool_decide (su.(SUName) = "")
  then mkSchemaUnit su.(SUCurrentState) su.(SUDesiredState) su.(SUMachineID) item su.(SUOptions)
  else su.

Definition units_set (t : moment) (req : request) (item : string) (reg : Rg) : Rg * response :=
  match validateContentType req.(rq_ContentType) with
  | Err e => (reg, sendError StatusUnsupportedMediaType (Some e))
  | Ok _ =>
      match req.(rq_unit) with
      | None => (reg, sendError StatusBadRequest (Some BodyUndecodable))
      | Some su =>
          let su := with_name item su in
          if bool_decide (item ≠ su.(SUName)) then
            (reg, sendError StatusBadRequest (Some (NameMismatch item su.(SUName))))
          else
            match ValidateName su.(SUName) with
            | Err e => (reg, sendError StatusBadRequest (Some (InvalidName e)))
            | Ok _ =>
                match RegistryClient_Unit su.(SUName) reg with
                | Err e => (reg, client_failure e)
                | Ok eu =>
                    match decide_set t su eu with
                    | SetFail code e => (reg, sendError code (Some e))
                    | SetCreate => create su reg
                    | SetUpdate => update su.(SUName) su.(SUDesiredState) reg
                    end
                end
            end
      end
  end.

(** The token of the request, or the first page. *)
Definition request_token (values : list string) (tokenLimit : Z) : res token_error PageToken :=
  match findNextPageToken values tokenLimit with
  | Err e => Err e
  | Ok None => Ok (DefaultPageToken tokenLimit)
  | Ok (Some tok) => Ok tok
  end.

Definition next_field (next : option PageToken) : string :=
  match next with Some n => Encode n | None => "" end.

Definition extractUnitPageData (all : list SchemaUnit) (tok : PageToken) := page_slice all tok.

Definition units_list (tokenLimit : Z) (req : request) (reg : Rg) : Rg * response :=
  match request_token req.(rq_nextPageToken) tokenLimit with
  | Err e => (reg, sendError StatusBadRequest (Some (InvalidToken e)))
  | Ok tok =>
      match RegistryClient_Units reg with
      | Err e => (reg, client_failure e)
      | Ok all =>
          match extractUnitPageData all tok with
          | None => (reg, PanicResponse)
          | Some (items, next) => (reg, Respond StatusOK (UnitPageBody items (next_field next)))
          end
      end
  end.

Definition units_ServeHTTP (t : moment) (basePath : string) (tokenLimit : Z) (req : request) (reg : Rg)
  : Rg * response :=
  if isCollectionPath basePath req.(rq_Path) then
    if bool_decide (req.(rq_Method) = "GET") then units_list tokenLimit req reg
    else (reg, sendError StatusMethodNotAllowed (Some (OnlyMethods ["GET"])))
  else
    match isItemPath basePath req.(rq_Path) with
    | Some item =>
        if bool_decide (req.(rq_Method) = "GET") then units_get item reg
        else if bool_decide (req.(rq_Method) = "DELETE") then units_destroy item reg
        else if bool_decide (req.(rq_Method) = "PUT") then units_set t req item reg
        else (reg, sendError StatusMethodNotAllowed (Some (OnlyMethods ["GET"; "PUT"; "DELETE"])))
    | None => (reg, sendError StatusNotFound None)
    end.

(** *** [api/state.go] *)

Definition filter_states (machineID unitName : string) (states : list SchemaUnitState) : list SchemaUnitState :=
  filter (λ us, (machineID = "" ∨ machineID = us.(SSMachineID)) ∧ (unitName = "" ∨ unitName = us.(SSName))) states.

Definition extractUnitStatePageData (all : list SchemaUnitState) (tok : PageToken) := page_slice all tok.

Definition state_list (tokenLimit : Z) (req : request) (reg : Rg) : response :=
  match request_token req.(rq_nextPageToken) tokenLimit with
  | Err e => sendError StatusBadRequest (Some (InvalidToken e))
  | Ok tok =>
      let machineID := default "" (head req.(rq_machineID)) in
      let unitName := default "" (head req.(rq_unitName)) in
      match RegistryClient_UnitStates reg with
      | Err e => client_failure e
      | Ok states =>
          match extractUnitStatePageData (filter_states machineID unitName states) tok with
          | None => PanicResponse
          | Some (items, next) => Respond StatusOK (UnitStatePageBody items (next_field next))
          end
      end
  end.

Definition state_get (item : string) (reg : Rg) : response :=
  match RegistryClient_UnitState item reg with
  | Err e => client_failure e
  | Ok None => sendError StatusNotFound (Some UnitStateDoesNotExist)
  | Ok (Some us) => Respond StatusOK (UnitStateBody us)
  end.

Definition state_ServeHTTP (basePath : string) (tokenLimit : Z) (req : request) (reg : Rg) : response :=
  if isCollectionPath basePath req.(rq_Path) then
    if bool_decide (req.(rq_Method) = "GET") then state_list tokenLimit req reg
    else sendError StatusMethodNotAllowed (Some (OnlyMethods ["GET"]))
  else
    match isItemPath basePath req.(rq_Path) with
    | Some item =>
        if bool_decide (req.(rq_Method) = "GET") then state_get item reg
        else sendError StatusMethodNotAllowed (Some (OnlyMethods ["GET"]))
    | None => sendError StatusNotFound None
    end.

(** *** [api/machines.go] *)

Definition extractMachinePage (all : list MachineState) (tok : PageToken)
  : option (list SchemaMachine * string) :=
  match page_slice all tok with
  | None => None
  | Some (items, next) => Some (MapMachineStateToSchema <$> items, next_field next)
  end.

Definition machines_list (tokenLimit : Z) (req : request) (reg : Rg) : response :=
  match request_token req.(rq_nextPageToken) tokenLimit with
  | Err e => sendError StatusBadRequest (Some (InvalidToken e))
  | Ok tok =>
      match cr_Machines reg with
      | Err e => sendError StatusInternalServerError None
      | Ok all =>
          match extractMachinePage all tok with
          | None => PanicResponse
          | Some (items, next) => Respond StatusOK (MachinePageBody items next)
          end
      end
  end.

Record machineMetadataOp := mkMetadataOp { op_Operation : string; op_Path : string; op_Value : string }.

(** The characters of a metadata key. *)
Definition key_char (c : ascii) : bool := has_byte c (alphanumerical +:+ "_.-").

Fixpoint all_bytes (f : ascii → bool) (s : string) : bool :=
  match s with "" => true | String c s => f c && all_bytes f s end.

(** [metadataPathRegex]: the machine and the key of a path
    ["/<machine>/metadata/<key>"]. *)
Definition metadataPath (p : string) : option (string * string) :=
  match split_byte "/" p with
  | ["" as e; machID; m; key] =>
      if bool_decide (m = "metadata") && negb (bool_decide (machID = "")) &&
         negb (bool_decide (key = "")) && all_bytes key_char key
      then Some (machID, key) else None
  | _ => None
  end.

(** The checks of the first loop over the operations. *)
Definition check_op (op : machineMetadataOp) : option api_error :=
  if bool_decide (op.(op_Operation) ≠ "add") && bool_decide (op.(op_Operation) ≠ "remove") &&
     bool_decide (op.(op_Operation) ≠ "replace") then Some InvalidOp
  else
    match metadataPath op.(op_Path) with
    | None => Some InvalidMetadataPath
    | Some _ =>
        if bool_decide (op.(op_Operation) ≠ "remove") && bool_decide (op.(op_Value) = "")
        then Some MissingValue else None
    end.

Fixpoint check_ops (ops : list machineMetadataOp) : option api_error :=
  match ops with
  | [] => None
  | op :: ops => match check_op op with Some e => Some e | None => check_ops ops end
  end.

Fixpoint apply_ops (ops : list machineMetadataOp) (reg : Rg) : Rg * response :=
  match ops with
  | [] => (reg, Respond StatusNoContent NoBody)
  | op :: ops =>
      match metadataPath op.(op_Path) with
      | None => (reg, PanicResponse)
      | Some (machID, key) =>
          let '(reg, r) :=
            if bool_decide (op.(op_Operation) = "remove") then cr_DeleteMachineMetadata machID key reg
            else cr_SetMachineMetadata machID key op.(op_Value) reg in
          match r with
          | Err _ => (reg, sendError StatusInternalServerError (Some MetadataCallFailed))
          | Ok _ => apply_ops ops reg
          end
      end
  end.

(** [ops] is the decoded body, if it decodes. *)
Definition machines_patch (ops : option (list machineMetadataOp)) (reg : Rg) : Rg * response :=
  match ops with
  | None => (reg, sendError StatusBadRequest (Some BodyUndecodable))
  | Some ops =>
      match check_ops ops with
      | Some e => (reg, sendError StatusBadRequest (Some e))
      | None => apply_ops ops reg
      end
  end.

Definition machines_ServeHTTP (tokenLimit : Z) (req : request) (ops : option (list machineMetadataOp))
    (reg : Rg) : Rg * response :=
  if bool_decide (req.(rq_Method) = "GET") then (reg, machines_list tokenLimit req reg)
  else if bool_decide (req.(rq_Method) = "PATCH") then machines_patch ops reg
  else (reg, sendError StatusMethodNotAllowed (Some (OnlyMethods ["GET"; "PATCH"]))).
End handlers.

(** ** Names *)

Lemma valid_rune_byte c : valid_rune (N_of_ascii c) = has_byte c validChars.
Proof. destruct c as [[] [] [] [] [] [] [] []]; vm_compute; reflexivity. Qed.

Lemma decode_rune_ascii c s : (N_of_ascii c <? 128)%N = true → decode_rune (String c s) = (N_of_ascii c, 1).
Proof. intros H. unfold decode_rune. by rewrite H. Qed.

(** A rune that is decoded from a byte outside ASCII is outside ASCII. *)
Lemma decode_rune_other c s : (N_of_ascii c <? 128)%N = false → (((decode_rune (String c s)).1) <? 128)%N = false.
Proof.
  intros H. unfold decode_rune. rewrite H. unfold between, cont, RuneError. apply N.ltb_ge in H.
  repeat (case_match; cbn [fst] in * ); apply N.ltb_ge;
    repeat match goal with
    | H : (_ && _)%bool = true |- _ => apply andb_true_iff in H as [? ?]
    | H : (_ <=? _)%N = true |- _ => apply N.leb_le in H
    | H : (_ =? _)%N = true |- _ => apply N.eqb_eq in H
    | H : (_ =? _)%N = false |- _ => apply N.eqb_neq in H
    end; lia.
Qed.

Definition name_byte (c : ascii) : bool := has_byte c validChars.

Lemma has_byte_valid_ascii c : has_byte c validChars = true → (N_of_ascii c <? 128)%N = true.
Proof. destruct c as [[] [] [] [] [] [] [] []]; vm_compute; congruence. Qed.

(** Checking the runes of a name is checking its bytes. *)
Lemma runes_valid_bytes fuel s :
  String.length s ≤ fuel →
  forallb (λ '(r, _), valid_rune r) (runes_fuel fuel s) = all_bytes name_byte s.
Proof.
  revert s. induction fuel as [|fuel IH]; intros [|c s] Hf; cbn in Hf; try done; [lia|].
  cbn [runes_fuel all_bytes]. destruct (N_of_ascii c <? 128)%N eqn:Hc.
  - rewrite decode_rune_ascii by done. cbn [forallb str_drop]. unfold name_byte.
    rewrite valid_rune_byte, IH by lia. done.
  - pose proof (decode_rune_other c s Hc) as Hr. destruct (decode_rune (String c s)) as [r n]. cbn in Hr.
    cbn [forallb]. unfold valid_rune at 1. rewrite Hr. cbn [andb]. unfold name_byte.
    destruct (has_byte c validChars) eqn:Hb; [|done]. apply has_byte_valid_ascii in Hb. congruence.
Qed.

Lemma find_bad_rune s :
  list_find (λ '(r, _), negb (valid_rune r)) (runes s) = None ↔ all_bytes name_byte s = true.
Proof.
  rewrite <- (runes_valid_bytes (String.length s) s) by done. fold (runes s).
  rewrite list_find_None, forallb_elem, Forall_forall. split; intros H [r b] Hin.
  - specialize (H _ Hin). cbn in H. by destruct (valid_rune r).
  - specialize (H _ Hin). cbn in H |- *. rewrite H. by intros [].
Qed.

(** What a valid name is. *)
Definition valid_name (name : string) : Prop :=
  String.length name ≤ unitNameMax ∧
  ∃ pre suffix, name = pre +:+ String "." suffix ∧ has_byte "." suffix = false ∧
    suffix ∈ unsafeSet_members validUnitTypes ∧
    (has_byte "@" name = true → suffix ∈ unsafeSet_members validTemplateTypes) ∧
    all_bytes name_byte pre = true ∧ has_prefix "@" name = false.

(** The tests of [ValidateName] after the dot has been found. *)
Lemma valid_name_at name dot :
  last_index_byte "." name = Some dot →
  valid_name name ↔
    String.length name ≤ unitNameMax ∧ str_drop (S dot) name ∈ unsafeSet_members validUnitTypes ∧
    (has_byte "@" name = true → str_drop (S dot) name ∈ unsafeSet_members validTemplateTypes) ∧
    all_bytes name_byte (str_take dot name) = true ∧ has_prefix "@" name = false.
Proof.
  intros Hdot. unfold valid_name. split.
  - intros (Hmax & pre & suf & E & Hs & H). split; [done|].
    destruct (last_index_byte_split _ _ _ _ _ Hdot E Hs) as [<- <-]. tauto.
  - intros (Hmax & H). destruct (last_index_byte_Some _ _ _ Hdot) as [E Hs].
    split; [done|]. exists (str_take dot name), (str_drop (S dot) name). tauto.
Qed.

(** Checking the runes of a name, as the code does, amounts to checking its
    bytes. *)
Lemma ValidateName_iff name : ValidateName name = Ok tt ↔ valid_name name.
Proof.
  unfold ValidateName. destruct (last_index_byte "." name) as [dot|] eqn:Hdot.
  2: { split.
       - by repeat case_bool_decide.
       - intros (_ & pre & suf & -> & Hs & _). by rewrite last_index_byte_app_no in Hdot. }
  rewrite (valid_name_at name dot Hdot). destruct (last_index_byte_Some _ _ _ Hdot) as [Hname _].
  assert (String.length name = dot + 1 + String.length (str_drop (S dot) name)) as Hlen.
  { rewrite Hname at 1. rewrite str_length_app, str_length_take. cbn.
    apply (f_equal String.length) in Hname. rewrite str_length_app, str_length_take in Hname. cbn in Hname. lia. }
  rewrite <- find_bad_rune, <- !Contains_members.
  rewrite (bool_decide_eq_false_2 (String.length name = 0)) by lia.
  destruct (decide (String.length name ≤ unitNameMax)) as [Hmax|Hmax].
  2: { rewrite bool_decide_eq_true_2 by lia. split; [done|]. by intros [? _]. }
  rewrite bool_decide_eq_false_2 by lia. case_bool_decide as Hend.
  { split; [done|]. intros (_ & Hc & _). assert (str_drop (S dot) name = "") as E.
    { destruct (str_drop (S dot) name); [done|]. cbn in Hlen. lia. }
    rewrite E in Hc. vm_compute in Hc. discriminate Hc. }
  destruct (unsafeSet_Contains (str_drop (S dot) name) validUnitTypes); cbn [negb]; [|naive_solver].
  destruct (has_byte "@" name), (unsafeSet_Contains (str_drop (S dot) name) validTemplateTypes);
    cbn [negb andb]; try naive_solver;
    (destruct (list_find _ _) as [[i [r b]]|]; [naive_solver|]); destruct (has_prefix "@" name); naive_solver.
Qed.

(** A valid name is one element of a path. *)
Lemma ValidateName_good name : ValidateName name = Ok tt → good_elem name.
Proof.
  intros (_ & pre & suf & -> & Hs & Ht & _ & Hb & _)%ValidateName_iff.
  assert (suf ≠ "" ∧ has_byte "/" suf = false) as [Hne Hsl].
  { assert (set_Forall (λ t, t ≠ "" ∧ has_byte "/" t = false) (unsafeSet_members validUnitTypes)) as Hall; [|by apply Hall].
    apply (bool_decide_eq_true_1 _). vm_compute. reflexivity. }
  split_and!; [by destruct pre|..].
  - intros E. apply (f_equal String.length) in E. rewrite str_length_app in E. cbn in E. destruct suf; [done|cbn in E; lia].
  - intros E. pose proof E as El. apply (f_equal String.length) in El. rewrite str_length_app in El. cbn in El.
    destruct suf as [|a suf]; [done|]. destruct pre; [|cbn in El; lia]. rewrite str_app_nil_l in E. by injection E as -> ->.
  - rewrite has_byte_app, has_byte_cons, Hsl. rewrite bool_decide_eq_false_2 by done. cbn. rewrite orb_false_r.
    clear -Hb. induction pre as [|a pre IH]; [done|]. cbn in Hb. apply andb_true_iff in Hb as [Ha Hb].
    rewrite has_byte_cons, (IH Hb), orb_false_r. apply bool_decide_eq_false_2. intros ->. done.
Qed.

(** [ValidateName] accepts exactly the names that are a prefix of valid
    characters, a dot and a known unit type without dots, of at most 256 bytes,
    not starting in "@", and of a type that has templates when they contain "@".
    Checking runes, as the code does, amounts to checking bytes. *)
Theorem ValidateName_valid name : ValidateName name = Ok tt ↔ valid_name name.
Proof. apply ValidateName_iff. Qed.

(** ** Options *)

Section options.
Context `{MR : MapRange}.

Lemma check_peers_None conflicts replaces t ps :
  check_peers conflicts replaces t ps = None →
  Forall (λ peer, (∃ t', Forall (λ c, matches c peer = false) (conflicts t')) ∧
                  (∃ t', Forall (λ r, matches r peer = false) (replaces t'))) ps.
Proof.
  assert (∀ l peer, list_find (λ c, matches c peer) l = None → Forall (λ c, matches c peer = false) l) as Hl.
  { intros l peer H%list_find_None. eapply Forall_impl; [exact H|]. intros c Hc. by apply Is_true_false. }
  induction ps as [|peer ps IH]; cbn; [constructor|].
  destruct (list_find _ (conflicts _)) as [[? ?]|] eqn:E1; [done|].
  destruct (list_find _ (replaces _)) as [[? ?]|] eqn:E2; [done|]. intros H. constructor; [|auto].
  split; eexists; by apply Hl.
Qed.

Lemma elem_of_Values_New t l x : x ∈ unsafeSet_Values t (NewUnsafeSet l) ↔ x ∈ l.
Proof.
  change (x ∈ Values (GoSet := unsafeSet_GoSet) t (NewUnsafeSet l) ↔ x ∈ l).
  rewrite Values_members. cbn [members unsafeSet_GoSet]. rewrite members_New. apply elem_of_list_to_set.
Qed.

Lemma Length_New_0 l : unsafeSet_Length (NewUnsafeSet l) = 0 ↔ l = [].
Proof.
  unfold unsafeSet_Length. rewrite map_size_empty_iff, <- (dom_empty_iff_L (D := gset string)).
  change (unsafeSet_members (NewUnsafeSet l) = ∅ ↔ l = []). rewrite members_New. split.
  - destruct l as [|x l]; [done|]. cbn. set_solver.
  - by intros ->.
Qed.

(** The requirements of a unit can be met together. *)
Record compatible (j : Job) (u : Unit) : Prop := {
  comp_conflicts : ∀ p c, p ∈ Job_Peers j → c ∈ Job_Conflicts j → matches c p = false;
  comp_replaces : ∀ p r, p ∈ Job_Peers j → r ∈ Job_Replaces j → matches r p = false;
  comp_target : is_Some (Job_RequiredTarget j) →
    Job_Peers j = [] ∧ Job_Conflicts j = [] ∧ Job_Replaces j = [] ∧ IsGlobal u = false;
  comp_global : IsGlobal u = true → Job_Peers j = [] ∧ Job_Replaces j = [];
  comp_both : Job_Conflicts j = [] ∨ Job_Replaces j = []
}.

(** C30: options that [ValidateOptions] accepts can be parsed back and are
    compatible: no peer is excluded by a conflict or a replacement, a required
    machine excludes every other requirement, a global unit has no peers and
    replaces nothing, and conflicts are not mixed with replacements. *)
Theorem ValidateOptions_compatible t opts :
  ValidateOptions t opts = Ok tt →
  let uf := MapSchemaUnitOptionsToUnitFile opts in
  is_ok (Deserialize (Serialize uf.(Options))) = true ∧
  compatible (mkJob "" None "" "" uf) (mkUnit "" uf "").
Proof.
  unfold ValidateOptions. cbn zeta. set (uf := MapSchemaUnitOptionsToUnitFile opts).
  destruct (Deserialize _) as [d|e]; [|done]. set (j := mkJob "" None "" "" uf). set (u := mkUnit "" uf "").
  destruct (check_peers _ _ _ _) as [e|] eqn:Ec; [done|]. apply check_peers_None in Ec.
  rewrite Forall_forall in Ec. setoid_rewrite elem_of_Values_New in Ec.
  intros H. split; [done|].
  rewrite !(bool_decide_ext _ _ (Length_New_0 _)) in H.
  split.
  - intros p c Hp Hc. destruct (Ec p Hp) as [[t' Ht'] _]. rewrite Forall_forall in Ht'.
    apply Ht'. by apply elem_of_Values_New.
  - intros p r Hp Hr. destruct (Ec p Hp) as [_ [t' Ht']]. rewrite Forall_forall in Ht'.
    apply Ht'. by apply elem_of_Values_New.
  - intros [id Hid]. rewrite Hid in H. cbn in H. repeat case_bool_decide; destruct (IsGlobal u); naive_solver.
  - intros Hg. rewrite Hg in H. destruct (Job_RequiredTarget j); cbn in H; repeat case_bool_decide; naive_solver.
  - destruct (Job_RequiredTarget j), (IsGlobal u); cbn in H; repeat case_bool_decide; naive_solver.
Qed.
End options.

(** ** Handlers *)

Section handler_facts.
Context `{MR : MapRange, DG : Digest} {Rg E : Type} `{CR : !ClientRegistry Rg E}.

(** The response reports a mistake of the client. *)
Definition client_mistake (r : response) : Prop :=
  match r with Respond code _ => (400 ≤ code < 500)%Z | PanicResponse => False end.

Lemma create_not_mistake u (reg : Rg) : ¬ client_mistake (create u reg).2.
Proof.
  unfold create. destruct (RegistryClient_CreateUnit u reg) as [reg' [|e]]; cbn; [|destruct e; cbn];
    unfold StatusCreated, StatusInternalServerError; lia.
Qed.

Lemma update_not_mistake n ds (reg : Rg) : ¬ client_mistake (update n ds reg).2.
Proof.
  unfold update. destruct (RegistryClient_SetUnitTargetState n ds reg) as [reg' [|e]]; cbn; [|destruct e; cbn];
    unfold StatusNoContent, StatusInternalServerError; lia.
Qed.

(** A request that [set] rejects as the client's mistake changes nothing in
    the registry; and one that it does not reject names a valid unit, whose
    options were validated if the unit is new. *)
Theorem set_rejects_cleanly t req item (reg : Rg) :
  (client_mistake (units_set t req item reg).2 → (units_set t req item reg).1 = reg) ∧
  ((units_set t req item reg).2 = Respond StatusCreated NoBody →
   ∃ su, req.(rq_unit) = Some su ∧ ValidateName item = Ok tt ∧
     (RegistryClient_Unit item reg = Ok None → ValidateOptions t su.(SUOptions) = Ok tt)).
Proof.
  assert (∀ item su, (with_name item su).(SUOptions) = su.(SUOptions)) as Hopts.
  { intros ? su. unfold with_name. by case_bool_decide. }
  assert (∀ e : client_error E, client_failure e ≠ Respond StatusCreated NoBody) as Hfail by by intros [].
  assert (∀ item ds reg, (update item ds reg).2 ≠ Respond StatusCreated NoBody) as Hupd.
  { intros i ds r. unfold update. by destruct (RegistryClient_SetUnitTargetState i ds r) as [? [|[]]]. }
  unfold units_set. destruct (validateContentType _); [|split; done].
  destruct (rq_unit req) as [su|]; [|split; done]. case_bool_decide as Hitem; [split; done|].
  rewrite <- Hitem.
  destruct (ValidateName item) as [[]|] eqn:Hn; [|split; done].
  destruct (RegistryClient_Unit item reg) as [eu|e] eqn:Hu; [|split; [done|by intros ?%Hfail]].
  destruct (decide_set t (with_name item su) eu) as [code e| |] eqn:Ed.
  - split; done.
  - split; [by intros ?%create_not_mistake|]. intros _. exists su. split_and!; [done..|].
    intros [= ->]. unfold decide_set in Ed. rewrite Hopts in Ed. case_bool_decide; [done|].
    by destruct (ValidateOptions t (SUOptions su)) as [[]|].
  - split; [by intros ?%update_not_mistake|]. by intros ?%Hupd.
Qed.

(** Asking for the state of a unit that has none does not give the "not
    found" answer the handler prepares: the client dereferences a nil pointer
    first. *)
Theorem state_get_missing item (reg : Rg) :
  cr_UnitState item reg = Ok None → state_get item reg = PanicResponse.
Proof. intros H. unfold state_get, RegistryClient_UnitState. by rewrite H. Qed.

Lemma check_ops_paths ops :
  check_ops ops = None → Forall (λ op, is_Some (metadataPath op.(op_Path))) ops.
Proof.
  induction ops as [|op ops IH]; cbn; [constructor|]. destruct (check_op op) eqn:Ec; [done|].
  intros H. constructor; [|auto]. unfold check_op in Ec. repeat case_match; try done; by eexists.
Qed.

(** A PATCH of machine metadata is checked as a whole before anything is
    written: when one operation is malformed, none is applied; and once the
    checks pass no path fails to parse while the operations are applied. *)
Theorem patch_checks_first ops (reg : Rg) :
  ((∃ op, op ∈ ops ∧ check_op op ≠ None) →
     (machines_patch (Some ops) reg).1 = reg ∧ client_mistake (machines_patch (Some ops) reg).2) ∧
  (machines_patch (Some ops) reg).2 ≠ PanicResponse.
Proof.
  unfold machines_patch. split.
  - intros (op & Hop & Hbad). assert (∃ e, check_ops ops = Some e) as [e ->].
    { induction ops as [|op' ops IH]; [by apply elem_of_nil in Hop|]. cbn.
      destruct (check_op op') as [e|] eqn:Ec; [by eexists|]. apply elem_of_cons in Hop as [->|Hop]; [done|auto]. }
    split; [done|]. cbn. unfold StatusBadRequest. lia.
  - destruct (check_ops ops) as [e|] eqn:Ec; [done|]. apply check_ops_paths in Ec. revert reg.
    induction Ec as [|op ops [[m k] Hp] _ IH]; intros reg; cbn [apply_ops]; [done|]. rewrite Hp.
    destruct (if bool_decide _ then _ else _) as [reg' [|]]; [apply IH|done].
Qed.
End handler_facts.

(** ** Paths *)

Lemma plain_app a b : plain (a +:+ b) = plain a && plain b.
Proof. induction a as [|c a IH]; [done|]. rewrite str_app_cons. cbn. by rewrite IH, andb_assoc. Qed.

Lemma has_suffix_slash s t : t ≠ "" → has_byte "/" t = false → has_suffix "/" (s +:+ t) = false.
Proof.
  intros Hne Ht. apply not_true_iff_false. rewrite has_suffix_spec. intros [u Hu].
  assert (trim_right (s +:+ t) "/" = s +:+ t) as Htr by by apply trim_right_app.
  rewrite Hu in Htr. apply (f_equal String.length) in Htr.
  assert (∀ v, String.length (trim_right (v +:+ "/") "/") ≤ String.length v) as Hle.
  { intros v. induction v as [|c v IH]; [done|]. rewrite str_app_cons. cbn [trim_right String.length].
    destruct (trim_right (v +:+ "/") "/"); [case_match; cbn; lia|cbn in *; lia]. }
  specialize (Hle u). rewrite str_length_app in Htr. cbn in Htr. lia.
Qed.

(** The path of an item is the base path, a slash and a non-empty name
    without slashes, and the item found is that name; for a base path that is
    clean and has no glob characters, as the ones the server uses. *)
Theorem isItemPath_item base p item :
  plain base = true → path_join [base; "*"] = base +:+ "/*" →
  isItemPath base p = Some item ↔
  p = base +:+ String "/" item ∧ item ≠ "" ∧ has_byte "/" item = false.
Proof.
  intros Hpl Hj. unfold isItemPath. rewrite Hj.
  replace (base +:+ "/*") with ((base +:+ "/") +:+ "*") by by rewrite str_app_assoc.
  rewrite path_match_prefix_star; [|by rewrite plain_app, Hpl|by destruct base]. cbn [default from_option].
  assert (∀ it, base +:+ String "/" it = (base +:+ "/") +:+ it) as Hsl by (intros it; by rewrite str_app_assoc).
  split.
  - destruct (has_suffix "/" p) eqn:Hs; [done|]. destruct (_ && _) eqn:Hm; [|done].
    apply andb_true_iff in Hm as [Hp Hn]. apply has_prefix_spec in Hp as [t ->].
    rewrite str_drop_app in Hn. apply negb_true_iff in Hn.
    destruct (decide (t = "")) as [->|Ht].
    { exfalso. apply not_true_iff_false in Hs. apply Hs, has_suffix_spec. exists base. by rewrite str_app_nil_r. }
    rewrite <- Hsl, path_base_item by done. by intros [= <-].
  - intros (-> & Hne & Hi). rewrite Hsl, has_suffix_slash by done.
    rewrite str_drop_app, Hi, andb_true_r.
    rewrite (proj2 (has_prefix_spec _ _)) by by eexists. rewrite <- Hsl. by rewrite path_base_item.
Qed.

(** ** What [set] does not check *)

Section unchecked.
Context `{MR : MapRange, DG : Digest} {Rg E : Type} `{CR : !ClientRegistry Rg E}.

(** When a unit of that name exists with another content, [set] stores the
    new content without validating its options, whatever they are: options
    that [ValidateOptions] refuses for a new unit are accepted here. *)
Theorem set_replaces_unvalidated t req item su eu (reg : Rg) :
  validateContentType req.(rq_ContentType) = Ok tt → req.(rq_unit) = Some su → su.(SUName) = item →
  item ≠ "" → ValidateName item = Ok tt → RegistryClient_Unit item reg = Ok (Some eu) →
  eu.(SUName) = item → su.(SUOptions) ≠ [] →
  MatchUnitFiles (MapSchemaUnitOptionsToUnitFile su.(SUOptions))
    (MapSchemaUnitOptionsToUnitFile eu.(SUOptions)) = false →
  units_set t req item reg = create su reg.
Proof.
  intros Hct Hsu Hn Hne Hv Hu Heu Hopts Hm. unfold units_set, with_name.
  rewrite Hct, Hsu, Hn, (bool_decide_eq_false_2 (item = "")) by done. rewrite Hn, bool_decide_eq_false_2 by tauto.
  rewrite Hv, Hu. unfold decide_set. rewrite Heu, Hn, bool_decide_eq_true_2, Hm by done.
  rewrite bool_decide_eq_false_2; [done|]. by intros ?%nil_length_inv.
Qed.

(** The desired state of an existing unit is handed to the registry as it
    is: [set] does not check that it is one of the three states, although
    [CreateUnit] does. *)
Theorem set_updates_unvalidated t req item su eu (reg : Rg) :
  validateContentType req.(rq_ContentType) = Ok tt → req.(rq_unit) = Some su → su.(SUName) = item →
  item ≠ "" → ValidateName item = Ok tt → has_byte "@" item = false →
  RegistryClient_Unit item reg = Ok (Some eu) → su.(SUOptions) = [] → su.(SUDesiredState) ≠ "" →
  (units_set t req item reg).1 = (cr_SetUnitTargetState item su.(SUDesiredState) reg).1.
Proof.
  intros Hct Hsu Hn Hne Hv Hat Hu Hopts Hds. unfold units_set, with_name.
  rewrite Hct, Hsu, Hn, (bool_decide_eq_false_2 (item = "")) by done. rewrite Hn, bool_decide_eq_false_2 by tauto.
  rewrite Hv, Hu. unfold decide_set. rewrite Hn, Hopts. cbn [length].
  rewrite (bool_decide_eq_true_2 (0 = 0)), andb_false_r by done.
  rewrite bool_decide_eq_false_2 by by destruct (SUDesiredState su).
  assert (match NewUnitNameInfo item with Some un => IsTemplate un | None => false end = false) as ->.
  { unfold NewUnitNameInfo. destruct (last_index_byte "." item) as [i|]; [|done].
    assert (index_byte "@" (str_take i item) = None) as ->; [|done]. apply index_byte_None.
    pose proof (has_byte_app "@" (str_take i item) (str_drop i item)) as Hb. rewrite str_take_drop, Hat in Hb.
    by destruct (has_byte "@" (str_take i item)). }
  cbn [andb]. unfold update, RegistryClient_SetUnitTargetState.
  destruct (cr_SetUnitTargetState _ _ _) as [reg' r]. by destruct r.
Qed.
End unchecked.

(** ** Witnesses: a registry held in memory, a parser that accepts everything *)

Record mem_api := mkMemApi { ma_units : gmap string Unit }.

Definition mem_client_registry : ClientRegistry mem_api string := {|
  cr_Units r := Ok (map_to_list r.(ma_units)).*2;
  cr_Schedule _ := Ok [];
  cr_Unit n r := Ok (r.(ma_units) !! n);
  cr_ScheduledUnit _ _ := Ok None;
  cr_UnitState _ _ := Ok None;
  cr_UnitStates _ := Ok [];
  cr_CreateUnit u r := (mkMemApi (<[u.(UName) := u]> r.(ma_units)), Ok tt);
  cr_SetUnitTargetState n ts r :=
    (mkMemApi (alter (λ u, mkUnit u.(UName) u.(UUnit) ts) n r.(ma_units)), Ok tt);
  cr_DestroyUnit n r := (mkMemApi (delete n r.(ma_units)), Ok tt);
  cr_Machines _ := Ok [];
  cr_SetMachineMetadata _ _ _ r := (r, Ok tt);
  cr_DeleteMachineMetadata _ _ r := (r, Ok tt)
|}.


(** The first 20 bytes of the text, padded: a digest of the right length. *)
Definition api_digest : Digest.
Proof.
  refine {| sha1_sum := λ s, str_take 20 (str_drop 12 s +:+ "00000000000000000000") |}.
  intros s. rewrite str_length_take, str_length_app.
  change (String.length "00000000000000000000") with 20. lia.
Defined.

Definition fleet_option (k v : string) : SchemaUnitOption := mkSchemaUnitOption "X-Fleet" k v.

(** A required machine and a conflict: not a valid combination. *)
Definition ex_bad_options : list SchemaUnitOption :=
  [fleet_option "MachineID" "m1"; fleet_option "Conflicts" "db.service"].

Definition ex_put (opts : list SchemaUnitOption) (state : string) : request :=
  mkRequest "PUT" "/fleet/v1/units/web.service" ["application/json; charset=utf-8"] [] [] []
    (Some (mkSchemaUnit "" state "" "web.service" opts)).

Definition ex_api : mem_api :=
  mkMemApi {["web.service" := mkUnit "web.service" (NewUnitFromOptions [mkUnitOption "Unit" "Description" "x"]) "inactive"]}.

Lemma ValidateOptions_compatible_witness :
  compatible (mkJob "" None "" "" (MapSchemaUnitOptionsToUnitFile [fleet_option "Conflicts" "db.service"]))
    (mkUnit "" (MapSchemaUnitOptionsToUnitFile [fleet_option "Conflicts" "db.service"]) "").
Proof.
  apply (ValidateOptions_compatible (MR := canonical_range) []
    [fleet_option "Conflicts" "db.service"]).
  vm_compute. reflexivity.
Defined.

Lemma isItemPath_item_witness : isItemPath "/fleet/v1/units" "/fleet/v1/units/web.service" = Some "web.service".
Proof.
  apply (isItemPath_item "/fleet/v1/units"); [reflexivity|vm_compute; reflexivity|].
  split; [reflexivity|]. split; [discriminate|reflexivity].
Defined.

Lemma state_get_missing_witness : state_get (CR := mem_client_registry) "none.service" ex_api = PanicResponse.
Proof. apply (state_get_missing (CR := mem_client_registry) "none.service" ex_api). reflexivity. Defined.

Lemma set_replaces_unvalidated_witness :
  ValidateOptions (MR := canonical_range) [] ex_bad_options = Err MachineIDWithConflicts ∧
  units_set (MR := canonical_range) (DG := api_digest) (CR := mem_client_registry) []
    (ex_put ex_bad_options "launched") "web.service" ex_api =
  create (CR := mem_client_registry) (mkSchemaUnit "" "launched" "" "web.service" ex_bad_options) ex_api.
Proof.
  split; [vm_compute; reflexivity|].
  apply (set_replaces_unvalidated (MR := canonical_range) (DG := api_digest)
    (CR := mem_client_registry) [] (ex_put ex_bad_options "launched") "web.service" _
    (mkSchemaUnit "" "inactive" "" "web.service" [mkSchemaUnitOption "Unit" "Description" "x"]));
    try (vm_compute; reflexivity); discriminate.
Defined.

Lemma set_updates_unvalidated_witness :
  ParseJobState "running" = Err "running" ∧
  UTargetState <$> (units_set (MR := canonical_range) (DG := api_digest)
    (CR := mem_client_registry) [] (ex_put [] "running") "web.service" ex_api).1.(ma_units) !! "web.service" =
  Some "running".
Proof.
  split; [vm_compute; reflexivity|].
  rewrite (set_updates_unvalidated (MR := canonical_range) (DG := api_digest)
    (CR := mem_client_registry) [] (ex_put [] "running") "web.service"
    (mkSchemaUnit "" "running" "" "web.service" [])
    (mkSchemaUnit "" "inactive" "" "web.service" [mkSchemaUnitOption "Unit" "Description" "x"]) ex_api);
    try (vm_compute; reflexivity); discriminate.
Defined.
