(* ===== verification/Fleetctl.v ===== *)
(** * [fleetctl]: the command line client

    [fleetctl/fleetctl.go] and the commands that act on units: submit, load, start,
    stop, unload, restart, destroy, cat, status, journal and the listings.  A command
    calls the client interface of [client/api.go], reads local files, and waits
    while the cluster acts.  Messages for the user are left out, except for the output
    of the commands that list; so are flags and connections.

    Time passes in slots of 250 milliseconds, in which [elapse] is what the cluster
    does to the world; calls take no time. *)

From stdpp Require Import base list gmap strings.
From Stdlib Require Import ZArith Ascii.
From S2P Require Import Prelude GoStrings GoPath Pkg KnownHosts UnitFile Job Machine Schema Api.

(** ** [client/api.go] *)

Class ClientAPI (W E : Type) := {
  api_Machines : W → res E (list MachineState);
  api_SetMachineMetadata : string → string → string → W → W * res E unit;
  api_DeleteMachineMetadata : string → string → W → W * res E unit;
  api_Unit : string → W → res E (option SchemaUnit);
  api_Units : W → res E (list SchemaUnit);
  api_UnitState : string → W → res E (option SchemaUnitState);
  api_UnitStates : W → res E (list SchemaUnitState);
  api_SetUnitTargetState : string → string → W → W * res E unit;
  api_CreateUnit : SchemaUnit → W → W * res E unit;
  api_DestroyUnit : string → W → W * res E unit
}.

(** The client of [client/registry.go]; the metadata calls are the registry's. *)
#[export] Instance RegistryClient_API {Rg E} `{CR : !ClientRegistry Rg E} : ClientAPI Rg (client_error E) := {|
  api_Machines reg := lift_reg (cr_Machines reg);
  api_SetMachineMetadata m k v reg := let '(reg, r) := cr_SetMachineMetadata m k v reg in (reg, lift_reg r);
  api_DeleteMachineMetadata m k reg := let '(reg, r) := cr_DeleteMachineMetadata m k reg in (reg, lift_reg r);
  api_Unit := RegistryClient_Unit; api_Units := RegistryClient_Units;
  api_UnitState := RegistryClient_UnitState; api_UnitStates := RegistryClient_UnitStates;
  api_SetUnitTargetState := RegistryClient_SetUnitTargetState;
  api_CreateUnit := RegistryClient_CreateUnit; api_DestroyUnit := RegistryClient_DestroyUnit |}.

(** ** Names and legends *)

Definition maybeAppendDefaultUnitType (arg : string) : string :=
  if RecognizedUnitType arg then arg else DefaultUnitType arg.

Definition unitNameMangle (arg : string) : string := maybeAppendDefaultUnitType (path_base arg).

Definition suToGlobal (su : SchemaUnit) : bool :=
  IsGlobal (mkUnit "" (MapSchemaUnitOptionsToUnitFile su.(SUOptions)) "").

Definition machineIDLegend (ms : MachineState) (full : bool) : string :=
  if full then ms.(ID) else ShortID ms +:+ "...".

Definition machineFullLegend (ms : MachineState) (full : bool) : string :=
  let legend := machineIDLegend ms full in
  if bool_decide (0 < String.length ms.(PublicIP)) then legend +:+ "/" +:+ ms.(PublicIP) else legend.

Definition maybeAddNewline (s : string) : string :=
  if has_suffix (String "010" "") s then s else s +:+ String "010" "".

(** The name of the environment variable of a flag. *)
Definition flag_env (prefix name : string) : string := to_upper (prefix +:+ "_" +:+ replace_all name "-" "_").

Definition getTunnelFlag (tun : string) : string :=
  if bool_decide (tun ≠ "") && negb (has_byte ":" tun) then tun +:+ ":22" else tun.

Definition defaultEndpoint : string := "unix:///var/run/fleet.sock".

Definition getEndpoint (experimentalAPI : bool) (endPoint : string) : string :=
  if negb experimentalAPI && bool_decide (endPoint = defaultEndpoint) then "http://127.0.0.1:2379,http://127.0.0.1:4001"
  else endPoint.

(** ** Flags, files and errors *)

(** [currentCommand] is "submit", "load" or "start", or else empty; a flag that a
    command does not have is [false] or zero. *)
Record ctl_flags := mkCtlFlags { currentCommand : string; fl_replace : bool; NoBlock : bool; BlockAttempts : Z }.

Definition getBlockAttempts (fl : ctl_flags) : Z :=
  let attempts := if bool_decide (0 < fl.(BlockAttempts))%Z then fl.(BlockAttempts) else 0%Z in
  if fl.(NoBlock) then (-1)%Z else attempts.

(** A path on the local disk: nothing there, something that cannot be read, or a
    file. *)
Inductive local_file := NoFile | BadFile (e : string) | FileText (c : string).

Inductive ctl_error (E : Type) :=
| ApiError (e : E)
| FileError (e : string)
| BadUnitName (name : string)
| NotAnInstance (name : string)
| NoTemplate (template : string)
| CtlBadName (e : name_error)
| CtlBadOptions (e : options_error)
| CreateFailed (name : string) (e : E)
| ReplaceUnsupported
| UnitMissing (name : string)
| WaitTimedOut (name : string) (js : JobState)
| CreateWaitFailed
| NoActiveUnit (name : string)
| SystemctlFailed (machID name : string).
Arguments ApiError {E} e.
Arguments FileError {E} e.
Arguments BadUnitName {E} name.
Arguments NotAnInstance {E} name.
Arguments NoTemplate {E} template.
Arguments CtlBadName {E} e.
Arguments CtlBadOptions {E} e.
Arguments CreateFailed {E} name e.
Arguments ReplaceUnsupported {E}.
Arguments UnitMissing {E} name.
Arguments WaitTimedOut {E} name js.
Arguments CreateWaitFailed {E}.
Arguments NoActiveUnit {E} name.
Arguments SystemctlFailed {E} machID name.

Section ctl.
#[local] Open Scope go_scope.
Context `{MR : MapRange, GS : GoSort, DG : Digest, A : ClientAPI W E}.
(** What a local path holds; what the cluster does in a slot; whether the tick comes
    before the alarm when both are due. *)
Variables (disk : string → local_file) (elapse : W → W) (race : W → bool).
(** The file with the identity of this machine, the port of the flag [--ssh-port],
    and the exit codes of a command here, and of one on the host at an address. *)
Variables (machineIDFile : option string) (SSHPort : Z).
Variables (runLocalCommand : list string → Z) (runRemoteCommand : string → list string → Z).

Definition api {B} (r : res E B) : res (ctl_error E) B := match r with Ok b => Ok b | Err e => Err (ApiError e) end.

(** ** Finding units and files *)

Definition findUnits (args : list string) (w : W) : res (ctl_error E) (list SchemaUnit) :=
  let* units := api (api_Units w) in
  let uMap : gmap string SchemaUnit := foldl (λ m u, <[u.(SUName) := u]> m) ∅ units in
  Ok (omap (λ v, uMap !! unitNameMangle v) args).

Definition getUnitFromFile (file : string) : res (ctl_error E) UnitFile :=
  match disk file with
  | NoFile => Err (FileError "no such file or directory")
  | BadFile e => Err (FileError e)
  | FileText c => match NewUnitFile c with Ok uf => Ok uf | Err e => Err (FileError e) end
  end.

Definition matchLocalFileAndUnit (file : string) (su : SchemaUnit) : res (ctl_error E) bool :=
  let a := MapSchemaUnitOptionsToUnitFile su.(SUOptions) in
  let* b := getUnitFromFile file in Ok (MatchUnitFiles a b).

(** [fatal] is [false] in every call. *)
Definition isLocalUnitDifferent (file : string) (su : SchemaUnit) : res (ctl_error E) bool :=
  match matchLocalFileAndUnit file su with
  | Ok result => Ok (negb result)
  | Err _ =>
      match NewUnitNameInfo (path_base file) with
      | None => Err (BadUnitName file)
      | Some info =>
          if negb (IsInstance info) then Err (NotAnInstance file)
          else let* result := matchLocalFileAndUnit (path_join [path_dir file; info.(Template)]) su in Ok (negb result)
      end
  end.

Definition getUnitFileFromTemplate (uni : UnitNameInfo) (fileName : string) (w : W) : res (ctl_error E) UnitFile :=
  let* tmpl := api (api_Unit uni.(Template) w) in
  match tmpl with
  | Some tmpl => Ok (MapSchemaUnitOptionsToUnitFile tmpl.(SUOptions))
  | None =>
      let filePath := path_join [path_dir fileName; uni.(Template)] in
      match disk filePath with
      | NoFile => Err (NoTemplate uni.(Template))
      | _ => getUnitFromFile filePath
      end
  end.

Definition getUnitFile (file : string) (w : W) : res (ctl_error E) UnitFile :=
  let name := unitNameMangle file in
  match disk file with
  | NoFile =>
      match NewUnitNameInfo name with
      | None => Err (BadUnitName name)
      | Some info => if negb (IsInstance info) then Err (NotAnInstance name) else getUnitFileFromTemplate info file w
      end
  | _ => getUnitFromFile file
  end.

(** ** Creating units *)

(** Unknown requirements are only warned of. *)
Definition createUnit (t : moment) (name : string) (uf : UnitFile) (w : W) : W * res (ctl_error E) SchemaUnit :=
  let u := mkSchemaUnit "" "" "" name (MapUnitFileToSchemaUnitOptions uf) in
  match ValidateName name with
  | Err e => (w, Err (CtlBadName e))
  | Ok _ =>
      match ValidateOptions t u.(SUOptions) with
      | Err e => (w, Err (CtlBadOptions e))
      | Ok _ =>
          let '(w, r) := api_CreateUnit u w in
          (w, match r with Err e => Err (CreateFailed name e) | Ok _ => Ok u end)
      end
  end.

Definition allowedReplace (cmd : string) : option (list JobState) :=
  if decide (cmd = "submit") then Some [JobStateInactive]
  else if decide (cmd = "load") then Some [JobStateInactive; JobStateLoaded]
  else if decide (cmd = "start") then Some [JobStateInactive; JobStateLoaded; JobStateLaunched]
  else None.

(** [true]: the unit should be replaced. *)
Definition checkReplaceUnitState (fl : ctl_flags) (unit : SchemaUnit) : res (ctl_error E) bool :=
  match allowedReplace fl.(currentCommand) with
  | Some allowedJobs => Ok (existsb (λ j, bool_decide (unit.(SUDesiredState) = j)) allowedJobs)
  | None => Err ReplaceUnsupported
  end.

(** [true]: the unit should be created. *)
Definition checkUnitCreation (fl : ctl_flags) (arg : string) (w : W) : res (ctl_error E) bool :=
  let* unit := api (api_Unit (unitNameMangle arg) w) in
  match unit with
  | None => Ok true
  | Some unit =>
      let different := isLocalUnitDifferent arg unit in
      if fl.(fl_replace) then
        let* different := different in if different : bool then checkReplaceUnitState fl unit else Ok false
      else Ok false
  end.

(** ** Waiting *)

(** [None]: a nil pointer is dereferenced. *)
Inductive poll_result := PollReached (slot : nat) | PollTimedOut | PollCrashed.

(** The slots in which one attempt after the other polls: an attempt takes two
    seconds, and in its last slot the alarm may come first. *)
Definition polled (slot : nat) (w : W) : bool := negb (Nat.eqb (slot mod 8) 0) || race w.

Fixpoint poll (check : W → option bool) (fuel slot : nat) (w : W) : poll_result :=
  match fuel with
  | 0 => PollTimedOut
  | S fuel =>
      let w := elapse w in
      if polled (S slot) w then
        match check w with
        | None => PollCrashed
        | Some true => PollReached (S slot)
        | Some false => poll check fuel (S slot) w
        end
      else poll check fuel (S slot) w
  end.

(** The world after some slots. *)
Definition after (n : nat) (w : W) : W := Nat.iter n elapse w.

(** The test of [assertUnitState]. *)
Definition in_state (js : JobState) (name : string) (w : W) : option bool :=
  match api_Unit name w with
  | Ok (Some u) =>
      let state := if suToGlobal u then u.(SUDesiredState) else u.(SUCurrentState) in
      Some (bool_decide (state = js))
  | _ => Some false
  end.

(** The test of [assertSystemdActiveState]. *)
Definition is_active (name : string) (w : W) : option bool :=
  match api_UnitState name w with
  | Err _ => Some false
  | Ok None => None
  | Ok (Some us) => Some (bool_decide (us.(SystemdActiveState) = "active") && bool_decide (us.(SystemdLoadState) = "loaded"))
  end.

(** The slots of [maxAttempts] attempts; without a limit, [fuel]. *)
Definition attempt_slots (fuel : nat) (maxAttempts : Z) : nat :=
  if bool_decide (maxAttempts < 1)%Z then fuel else 8 * Z.to_nat maxAttempts.

Definition checkUnitState (fuel : nat) (js : JobState) (maxAttempts : Z) (w : W) (name : string) : poll_result :=
  poll (in_state js name) (attempt_slots fuel maxAttempts) 0 w.

(** All polls together: the last to be reached, or the first to fail; a crash ends
    the process. *)
Fixpoint join_polls (rs : list (string * poll_result)) : outcome (res string nat) :=
  match rs with
  | [] => Done (Ok 0)
  | (name, r) :: rs =>
      match r, join_polls rs with
      | PollCrashed, _ | _, Fatal => Fatal
      | _, Blocked => Blocked
      | PollTimedOut, _ => Done (Err name)
      | PollReached slot, Done (Ok n) => Done (Ok (Nat.max slot n))
      | PollReached _, Done (Err name) => Done (Err name)
      end
  end.

(** Wait for every unit in its goroutine; a timeout of a wait without a limit is
    only that [fuel] was not enough. *)
Definition waitForUnitStates (fuel : nat) (units : list string) (js : JobState) (maxAttempts : Z) (w : W)
  : outcome (W * res (ctl_error E) unit) :=
  and_then (join_polls ((λ name, (name, checkUnitState fuel js maxAttempts w name)) <$> units)) (λ r,
    match r with
    | Ok n => Done (after n w, Ok tt)
    | Err name =>
        if bool_decide (maxAttempts < 1)%Z then Blocked
        else Done (after (8 * Z.to_nat maxAttempts) w, Err (WaitTimedOut name js))
    end).

Definition tryWaitForUnitStates (fuel : nat) (units : list string) (js : JobState) (maxAttempts : Z) (w : W)
  : outcome (W * res (ctl_error E) unit) :=
  if bool_decide (maxAttempts ≤ -1)%Z then Done (w, Ok tt) else waitForUnitStates fuel units js maxAttempts w.

(** A goroutine sends the error of its first failed attempt on a channel without a
    buffer, and the receiver returns with the first error: there is no second
    attempt, whatever [maxAttempts]. *)
Definition checkSystemdActiveState (maxAttempts : Z) (w : W) (name : string) : poll_result := poll (is_active name) 8 0 w.

Definition tryWaitForSystemdActiveState (units : list string) (maxAttempts : Z) (w : W) : outcome (W * res (ctl_error E) unit) :=
  if bool_decide (maxAttempts ≤ -1)%Z then Done (w, Ok tt)
  else and_then (join_polls ((λ name, (name, checkSystemdActiveState maxAttempts w name)) <$> units)) (λ r,
    match r with
    | Ok n => Done (after n w, Ok tt)
    | Err name => Done (after 8 w, Err (NoActiveUnit name))
    end).

(** ** Acting on units *)

Fixpoint create_units (t : moment) (fl : ctl_flags) (args : list string) (w : W) : W * res (ctl_error E) (list string) :=
  match args with
  | [] => (w, Ok [])
  | arg :: args =>
      let arg := maybeAppendDefaultUnitType arg in
      let name := unitNameMangle arg in
      match checkUnitCreation fl arg w with
      | Err e => (w, Err e)
      | Ok false => create_units (1 :: t) fl args w
      | Ok true =>
          match getUnitFile arg w with
          | Err e => (w, Err e)
          | Ok uf =>
              match createUnit (0 :: t) name uf w with
              | (w, Err e) => (w, Err e)
              | (w, Ok _) => let '(w, r) := create_units (1 :: t) fl args w in (w, let* names := r in Ok (name :: names))
              end
          end
      end
  end.

(** The units that were created are waited for, to be inactive. *)
Definition lazyCreateUnits (fuel : nat) (t : moment) (fl : ctl_flags) (args : list string) (w : W)
  : outcome (W * res (ctl_error E) unit) :=
  let '(w, r) := create_units t fl args w in
  match r with
  | Err e => Done (w, Err e)
  | Ok names =>
      and_then (waitForUnitStates fuel names JobStateInactive fl.(BlockAttempts) w) (λ '(w, r),
        Done (w, match r with Ok _ => Ok tt | Err _ => Err CreateWaitFailed end))
  end.

Fixpoint setTargetStateOfUnits (units : list string) (state : JobState) (w : W) : W * res (ctl_error E) (list SchemaUnit) :=
  match units with
  | [] => (w, Ok [])
  | name :: units =>
      match api_Unit name w with
      | Err e => (w, Err (ApiError e))
      | Ok None => (w, Err (UnitMissing name))
      | Ok (Some u) =>
          if bool_decide (u.(SUDesiredState) = state) then setTargetStateOfUnits units state w
          else
            match api_SetUnitTargetState u.(SUName) state w with
            | (w, Err e) => (w, Err (ApiError e))
            | (w, Ok _) => let '(w, r) := setTargetStateOfUnits units state w in (w, let* us := r in Ok (u :: us))
            end
      end
  end.

Definition lazyLoadUnits (args : list string) : W → W * res (ctl_error E) (list SchemaUnit) :=
  setTargetStateOfUnits (unitNameMangle <$> args) JobStateLoaded.

Definition lazyStartUnits (args : list string) : W → W * res (ctl_error E) (list SchemaUnit) :=
  setTargetStateOfUnits (unitNameMangle <$> args) JobStateLaunched.

Definition machineState (machID : string) (w : W) : res (ctl_error E) (option MachineState) :=
  let* machines := api (api_Machines w) in
  Ok (snd <$> list_find (λ ms, ID ms = machID) machines).

(** The machines are asked for once; an error leaves the cache empty. *)
Definition machine_cache (w : W) : gmap string MachineState :=
  match api_Machines w with Ok ms => foldl (λ m x, <[x.(ID) := x]> m) ∅ ms | Err _ => ∅ end.

Definition cachedMachineState (machineStates : option (gmap string MachineState)) (machID : string) (w : W)
  : gmap string MachineState * option MachineState :=
  let cache := match machineStates with Some cache => cache | None => machine_cache w end in
  (cache, cache !! machID).

Definition findSSHPort (addr : string) : string :=
  if bool_decide (SSHPort ≠ 22%Z) && negb (has_byte ":" addr) then JoinHostPort addr (Itoa SSHPort) else addr.

(** The exit code is zero too when the machine is not found, and no command is
    run. *)
Definition runCommand (machID : string) (cmd : list string) (w : W) : Z :=
  if IsLocalMachineID machineIDFile machID then runLocalCommand cmd
  else
    match machineState machID w with
    | Ok (Some ms) => runRemoteCommand (findSSHPort ms.(PublicIP)) cmd
    | _ => 0%Z
    end.

(** The machines on which a command is run for global units, with one unit each. *)
Definition global_targets (machineStates : option (gmap string MachineState)) (globalUnits : list SchemaUnit) (w : W)
  : gmap string string :=
  foldl (λ m u,
    match (cachedMachineState machineStates u.(SUMachineID) w).2 with
    | Some ms => if bool_decide (ms.(ID) = "") || bool_decide (ms.(PublicIP) = "") then m else <[ms.(ID) := u.(SUName)]> m
    | None => m
    end) ∅ globalUnits.

Definition cmdGlobalMachineState (t : moment) (cmd : string) (machineStates : option (gmap string MachineState))
    (globalUnits : list SchemaUnit) (w : W) : res (ctl_error E) unit :=
  match list_find (λ '(id, name), runCommand id ["systemctl"; cmd; name] w ≠ 0%Z)
          (range t (global_targets machineStates globalUnits w)) with
  | Some (_, (id, name)) => Err (SystemctlFailed id name)
  | None => Ok tt
  end.

(** ** The commands

    They return the exit code. *)

Definition exit_of {B} (r : res (ctl_error E) B) : Z := if is_ok r then 0 else 1.

Definition runSubmitUnit (fuel : nat) (t : moment) (fl : ctl_flags) (args : list string) (w : W) : outcome (W * Z) :=
  match args with
  | [] => Done (w, 0%Z)
  | _ => and_then (lazyCreateUnits fuel t fl args w) (λ '(w, r), Done (w, exit_of r))
  end.

Definition not_global (us : list SchemaUnit) : list string := SUName <$> filter (λ u, suToGlobal u = false) us.

Definition runLoadUnit (fuel : nat) (t : moment) (fl : ctl_flags) (args : list string) (w : W) : outcome (W * Z) :=
  match args with
  | [] => Done (w, 0%Z)
  | _ =>
      and_then (lazyCreateUnits fuel t fl args w) (λ '(w, r),
      if is_ok r then
        match lazyLoadUnits args w with
        | (w, Err _) => Done (w, 1%Z)
        | (w, Ok triggered) =>
            and_then (tryWaitForUnitStates fuel (not_global triggered) JobStateLoaded (getBlockAttempts fl) w) (λ '(w, r),
              Done (w, exit_of r))
        end
      else Done (w, 1%Z))
  end.

Definition runStartUnit (fuel : nat) (t : moment) (fl : ctl_flags) (args : list string) (w : W) : outcome (W * Z) :=
  match args with
  | [] => Done (w, 0%Z)
  | _ =>
      and_then (lazyCreateUnits fuel t fl args w) (λ '(w, r),
      if is_ok r then
        match lazyStartUnits args w with
        | (w, Err _) => Done (w, 1%Z)
        | (w, Ok triggered) =>
            let starting := not_global triggered in
            and_then (tryWaitForUnitStates fuel starting JobStateLaunched (getBlockAttempts fl) w) (λ '(w, r),
            if is_ok r then
              and_then (tryWaitForSystemdActiveState starting (getBlockAttempts fl) w) (λ '(w, r), Done (w, exit_of r))
            else Done (w, 1%Z))
        end
      else Done (w, 1%Z))
  end.

(** The units to stop, up to one that cannot be; errors of the calls are dropped. *)
Fixpoint stop_units (units : list SchemaUnit) (w : W) : W * option (list string) :=
  match units with
  | [] => (w, Some [])
  | u :: units =>
      if suToGlobal u then stop_units units (api_SetUnitTargetState u.(SUName) JobStateLoaded w).1
      else if bool_decide (u.(SUCurrentState) = JobStateInactive) then (w, None)
      else if bool_decide (u.(SUCurrentState) = JobStateLoaded) then stop_units units w
      else
        let '(w, r) := stop_units units (api_SetUnitTargetState u.(SUName) JobStateLoaded w).1 in
        (w, cons u.(SUName) <$> r)
  end.

Definition runStopUnit (fuel : nat) (fl : ctl_flags) (args : list string) (w : W) : outcome (W * Z) :=
  match args with
  | [] => Done (w, 0%Z)
  | _ =>
      match findUnits args w with
      | Err _ => Done (w, 1%Z)
      | Ok [] => Done (w, 0%Z)
      | Ok units =>
          match stop_units units w with
          | (w, None) => Done (w, 1%Z)
          | (w, Some stopping) =>
              and_then (tryWaitForUnitStates fuel stopping JobStateLoaded (getBlockAttempts fl) w) (λ '(w, r), Done (w, exit_of r))
          end
      end
  end.

Fixpoint unload_units (units : list SchemaUnit) (w : W) : W * list string :=
  match units with
  | [] => (w, [])
  | u :: units =>
      if negb (suToGlobal u) && bool_decide (u.(SUCurrentState) = JobStateInactive) then unload_units units w
      else
        let '(w, names) := unload_units units (api_SetUnitTargetState u.(SUName) JobStateInactive w).1 in
        (w, if suToGlobal u then names else u.(SUName) :: names)
  end.

Definition runUnloadUnit (fuel : nat) (fl : ctl_flags) (args : list string) (w : W) : outcome (W * Z) :=
  match args with
  | [] => Done (w, 0%Z)
  | _ =>
      match findUnits args w with
      | Err _ => Done (w, 1%Z)
      | Ok [] => Done (w, 0%Z)
      | Ok units =>
          let '(w, wait) := unload_units units w in
          and_then (tryWaitForUnitStates fuel wait JobStateInactive (getBlockAttempts fl) w) (λ '(w, r), Done (w, exit_of r))
      end
  end.

(** The loop that waits for a unit to be gone, two seconds at a time: with a limit,
    it is asked for once less than that. *)
Fixpoint destroy_wait (fuel : nat) (limited : bool) (attempts : nat) (name : string) (w : W) : outcome (W * Z) :=
  match fuel with
  | 0 => Blocked
  | S fuel =>
      let attempts := if limited then attempts - 1 else attempts in
      if limited && bool_decide (attempts = 0) then Done (w, 0%Z)
      else
        match api_Unit name w with
        | Err _ => Done (w, 1%Z)
        | Ok None => Done (w, 0%Z)
        | Ok (Some _) => destroy_wait fuel limited attempts name (after 8 w)
        end
  end.

(** [notFound] is [client.IsErrorUnitNotFound]. *)
Fixpoint destroy_units (fuel : nat) (fl : ctl_flags) (notFound : E → bool) (units : list SchemaUnit) (exit : Z) (w : W)
  : outcome (W * Z) :=
  match units with
  | [] => Done (w, exit)
  | v :: units =>
      match api_DestroyUnit v.(SUName) w with
      | (w, Err err) => destroy_units fuel fl notFound units (if notFound err then exit else 1%Z) w
      | (w, Ok _) =>
          if fl.(NoBlock) then
            and_then (destroy_wait fuel (bool_decide (1 ≤ fl.(BlockAttempts))%Z) (Z.to_nat fl.(BlockAttempts)) v.(SUName) w) (λ '(w, code),
              destroy_units fuel fl notFound units (if bool_decide (code = 0%Z) then exit else 1%Z) w)
          else destroy_units fuel fl notFound units exit w
      end
  end.

Definition runDestroyUnit (fuel : nat) (fl : ctl_flags) (notFound : E → bool) (args : list string) (w : W) : outcome (W * Z) :=
  match args with
  | [] => Done (w, 0%Z)
  | _ =>
      match findUnits args w with
      | Err _ => Done (w, 1%Z)
      | Ok units => destroy_units fuel fl notFound units 0 w
      end
  end.

(** It waits for the unit to be launched, whatever [targetState]. *)
Definition setUnitStateAndWait (fuel : nat) (unit : SchemaUnit) (targetState : JobState) (blockAttempts : Z) (w : W) : outcome (W * Z) :=
  match api_SetUnitTargetState unit.(SUName) targetState w with
  | (w, Err _) => Done (w, 1%Z)
  | (w, Ok _) =>
      and_then (tryWaitForUnitStates fuel [unit.(SUName)] JobStateLaunched blockAttempts w) (λ '(w, r), Done (w, exit_of r))
  end.

(** The units that are not global, one after the other, until one fails. *)
Fixpoint restart_units (fuel : nat) (fl : ctl_flags) (units : list SchemaUnit) (w : W) : outcome (W * Z) :=
  match units with
  | [] => Done (w, 0%Z)
  | unit :: units =>
      let next '(w, code) := if bool_decide (code = 1%Z) then Done (w, 1%Z) else restart_units fuel fl units w in
      if suToGlobal unit then restart_units fuel fl units w
      else if bool_decide (unit.(SUCurrentState) = JobStateInactive) then restart_units fuel fl units w
      else if bool_decide (unit.(SUCurrentState) = JobStateLoaded) then
        and_then (setUnitStateAndWait fuel unit JobStateLaunched (getBlockAttempts fl) w) next
      else
        and_then (setUnitStateAndWait fuel unit JobStateLoaded (getBlockAttempts fl) w) (λ '(w, code),
          if bool_decide (code = 1%Z) then Done (w, 1%Z)
          else and_then (setUnitStateAndWait fuel unit JobStateLaunched (getBlockAttempts fl) w) next)
  end.

(** [seen] is what waiting until now has cached of the machines. *)
Definition runRestartUnit (seen : W → option (gmap string MachineState)) (fuel : nat) (t : moment) (fl : ctl_flags) (args : list string) (w : W) : outcome (W * Z) :=
  match args with
  | [] => Done (w, 0%Z)
  | _ =>
      match findUnits args w with
      | Err _ => Done (w, 1%Z)
      | Ok units =>
          and_then (lazyCreateUnits fuel (0 :: t) fl args w) (λ '(w, r),
          if is_ok r then
            and_then (restart_units fuel fl units w) (λ '(w, code),
            if bool_decide (code = 1%Z) then Done (w, 1%Z)
            else
              match cmdGlobalMachineState (1 :: t) "restart" (seen w) (filter (λ u, suToGlobal u = true) units) w with
              | Err _ => Done (w, 1%Z)
              | Ok _ => Done (w, code)
              end)
          else Done (w, 1%Z))
      end
  end.

(** The text that is printed. *)
Definition runCatUnit (args : list string) (w : W) : Z * option string :=
  match args with
  | [arg] =>
      match api_Unit (unitNameMangle arg) w with
      | Ok (Some u) => (0%Z, Some (UnitFile_String (MapSchemaUnitOptionsToUnitFile u.(SUOptions))))
      | _ => (1%Z, None)
      end
  | _ => (1%Z, None)
  end.

Fixpoint status_units (args : list string) (w : W) : res Z (Z * list SchemaUnit) :=
  match args with
  | [] => Ok (0%Z, [])
  | arg :: args =>
      match api_Unit (unitNameMangle arg) w with
      | Ok (Some unit) =>
          if suToGlobal unit then
            match status_units args w with
            | Ok (exit, globals) => Ok (exit, unit :: globals)
            | Err code => Err code
            end
          else if bool_decide (unit.(SUCurrentState) = JobStateInactive) then Err 1%Z
          else
            let exitVal := runCommand unit.(SUMachineID) ["systemctl"; "status"; "-l"; unit.(SUName)] w in
            if bool_decide (exitVal ≠ 0%Z) then Ok (exitVal, []) else status_units args w
      | _ => Err 1%Z
      end
  end.

Definition runStatusUnit (t : moment) (args : list string) (w : W) : Z :=
  match status_units args w with
  | Err code => code
  | Ok (exit, globals) => match cmdGlobalMachineState t "status" None globals w with Err _ => 1%Z | Ok _ => exit end
  end.

Definition runJournal (lines : Z) (flagOutput : string) (flagSudo flagFollow : bool) (args : list string) (w : W) : Z :=
  match args with
  | [arg] =>
      let name := unitNameMangle arg in
      match api_Unit name w with
      | Ok (Some u) =>
          if suToGlobal u then 1%Z
          else if bool_decide (u.(SUCurrentState) = JobStateInactive) then 1%Z
          else
            let cmd := ["journalctl"; "--unit"; name; "--no-pager"; "-n"; Itoa lines; "--output"; flagOutput] in
            let cmd := if flagSudo then "sudo" :: cmd else cmd in
            runCommand u.(SUMachineID) (if flagFollow then cmd ++ ["-f"] else cmd) w
      | _ => 1%Z
      end
  | _ => 1%Z
  end.

End ctl.
