(* ===== verification/FleetctlMain.v ===== *)
(** * [fleetctl/fleetctl.go]: how a command gets its client

    The flags of the program, from the environment and the command line, in the order
    [main] looks at them, and the choice of the driver, the endpoint and the connection.
    The parsers of [net/url] and [net] are parameters. *)

From Stdlib Require Import ZArith Lia Ascii.
From stdpp Require Import base list gmap strings.
From S2P Require Import Prelude GoStrings GoPath Pkg UnitFile Job Machine Config Schema Api Fleetctl.

Definition clientDriverAPI : string := "API".
Definition clientDriverEtcd : string := "etcd".

(** What [url.Parse] finds. *)
Record url := mkUrl { Scheme : string; Host : string; Path : string }.

Section main.
Context {Float : Type} (parse_int : string → Z) (parse_bool : string → bool) (parse_float : string → Float).
Context (url_parse : string → option url) (split_host_port : string → option (string * string)).
Context (float_10 float_3 : Float).

Local Abbreviation flags := (gmap string (flag_value Float)).

(** The variable that a flag of [init] is bound to, named by its current flag: [h] and the
    deprecated flags for certificates are other names. *)
Definition flag_var (name : string) : string :=
  if bool_decide (name = "h") then "help"
  else if bool_decide (name = "etcd-keyfile") then "key-file"
  else if bool_decide (name = "etcd-certfile") then "cert-file"
  else if bool_decide (name = "etcd-cafile") then "ca-file"
  else name.

(** [FlagSet.Set]. *)
Definition fs_Set (name val : string) (fs : flags) : flags :=
  flagset_Set parse_int parse_bool parse_float (flag_var name) val fs.

(** The flags of [init], in the order of [VisitAll], and the variables with their
    defaults. *)
Definition flag_names : list string :=
  ["ca-file"; "cert-file"; "debug"; "driver"; "endpoint"; "etcd-cafile"; "etcd-certfile"; "etcd-key-prefix"; "etcd-keyfile";
   "experimental-api"; "h"; "help"; "key-file"; "known-hosts-file"; "request-timeout"; "ssh-timeout"; "ssh-username";
   "strict-host-key-checking"; "tunnel"; "version"].

Definition persistentFlags : flags := list_to_map [
  ("help", FBool false); ("debug", FBool false); ("version", FBool false);
  ("driver", FString clientDriverAPI); ("endpoint", FString defaultEndpoint);
  ("etcd-key-prefix", FString "/_coreos.com/fleet/");
  ("key-file", FString ""); ("cert-file", FString ""); ("ca-file", FString "");
  ("known-hosts-file", FString "~/.fleetctl/known_hosts"); ("strict-host-key-checking", FBool true);
  ("ssh-timeout", FFloat float_10); ("tunnel", FString ""); ("request-timeout", FFloat float_3);
  ("ssh-username", FString "core"); ("experimental-api", FBool true)].

(** [getFlagsFromEnv]: [alreadySet] has the flags that were set before. *)
Definition getFlagsFromEnv (env : gmap string string) (prefix : string) (alreadySet : gset string) (fs : flags) : flags :=
  foldl (λ fs name,
    if bool_decide (name ∈ alreadySet) then fs
    else let val := default "" (env !! flag_env prefix name) in
         if bool_decide (val = "") then fs else fs_Set name val fs)
    fs flag_names.

Definition string_flag (fs : flags) (name : string) : string := default "" (get_string fs name).
Definition bool_flag (fs : flags) (name : string) : bool := default false (get_bool fs name).

(** The driver for an endpoint that looks like etcd, if none is set. *)
Definition default_driver (fs : flags) : flags :=
  let endpoint := string_flag fs "endpoint" in
  if bool_decide (endpoint ≠ "") && bool_decide (string_flag fs "driver" = "") then
    match url_parse (default "" (head (split_byte "," endpoint))) with
    | Some u =>
      match split_host_port u.(Host) with
      | Some (_, port) =>
        if bool_decide (port = "4001") || bool_decide (port = "2379")
        then fs_Set "driver" clientDriverEtcd fs else fs
      | None => fs
      end
    | None => fs
    end
  else fs.

(** The command that [main] sees in the arguments: the last that is one of these. *)
Definition main_command (args : list string) : string :=
  foldl (λ c arg, if bool_decide (arg = "start") || bool_decide (arg = "load") || bool_decide (arg = "submit") then arg else c) "" args.

(** [main] from its start to the function of a command: whether debugging was enabled,
    and the flags with which the command runs.  [cmdline] has the flags of the command
    line, which [Execute] parses last, and whose values parse. *)
Definition main_flags (env : gmap string string) (cmdline : list (string * string)) : bool * flags :=
  let fs := getFlagsFromEnv env "fleetctl" ∅ persistentFlags in
  let debug := bool_flag fs "debug" in
  let fs := default_driver fs in
  (debug, foldl (λ fs '(name, val), fs_Set name val fs) fs cmdline).

(** ** Clients *)

Inductive client_dialer := DialNet | DialUnix (path : string) | DialSSH (tunnel : string) | DialSSHCommand (tunnel cmd : string).

Inductive fleetctl_error := UnknownDriver (driver : string) | BadURL | NoScheme | NoTunnel | HostWithUnix (host : string) | BadTLSFiles | BadEndpoints.

Inductive client_api :=
| HTTPClientAPI (dial : client_dialer) (endpoint : url)
| RegistryClientAPI (dial : client_dialer) (endpoints : list string) (timeout : Z) (keyPrefix : string).

(** Whether the connection to a tunnel (checked with the hosts of a file, for a time, as
    a user), the files of certificates and the endpoints of etcd work. *)
Context (milliseconds : Float → Z).
Context (tunnel_ok : string → option string → Z → string → bool) (tls_ok : string → string → string → bool) (etcd_ok : list string → bool).

(** [getChecker]: the file of the checker, [None] if there is none. *)
Definition getChecker (fs : flags) : option string :=
  if negb (bool_flag fs "strict-host-key-checking") then None else Some (string_flag fs "known-hosts-file").

(** A missing flag has the value zero. *)
Definition getSSHTimeoutFlag (fs : flags) : Z := from_option (duration_of milliseconds) 0%Z (get_float fs "ssh-timeout").

Definition getRequestTimeoutFlag (fs : flags) : Z := from_option (duration_of milliseconds) 0%Z (get_float fs "request-timeout").

Definition tunnel_works (fs : flags) (tun : string) : bool :=
  tunnel_ok tun (getChecker fs) (getSSHTimeoutFlag fs) (string_flag fs "ssh-username").

Definition getHTTPClient (fs : flags) : res fleetctl_error client_api :=
  match url_parse (default "" (head (split_byte "," (string_flag fs "endpoint")))) with
  | None => Err BadURL
  | Some ep =>
    if bool_decide (ep.(Scheme) = "") then Err NoScheme
    else
      let tun := getTunnelFlag (string_flag fs "tunnel") in
      let tunneling := bool_decide (tun ≠ "") in
      let dialUnix := bool_decide (ep.(Scheme) = "unix") || bool_decide (ep.(Scheme) = "file") in
      if tunneling && negb (tunnel_works fs tun) then Err NoTunnel
      else
        let tunnelFunc :=
          if tunneling then (if dialUnix then DialSSHCommand tun ("fleetctl fd-forward " +:+ ep.(Path)) else DialSSH tun)
          else DialNet in
        let tls := tls_ok (string_flag fs "ca-file") (string_flag fs "cert-file") (string_flag fs "key-file") in
        if dialUnix then
          if bool_decide (ep.(Host) ≠ "") then Err (HostWithUnix ep.(Host))
          else
            let dialFunc := if negb tunneling then DialUnix ep.(Path) else tunnelFunc in
            if negb tls then Err BadTLSFiles else Ok (HTTPClientAPI dialFunc (mkUrl "http" "domain-sock" ""))
        else if negb tls then Err BadTLSFiles else Ok (HTTPClientAPI tunnelFunc ep)
  end.

Definition getRegistryClient (fs : flags) : res fleetctl_error client_api :=
  let tun := getTunnelFlag (string_flag fs "tunnel") in
  if bool_decide (tun ≠ "") && negb (tunnel_works fs tun) then Err NoTunnel
  else if negb (tls_ok (string_flag fs "ca-file") (string_flag fs "cert-file") (string_flag fs "key-file")) then Err BadTLSFiles
  else
    let endpoints := split_byte "," (getEndpoint (bool_flag fs "experimental-api") (string_flag fs "endpoint")) in
    if negb (etcd_ok endpoints) then Err BadEndpoints
    else Ok (RegistryClientAPI (if bool_decide (tun ≠ "") then DialSSH tun else DialNet) endpoints (getRequestTimeoutFlag fs) (string_flag fs "etcd-key-prefix")).

Definition getClient (fs : flags) : res fleetctl_error client_api :=
  let clientDriver := string_flag fs "driver" in
  if bool_decide (clientDriver = clientDriverAPI) then getHTTPClient fs
  else if bool_decide (clientDriver = clientDriverEtcd) then getRegistryClient fs
  else Err (UnknownDriver clientDriver).

(** [getClientAPI]; an error is the code that the process exits with. *)
Definition getClientAPI (fs : flags) : res Z client_api :=
  match getClient fs with Err _ => Err 1%Z | Ok api => Ok api end.

(** [runWrapper]: the exit code of the process. *)
Definition runWrapper (cf : client_api → Z) (fs : flags) : Z :=
  match getClientAPI fs with Err exit => exit | Ok api => cf api end.

(** ** The flags with which a command runs *)

(** A variable with one flag. *)
Definition sole (n : string) : Prop := ∀ name, flag_var name = n → name = n.

Lemma sole_dec n : n ∉ ["help"; "key-file"; "cert-file"; "ca-file"] → sole n.
Proof. intros Hn name. unfold flag_var. repeat case_bool_decide; set_solver. Qed.

Lemma fs_Set_lookup (fs : flags) n name val : sole n → flag_var n = n →
  fs_Set name val fs !! n = (if decide (name = n) then (λ v, value_Set parse_int parse_bool parse_float v val) <$> fs !! n else fs !! n).
Proof.
  intros Hn Hv. unfold fs_Set, flagset_Set. case_decide as Hd.
  - subst name. rewrite Hv. destruct (fs !! n) eqn:E; [by rewrite lookup_insert_eq|by rewrite E].
  - destruct (fs !! flag_var name) eqn:E; [|done]. apply lookup_insert_ne. intros H. by apply Hd, Hn.
Qed.

Lemma getFlagsFromEnv_from (env : gmap string string) prefix n names : sole n → flag_var n = n → ∀ (fs : flags), NoDup names →
  foldl (λ fs name,
    if bool_decide (name ∈ (∅ : gset string)) then fs
    else let val := default "" (env !! flag_env prefix name) in
         if bool_decide (val = "") then fs else fs_Set name val fs) fs names !! n =
  (if decide (n ∈ names ∧ default "" (env !! flag_env prefix n) ≠ "")
   then (λ v, value_Set parse_int parse_bool parse_float v (default "" (env !! flag_env prefix n))) <$> fs !! n
   else fs !! n).
Proof.
  intros Hn Hv. induction names as [|x names IH]; intros fs Hnd.
  - cbn [foldl]. rewrite decide_False; [done|]. intros [Hin _]. by apply elem_of_nil in Hin.
  - apply NoDup_cons in Hnd as [Hx Hnd]. cbn [foldl]. rewrite IH by done. clear IH.
    rewrite (bool_decide_eq_false_2 (x ∈ ∅)) by set_solver. cbn zeta.
    set (val := default "" (env !! flag_env prefix x)).
    destruct (decide (n = x)) as [->|Hne].
    + fold val. rewrite (decide_False (P := x ∈ names ∧ _)) by naive_solver.
      case_bool_decide as Hval; [by rewrite decide_False by naive_solver|].
      rewrite decide_True by (split; [by left|done]). rewrite fs_Set_lookup by done. by rewrite decide_True.
    + assert (Hsame : (if bool_decide (val = "") then fs else fs_Set x val fs) !! n = fs !! n).
      { case_bool_decide; [done|]. rewrite fs_Set_lookup by done. by rewrite decide_False. }
      rewrite Hsame. apply decide_ext. rewrite elem_of_cons. naive_solver.
Qed.

Lemma flag_names_NoDup : NoDup flag_names.
Proof. apply (bool_decide_unpack _). vm_compute. exact I. Qed.

Lemma getFlagsFromEnv_lookup (env : gmap string string) (fs : flags) n : sole n → flag_var n = n → n ∈ flag_names →
  getFlagsFromEnv env "fleetctl" ∅ fs !! n =
  (λ v, let val := default "" (env !! flag_env "fleetctl" n) in
        if bool_decide (val = "") then v else value_Set parse_int parse_bool parse_float v val) <$> fs !! n.
Proof.
  intros Hn Hv Hin. unfold getFlagsFromEnv. rewrite getFlagsFromEnv_from by (done || apply flag_names_NoDup). cbn zeta.
  case_decide as Hd.
  - destruct Hd as [_ Hval]. by rewrite bool_decide_eq_false_2.
  - destruct (fs !! n) as [v|] eqn:E; [|done]. cbn. f_equal.
    case_bool_decide as Hval; [done|]. by destruct Hd.
Qed.

(** A variable of the environment that is not empty, or else a default. *)
Definition env_or (env : gmap string string) (key def : string) : string :=
  let val := default "" (env !! key) in if bool_decide (val = "") then def else val.

Lemma env_or_ne env key def : def ≠ "" → env_or env key def ≠ "".
Proof. intros. unfold env_or. by case_bool_decide. Qed.

Lemma env_string (env : gmap string string) (fs : flags) n s : sole n → flag_var n = n → n ∈ flag_names → fs !! n = Some (FString s) →
  getFlagsFromEnv env "fleetctl" ∅ fs !! n = Some (FString (env_or env (flag_env "fleetctl" n) s)).
Proof.
  intros Hn Hv Hin Hs. rewrite getFlagsFromEnv_lookup, Hs by done. cbn [fmap option_fmap option_map]. cbn zeta. f_equal. unfold env_or. cbn zeta.
  by destruct (bool_decide _).
Qed.

Lemma env_bool (env : gmap string string) (fs : flags) n b : sole n → flag_var n = n → n ∈ flag_names → fs !! n = Some (FBool b) →
  getFlagsFromEnv env "fleetctl" ∅ fs !! n =
  Some (FBool (let val := default "" (env !! flag_env "fleetctl" n) in if bool_decide (val = "") then b else parse_bool val)).
Proof.
  intros Hn Hv Hin Hs. rewrite getFlagsFromEnv_lookup, Hs by done. cbn [fmap option_fmap option_map]. cbn zeta. f_equal. by destruct (bool_decide _).
Qed.

Lemma cmdline_string n cmdline : sole n → flag_var n = n → ∀ (fs : flags) s, fs !! n = Some (FString s) →
  foldl (λ fs '(name, val), fs_Set name val fs) fs cmdline !! n =
  Some (FString (foldl (λ o '(name, val), if bool_decide (name = n) then val else o) s cmdline)).
Proof.
  intros Hn Hv. induction cmdline as [|[name val] cmdline IH]; intros fs s Hs; cbn [foldl]; [done|].
  apply IH. rewrite fs_Set_lookup, Hs by done. case_bool_decide; case_decide; done.
Qed.

(** The driver of a command is the last one of the command line, else that of the
    environment, else the API, whatever the endpoint looks like; the command line has no
    say in whether debugging is enabled. *)
Theorem main_driver (env : gmap string string) (cmdline : list (string * string)) :
  string_flag (main_flags env cmdline).2 "driver" =
    foldl (λ o '(name, val), if bool_decide (name = "driver") then val else o) (env_or env "FLEETCTL_DRIVER" clientDriverAPI) cmdline ∧
  (main_flags env cmdline).1 =
    (let val := default "" (env !! "FLEETCTL_DEBUG") in if bool_decide (val = "") then false else parse_bool val).
Proof.
  cbn zeta. unfold main_flags. cbn [fst snd].
  set (fs := getFlagsFromEnv env "fleetctl" ∅ persistentFlags).
  assert (Hd : fs !! "driver" = Some (FString (env_or env "FLEETCTL_DRIVER" clientDriverAPI))).
  { change "FLEETCTL_DRIVER" with (flag_env "fleetctl" "driver"). apply env_string; [by apply sole_dec, (bool_decide_unpack _)|done|by apply (bool_decide_unpack _)|done]. }
  assert (Hg : fs !! "debug" = Some (FBool (let val := default "" (env !! "FLEETCTL_DEBUG") in if bool_decide (val = "") then false else parse_bool val))).
  { change "FLEETCTL_DEBUG" with (flag_env "fleetctl" "debug"). apply env_bool; [by apply sole_dec, (bool_decide_unpack _)|done|by apply (bool_decide_unpack _)|done]. }
  assert (Hdd : default_driver fs = fs).
  { unfold default_driver. replace (bool_decide (string_flag fs "driver" = "")) with false; [by rewrite andb_false_r|].
    symmetry. apply bool_decide_eq_false. unfold string_flag, get_string. rewrite Hd. cbn. by apply env_or_ne. }
  rewrite Hdd. split.
  - unfold string_flag, get_string. by rewrite (cmdline_string "driver" _ ltac:(by apply sole_dec, (bool_decide_unpack _)) eq_refl _ _ Hd).
  - unfold bool_flag, get_bool. by rewrite Hg.
Qed.

(** The client of an endpoint that is a socket on a disk dials that socket, or has it
    forwarded on the other end of the tunnel; a host in such an endpoint is refused; any
    other endpoint is used as it is. *)
Theorem getHTTPClient_dials fs dial ep' :
  getHTTPClient fs = Ok (HTTPClientAPI dial ep') →
  ∃ ep, url_parse (default "" (head (split_byte "," (string_flag fs "endpoint")))) = Some ep ∧ ep.(Scheme) ≠ "" ∧
  let tun := getTunnelFlag (string_flag fs "tunnel") in
  if bool_decide (ep.(Scheme) = "unix") || bool_decide (ep.(Scheme) = "file") then
    ep.(Host) = "" ∧ ep' = mkUrl "http" "domain-sock" "" ∧
    dial = (if bool_decide (tun = "") then DialUnix ep.(Path) else DialSSHCommand tun ("fleetctl fd-forward " +:+ ep.(Path)))
  else ep' = ep ∧ dial = (if bool_decide (tun = "") then DialNet else DialSSH tun).
Proof.
  unfold getHTTPClient. destruct (url_parse _) as [ep|]; [|done]. case_bool_decide as Hs; [done|]. cbn zeta.
  set (tun := getTunnelFlag (string_flag fs "tunnel")). intros H. exists ep. split; [done|]. split; [done|].
  rewrite (bool_decide_not (tun = "")) in H.
  destruct (bool_decide (Scheme ep = "unix") || bool_decide (Scheme ep = "file")).
  - rewrite (bool_decide_not (Host ep = "")) in H.
    destruct (bool_decide_reflect (Host ep = "")) as [Hh|Hh]; cbn in H; [|by destruct (bool_decide (tun = "")), (tunnel_works fs tun)].
    destruct (bool_decide (tun = "")), (tunnel_works fs tun), (tls_ok _ _ _); cbn in H; try discriminate H; injection H as <- <-; done.
  - destruct (bool_decide (tun = "")), (tunnel_works fs tun), (tls_ok _ _ _); cbn in H; try discriminate H; injection H as <- <-; done.
Qed.
End main.

(** ** Examples *)

Definition ex_url_parse (s : string) : option url :=
  if bool_decide (s = defaultEndpoint) then Some (mkUrl "unix" "" "/var/run/fleet.sock") else None.

Definition ex_flags (cmdline : list (string * string)) : gmap string (flag_value Z) :=
  (main_flags ex_parse_int ex_parse_bool ex_parse_int ex_url_parse (λ _, None) 10%Z 3%Z ∅ cmdline).2.

Lemma getHTTPClient_dials_witness :
  ∃ ep, ex_url_parse defaultEndpoint = Some ep ∧
    DialSSHCommand "10.0.0.1:22" "fleetctl fd-forward /var/run/fleet.sock" = DialSSHCommand "10.0.0.1:22" ("fleetctl fd-forward " +:+ ep.(Path)).
Proof.
  destruct (getHTTPClient_dials ex_url_parse (λ z, z) (λ _ _ _ _, true) (λ _ _ _, true) (ex_flags [("tunnel", "10.0.0.1")])
    (DialSSHCommand "10.0.0.1:22" "fleetctl fd-forward /var/run/fleet.sock") (mkUrl "http" "domain-sock" "")) as (ep & Hep & _ & Hd);
    [vm_compute; reflexivity|].
  exists ep. vm_compute in Hep. injection Hep as <-. split; [reflexivity|]. vm_compute. reflexivity.
Defined.
