(* ===== verification/FleetctlList.v ===== *)
(** * [fleetctl]: the commands that list, and the search for an address

    [list_units.go], [list_unit_files.go] and [list_machines.go] print a table, here the
    lines before the columns are aligned; [ssh.go] finds the address of the machine
    to connect to. *)

From stdpp Require Import base list gmap strings.
From Stdlib Require Import ZArith Ascii.
From S2P Require Import Prelude GoStrings GoPath Pkg UnitFile Job Machine Schema Api Fleetctl.

Definition tab : ascii := "009".

Section listings.
#[local] Open Scope go_scope.
Context `{MR : MapRange, GS : GoSort, DG : Digest, A : ClientAPI W E}.

(** A column of a table: [None] is a panic. *)
Definition column (X : Type) : Type := X → bool → option string.

(** The machine of an identity, known or not. *)
Definition legend_of (machID : string) (full : bool) (w : W) : string :=
  machineFullLegend (default (mkMachineState machID "" ∅ ∅ "") (cachedMachineState None machID w).2) full.

(** ** [list-units]

    No state in the list is a nil pointer.  The hash is cut at seven bytes. *)
Definition listUnitsFields (w : W) (key : string) : option (column SchemaUnitState) :=
  if decide (key = "unit") then Some (λ us _, Some us.(SSName))
  else if decide (key = "load") then Some (λ us _, Some us.(SystemdLoadState))
  else if decide (key = "active") then Some (λ us _, Some us.(SystemdActiveState))
  else if decide (key = "sub") then Some (λ us _, Some us.(SystemdSubState))
  else if decide (key = "machine") then
    Some (λ (us : SchemaUnitState) (full : bool), Some (if decide (us.(SSMachineID) = "") then "-" else legend_of us.(SSMachineID) full w))
  else if decide (key = "hash") then
    Some (λ (us : SchemaUnitState) (full : bool),
      if decide (us.(SSHash) = "") then Some "-"
      else if full then Some us.(SSHash)
      else if bool_decide (String.length us.(SSHash) < 7) then None else Some (str_take 7 us.(SSHash)))
  else None.

(** ** [list-unit-files] *)

Definition mapTargetField (w : W) (u : SchemaUnit) (full : bool) : string :=
  if suToGlobal u then "global"
  else if decide (u.(SUMachineID) = "") then "-" else legend_of u.(SUMachineID) full w.

Definition or_dash (s : string) : string := if decide (s = "") then "-" else s.

Definition listUnitFilesFields (w : W) (key : string) : option (column SchemaUnit) :=
  if decide (key = "unit") then Some (λ u _, Some u.(SUName))
  else if decide (key = "global") then Some (λ u _, Some (if suToGlobal u then "true" else "false"))
  else if decide (key = "dstate") then Some (λ u _, Some (or_dash u.(SUDesiredState)))
  else if decide (key = "target" ∨ key = "tmachine") then Some (λ (u : SchemaUnit) (full : bool), Some (mapTargetField w u full))
  else if decide (key = "state") then
    Some (λ u _, Some (if suToGlobal u then "-" else or_dash u.(SUCurrentState)))
  else if decide (key = "hash") then
    Some (λ (u : SchemaUnit) (full : bool),
      let uf := MapSchemaUnitOptionsToUnitFile u.(SUOptions) in
      Some (if full then Hash_String (UnitFile_Hash uf) else Hash_Short (UnitFile_Hash uf)))
  else if decide (key = "desc") then
    Some (λ u _, Some (or_dash (UnitFile_Description (MapSchemaUnitOptionsToUnitFile u.(SUOptions)))))
  else None.

(** ** [list-machines] *)

Definition formatMetadata (t : moment) (metadata : gmap string string) : string :=
  join_byte "," ((λ key, key +:+ "=" +:+ default "" (metadata !! key)) <$> go_sort string_less (range t metadata).*1).

Definition listMachinesFields (t : moment) (key : string) : option (column MachineState) :=
  if decide (key = "machine") then Some (λ ms full, Some (machineIDLegend ms full))
  else if decide (key = "ip") then Some (λ ms _, Some (or_dash ms.(PublicIP)))
  else if decide (key = "metadata") then
    Some (λ ms _, Some (if decide (ms.(Metadata) = ∅) then "-" else formatMetadata t ms.(Metadata)))
  else None.

(** ** The tables *)

(** The body that the three commands share. *)
Definition run_list {X} (fields : string → option (column X)) (flag : string) (noLegend full : bool)
    (items : res E (list X)) : outcome (Z * list string) :=
  if decide (flag = "") then Done (1%Z, [])
  else
    let keys := split_byte "," flag in
    match mapM fields keys with
    | None => Done (1%Z, [])
    | Some cols =>
        match items with
        | Err _ => Done (1%Z, [])
        | Ok items =>
            match mapM (λ x, join_byte tab <$> mapM (λ col : column X, col x full) cols) items with
            | None => Fatal
            | Some rows => Done (0%Z, if noLegend then rows else to_upper (join_byte tab keys) :: rows)
            end
        end
    end.

Definition runListUnits (flag : string) (noLegend full : bool) (w : W) : outcome (Z * list string) :=
  run_list (listUnitsFields w) flag noLegend full (api_UnitStates w).

Definition runListUnitFiles (flag : string) (noLegend full : bool) (w : W) : outcome (Z * list string) :=
  run_list (listUnitFilesFields w) flag noLegend full (api_Units w).

Definition runListMachines (t : moment) (flag : string) (noLegend full : bool) (w : W) : outcome (Z * list string) :=
  run_list (listMachinesFields t) flag noLegend full (api_Machines w).

(** ** The address to connect to *)

Inductive lookup_error := ManyMachines | NoMachine | NoUnit | GlobalUnit | LookupFailed (e : E)
  | NothingGiven | Ambiguous | NoMatch.

(** The address and whether it was found. *)
Definition findAddressInMachineList (lookup : string) (w : W) : string * bool * option lookup_error :=
  match api_Machines w with
  | Err e => ("", false, Some (LookupFailed e))
  | Ok states =>
      match filter (λ ms, has_prefix lookup ms.(ID)) states with
      | [] => ("", false, Some NoMachine)
      | [ms] => (ms.(PublicIP), true, None)
      | _ => ("", false, Some ManyMachines)
      end
  end.

Definition findAddressInRunningUnits (name : string) (w : W) : string * bool * option lookup_error :=
  match api_Unit (unitNameMangle name) w with
  | Err e => ("", false, Some (LookupFailed e))
  | Ok None => ("", false, Some NoUnit)
  | Ok (Some u) =>
      if suToGlobal u then ("", false, Some GlobalUnit)
      else
        match (cachedMachineState None u.(SUMachineID) w).2 with
        | Some m => if decide (m.(PublicIP) = "") then ("", false, None) else (m.(PublicIP), true, None)
        | None => ("", false, None)
        end
  end.

Definition globalMachineLookup (args : list string) (w : W) : res lookup_error string :=
  match args with
  | [] => Err NothingGiven
  | lookup :: _ =>
      match findAddressInMachineList lookup w, findAddressInRunningUnits lookup w with
      | (_, true, _), (_, true, _) => Err Ambiguous
      | (machineAddr, true, _), _ => Ok machineAddr
      | _, (unitAddr, true, _) => Ok unitAddr
      | _, _ => Err NoMatch
      end
  end.

(** [runSSH] up to the connection: the address and the command, or the exit code. *)
Definition runSSH (SSHPort : Z) (flagUnit flagMachine : string) (args : list string) (w : W) : res Z (string * list string) :=
  if bool_decide (flagUnit ≠ "") && bool_decide (flagMachine ≠ "") then Err 1%Z
  else
    let '(addr, args) :=
      if decide (flagMachine ≠ "") then
        let '(addr, _, err) := findAddressInMachineList flagMachine w in
        ((match err with Some _ => Err 1%Z | None => Ok addr end), args)
      else if decide (flagUnit ≠ "") then
        let '(addr, _, err) := findAddressInRunningUnits flagUnit w in
        ((match err with Some _ => Err 1%Z | None => Ok addr end), args)
      else ((match globalMachineLookup args w with Err _ => Err 1%Z | Ok addr => Ok addr end), drop 1 args) in
    let* addr := addr in
    if decide (addr = "") then Err 1%Z else Ok (findSSHPort SSHPort addr, TrimToDashes args).

End listings.
