(* ===== verification/FleetctlSpec.v ===== *)
(** * What the commands of [fleetctl] guarantee

    [ClientLaws] is what a command relies on of the client interface; the client of
    [client/registry.go] over the registry of [registry/fake.go] keeps it. *)

From stdpp Require Import base list gmap strings.
From Stdlib Require Import ZArith Lia Ascii.
From S2P Require Import Prelude GoStrings GoPath Pkg UnitFile Job Machine UnitManager Schema FakeRegistry Api Fleetctl FleetctlList.

Definition with_desired (state : JobState) (u : SchemaUnit) : SchemaUnit :=
  mkSchemaUnit u.(SUCurrentState) state u.(SUMachineID) u.(SUName) u.(SUOptions).

(** The units of a world by name; a write changes one of them, or nothing. *)
Class ClientLaws {W E} (A : ClientAPI W E) := {
  cl_wf : W → Prop;
  cl_view : W → string → option SchemaUnit;
  cl_Unit : ∀ w n r, cl_wf w → api_Unit n w = Ok r → r = cl_view w n;
  cl_name : ∀ w n u, cl_wf w → cl_view w n = Some u → u.(SUName) = n;
  cl_set : ∀ n s w, cl_wf w →
    let '(w', r) := api_SetUnitTargetState n s w in
    cl_wf w' ∧ ∀ k, cl_view w' k = if decide (is_ok r ∧ k = n) then with_desired s <$> cl_view w k else cl_view w k;
  cl_create : ∀ u w, cl_wf w →
    let '(w', r) := api_CreateUnit u w in
    cl_wf w' ∧ (∀ k, is_ok r = false ∨ k ≠ u.(SUName) → cl_view w' k = cl_view w k) ∧
    (is_ok r → is_Some (cl_view w' u.(SUName)))
}.

(** ** The registry in memory keeps the laws *)

Section fake_laws.
Context `{MR : MapRange, GS : GoSort} (t : moment).
#[local] Existing Instance fake_client.

Definition fake_api : ClientAPI FakeRegistry (client_error string) := RegistryClient_API (CR := fake_client t).

(** A job as the client reports it. *)
Definition client_unit (j : Job) : SchemaUnit :=
  MapUnitToSchemaUnit (fake_unit j) (if IsGlobal (fake_unit j) then None else Some (fake_scheduled j)).

Lemma fake_api_Unit n f : @api_Unit _ _ fake_api n f = Ok (client_unit <$> f.(fr_jobs) !! n).
Proof.
  cbn -[IsGlobal]. unfold RegistryClient_Unit. cbn -[IsGlobal]. destruct (fr_jobs f !! n) as [j|]; [|done].
  cbn -[IsGlobal]. unfold client_unit. by destruct (IsGlobal (fake_unit j)).
Qed.

Definition fake_wf (f : FakeRegistry) : Prop := map_Forall (λ k j, j.(JName) = k) f.(fr_jobs).

Lemma client_unit_desired j ts :
  client_unit (mkJob j.(JName) j.(JState) ts j.(JTargetMachineID) j.(JUnit)) = with_desired ts (client_unit j).
Proof. unfold client_unit. cbn. by destruct (IsGlobal _). Qed.

Lemma unsafeSet_laws n ts f : fake_wf f →
  let '(f', r) := unsafeSetUnitTargetState n ts f in
  fake_wf f' ∧ is_ok r = bool_decide (is_Some (fr_jobs f !! n)) ∧
  ∀ k, client_unit <$> fr_jobs f' !! k =
    if decide (is_ok r ∧ k = n) then with_desired ts <$> (client_unit <$> fr_jobs f !! k) else client_unit <$> fr_jobs f !! k.
Proof.
  intros Hwf. unfold unsafeSetUnitTargetState. destruct (fr_jobs f !! n) as [j|] eqn:Hj; cbn.
  - split; [|split; [done|]].
    + intros k j'. cbn. intros [[<- <-]|[Hk H]]%lookup_insert_Some; [by apply (Hwf n j Hj)|by apply Hwf].
    + intros k. case_decide as Hd.
      * destruct Hd as [_ ->]. rewrite lookup_insert, decide_True by done. rewrite Hj. cbn. by rewrite client_unit_desired.
      * rewrite lookup_insert_ne; [done|]. intros ->. by apply Hd.
  - split; [done|split; [done|]]. intros k. by rewrite decide_False by tauto.
Qed.

(** One unit may have been made, and nothing else changed. *)
Definition creates (n : string) (f f' : FakeRegistry) (ok : bool) : Prop :=
  fake_wf f' ∧ (∀ k, ok = false ∨ k ≠ n → client_unit <$> fr_jobs f' !! k = client_unit <$> fr_jobs f !! k) ∧
  (ok → is_Some (client_unit <$> fr_jobs f' !! n)).

Lemma fr_CreateUnit_laws u f : fake_wf f → creates u.(UName) f (fr_CreateUnit u f).1 (is_ok (fr_CreateUnit u f).2).
Proof.
  intros Hwf. unfold fr_CreateUnit, creates. destruct (fr_jobs f !! UName u) as [j|] eqn:Hj; [done|].
  set (f0 := with_jobs _ _). assert (fake_wf f0) as Hwf0.
  { intros k j. cbn. intros [[<- <-]|[Hk H]]%lookup_insert_Some; [done|by apply Hwf]. }
  pose proof (unsafeSet_laws (UName u) (UTargetState u) f0 Hwf0) as H.
  destruct (unsafeSetUnitTargetState _ _ f0) as [f' r]. destruct H as (Hw & Hok & Hv). cbn.
  assert (fr_jobs f0 !! UName u = Some (mkJob (UName u) None "" "" (UUnit u))) as H0 by (cbn; by rewrite lookup_insert, decide_True).
  rewrite bool_decide_eq_true_2 in Hok by (rewrite H0; eauto). split; [done|]. split.
  - intros k [?|Hk]; [congruence|]. rewrite Hv, decide_False by tauto. cbn. by rewrite lookup_insert_ne by done.
  - intros _. rewrite Hv, decide_True by (rewrite Hok; done). rewrite H0. cbn. eauto.
Qed.

#[export] Instance fake_client_laws : ClientLaws fake_api.
Proof.
  refine {| cl_wf := fake_wf; cl_view f n := client_unit <$> f.(fr_jobs) !! n |}.
  - intros f n r _. rewrite fake_api_Unit. by intros [= <-].
  - intros f n u Hwf Hu. destruct (fr_jobs f !! n) as [j|] eqn:Hj; [|done]. injection Hu as <-. by apply (Hwf n j Hj).
  - intros n s f Hwf. cbn. unfold RegistryClient_SetUnitTargetState, fr_SetUnitTargetState. cbn.
    unfold fr_SetUnitTargetState. pose proof (unsafeSet_laws n s f Hwf) as H.
    destruct (unsafeSetUnitTargetState n s f) as [f' [e|[]]]; cbn in *; tauto.
  - intros u f Hwf. cbn. unfold RegistryClient_CreateUnit.
    assert (∀ ts, let '(f', r) := (let '(reg, r) := fr_CreateUnit (mkUnit u.(SUName) (MapSchemaUnitOptionsToUnitFile u.(SUOptions)) ts) f
      in (reg, lift_reg r)) in creates u.(SUName) f f' (is_ok r)) as Hc.
    { intros ts. pose proof (fr_CreateUnit_laws (mkUnit u.(SUName) (MapSchemaUnitOptionsToUnitFile u.(SUOptions)) ts) f Hwf) as H.
      cbn [UName] in H. destruct (fr_CreateUnit _ f) as [f' [[]|e]]; exact H. }
    case_bool_decide; [|apply Hc]. destruct (ParseJobState _) as [ts|e]; [|done]. apply Hc.
Defined.
End fake_laws.

(** ** Setting target states *)

Section targets.
#[local] Open Scope go_scope.
Context `{A : ClientAPI W E, CL : !ClientLaws A}.

(** A unit that is not in the state. *)
Definition to_change (state : JobState) (w : W) (k : string) : Prop :=
  ∃ u, cl_view w k = Some u ∧ u.(SUDesiredState) ≠ state.

Lemma with_desired_same state u : u.(SUDesiredState) = state → with_desired state u = u.
Proof. intros <-. by destruct u. Qed.

Lemma with_desired_twice state u : with_desired state (with_desired state u) = with_desired state u.
Proof. done. Qed.

(** What setting the target state of some units has done. *)
Definition targets_set (units : list string) (state : JobState) (w w' : W) (r : res (ctl_error E) (list SchemaUnit)) : Prop :=
  (∀ k, cl_view w' k = cl_view w k ∨ k ∈ units ∧ cl_view w' k = with_desired state <$> cl_view w k) ∧
  match r with
  | Ok us =>
      (∀ k, k ∈ units → is_Some (cl_view w k) ∧ cl_view w' k = with_desired state <$> cl_view w k) ∧
      NoDup (SUName <$> us) ∧
      (∀ u, u ∈ us ↔ u.(SUName) ∈ units ∧ cl_view w u.(SUName) = Some u ∧ u.(SUDesiredState) ≠ state)
  | Err e => (∃ e', e = ApiError e') ∨ ∃ k, e = UnitMissing k ∧ k ∈ units ∧ cl_view w k = None
  end.

Lemma targets_set_skip name units state u w w' r :
  cl_view w name = Some u → u.(SUDesiredState) = state →
  targets_set units state w w' r → targets_set (name :: units) state w w' r.
Proof.
  intros Hu Hd [Hv Hr]. assert (cl_view w' name = with_desired state <$> cl_view w name) as Hname.
  { destruct (Hv name) as [->|[_ ->]]; [|done]. rewrite Hu. cbn. by rewrite with_desired_same. }
  split; [intros k; destruct (Hv k) as [?|[??]]; [by left|right; split; [by right|done]]|].
  destruct r as [us|e].
  - destruct Hr as (Hall & Hnd & Hus). split; [|split; [done|]].
    + intros k [->|Hk]%elem_of_cons; [|by apply Hall]. split; [by rewrite Hu|done].
    + intros u'. rewrite Hus, elem_of_cons. split; [tauto|]. intros ([Hn|Hn] & Hv' & Hd'); [|done].
      rewrite Hn, Hu in Hv'. congruence.
  - destruct Hr as [?|(k & -> & Hk & ?)]; [by left|]. right. exists k. split; [done|]. split; [by right|done].
Qed.

(** Only the unit [name] changed, and only its target state. *)
Definition one_target_set (name : string) (state : JobState) (w w' : W) : Prop :=
  ∀ k, cl_view w' k = if decide (k = name) then with_desired state <$> cl_view w k else cl_view w k.

Lemma one_target_set_after name state w w1 k :
  one_target_set name state w w1 → with_desired state <$> cl_view w1 k = with_desired state <$> cl_view w k.
Proof. intros H. rewrite H. case_decide; [|done]. by destruct (cl_view w k). Qed.

Lemma targets_set_cons name units state u w w1 w' r :
  cl_view w name = Some u → u.(SUDesiredState) ≠ state → u.(SUName) = name → one_target_set name state w w1 →
  targets_set units state w1 w' r → targets_set (name :: units) state w w' (let* us := r in Ok (u :: us)).
Proof.
  intros Hu Hd Hn H1 [Hv Hr]. pose proof (λ k, one_target_set_after name state w w1 k H1) as Ha. split.
  { intros k. destruct (Hv k) as [Hk|[Hk Hw]].
    - rewrite Hk, H1. case_decide; [subst k; right; split; [left|done]|by left].
    - right. rewrite Hw, Ha. split; [by right|done]. }
  destruct r as [us|e].
  - destruct Hr as (Hall & Hnd & Hus). cbn. split; [|split].
    + intros k [->|Hk]%elem_of_cons.
      * rewrite Hu. split; [eauto|]. destruct (Hv name) as [Hw|[_ Hw]]; rewrite Hw; [by rewrite H1, decide_True, Hu|by rewrite Ha, Hu].
      * destruct (Hall k Hk) as [Hs Hw]. rewrite Hw, Ha. rewrite H1 in Hs. split; [|done].
        case_decide; [by rewrite fmap_is_Some in Hs|done].
    + constructor; [|done]. rewrite Hn. intros (u' & Hn' & (_ & Hv' & Hd')%Hus)%list_elem_of_fmap.
      rewrite <- Hn', H1, decide_True, Hu in Hv' by done. cbn in Hv'. injection Hv' as <-. done.
    + intros u'. rewrite !elem_of_cons, Hus, H1. case_decide as Hk.
      * rewrite Hk, Hu. cbn. split; [intros [->|(? & [= <-] & ?)]; [tauto|done]|intros (_ & [= ->] & _); by left].
      * split; [intros [->|?]; [done|tauto]|tauto].
  - destruct Hr as [?|(k & -> & Hk & Hw)]; [by left|]. right. exists k. split; [done|]. split; [by right|].
    rewrite H1 in Hw. case_decide; [by destruct (cl_view w k)|done].
Qed.

Lemma setTarget_view units state w : cl_wf w →
  let '(w', r) := setTargetStateOfUnits units state w in cl_wf w' ∧ targets_set units state w w' r.
Proof.
  revert w. induction units as [|name units IH]; intros w Hwf; cbn.
  { split; [done|]. split; [by left|]. split; [by intros k ?%elem_of_nil|]. split; [constructor|].
    intros u. rewrite !elem_of_nil. tauto. }
  destruct (api_Unit name w) as [[u|]|e] eqn:Hu.
  - apply (cl_Unit w name _ Hwf) in Hu. pose proof (cl_name w name u Hwf (eq_sym Hu)) as Hn. case_bool_decide as Hd.
    + pose proof (IH w Hwf) as H. destruct (setTargetStateOfUnits units state w) as [w' r]. destruct H as [? H].
      split; [done|]. by apply (targets_set_skip name units state u).
    + rewrite Hn. pose proof (cl_set name state w Hwf) as Hs.
      destruct (api_SetUnitTargetState name state w) as [w1 [[]|e]]; destruct Hs as [Hw1 Hs]; cbn in Hs.
      * pose proof (IH w1 Hw1) as H. destruct (setTargetStateOfUnits units state w1) as [w' r]. destruct H as [? H].
        split; [done|]. apply (targets_set_cons name units state u w w1); [done..| |done].
        intros k. rewrite Hs. by repeat case_decide; try tauto.
      * split; [done|]. split; [|left; eauto]. intros k. left. rewrite Hs, decide_False by (intros [[] _]). done.
  - split; [done|]. split; [by left|]. right. exists name. split; [done|]. split; [left|].
    symmetry. by apply (cl_Unit w name None Hwf).
  - split; [done|]. split; [by left|]. left. eauto.
Qed.
(** [setTargetStateOfUnits] changes nothing but target states, of units named, to
    the state asked for.  When it succeeds every unit named exists and has that state,
    and the units returned are those that had another before, each once; it fails only
    when a call fails or a unit named does not exist. *)
Theorem setTargetStateOfUnits_spec units state w : cl_wf w →
  let '(w', r) := setTargetStateOfUnits units state w in
  (∀ k, cl_view w' k = cl_view w k ∨ k ∈ units ∧ cl_view w' k = with_desired state <$> cl_view w k) ∧
  match r with
  | Ok us =>
      (∀ k, k ∈ units → is_Some (cl_view w k) ∧ cl_view w' k = with_desired state <$> cl_view w k) ∧
      NoDup (SUName <$> us) ∧
      (∀ u, u ∈ us ↔ u.(SUName) ∈ units ∧ cl_view w u.(SUName) = Some u ∧ u.(SUDesiredState) ≠ state)
  | Err e => (∃ e', e = ApiError e') ∨ ∃ k, e = UnitMissing k ∧ k ∈ units ∧ cl_view w k = None
  end.
Proof.
  intros Hwf. pose proof (setTarget_view units state w Hwf) as H. by destruct (setTargetStateOfUnits units state w) as [w' r], H.
Qed.

End targets.

(** ** Creating units *)

Section creating.
#[local] Open Scope go_scope.
Context `{MR : MapRange, DG : Digest, A : ClientAPI W E, CL : !ClientLaws A}.
Variable disk : string → local_file.

(** With the flag [--replace], in a state from which the command may replace it. *)
Definition replaceable (fl : ctl_flags) (u : SchemaUnit) : Prop :=
  fl.(fl_replace) = true ∧ ∃ l, allowedReplace fl.(currentCommand) = Some l ∧ u.(SUDesiredState) ∈ l.

Lemma checkUnitCreation_true fl arg w : cl_wf w → checkUnitCreation disk fl arg w = Ok true →
  match cl_view w (unitNameMangle arg) with None => True | Some u => replaceable fl u end.
Proof.
  intros Hwf. unfold checkUnitCreation. destruct (api_Unit _ w) as [o|e] eqn:Hu; [|done]. cbn.
  rewrite <- (cl_Unit w _ o Hwf Hu). destruct o as [u|]; [|done].
  destruct (fl_replace fl) eqn:Hr; [|done]. destruct (isLocalUnitDifferent disk arg u) as [[]|]; [|done..].
  unfold checkReplaceUnitState, replaceable. cbn. destruct (allowedReplace _) as [l|]; [|done].
  intros [= He]. split; [done|]. exists l. split; [done|]. apply existsb_exists in He as (j & Hj & Hd).
  apply bool_decide_eq_true in Hd as ->. by apply list_elem_of_In.
Qed.

Lemma createUnit_view t name uf w : cl_wf w →
  let '(w', r) := createUnit t name uf w in
  cl_wf w' ∧ (∀ k, is_ok r = false ∨ k ≠ name → cl_view w' k = cl_view w k) ∧
  (is_ok r → is_ok (ValidateName name) ∧ is_Some (cl_view w' name)).
Proof.
  intros Hwf. unfold createUnit. destruct (ValidateName name) as [|e]; [|done].
  destruct (ValidateOptions t _) as [|e]; [|done].
  pose proof (cl_create (mkSchemaUnit "" "" "" name (MapUnitFileToSchemaUnitOptions uf)) w Hwf) as H.
  destruct (api_CreateUnit _ w) as [w' [[]|e]]; destruct H as (? & ? & ?); done || tauto.
Qed.

Lemma checkUnitCreation_false fl arg w : cl_wf w → checkUnitCreation disk fl arg w = Ok false → is_Some (cl_view w (unitNameMangle arg)).
Proof.
  intros Hwf. unfold checkUnitCreation. destruct (api_Unit _ w) as [o|e] eqn:Hu; [|done]. cbn.
  rewrite <- (cl_Unit w _ o Hwf Hu). destruct o as [u|]; [eauto|done].
Qed.

(** The name under which the unit of an argument is created. *)
Definition arg_name (arg : string) : string := unitNameMangle (maybeAppendDefaultUnitType arg).

Lemma arg_name_eq arg : unitNameMangle (maybeAppendDefaultUnitType arg) = arg_name arg.
Proof. done. Qed.

#[local] Opaque arg_name unitNameMangle.

(** What creating units may have done. *)
Definition units_created (fl : ctl_flags) (args : list string) (w w' : W) : Prop :=
  (∀ k, k ∉ arg_name <$> args → cl_view w' k = cl_view w k) ∧
  (∀ k u, cl_view w k = Some u → cl_view w' k = Some u ∨ is_Some (cl_view w' k) ∧ replaceable fl u) ∧
  (∀ k, cl_view w k = None → is_Some (cl_view w' k) → is_ok (ValidateName k)).

Lemma units_created_refl fl args w : units_created fl args w w.
Proof. split; [done|]. split; [by left|]. intros k -> [? [=]]. Qed.

Lemma units_created_weaken fl arg args w w' : units_created fl args w w' → units_created fl (arg :: args) w w'.
Proof. intros (Hf & Hr). split; [|done]. intros k [_ Hk]%not_elem_of_cons. by apply Hf. Qed.

(** The unit of the argument was created, and then others. *)
Lemma units_created_cons fl arg args w w1 w' :
  match cl_view w (arg_name arg) with None => True | Some u => replaceable fl u end →
  (∀ k, k ≠ arg_name arg → cl_view w1 k = cl_view w k) → is_ok (ValidateName (arg_name arg)) →
  is_Some (cl_view w1 (arg_name arg)) → units_created fl args w1 w' → units_created fl (arg :: args) w w'.
Proof.
  intros Hc Hf Hval Hs (Hf' & Hold & Hnew). split; [|split].
  - intros k [Hne Hk]%not_elem_of_cons. rewrite Hf' by done. by apply Hf.
  - intros k u Hu. destruct (decide (k = arg_name arg)) as [->|Hk].
    + rewrite Hu in Hc. destruct Hs as [u1 Hu1]. right. split; [|done].
      destruct (Hold _ _ Hu1) as [->|[? _]]; [eauto|done].
    + apply Hold. by rewrite Hf.
  - intros k Hk Hs'. destruct (decide (k = arg_name arg)) as [->|Hne]; [done|]. apply Hnew; [|done]. by rewrite Hf.
Qed.

Lemma create_units_view t fl args w : cl_wf w →
  let '(w', r) := create_units disk t fl args w in
  cl_wf w' ∧ units_created fl args w w' ∧ (is_ok r → ∀ arg, arg ∈ args → is_Some (cl_view w' (arg_name arg))).
Proof.
  revert t w. induction args as [|arg args IH]; intros t w Hwf; cbn.
  { split; [done|]. split; [apply units_created_refl|]. by intros _ arg ?%elem_of_nil. }
  rewrite arg_name_eq. destruct (checkUnitCreation disk fl _ w) as [b|e] eqn:Hc; [|].
  2: { split; [done|]. split; [apply units_created_refl|done]. }
  destruct b.
  - apply checkUnitCreation_true in Hc; [|done]. rewrite arg_name_eq in Hc.
    destruct (getUnitFile disk _ w) as [uf|e]; [|split; [done|split; [apply units_created_refl|done]]].
    pose proof (createUnit_view (0 :: t) (arg_name arg) uf w Hwf) as H1.
    destruct (createUnit (0 :: t) (arg_name arg) uf w) as [w1 [u1|e]]; destruct H1 as (Hw1 & Hf & Hok).
    + pose proof (IH (1 :: t) w1 Hw1) as H. destruct (create_units disk (1 :: t) fl args w1) as [w' r].
      destruct H as (Hw' & Hcr & Hall). destruct (Hok I) as [Hval Hs].
      split; [done|]. split; [apply (units_created_cons fl arg args w w1); auto|].
      intros Hr arg' [->|Ha]%elem_of_cons; [|apply Hall; [by destruct r|done]].
      destruct Hs as [u Hu], Hcr as (_ & Hold & _). destruct (Hold _ _ Hu) as [->|[? _]]; [eauto|done].
    + split; [done|]. split; [|done]. destruct (units_created_refl fl (arg :: args) w) as (? & Hold & Hnew).
      assert (∀ k, cl_view w1 k = cl_view w k) as Hsame by (intros k; apply Hf; by left).
      split; [|split]; intros k; rewrite Hsame; auto.
  - pose proof (IH (1 :: t) w Hwf) as H. destruct (create_units disk (1 :: t) fl args w) as [w' r].
    destruct H as (Hw' & Hcr & Hall). split; [done|]. split; [by apply units_created_weaken|].
    intros Hr arg' [->|Ha]%elem_of_cons; [|by apply Hall].
    apply checkUnitCreation_false in Hc as [u Hu]; [|done]. rewrite arg_name_eq in Hu. destruct Hcr as (_ & Hold & _).
    destruct (Hold _ _ Hu) as [->|[? _]]; [eauto|done].
Qed.
(** C13: creating the units of a command never touches a unit that is not named; an
    existing unit is replaced only with [--replace], and only from a target state from
    which the command may (submit: inactive; load: inactive, loaded; start: any);
    units that are new have valid names; and on success every unit named exists. *)
Theorem create_units_safe t fl args w : cl_wf w →
  let '(w', r) := create_units disk t fl args w in
  (∀ k, k ∉ arg_name <$> args → cl_view w' k = cl_view w k) ∧
  (∀ k u, cl_view w k = Some u → cl_view w' k = Some u ∨ is_Some (cl_view w' k) ∧
    fl.(fl_replace) = true ∧ ∃ l, allowedReplace fl.(currentCommand) = Some l ∧ u.(SUDesiredState) ∈ l) ∧
  (∀ k, cl_view w k = None → is_Some (cl_view w' k) → is_ok (ValidateName k)) ∧
  (is_ok r → ∀ arg, arg ∈ args → is_Some (cl_view w' (arg_name arg))).
Proof.
  intros Hwf. pose proof (create_units_view t fl args w Hwf) as H. destruct (create_units disk t fl args w) as [w' r].
  by destruct H as (_ & (? & ? & ?) & ?).
Qed.

End creating.

(** ** Waiting *)

Section waiting.
#[local] Open Scope go_scope.
Context `{A : ClientAPI W E}.
Variables (elapse : W → W) (race : W → bool).

Lemma after_S n w : after elapse (S n) w = after elapse n (elapse w).
Proof. unfold after. by rewrite Nat.iter_succ_r. Qed.

Lemma poll_reached check fuel slot w s : poll elapse race check fuel slot w = PollReached s →
  ∃ d, s = slot + d ∧ 0 < d ≤ fuel ∧ check (after elapse d w) = Some true.
Proof.
  revert slot w. induction fuel as [|fuel IH]; intros slot w; [done|]. cbn.
  assert (poll elapse race check fuel (S slot) (elapse w) = PollReached s →
    ∃ d, s = slot + d ∧ 0 < d ≤ S fuel ∧ check (after elapse d w) = Some true) as Hnext.
  { intros (d & -> & Hd & Hc)%IH. exists (S d). rewrite after_S. split_and!; [lia..|done]. }
  destruct (polled race _ _); [|done]. destruct (check (elapse w)) as [[]|] eqn:Hc; [|done..].
  intros [= <-]. exists 1. cbn. split_and!; [lia..|done].
Qed.

Lemma poll_timed_out check fuel slot w : poll elapse race check fuel slot w = PollTimedOut →
  ∀ d, 0 < d ≤ fuel → polled race (slot + d) (after elapse d w) = true → check (after elapse d w) = Some false.
Proof.
  revert slot w. induction fuel as [|fuel IH]; intros slot w Hp d Hd Hpd; [lia|]. cbn in Hp. destruct d as [|d]; [lia|].
  rewrite after_S in *. rewrite <- Nat.add_succ_comm in Hpd. destruct d as [|d].
  - rewrite Nat.add_0_r in Hpd. cbn in *. rewrite Hpd in Hp. by destruct (check (elapse w)) as [[]|].
  - apply (IH (S slot)); [|lia|done]. destruct (polled race _ _); [|done]. by destruct (check (elapse w)) as [[]|].
Qed.

Lemma poll_safe check fuel slot w : (∀ w, check w ≠ None) → poll elapse race check fuel slot w ≠ PollCrashed.
Proof.
  intros Hc. revert slot w. induction fuel as [|fuel IH]; intros slot w; [done|]. cbn.
  destruct (polled race _ _); [|apply IH]. destruct (check (elapse w)) as [[]|] eqn:He; [done|apply IH|by apply Hc in He].
Qed.

Lemma poll_found check fuel slot w d : (∀ w, check w ≠ None) → 0 < d ≤ fuel → polled race (slot + d) (after elapse d w) = true →
  check (after elapse d w) = Some true → ∃ s, poll elapse race check fuel slot w = PollReached s ∧ s ≤ slot + d.
Proof.
  intros Hc. revert slot w d. induction fuel as [|fuel IH]; intros slot w d Hd Hp Ht; [lia|]. cbn. destruct d as [|d]; [lia|].
  rewrite after_S in *. rewrite <- Nat.add_succ_comm in *.
  assert (0 < d → ∃ s, poll elapse race check fuel (S slot) (elapse w) = PollReached s ∧ s ≤ S slot + d) as Hn.
  { intros H0. apply (IH (S slot) (elapse w) d); [lia|done..]. }
  destruct d as [|d].
  - rewrite Nat.add_0_r in *. cbn in Hp, Ht. rewrite Hp, Ht. eauto with lia.
  - destruct (polled race (S slot) _); [|apply Hn; lia].
    destruct (check (elapse w)) as [[]|] eqn:He; [eauto with lia|apply Hn; lia|by apply Hc in He].
Qed.

(** A state that lasts is seen within two slots. *)
Lemma poll_finds check fuel w k : (∀ w, check w ≠ None) → k + 2 ≤ fuel →
  (∀ s, k ≤ s → check (after elapse s w) = Some true) →
  ∃ s, poll elapse race check fuel 0 w = PollReached s ∧ s ≤ k + 2.
Proof.
  intros Hc Hf Hk. assert (∃ d, k < d ≤ k + 2 ∧ (d mod 8 ≠ 0)%nat) as (d & Hd & Hm).
  { pose proof (Nat.div_mod_eq (S k) 8). pose proof (Nat.div_mod_eq (k + 2) 8).
    destruct (decide (S k mod 8 = 0)%nat) as [H'|H']; [exists (k + 2)|exists (S k)]; (split; [lia|]); lia. }
  destruct (poll_found check fuel 0 w d) as (s & ? & ?); [done|lia| |apply Hk; lia|eauto with lia].
  unfold polled. apply Nat.eqb_neq in Hm. cbn [plus]. by rewrite Hm.
Qed.

Lemma in_state_safe js name w : in_state js name w ≠ None.
Proof. unfold in_state. by destruct (api_Unit name w) as [[]|]. Qed.

Lemma join_polls_ok rs n : join_polls rs = Done (Ok n) →
  ∀ name r, (name, r) ∈ rs → ∃ s, r = PollReached s ∧ s ≤ n.
Proof.
  revert n. induction rs as [|[name r] rs IH]; intros n; cbn; [intros _ ?? []%not_elem_of_nil|].
  destruct r as [s| |]; [|by destruct (join_polls rs) as [[]| |]..].
  destruct (join_polls rs) as [[n'|]| |]; [|done..]. intros [= <-] ?? [[= -> ->]|Hr]%elem_of_cons; [eauto with lia|].
  destruct (IH n' eq_refl _ _ Hr) as (s' & -> & ?). eauto with lia.
Qed.

Lemma join_polls_total rs : (∀ name r, (name, r) ∈ rs → r ≠ PollCrashed) →
  (∃ n, join_polls rs = Done (Ok n) ∧ ∀ b, (∀ name s, (name, PollReached s) ∈ rs → s ≤ b) → n ≤ b) ∨
  ∃ name, join_polls rs = Done (Err name) ∧ (name, PollTimedOut) ∈ rs.
Proof.
  induction rs as [|[name r] rs IH]; intros Hs; cbn; [left; eauto with lia|].
  assert (r ≠ PollCrashed) as Hr by (apply (Hs name); left).
  destruct IH as [(n & -> & Hb)|(name' & -> & Hin)]; [by intros ?? ?; eapply Hs; right|..]; destruct r as [s| |]; try done.
  - left. eexists. split; [done|]. intros b H. apply Nat.max_lub; [apply (H name); left|apply Hb; intros name' s' ?; apply (H name'); by right].
  - right. exists name. split; [done|left].
  - right. exists name'. split; [done|by right].
  - right. exists name. split; [done|left].
Qed.

Lemma checks_elem fuel js maxAttempts w (units : list string) name r :
  (name, r) ∈ (λ name, (name, checkUnitState elapse race fuel js maxAttempts w name)) <$> units ↔
  name ∈ units ∧ r = checkUnitState elapse race fuel js maxAttempts w name.
Proof. rewrite list_elem_of_fmap. split; [intros (? & [= -> ->] & ?); done|intros [? ->]; eauto]. Qed.

(** ** Termination of waiting *)

(** C14: waiting with a limit of [maxAttempts] ends within 8 slots for each attempt.
    It succeeds only if each unit was seen in the state; if it fails, it is because
    of a unit that was in another state, or could not be read, in every slot but the
    last of each attempt. *)
Theorem waitForUnitStates_ends fuel (units : list string) js maxAttempts w : (0 < maxAttempts)%Z →
  ∃ n r, waitForUnitStates elapse race fuel units js maxAttempts w = Done (after elapse n w, r) ∧
    n ≤ 8 * Z.to_nat maxAttempts ∧
    match r with
    | Ok _ => ∀ name, name ∈ units → ∃ s, 0 < s ≤ n ∧ in_state js name (after elapse s w) = Some true
    | Err e => ∃ name, e = WaitTimedOut name js ∧ name ∈ units ∧
        ∀ s, 0 < s ≤ 8 * Z.to_nat maxAttempts → s mod 8 ≠ 0 → in_state js name (after elapse s w) = Some false
    end.
Proof.
  intros Hm. unfold waitForUnitStates. rewrite bool_decide_eq_false_2 by lia. set (rs := _ <$> units).
  assert (∀ name r, (name, r) ∈ rs → r ≠ PollCrashed) as Hs.
  { intros name r [_ ->]%checks_elem. apply poll_safe, in_state_safe. }
  destruct (join_polls_total rs Hs) as [(n & Hj & Hb)|(name & Hj & [Hin Ht]%checks_elem)]; rewrite Hj; cbn [and_then].
  - exists n, (Ok tt). split; [done|]. split.
    + apply Hb. intros name s [_ Hp]%checks_elem. symmetry in Hp. apply poll_reached in Hp as (d & -> & Hd & _).
      unfold attempt_slots in Hd. rewrite bool_decide_eq_false_2 in Hd by lia. lia.
    + intros name Hin. edestruct (join_polls_ok rs n Hj name) as (s & Hp & Hle); [by apply checks_elem|].
      apply poll_reached in Hp as (d & -> & Hd & Hc). exists d. split; [lia|done].
  - eexists _, _. split; [done|]. split; [lia|]. exists name. split; [done|]. split; [done|]. intros s Hs' Hmod.
    symmetry in Ht. apply (poll_timed_out _ _ _ _ Ht); unfold attempt_slots, polled; rewrite ?bool_decide_eq_false_2 by lia; [done|].
    apply Nat.eqb_neq in Hmod. cbn [plus]. by rewrite Hmod.
Qed.

(** Waiting succeeds when the cluster does its work: if from slot [k] on every
    unit stays in the state, then with or without a limit that leaves two more slots,
    waiting ends by then. *)
Theorem waitForUnitStates_live fuel (units : list string) js maxAttempts w k :
  k + 2 ≤ attempt_slots fuel maxAttempts →
  (∀ name s, name ∈ units → k ≤ s → in_state js name (after elapse s w) = Some true) →
  ∃ n, waitForUnitStates elapse race fuel units js maxAttempts w = Done (after elapse n w, Ok tt) ∧ n ≤ k + 2.
Proof.
  intros Hf Hk. unfold waitForUnitStates. set (rs := _ <$> units).
  assert (∀ name r, (name, r) ∈ rs → ∃ s, r = PollReached s ∧ s ≤ k + 2) as Hs.
  { intros name r [Hin ->]%checks_elem. apply poll_finds; [apply in_state_safe|done|eauto]. }
  destruct (join_polls_total rs) as [(n & Hj & Hb)|(name & Hj & Hin)].
  - intros name r (s & -> & _)%Hs. done.
  - rewrite Hj. cbn. exists n. split; [done|]. apply Hb. intros name s (s' & [= ->] & ?)%Hs. done.
  - by apply Hs in Hin as (s & ? & _).
Qed.
(** ** Starting units *)

(** Each name was seen to pass the test in some slot. *)
Definition all_seen (test : string → W → option bool) (names : list string) (n : nat) (w : W) : Prop :=
  ∀ name, name ∈ names → ∃ s, 0 < s ≤ n ∧ test name (after elapse s w) = Some true.

Lemma tryWait_ok fuel (units : list string) js maxAttempts w w' : (-1 < maxAttempts)%Z →
  tryWaitForUnitStates elapse race fuel units js maxAttempts w = Done (w', Ok tt) →
  ∃ n, w' = after elapse n w ∧ all_seen (in_state js) units n w.
Proof.
  intros Hm. unfold tryWaitForUnitStates, waitForUnitStates. rewrite bool_decide_eq_false_2 by lia. set (rs := _ <$> units).
  destruct (join_polls rs) as [[n|e]| |] eqn:Hj; cbn; [|by case_bool_decide|done..].
  intros [= <-]. exists n. split; [done|]. intros name Hin.
  edestruct (join_polls_ok rs n Hj name) as (s & Hp & Hle); [by apply checks_elem|].
  apply poll_reached in Hp as (d & -> & Hd & Hc). exists d. split; [lia|done].
Qed.

Lemma tryWaitActive_ok (units : list string) maxAttempts w w' : (-1 < maxAttempts)%Z →
  tryWaitForSystemdActiveState elapse race units maxAttempts w = Done (w', Ok tt) →
  ∃ n, w' = after elapse n w ∧ all_seen is_active units n w.
Proof.
  intros Hm. unfold tryWaitForSystemdActiveState. rewrite bool_decide_eq_false_2 by lia. set (rs := _ <$> units).
  destruct (join_polls rs) as [[n|e]| |] eqn:Hj; cbn; [|done..].
  intros [= <-]. exists n. split; [done|]. intros name Hin.
  edestruct (join_polls_ok rs n Hj name) as (s & Hp & Hle); [apply list_elem_of_fmap; eauto|].
  apply poll_reached in Hp as (d & -> & Hd & Hc). exists d. split; [lia|done].
Qed.

Lemma getBlockAttempts_blocking fl : fl.(NoBlock) = false → (-1 < getBlockAttempts fl)%Z.
Proof. unfold getBlockAttempts. intros ->. case_bool_decide; lia. Qed.

End waiting.

Section starting.
#[local] Open Scope go_scope.
Context `{MR : MapRange, DG : Digest, A : ClientAPI W E, CL : !ClientLaws A}.
Variables (disk : string → local_file) (elapse : W → W) (race : W → bool).
Hypothesis elapse_wf : ∀ w, cl_wf w → cl_wf (elapse w).

Lemma after_wf n w : cl_wf w → cl_wf (after elapse n w).
Proof. intros Hw. induction n as [|n IH]; [done|]. by apply elapse_wf. Qed.

Lemma waitForUnitStates_after fuel (units : list string) js maxAttempts w w' r :
  waitForUnitStates elapse race fuel units js maxAttempts w = Done (w', r) → ∃ n, w' = after elapse n w.
Proof.
  unfold waitForUnitStates. destruct (join_polls _) as [[n|e]| |]; cbn; [|case_bool_decide|..]; try done.
  all: intros [= <- <-]; eauto.
Qed.

Lemma lazyCreateUnits_ok fuel t fl args w w' : cl_wf w →
  lazyCreateUnits disk elapse race fuel t fl args w = Done (w', Ok tt) →
  ∃ w1 n, cl_wf w1 ∧ w' = after elapse n w1 ∧ units_created fl args w w1 ∧ ∀ arg, arg ∈ args → is_Some (cl_view w1 (arg_name arg)).
Proof.
  intros Hwf. unfold lazyCreateUnits. pose proof (create_units_view disk t fl args w Hwf) as H.
  destruct (create_units disk t fl args w) as [w1 [names|e]]; [|done]. destruct H as (Hw1 & Hc & Hall).
  destruct (waitForUnitStates _ _ _ _ _ _ w1) as [[w2 r]| |] eqn:Hwait; cbn; [|done..]. intros [= <- Hr].
  apply waitForUnitStates_after in Hwait as [n ->]. exists w1, n. auto.
Qed.

(** C9: [fleetctl start] with exit code 0, without [--no-block], has created the units
    that were missing and changed no other, except those it may replace; has set the
    target state of every unit named to launched, and no other; and, of the units it
    set that are not global, has seen each one launched, and then active.  It does not wait
    for global units. *)
Theorem runStartUnit_success fuel t fl args w w' : cl_wf w → args ≠ [] → fl.(NoBlock) = false →
  runStartUnit disk elapse race fuel t fl args w = Done (w', 0%Z) →
  ∃ w1 n1 w2 triggered n2 n3,
    units_created fl args w w1 ∧ (∀ arg, arg ∈ args → is_Some (cl_view w1 (arg_name arg))) ∧
    targets_set (unitNameMangle <$> args) JobStateLaunched (after elapse n1 w1) w2 (Ok triggered) ∧
    all_seen elapse (in_state JobStateLaunched) (not_global triggered) n2 w2 ∧
    all_seen elapse is_active (not_global triggered) n3 (after elapse n2 w2) ∧
    w' = after elapse n3 (after elapse n2 w2).
Proof.
  intros Hwf Hne Hnb. pose proof (getBlockAttempts_blocking fl Hnb) as Hm. unfold runStartUnit. destruct args as [|a args]; [done|].
  destruct (lazyCreateUnits _ _ _ _ _ _ _ _) as [[w1 [[]|e]]| |] eqn:Hc; cbn [and_then is_ok]; [|done..].
  apply lazyCreateUnits_ok in Hc as (w0 & n1 & Hw0 & -> & Hcr & Hall); [|done]. unfold lazyStartUnits.
  pose proof (setTarget_view (unitNameMangle <$> (a :: args)) JobStateLaunched (after elapse n1 w0) (after_wf n1 w0 Hw0)) as Hset.
  destruct (setTargetStateOfUnits _ _ _) as [w2 [triggered|e]]; [|done]. destruct Hset as [Hw2 Hset].
  destruct (tryWaitForUnitStates _ _ _ _ _ _ w2) as [[w3 [[]|e]]| |] eqn:Hw; cbn [and_then is_ok]; [|done..].
  apply tryWait_ok in Hw as (n2 & -> & Hseen); [|done].
  destruct (tryWaitForSystemdActiveState _ _ _ _ _) as [[w4 [[]|e]]| |] eqn:Ha; cbn [and_then]; [|done..].
  apply tryWaitActive_ok in Ha as (n3 & -> & Hact); [|done]. intros [= <-]. exists w0, n1, w2, triggered, n2, n3. auto 10.
Qed.
End starting.

(** ** Restarting units *)

Section bugs.
#[local] Open Scope go_scope.
Context `{MR : MapRange, A : ClientAPI W E}.
Variables (elapse : W → W) (race : W → bool).

Lemma never_seen js name w n : (∀ s, 0 < s → in_state js name (after elapse s w) = Some false) →
  poll elapse race (in_state js name) n 0 w = PollTimedOut.
Proof.
  intros Hn. destruct (poll elapse race _ n 0 w) as [s| |] eqn:Hp; [|done|by apply poll_safe in Hp; [|apply in_state_safe]].
  apply poll_reached in Hp as (d & _ & ? & Hd). rewrite Hn in Hd by lia. done.
Qed.

(** C40: [fleetctl restart] of a launched unit waits for it to be launched again before
    it has asked for that: if the cluster stops the unit as told, then [restart] fails
    with a limit of attempts, and without one it never ends. *)
Theorem restart_waits_in_vain fl u us w w1 :
  suToGlobal u = false → u.(SUCurrentState) = JobStateLaunched → fl.(NoBlock) = false →
  api_SetUnitTargetState u.(SUName) JobStateLoaded w = (w1, Ok tt) →
  (∀ s, 0 < s → in_state JobStateLaunched u.(SUName) (after elapse s w1) = Some false) →
  ∀ fuel, if bool_decide (0 < fl.(BlockAttempts))%Z
    then restart_units elapse race fuel fl (u :: us) w = Done (after elapse (8 * Z.to_nat fl.(BlockAttempts)) w1, 1%Z)
    else restart_units elapse race fuel fl (u :: us) w = Blocked.
Proof.
  intros Hg Hc Hnb Hset Hn fuel. cbn [restart_units]. rewrite Hg, Hc.
  rewrite (bool_decide_eq_false_2 (JobStateLaunched = JobStateInactive)), (bool_decide_eq_false_2 (JobStateLaunched = JobStateLoaded)) by done.
  unfold setUnitStateAndWait, tryWaitForUnitStates, waitForUnitStates, checkUnitState, getBlockAttempts. rewrite Hset, Hnb. cbn -[in_state bool_decide Nat.mul].
  rewrite (never_seen _ _ _ _ Hn). cbn -[in_state bool_decide Nat.mul]. case_bool_decide as Hb.
  - rewrite !bool_decide_eq_false_2 by lia. done.
  - done.
Qed.

(** ** Destroying units *)

Fixpoint destroy_all (notFound : E → bool) (units : list SchemaUnit) (exit : Z) (w : W) : W * Z :=
  match units with
  | [] => (w, exit)
  | v :: units =>
      let '(w, r) := api_DestroyUnit v.(SUName) w in
      destroy_all notFound units (match r with Err err => if notFound err then exit else 1%Z | Ok _ => exit end) w
  end.

Lemma destroy_no_wait fuel fl notFound units exit w : fl.(NoBlock) = false →
  destroy_units elapse fuel fl notFound units exit w = Done (destroy_all notFound units exit w).
Proof.
  intros Hnb. revert exit w. induction units as [|v units IH]; intros exit w; [done|]. cbn. rewrite Hnb.
  by destruct (api_DestroyUnit (SUName v) w) as [w' []].
Qed.

Lemma destroy_wait_blocks fuel name w : (∀ n, ∃ u, api_Unit name (after elapse n w) = Ok (Some u)) →
  destroy_wait elapse fuel false 0 name w = Blocked.
Proof.
  revert w. induction fuel as [|fuel IH]; intros w H; [done|]. cbn. destruct (H 0) as [u Hu]. cbn in Hu. rewrite Hu. apply IH.
  intros n. destruct (H (n + 8)) as [u' Hu']. exists u'. unfold after in *. by rewrite Nat.iter_add in Hu'.
Qed.

(** [fleetctl destroy] has the flag [--no-block] the wrong way round: without it, the
    command only makes the calls, whatever the cluster does; with it, and no limit,
    the command does not end while the unit can still be read. *)
Theorem destroy_waits_iff_no_block fuel fl notFound v w :
  (fl.(NoBlock) = false → ∀ units,
     destroy_units elapse fuel fl notFound units 0 w = Done (destroy_all notFound units 0 w)) ∧
  (fl.(NoBlock) = true → fl.(BlockAttempts) = 0%Z → ∀ w1,
     api_DestroyUnit v.(SUName) w = (w1, Ok tt) → (∀ n, ∃ u, api_Unit v.(SUName) (after elapse n w1) = Ok (Some u)) →
     destroy_units elapse fuel fl notFound [v] 0 w = Blocked).
Proof.
  split; [intros; by apply destroy_no_wait|]. intros Hnb Hb w1 Hd H. cbn -[bool_decide]. rewrite Hd, Hnb, Hb. cbn.
  by rewrite destroy_wait_blocks.
Qed.

End bugs.

(** ** Commands on machines *)

Section machines.
Context `{MR : MapRange, A : ClientAPI W E}.

Lemma machine_cache_ID k ms w : machine_cache w !! k = Some ms → ms.(ID) = k.
Proof.
  unfold machine_cache. destruct (api_Machines w) as [l|]; [|done].
  enough (∀ m : gmap string MachineState, map_Forall (λ k ms, ms.(ID) = k) m → map_Forall (λ k ms, ms.(ID) = k) (foldl (λ m x, <[x.(ID) := x]> m) m l)) as H.
  { apply (H ∅). apply map_Forall_empty. }
  induction l as [|x l IH]; intros m Hm; [done|]. apply IH. by apply map_Forall_insert_2.
Qed.

(** For units that run on no one machine, which is all a command has for global
    units, [cmdGlobalMachineState] runs nothing and reports success: [restart] and
    [status] leave global units alone. *)
Theorem cmdGlobalMachineState_noop t cmd (cache : option (gmap string MachineState)) units w :
  from_option (map_Forall (λ k ms, ms.(ID) = k)) True cache → Forall (λ u, u.(SUMachineID) = "") units →
  ∀ port file local remote, cmdGlobalMachineState file port local remote t cmd cache units w = Ok tt.
Proof.
  intros Hc Hu port file local remote. unfold cmdGlobalMachineState.
  assert (global_targets cache units w = ∅) as ->.
  { unfold global_targets. induction Hu as [|u units Hu _ IH]; [done|]. cbn. rewrite Hu.
    destruct (_ !! "") as [ms|] eqn:Hm; [|done]. assert (ms.(ID) = "") as ->; [|done].
    destruct cache; [by apply Hc|by apply machine_cache_ID in Hm]. }
  pose proof (range_perm t string ∅) as Hp. rewrite map_to_list_empty in Hp. apply Permutation_nil_r in Hp. by rewrite Hp.
Qed.

(** ** Listing units *)

Definition short_hash (us : SchemaUnitState) : Prop := us.(SSHash) ≠ "" ∧ String.length us.(SSHash) < 7.

Lemma listUnitsFields_panics key col us full w : listUnitsFields w key = Some col →
  (col us full = None ↔ key = "hash" ∧ full = false ∧ short_hash us).
Proof.
  unfold listUnitsFields, short_hash. repeat case_decide; intros [= <-]; subst; try (split; [done|intros (? & _); done]).
  cbv beta. case_decide; [naive_solver|]. destruct full; [naive_solver|]. case_bool_decide; naive_solver.
Qed.

(** [fleetctl list-units] with a column for the hash cuts it at seven bytes: the
    command panics exactly when it is to print the hash of a unit state that is
    shorter than that, but not empty. *)
Theorem runListUnits_panics flag noLegend full states cols w :
  flag ≠ "" → mapM (listUnitsFields w) (split_byte "," flag) = Some cols → api_UnitStates w = Ok states →
  (runListUnits flag noLegend full w = Fatal ↔
    "hash" ∈ split_byte "," flag ∧ full = false ∧ Exists short_hash states).
Proof.
  intros Hflag Hcols Hst. unfold runListUnits, run_list. rewrite decide_False by done. rewrite Hcols, Hst.
  apply mapM_Some in Hcols.
  assert (∀ us, join_byte tab <$> mapM (λ col : column SchemaUnitState, col us full) cols = None ↔
    "hash" ∈ split_byte "," flag ∧ full = false ∧ short_hash us) as Hrow.
  { intros us. rewrite fmap_None, mapM_None. split.
    - intros (col & Hc & Hn)%Exists_exists. apply list_elem_of_lookup in Hc as [i Hi].
      destruct (Forall2_lookup_r _ _ _ _ _ Hcols Hi) as (key & Hk & Hf). destruct (proj1 (listUnitsFields_panics _ _ _ _ _ Hf) Hn) as (Hkey & Hn').
      subst key. split; [by eapply list_elem_of_lookup_2|done].
    - intros ([i Hi]%list_elem_of_lookup & Hn). destruct (Forall2_lookup_l _ _ _ _ _ Hcols Hi) as (col & Hc & Hf).
      apply Exists_exists. exists col. split; [by eapply list_elem_of_lookup_2|]. by apply (listUnitsFields_panics _ _ _ _ _ Hf). }
  transitivity (mapM (λ x, join_byte tab <$> mapM (λ col : column SchemaUnitState, col x full) cols) states = None).
  { by destruct (mapM _ states). }
  rewrite mapM_None, !Exists_exists. setoid_rewrite Hrow. naive_solver.
Qed.
End machines.

(** ** Examples: a cluster in memory *)

Section examples.
#[local] Existing Instances canonical_range merge_go_sort api_digest.
#[local] Instance ex_ctl : ClientAPI FakeRegistry (client_error string) := fake_api [].

(** In each slot, the cluster brings every job to its target state. *)
Definition settle (j : Job) : Job := mkJob j.(JName) (Some j.(JTargetState)) j.(JTargetState) "m1" j.(JUnit).

Definition ex_elapse (f : FakeRegistry) : FakeRegistry := with_jobs (settle <$> f.(fr_jobs)) f.

Definition ex_race (f : FakeRegistry) : bool := true.

Lemma ex_elapse_wf f : cl_wf (ClientLaws := fake_client_laws []) f → cl_wf (ClientLaws := fake_client_laws []) (ex_elapse f).
Proof. intros Hf k j. cbn. intros Hj. apply lookup_fmap_Some in Hj as (j' & <- & Hj'). apply (Hf k j' Hj'). Qed.

Definition ex_disk (file : string) : local_file := if decide (file = "web.service") then FileText "[Unit]" else NoFile.

Definition ex_active (name : string) : UnitState := mkUnitState "loaded" "active" "running" "m1" "" name.

(** No unit yet; and a unit that is launched. *)
Definition ex_none : FakeRegistry := fr_SetUnitStates [ex_active "web.service"] NewFakeRegistry.

Definition ex_launched : FakeRegistry :=
  fr_SetJobs [mkJob "web.service" (Some JobStateLaunched) JobStateLaunched "m1" empty_UnitFile] ex_none.

Lemma ex_none_wf : cl_wf (ClientLaws := fake_client_laws []) ex_none.
Proof. apply map_Forall_empty. Qed.

Lemma ex_launched_wf : cl_wf (ClientLaws := fake_client_laws []) ex_launched.
Proof. apply map_Forall_singleton. reflexivity. Qed.

Definition ex_flags (cmd : string) (replace noBlock : bool) (attempts : Z) : ctl_flags := mkCtlFlags cmd replace noBlock attempts.

Definition ex_web (current desired machID : string) : SchemaUnit := mkSchemaUnit current desired machID "web.service" [].

Example ex_start :
  match runStartUnit ex_disk ex_elapse ex_race 8 [] (ex_flags "start" false false 1) ["web"] ex_none with
  | Done (w, 0%Z) => api_Unit "web.service" w = Ok (Some (ex_web "launched" "launched" "m1"))
  | _ => False
  end.
Proof. vm_compute. reflexivity. Qed.

(** A settled cluster does not change. *)
Lemma ex_settled f n : ex_elapse (ex_elapse f) = ex_elapse f → 0 < n → after ex_elapse n f = ex_elapse f.
Proof. intros Hf Hn. destruct n as [|n]; [lia|]. clear Hn. induction n as [|n IH]; [done|]. cbn in *. by rewrite IH. Qed.

Definition ex_stopping : FakeRegistry := (api_SetUnitTargetState "web.service" JobStateLoaded ex_launched).1.

Lemma waitForUnitStates_ends_witness :
  ∃ n r, waitForUnitStates ex_elapse ex_race 0 ["web.service"] JobStateLoaded 2 ex_stopping = Done (after ex_elapse n ex_stopping, r) ∧ n ≤ 16.
Proof.
  destruct (waitForUnitStates_ends ex_elapse ex_race 0 ["web.service"] JobStateLoaded 2 ex_stopping) as (n & r & H & Hn & _);
    [reflexivity|]. exists n, r. split; [exact H|exact Hn].
Defined.

Lemma waitForUnitStates_live_witness :
  ∃ n, waitForUnitStates ex_elapse ex_race 3 ["web.service"] JobStateLoaded 0 ex_stopping = Done (after ex_elapse n ex_stopping, Ok tt) ∧ n ≤ 3.
Proof.
  apply (waitForUnitStates_live ex_elapse ex_race 3 ["web.service"] JobStateLoaded 0 ex_stopping 1); [vm_compute; lia|].
  intros name s Hin Hs. apply list_elem_of_singleton in Hin as ->. rewrite ex_settled by (lia || reflexivity). vm_compute. reflexivity.
Defined.

Lemma runStartUnit_success_witness :
  ∃ w' triggered n, all_seen ex_elapse is_active (not_global triggered) n w'.
Proof.
  destruct (runStartUnit ex_disk ex_elapse ex_race 8 [] (ex_flags "start" false false 1) ["web"] ex_none) as [[w' code]| |] eqn:Hrun;
    [|vm_compute in Hrun; discriminate..].
  assert (code = 0%Z) as -> by (vm_compute in Hrun; congruence).
  destruct (runStartUnit_success (CL := fake_client_laws []) ex_disk ex_elapse ex_race ex_elapse_wf 8 [] (ex_flags "start" false false 1) ["web"]
    ex_none w' ex_none_wf) as (w1 & n1 & w2 & triggered & n2 & n3 & _ & _ & _ & _ & H & _); [discriminate|reflexivity|exact Hrun|].
  exists (after ex_elapse n2 w2), triggered, n3. exact H.
Defined.

Lemma setTargetStateOfUnits_spec_witness : is_Some (cl_view (ClientLaws := fake_client_laws []) ex_launched "web.service").
Proof.
  pose proof (setTargetStateOfUnits_spec (CL := fake_client_laws []) ["web.service"] JobStateLoaded ex_launched ex_launched_wf) as H.
  destruct (setTargetStateOfUnits ["web.service"] JobStateLoaded ex_launched) as [w' r] eqn:Hr.
  assert (∃ us, r = Ok us) as [us ->] by (vm_compute in Hr; injection Hr as <- <-; eexists; reflexivity).
  apply H. left.
Defined.

Lemma create_units_safe_witness :
  cl_view (ClientLaws := fake_client_laws []) (create_units ex_disk [] (ex_flags "start" false false 1) ["web"] ex_launched).1 "web.service" =
  Some (ex_web "launched" "launched" "m1").
Proof.
  pose proof (create_units_safe (CL := fake_client_laws []) ex_disk [] (ex_flags "start" false false 1) ["web"] ex_launched ex_launched_wf) as H.
  destruct (create_units ex_disk [] (ex_flags "start" false false 1) ["web"] ex_launched) as [w' r].
  destruct H as (_ & H & _). destruct (H "web.service" (ex_web "launched" "launched" "m1")) as [Hw|(_ & Hr & _)];
    [vm_compute; reflexivity|exact Hw|discriminate Hr].
Defined.

Lemma restart_waits_in_vain_witness :
  restart_units ex_elapse ex_race 100 (ex_flags "" false false 0) [ex_web "launched" "launched" "m1"] ex_launched = Blocked.
Proof.
  apply (restart_waits_in_vain ex_elapse ex_race (ex_flags "" false false 0) (ex_web "launched" "launched" "m1") [] ex_launched ex_stopping).
  1-4: vm_compute; reflexivity.
  intros s Hs. rewrite ex_settled by (lia || reflexivity). vm_compute. reflexivity.
Defined.

Lemma destroy_waits_iff_no_block_witness :
  destroy_units ex_elapse 0 (ex_flags "" false false 0) (λ _, false) [ex_web "launched" "launched" "m1"] 0 ex_launched =
  Done (destroy_all (λ _, false) [ex_web "launched" "launched" "m1"] 0 ex_launched).
Proof. apply (destroy_waits_iff_no_block ex_elapse 0 _ (λ _, false) (ex_web "" "" "") ex_launched). reflexivity. Defined.

Lemma cmdGlobalMachineState_noop_witness :
  cmdGlobalMachineState None 22 (λ _, 1%Z) (λ _ _, 1%Z) [] "restart" None [ex_web "" "launched" ""] ex_launched = Ok tt.
Proof. apply cmdGlobalMachineState_noop; [exact I|repeat constructor]. Defined.

Lemma runListUnits_panics_witness :
  runListUnits "unit,hash" false false (fr_SetUnitStates [mkUnitState "loaded" "active" "running" "m1" "abc" "web.service"] ex_none) = Fatal.
Proof.
  eapply (runListUnits_panics "unit,hash"); [discriminate|reflexivity|vm_compute; reflexivity|].
  split; [vm_compute; right; left|]. split; [reflexivity|]. constructor. split; [discriminate|vm_compute; lia].
Defined.

End examples.
