(* ===== verification/HttpClient.v ===== *)
(** * The API over HTTP: the server's routes and the client

    [api/mux.go], [api/server.go] and [api/discovery.go] send a request to its resource;
    [schema/v1-gen.go] makes the requests and [client/http.go] the client of them.  A
    request reaches the server as it was sent, and what is encoded in JSON is decoded
    as it was; requests with query parameters other than those of [request], which the
    server does not read, are not told apart.  Paths are clean: for others [net/http]
    answers with a redirection before the routes are looked at. *)

From stdpp Require Import base list gmap strings.
From Stdlib Require Import ZArith Lia Ascii.
From S2P Require Import Prelude GoStrings GoPath Pkg UnitFile Job Machine Schema Pagination Api Fleetctl.

(** ** [api/mux.go] *)

Inductive route :=
| DiscoveryRoute
| MachinesRoute
| StateRoute (base : string)
| UnitsRoute (base : string)
| PrefixRoute
| MetricsRoute
| BaseRoute.

(** A resource at a path and at the paths below it. *)
Definition at_or_below (base p : string) : bool := bool_decide (p = base) || has_prefix (base +:+ "/") p.

Definition prefix_route (prefix p : string) : option route :=
  if decide (p = prefix +:+ "/discovery") then Some DiscoveryRoute
  else if decide (p = prefix +:+ "/machines") then Some MachinesRoute
  else if at_or_below (prefix +:+ "/state") p then Some (StateRoute (prefix +:+ "/state"))
  else if at_or_below (prefix +:+ "/units") p then Some (UnitsRoute (prefix +:+ "/units"))
  else if decide (p = prefix) then Some PrefixRoute
  else None.

Definition find_route (p : string) : route :=
  match prefix_route "/v1-alpha" p with
  | Some r => r
  | None =>
      match prefix_route "/fleet/v1" p with
      | Some r => r
      | None => if decide (p = "/metrics") then MetricsRoute else BaseRoute
      end
  end.

Definition discovery_ServeHTTP (req : request) : response :=
  if bool_decide (req.(rq_Method) ≠ "GET") then sendError StatusBadRequest (Some (OnlyMethods ["GET"]))
  else Respond StatusOK DiscoveryBody.

Definition baseHandler (req : request) : response :=
  sendError (if bool_decide (req.(rq_Path) = "/") then StatusMethodNotAllowed else StatusNotFound) None.

Section server.
Context `{MR : MapRange, DG : Digest} {Rg E : Type} `{CR : !ClientRegistry Rg E}.
Variable tokenLimit : Z.

(** [ops] is the decoded body of a request for machines. *)
Definition ServeMux (t : moment) (req : request) (ops : option (list machineMetadataOp)) (reg : Rg) : Rg * response :=
  match find_route req.(rq_Path) with
  | DiscoveryRoute => (reg, discovery_ServeHTTP req)
  | MachinesRoute => machines_ServeHTTP tokenLimit req ops reg
  | StateRoute base => (reg, state_ServeHTTP base tokenLimit req reg)
  | UnitsRoute base => units_ServeHTTP t base tokenLimit req reg
  | PrefixRoute => (reg, sendError StatusMethodNotAllowed None)
  | MetricsRoute => (reg, Respond StatusOK MetricsBody)
  | BaseRoute => (reg, baseHandler req)
  end.

(** [api/server.go]: before the server is available, and after, every answer is 503. *)
Definition Server_ServeHTTP (available : bool) (t : moment) (req : request) (ops : option (list machineMetadataOp)) (reg : Rg)
  : Rg * response :=
  if available then ServeMux t req ops reg else (reg, sendError StatusServiceUnavailable None).

(** ** [schema/v1-gen.go] *)

(** A status that is not of success; a connection that breaks; a body of another kind;
    a call the client does not have, which is a panic; a list without end. *)
Inductive http_error := HttpStatus (code : Z) | HttpBroken | HttpDecode | HttpNil | HttpEndless.

(** [googleapi.CheckResponse]. *)
Definition CheckResponse (r : response) : res http_error body :=
  match r with
  | PanicResponse => Err HttpBroken
  | Respond code b => if bool_decide (200 ≤ code ≤ 299)%Z then Ok b else Err (HttpStatus code)
  end.

Definition call_path (p : string) : string := "/fleet/v1/" +:+ p.

Definition simple_request (method p : string) (token : list string) : request :=
  mkRequest method (call_path p) [] token [] [] None.

Definition MachinesList_Do (t : moment) (token : list string) (reg : Rg) : res http_error (list SchemaMachine * string) :=
  match CheckResponse (ServeMux t (simple_request "GET" "machines" token) None reg).2 with
  | Ok (MachinePageBody ms next) => Ok (ms, next)
  | Ok _ => Err HttpDecode
  | Err e => Err e
  end.

Definition UnitStateGet_Do (t : moment) (unitName : string) (reg : Rg) : res http_error SchemaUnitState :=
  match CheckResponse (ServeMux t (simple_request "GET" ("state/" +:+ unitName) []) None reg).2 with
  | Ok (UnitStateBody us) => Ok us
  | Ok _ => Err HttpDecode
  | Err e => Err e
  end.

Definition UnitStateList_Do (t : moment) (token : list string) (reg : Rg) : res http_error (list SchemaUnitState * string) :=
  match CheckResponse (ServeMux t (simple_request "GET" "state" token) None reg).2 with
  | Ok (UnitStatePageBody us next) => Ok (us, next)
  | Ok _ => Err HttpDecode
  | Err e => Err e
  end.

Definition UnitsDelete_Do (t : moment) (unitName : string) (reg : Rg) : Rg * res http_error unit :=
  let '(reg, r) := ServeMux t (simple_request "DELETE" ("units/" +:+ unitName) []) None reg in
  (reg, match CheckResponse r with Ok _ => Ok tt | Err e => Err e end).

Definition UnitsGet_Do (t : moment) (unitName : string) (reg : Rg) : res http_error SchemaUnit :=
  match CheckResponse (ServeMux t (simple_request "GET" ("units/" +:+ unitName) []) None reg).2 with
  | Ok (UnitBody u) => Ok u
  | Ok _ => Err HttpDecode
  | Err e => Err e
  end.

Definition UnitsList_Do (t : moment) (token : list string) (reg : Rg) : res http_error (list SchemaUnit * string) :=
  match CheckResponse (ServeMux t (simple_request "GET" "units" token) None reg).2 with
  | Ok (UnitPageBody us next) => Ok (us, next)
  | Ok _ => Err HttpDecode
  | Err e => Err e
  end.

Definition UnitsSet_Do (t : moment) (unitName : string) (u : SchemaUnit) (reg : Rg) : Rg * res http_error unit :=
  let req := mkRequest "PUT" (call_path ("units/" +:+ unitName)) ["application/json"] [] [] [] (Some u) in
  let '(reg, r) := ServeMux t req None reg in
  (reg, match CheckResponse r with Ok _ => Ok tt | Err e => Err e end).

(** ** [client/http.go] *)

(** The loop over the pages, with fuel. *)
Fixpoint all_pages {X} (fetch : list string → res http_error (list X * string)) (fuel : nat) (token : list string)
  : res http_error (list X) :=
  match fuel with
  | 0 => Err HttpEndless
  | S fuel =>
      match fetch token with
      | Err e => Err e
      | Ok (items, next) =>
          if bool_decide (0 < String.length next) then
            match all_pages fetch fuel [next] with
            | Err e => Err e
            | Ok rest => Ok (items ++ rest)
            end
          else Ok items
      end
  end.

(** More pages than the 16 bits of a page number. *)
Definition page_fuel : nat := Z.to_nat 65536.

Definition HTTPClient_Machines (t : moment) (reg : Rg) : res http_error (list MachineState) :=
  match all_pages (λ token, MachinesList_Do t token reg) page_fuel [] with
  | Err e => Err e
  | Ok ms => Ok (MapSchemaToMachineStates ms)
  end.

Definition HTTPClient_Units (t : moment) (reg : Rg) : res http_error (list SchemaUnit) :=
  all_pages (λ token, UnitsList_Do t token reg) page_fuel [].

Definition HTTPClient_UnitStates (t : moment) (reg : Rg) : res http_error (list SchemaUnitState) :=
  all_pages (λ token, UnitStateList_Do t token reg) page_fuel [].

Definition is404 (e : http_error) : bool :=
  match e with HttpStatus code => bool_decide (code = StatusNotFound) | _ => false end.

Definition HTTPClient_Unit (t : moment) (name : string) (reg : Rg) : res http_error (option SchemaUnit) :=
  match UnitsGet_Do t name reg with
  | Ok u => Ok (Some u)
  | Err e => if is404 e then Ok None else Err e
  end.

Definition HTTPClient_UnitState (t : moment) (name : string) (reg : Rg) : res http_error (option SchemaUnitState) :=
  match UnitStateGet_Do t name reg with
  | Ok us => Ok (Some us)
  | Err e => if is404 e then Ok None else Err e
  end.

Definition HTTPClient_DestroyUnit (t : moment) (name : string) (reg : Rg) : Rg * res http_error unit := UnitsDelete_Do t name reg.

Definition HTTPClient_CreateUnit (t : moment) (u : SchemaUnit) (reg : Rg) : Rg * res http_error unit :=
  UnitsSet_Do t u.(SUName) u reg.

Definition HTTPClient_SetUnitTargetState (t : moment) (name target : string) (reg : Rg) : Rg * res http_error unit :=
  UnitsSet_Do t name (mkSchemaUnit "" target "" name []) reg.

(** The client as commands see it; it does not have the calls on metadata. *)
Definition HTTPClient_API (t : moment) : ClientAPI Rg http_error := {|
  api_Machines := HTTPClient_Machines t;
  api_SetMachineMetadata _ _ _ reg := (reg, Err HttpNil);
  api_DeleteMachineMetadata _ _ reg := (reg, Err HttpNil);
  api_Unit := HTTPClient_Unit t; api_Units := HTTPClient_Units t;
  api_UnitState := HTTPClient_UnitState t; api_UnitStates := HTTPClient_UnitStates t;
  api_SetUnitTargetState := HTTPClient_SetUnitTargetState t;
  api_CreateUnit := HTTPClient_CreateUnit t; api_DestroyUnit := HTTPClient_DestroyUnit t |}.

End server.

Lemma page_fuel_S : ∃ n, page_fuel = S n ∧ Z.of_nat n = 65535%Z.
Proof. exists (Z.to_nat 65535). unfold page_fuel. split; [|lia]. rewrite <- Z2Nat.inj_succ by lia. done. Qed.

#[local] Opaque page_fuel.

(** ** Pages *)

Section pages.
#[local] Open Scope Z_scope.

(** What the server answers for a page of [all]. *)
Definition server_page {X Y} (f : X → Y) (all : list X) (limit : Z) (token : list string) : res http_error (list Y * string) :=
  match request_token token limit with
  | Err _ => Err (HttpStatus StatusBadRequest)
  | Ok tok =>
      match page_slice all tok with
      | None => Err HttpBroken
      | Some (items, next) => Ok (f <$> items, next_field next)
      end
  end.

Lemma Encode_ne tok : (0 < String.length (Encode tok))%nat.
Proof. unfold Encode, le16. cbn. lia. Qed.

Lemma page_slice_next {X} (all : list X) tok items next : page_slice all tok = Some (items, Some next) → next = Next tok.
Proof. unfold page_slice. repeat case_match; naive_solver. Qed.

Lemma request_token_Encode limit p : uint16_range limit → uint16_range p →
  request_token [Encode (mkPageToken limit p)] limit = if decide (p = 0) then Err PageZero else Ok (mkPageToken limit p).
Proof.
  intros Hl Hp. unfold request_token, findNextPageToken. rewrite decode_Encode by done. unfold validatePageToken. cbn [Limit Page].
  rewrite bool_decide_eq_false_2 by (intros []; done). case_decide; [by rewrite bool_decide_eq_true_2|by rewrite bool_decide_eq_false_2].
Qed.

Lemma all_pages_S {X} fetch fuel token : all_pages (X := X) fetch (S fuel) token =
  match fetch token with
  | Err e => Err e
  | Ok (items, next) =>
      if bool_decide (0 < String.length next)%nat then
        match all_pages fetch fuel [next] with Err e => Err e | Ok rest => Ok (items ++ rest) end
      else Ok items
  end.
Proof. reflexivity. Qed.

(** The number of the page grows, and after the last the token is refused. *)
Lemma all_pages_end {X Y} (f : X → Y) all limit fuel p token : uint16_range limit → 1 ≤ p < 65536 → 65536 < Z.of_nat fuel + p →
  request_token token limit = Ok (mkPageToken limit p) → all_pages (server_page f all limit) fuel token ≠ Err HttpEndless.
Proof.
  intros Hl. revert p token. induction fuel as [|fuel IH]; intros p token Hp Hf Ht; [lia|].
  rewrite all_pages_S. unfold server_page at 1. rewrite Ht.
  destruct (page_slice all _) as [[items [next|]]|] eqn:Hs; [|done..]. apply page_slice_next in Hs as ->. unfold Next. cbn [next_field Limit Page].
  rewrite bool_decide_eq_true_2 by apply Encode_ne. set (tok := mkPageToken limit (uint16 (p + 1))).
  assert (all_pages (server_page f all limit) fuel [Encode tok] ≠ Err HttpEndless) as Hn.
  { destruct (decide (p = 65535)) as [->|Hne].
    - destruct fuel as [|fuel]; [lia|]. rewrite all_pages_S. unfold server_page at 1. subst tok.
      by rewrite request_token_Encode by (done || (unfold uint16_range, uint16; lia)).
    - subst tok. rewrite uint16_small by (unfold uint16_range; lia). apply (IH (p + 1)); [lia..|].
      rewrite request_token_Encode by (done || (unfold uint16_range; lia)). by rewrite decide_False by lia. }
  by destruct (all_pages _ fuel _) as [|[]].
Qed.

Lemma all_pages_complete {X Y} (f : X → Y) all limit fuel p token :
  0 < limit → 0 ≤ p → Z.of_nat (length all) + limit < 65536 → p * limit ≤ Z.of_nat (length all) →
  (length all < fuel + Z.to_nat p)%nat → request_token token limit = Ok (mkPageToken limit (p + 1)) →
  all_pages (server_page f all limit) (S fuel) token = Ok (f <$> drop (Z.to_nat (p * limit)) all).
Proof.
  intros Hl Hp Hb. revert p token Hp. induction fuel as [|fuel IH]; intros p token Hp Hle Hf Ht; [nia|].
  assert ((p + 1) * limit < 65536) as Hr by nia.
  rewrite all_pages_S. unfold server_page at 1. rewrite Ht, page_slice_at by done. case_decide as Hstop.
  - destruct (decide (Z.to_nat (p * limit) < length all)%nat) as [Hs|Hs]; cbn [next_field].
    + rewrite bool_decide_eq_true_2 by apply Encode_ne.
      assert (uint16_range (p + 2)) as Hr2 by (unfold uint16_range; nia). rewrite uint16_small by done.
      replace (p + 2) with (p + 1 + 1) in * by lia.
      rewrite (IH (p + 1)); [|lia|nia|lia|].
      2: { rewrite request_token_Encode by (done || (unfold uint16_range; lia)). by rewrite decide_False by lia. }
      rewrite <- fmap_app. do 2 f_equal.
      rewrite <- (take_drop (Z.to_nat ((p + 1) * limit) - Z.to_nat (p * limit)) (drop (Z.to_nat (p * limit)) all)) at 2.
      f_equal. rewrite drop_drop. f_equal. nia.
    + cbn. do 2 f_equal. rewrite !drop_ge by lia. by rewrite take_nil.
  - cbn. do 2 f_equal. rewrite take_ge; [done|]. rewrite length_drop. lia.
Qed.
End pages.

(** ** The client against the server *)

Section client.
Context `{MR : MapRange, DG : Digest} {Rg E : Type} `{CR : !ClientRegistry Rg E}.
Variable tokenLimit : Z.

Lemma serve_units t token (reg : Rg) :
  ServeMux tokenLimit t (simple_request "GET" "units" token) None reg = units_list tokenLimit (simple_request "GET" "units" token) reg.
Proof. reflexivity. Qed.

Lemma serve_states t token (reg : Rg) :
  ServeMux tokenLimit t (simple_request "GET" "state" token) None reg = (reg, state_list tokenLimit (simple_request "GET" "state" token) reg).
Proof. reflexivity. Qed.

Lemma serve_machines t token (reg : Rg) :
  ServeMux tokenLimit t (simple_request "GET" "machines" token) None reg = (reg, machines_list tokenLimit (simple_request "GET" "machines" token) reg).
Proof. reflexivity. Qed.

Lemma UnitsList_page t token (reg : Rg) all : RegistryClient_Units reg = Ok all →
  UnitsList_Do tokenLimit t token reg = server_page id all tokenLimit token.
Proof.
  intros Hall. unfold UnitsList_Do, server_page. rewrite serve_units.
  unfold units_list, extractUnitPageData. cbn [rq_nextPageToken simple_request]. rewrite Hall.
  destruct (request_token token tokenLimit) as [tok|e]; [|done]. destruct (page_slice all tok) as [[items next]|]; [|done].
  cbn. by rewrite list_fmap_id.
Qed.

Lemma filter_states_all states : filter_states "" "" states = states.
Proof. unfold filter_states. induction states as [|us l IH]; [done|]. rewrite filter_cons_True by (split; by left). by rewrite IH. Qed.

Lemma UnitStateList_page t token (reg : Rg) all : RegistryClient_UnitStates reg = Ok all →
  UnitStateList_Do tokenLimit t token reg = server_page id all tokenLimit token.
Proof.
  intros Hall. unfold UnitStateList_Do, server_page. rewrite serve_states. cbn [snd].
  unfold state_list, extractUnitStatePageData. cbn [rq_nextPageToken rq_machineID rq_unitName simple_request default head].
  rewrite Hall, filter_states_all.
  destruct (request_token token tokenLimit) as [tok|e]; [|done]. destruct (page_slice all tok) as [[items next]|]; [|done].
  cbn. by rewrite list_fmap_id.
Qed.

Lemma MachinesList_page t token (reg : Rg) all : cr_Machines reg = Ok all →
  MachinesList_Do tokenLimit t token reg = server_page MapMachineStateToSchema all tokenLimit token.
Proof.
  intros Hall. unfold MachinesList_Do, server_page. rewrite serve_machines. cbn [snd].
  unfold machines_list, extractMachinePage. cbn [rq_nextPageToken simple_request]. rewrite Hall.
  destruct (request_token token tokenLimit) as [tok|e]; [|done]. by destruct (page_slice all tok) as [[items next]|].
Qed.

Lemma all_pages_ext {X} fetch1 fetch2 fuel token : (∀ token, fetch1 token = fetch2 token) →
  all_pages (X := X) fetch1 fuel token = all_pages fetch2 fuel token.
Proof. intros H. revert token. induction fuel as [|fuel IH]; intros token; [done|]. cbn [all_pages]. rewrite H.
  destruct (fetch2 token) as [[items next]|]; [|done]. by rewrite IH. Qed.

Lemma first_page fuel {X Y} (f : X → Y) all : (0 < tokenLimit)%Z → (Z.of_nat (length all) + tokenLimit < 65536)%Z → length all < fuel →
  all_pages (server_page f all tokenLimit) (S fuel) [] = Ok (f <$> all).
Proof. intros Hl Hb Hf. rewrite (all_pages_complete f all tokenLimit fuel 0) by (done || lia). done. Qed.

(** C11: the lists of units and of their states that the HTTP client has are those of the
    client over the registry that the server has, however they are cut into pages, and so is
    the list of machines but for their capabilities and versions, which are not sent; while
    each list fits with one page more in 16 bits. *)
Theorem http_lists_equal t (reg : Rg) units states machines :
  (0 < tokenLimit)%Z → RegistryClient_Units reg = Ok units → RegistryClient_UnitStates reg = Ok states → cr_Machines reg = Ok machines →
  (Z.of_nat (length units) + tokenLimit < 65536)%Z → (Z.of_nat (length states) + tokenLimit < 65536)%Z →
  (Z.of_nat (length machines) + tokenLimit < 65536)%Z →
  HTTPClient_Units tokenLimit t reg = Ok units ∧ HTTPClient_UnitStates tokenLimit t reg = Ok states ∧
  HTTPClient_Machines tokenLimit t reg =
    Ok ((λ ms, mkMachineState ms.(ID) ms.(PublicIP) ms.(Metadata) ∅ "") <$> machines).
Proof.
  intros Hl Hu Hs Hm Hbu Hbs Hbm. destruct page_fuel_S as (n & Hn & Hnz).
  unfold HTTPClient_Units, HTTPClient_UnitStates, HTTPClient_Machines. rewrite Hn.
  rewrite (all_pages_ext _ _ (S n) [] (λ token, UnitsList_page t token reg units Hu)).
  rewrite (all_pages_ext _ _ (S n) [] (λ token, UnitStateList_page t token reg states Hs)).
  rewrite (all_pages_ext _ _ (S n) [] (λ token, MachinesList_page t token reg machines Hm)).
  rewrite !first_page, !list_fmap_id by (done || lia). split; [done|]. split; [done|]. f_equal.
  unfold MapSchemaToMachineStates. rewrite <- list_fmap_compose. by apply list_fmap_ext.
Qed.

Lemma failing_pages {X} fetch token : (∀ token, ∃ e, fetch token = Err e ∧ e ≠ HttpEndless) →
  all_pages (X := X) fetch page_fuel token ≠ Err HttpEndless.
Proof. intros H. destruct page_fuel_S as (n & -> & _), (H token) as (e & He & Hne). cbn. rewrite He. congruence. Qed.

Lemma served_pages {X Y} (f : X → Y) all fetch : uint16_range tokenLimit → (∀ token, fetch token = server_page f all tokenLimit token) →
  all_pages fetch page_fuel [] ≠ Err HttpEndless.
Proof.
  intros Hl H. destruct page_fuel_S as (n & -> & Hn). rewrite (all_pages_ext _ _ _ _ H). apply (all_pages_end f all tokenLimit (S n) 1); [done|lia..|done].
Qed.

(** The error of a client whose call failed in the server. *)
Definition http_failure (e : client_error E) : http_error :=
  match e with ClientPanic => HttpBroken | _ => HttpStatus StatusInternalServerError end.

Lemma CheckResponse_failure e : CheckResponse (client_failure e) = Err (http_failure e).
Proof. by destruct e. Qed.

Lemma http_failure_ends e : http_failure e ≠ HttpEndless.
Proof. by destruct e. Qed.

(** Listing over HTTP ends: the client follows at most the 65535 page numbers there
    are, whatever the server has, whether or not its calls fail. *)
Theorem http_lists_end t (reg : Rg) : uint16_range tokenLimit →
  HTTPClient_Units tokenLimit t reg ≠ Err HttpEndless ∧ HTTPClient_UnitStates tokenLimit t reg ≠ Err HttpEndless ∧
  HTTPClient_Machines tokenLimit t reg ≠ Err HttpEndless.
Proof.
  intros Hl. split; [|split].
  - destruct (RegistryClient_Units reg) as [all|e] eqn:Hr; [apply (served_pages id all); [done|intros; by apply UnitsList_page]|].
    apply failing_pages. intros token. unfold UnitsList_Do. rewrite serve_units. unfold units_list. rewrite Hr.
    destruct (request_token _ _); [|by eexists]. cbn [snd]. rewrite CheckResponse_failure. eauto using http_failure_ends.
  - destruct (RegistryClient_UnitStates reg) as [all|e] eqn:Hr; [apply (served_pages id all); [done|intros; by apply UnitStateList_page]|].
    apply failing_pages. intros token. unfold UnitStateList_Do. rewrite serve_states. unfold state_list. rewrite Hr.
    destruct (request_token _ _); [|by eexists]. cbn [snd]. rewrite CheckResponse_failure. eauto using http_failure_ends.
  - assert (all_pages (λ token, MachinesList_Do tokenLimit t token reg) page_fuel [] ≠ Err HttpEndless) as H.
    { destruct (cr_Machines reg) as [all|e] eqn:Hr; [apply (served_pages MapMachineStateToSchema all); [done|intros; by apply MachinesList_page]|].
      apply failing_pages. intros token. unfold MachinesList_Do. rewrite serve_machines. unfold machines_list. rewrite Hr.
      destruct (request_token _ _); by eexists. }
    unfold HTTPClient_Machines. by destruct (all_pages _ _ _) as [|[]].
Qed.

Lemma units_item name : name ≠ "" → has_byte "/" name = false → isItemPath "/fleet/v1/units" ("/fleet/v1/units/" +:+ name) = Some name.
Proof. intros Hne Hs. apply isItemPath_item; [done..|]. done. Qed.

Lemma serve_unit t m ct o name (reg : Rg) : name ≠ "" → has_byte "/" name = false →
  let req := mkRequest m (call_path ("units/" +:+ name)) ct [] [] [] o in
  ServeMux tokenLimit t req None reg =
  if bool_decide (m = "GET") then units_get name reg
  else if bool_decide (m = "DELETE") then units_destroy name reg
  else if bool_decide (m = "PUT") then units_set t req name reg
  else (reg, sendError StatusMethodNotAllowed (Some (OnlyMethods ["GET"; "PUT"; "DELETE"]))).
Proof.
  intros Hne Hs req. change (ServeMux tokenLimit t req None reg) with (units_ServeHTTP t "/fleet/v1/units" tokenLimit req reg).
  unfold units_ServeHTTP. change (isCollectionPath "/fleet/v1/units" (rq_Path req)) with false. cbv iota.
  change (rq_Path req) with ("/fleet/v1/units/" +:+ name). by rewrite units_item.
Qed.
Definition lift_http {B} (r : res (client_error E) B) : res http_error B :=
  match r with Ok b => Ok b | Err e => Err (http_failure e) end.

Lemma serve_set t name (u : SchemaUnit) (reg : Rg) : u.(SUName) = name → ValidateName name = Ok tt →
  UnitsSet_Do tokenLimit t name u reg =
  match RegistryClient_Unit name reg with
  | Err e => (reg, Err (http_failure e))
  | Ok eu =>
      match decide_set t u eu with
      | SetFail code _ => (reg, if bool_decide (200 ≤ code ≤ 299)%Z then Ok tt else Err (HttpStatus code))
      | SetCreate => let '(reg, r) := RegistryClient_CreateUnit u reg in (reg, lift_http r)
      | SetUpdate => let '(reg, r) := RegistryClient_SetUnitTargetState name u.(SUDesiredState) reg in (reg, lift_http r)
      end
  end.
Proof.
  intros Hn Hval. destruct (ValidateName_good name Hval) as (Hne & _ & _ & Hs). unfold UnitsSet_Do.
  rewrite serve_unit by done. cbn [bool_decide decide_rel]. change (bool_decide ("PUT" = "GET")) with false.
  change (bool_decide ("PUT" = "DELETE")) with false. change (bool_decide ("PUT" = "PUT")) with true. cbv iota.
  unfold units_set. change (validateContentType _) with (@Ok api_error _ tt). cbv iota. cbn [rq_unit].
  unfold with_name. rewrite (bool_decide_eq_false_2 (SUName u = "")) by congruence. cbv zeta.
  rewrite Hn, bool_decide_eq_false_2 by auto. rewrite Hval.
  destruct (RegistryClient_Unit name reg) as [eu|e]; [|by rewrite CheckResponse_failure].
  destruct (decide_set t u eu) as [code e| |]; cbn -[CheckResponse].
  - cbn. by case_bool_decide.
  - unfold create. destruct (RegistryClient_CreateUnit u reg) as [reg' [[]|e]]; [done|]. by rewrite CheckResponse_failure.
  - unfold update. destruct (RegistryClient_SetUnitTargetState name _ reg) as [reg' [[]|e]]; [done|]. by rewrite CheckResponse_failure.
Qed.

(** A template is never to be anything but inactive. *)
Definition template_active (name target : string) : bool :=
  match NewUnitNameInfo name with Some un => IsTemplate un | None => false end && bool_decide (target ≠ JobStateInactive).

(** C10: for a unit with a valid name, the calls of the HTTP client do what those of the
    client over the server's registry do, and an error of it is a status 500 or a broken
    connection; except that setting the target state of a unit that does not exist is
    a conflict, and of a template a bad request; that destroying a unit that does not
    exist is not found; and that a unit that is new is checked first. *)
Theorem http_unit_calls t name (reg : Rg) : ValidateName name = Ok tt →
  HTTPClient_Unit tokenLimit t name reg = lift_http (RegistryClient_Unit name reg) ∧
  (∀ target, target ≠ "" →
     HTTPClient_SetUnitTargetState tokenLimit t name target reg =
     match RegistryClient_Unit name reg with
     | Err e => (reg, Err (http_failure e))
     | Ok None => (reg, Err (HttpStatus StatusConflict))
     | Ok (Some _) =>
         if template_active name target then (reg, Err (HttpStatus StatusBadRequest))
         else let '(reg, r) := RegistryClient_SetUnitTargetState name target reg in (reg, lift_http r)
     end) ∧
  HTTPClient_DestroyUnit tokenLimit t name reg =
    match RegistryClient_Unit name reg with
    | Err e => (reg, Err (http_failure e))
    | Ok None => (reg, Err (HttpStatus StatusNotFound))
    | Ok (Some _) => let '(reg, r) := RegistryClient_DestroyUnit name reg in (reg, lift_http r)
    end ∧
  (∀ u, u.(SUName) = name → u.(SUOptions) ≠ [] → RegistryClient_Unit name reg = Ok None →
     HTTPClient_CreateUnit tokenLimit t u reg =
     if is_ok (ValidateOptions t u.(SUOptions)) then let '(reg, r) := RegistryClient_CreateUnit u reg in (reg, lift_http r)
     else (reg, Err (HttpStatus StatusBadRequest))).
Proof.
  intros Hval. destruct (ValidateName_good name Hval) as (Hne & _ & _ & Hs). split; [|split; [|split]].
  - unfold HTTPClient_Unit, UnitsGet_Do, simple_request. rewrite serve_unit by done. change (bool_decide ("GET" = "GET")) with true. cbv iota.
    unfold units_get. destruct (RegistryClient_Unit name reg) as [[u|]|e]; [done..|]. cbn [snd]. rewrite CheckResponse_failure. by destruct e.
  - intros target Ht. unfold HTTPClient_SetUnitTargetState. rewrite serve_set by done.
    destruct (RegistryClient_Unit name reg) as [[u|]|e]; [|done..]. unfold decide_set. cbn [SUOptions SUName SUDesiredState].
    rewrite (bool_decide_eq_true_2 (length [] = 0)) by done. rewrite andb_false_r.
    rewrite (bool_decide_eq_false_2 (String.length target = 0)) by (by destruct target).
    unfold template_active. by destruct (_ && _).
  - unfold HTTPClient_DestroyUnit, UnitsDelete_Do, simple_request. rewrite serve_unit by done.
    change (bool_decide ("DELETE" = "GET")) with false. change (bool_decide ("DELETE" = "DELETE")) with true. cbv iota.
    unfold units_destroy. destruct (RegistryClient_Unit name reg) as [[u|]|e]; [|done|by rewrite CheckResponse_failure].
    destruct (RegistryClient_DestroyUnit name reg) as [reg' [[]|e]]; [done|]. by rewrite CheckResponse_failure.
  - intros u Hn Ho Hu. unfold HTTPClient_CreateUnit. rewrite Hn, serve_set, Hu by done. unfold decide_set.
    rewrite bool_decide_eq_false_2 by (by destruct (SUOptions u)). by destruct (ValidateOptions t _).
Qed.
End client.

(** ** Examples *)

Section examples.
#[local] Existing Instances canonical_range api_digest mem_client_registry.

Definition ex_unit (name : string) : Unit := mkUnit name (NewUnitFromOptions [mkUnitOption "Unit" "Description" "x"]) "inactive".

Definition ex_served : mem_api :=
  mkMemApi {["a.service" := ex_unit "a.service"; "b.service" := ex_unit "b.service"; "c.service" := ex_unit "c.service"]}.

Definition ex_units : list SchemaUnit := match RegistryClient_Units ex_served with Ok l => l | Err _ => [] end.

Example ex_three_pages : length ex_units = 3.
Proof. vm_compute. reflexivity. Qed.

Lemma http_lists_equal_witness : HTTPClient_Units 1 [] ex_served = Ok ex_units.
Proof.
  apply (http_lists_equal 1 [] ex_served ex_units [] []); [lia|vm_compute; reflexivity..].
Defined.

Lemma http_lists_end_witness : HTTPClient_Units 0 [] ex_served ≠ Err HttpEndless.
Proof. apply http_lists_end. split; lia. Defined.

Lemma http_unit_calls_witness :
  HTTPClient_SetUnitTargetState 100 [] "none.service" "launched" ex_served = (ex_served, Err (HttpStatus StatusConflict)).
Proof.
  destruct (http_unit_calls 100 [] "none.service" ex_served) as (_ & H & _); [vm_compute; reflexivity|].
  rewrite (H "launched"); [reflexivity|discriminate].
Defined.
End examples.
