(* ===== verification/Etcd.v ===== *)
(** * The etcd client, as fleet uses it

    The client package and the etcd server are not fleet's code: [KeysAPI] has
    the three calls fleet makes, with their options, and [KeysLaws] what the
    package documents of them, for a server that answers every request, at
    once.  Keys are lists of path elements ([key_of]). *)

From stdpp Require Import base list gmap strings.
From S2P Require Import Prelude GoStrings GoPath Pkg.
#[local] Open Scope Z_scope.

Definition second : Z := 1000000000.

Definition ErrorCodeKeyNotFound : Z := 100.
Definition ErrorCodeTestFailed : Z := 101.
Definition ErrorCodeNotFile : Z := 102.
Definition ErrorCodeNodeExist : Z := 105.

(** An [etcd.Error] with its code, or any other error. *)
Inductive etcd_error :=
| EtcdError (code : Z)
| OtherError (msg : string).

#[export] Instance etcd_error_eq_dec : EqDecision etcd_error.
Proof. solve_decision. Defined.

Inductive Node := mkNode {
  Key : string; Dir : bool; Value : string; Nodes : list Node; ModifiedIndex : Z; TTL : Z
}.

Definition TTLDuration (n : Node) : Z := int64_wrap (n.(TTL) * second).

Definition PrevIgnore : string := "".
Definition PrevExist : string := "true".
Definition PrevNoExist : string := "false".

Record SetOptions := mkSetOptions {
  so_PrevValue : string; so_PrevIndex : Z; so_PrevExist : string; so_TTL : Z
}.

Record GetOptions := mkGetOptions { go_Recursive : bool; go_Sort : bool; go_Quorum : bool }.

Record DeleteOptions := mkDeleteOptions {
  do_PrevValue : string; do_PrevIndex : Z; do_Recursive : bool
}.

(** A nil pointer to options stands for these. *)
Definition no_set_options : SetOptions := mkSetOptions "" 0 PrevIgnore 0.
Definition no_get_options : GetOptions := mkGetOptions false false false.
Definition no_delete_options : DeleteOptions := mkDeleteOptions "" 0 false.

(** A call answers with the node of the response, the only part fleet reads. *)
Class KeysAPI (St : Type) := {
  kGet : string → GetOptions → St → res etcd_error Node;
  kSet : string → string → SetOptions → St → St * res etcd_error Node;
  kDelete : string → DeleteOptions → St → St * res etcd_error Node
}.

(** ** What the server holds *)

(** A directory has an empty value. *)
Record kv := mkKv { kv_dir : bool; kv_value : string; kv_index : Z; kv_expires : option Z }.

(** [kv_wf] holds of the states a server can be in. *)
Class KeysView (St : Type) := {
  kv_now : St → Z;
  kv_clock : St → Z;
  kv_at : St → list string → option kv;
  kv_wf : St → Prop
}.

(** [PrevValue] and [PrevIndex] are compared only when they are given. *)
Definition conditions (value : string) (index : Z) (n : kv) : bool :=
  (bool_decide (index = 0) || bool_decide (n.(kv_index) = index)) &&
  (bool_decide (value = "") || bool_decide (n.(kv_value) = value)).

(** Whether a [Set] or [Delete] goes ahead on what the key holds, or with which
    code it is refused. *)
Definition set_check (o : SetOptions) (n : option kv) : option Z :=
  match n with
  | None =>
      if bool_decide (o.(so_PrevExist) = PrevExist) || bool_decide (o.(so_PrevIndex) ≠ 0) ||
         bool_decide (o.(so_PrevValue) ≠ "")
      then Some ErrorCodeKeyNotFound else None
  | Some n =>
      if bool_decide (o.(so_PrevExist) = PrevNoExist) then Some ErrorCodeNodeExist
      else if n.(kv_dir) then Some ErrorCodeNotFile
      else if conditions o.(so_PrevValue) o.(so_PrevIndex) n then None
      else Some ErrorCodeTestFailed
  end.

Definition delete_check (o : DeleteOptions) (n : option kv) : option Z :=
  match n with
  | None => Some ErrorCodeKeyNotFound
  | Some n =>
      if n.(kv_dir) && negb o.(do_Recursive) then Some ErrorCodeNotFile
      else if conditions o.(do_PrevValue) o.(do_PrevIndex) n then None
      else Some ErrorCodeTestFailed
  end.

(** Durations are sent in whole seconds. *)
Definition expiration (now ttl : Z) : option Z :=
  if bool_decide (ttl ≤ 0) then None else Some (now + ttl / second * second).

(** The duration in the answer is rounded up to a second. *)
Definition ttl_rounded (now : Z) (expires : option Z) (ttl : Z) : Prop :=
  match expires with
  | None => ttl = 0
  | Some e => 0 ≤ ttl ∧ e - now ≤ ttl * second < e - now + second
  end.

Section view.
Context `{KV : KeysView St}.

Definition node_for (now : Z) (l : list string) (n : kv) (nd : Node) : Prop :=
  nd.(Key) = key_of l ∧ nd.(Dir) = n.(kv_dir) ∧ nd.(Value) = n.(kv_value) ∧
  nd.(ModifiedIndex) = n.(kv_index) ∧ ttl_rounded now n.(kv_expires) nd.(TTL).

(** No key above [l] is a file. *)
Definition open_key (s : St) (l : list string) : Prop :=
  ∀ l' n, l' `prefix_of` l → l' ≠ l → kv_at s l' = Some n → n.(kv_dir) = true.

Definition same_keys (s s' : St) : Prop :=
  kv_wf s' ∧ kv_now s' = kv_now s ∧ kv_clock s ≤ kv_clock s' ∧ ∀ l, kv_at s' l = kv_at s l.

(** [l] was written; only [l] and directories above it may have changed. *)
Definition wrote_key (s : St) (l : list string) (n : kv) (s' : St) : Prop :=
  kv_wf s' ∧ kv_now s' = kv_now s ∧ kv_clock s < n.(kv_index) ≤ kv_clock s' ∧ kv_at s' l = Some n ∧
  (∀ l', ¬ l' `prefix_of` l → kv_at s' l' = kv_at s l') ∧ open_key s' l.

(** What was at [l] and below is gone; the rest is as it was. *)
Definition deleted_key (s : St) (l : list string) (s' : St) : Prop :=
  kv_wf s' ∧ kv_now s' = kv_now s ∧ kv_clock s ≤ kv_clock s' ∧
  ∀ l', kv_at s' l' = if decide (l `prefix_of` l') then None else kv_at s l'.

(** The tree of nodes in the answer to a recursive [Get]: a directory lists its
    children, except those whose name starts with an underscore, which etcd
    hides. *)
Definition hidden (x : string) : bool := has_prefix "_" x.

Inductive tree_for (s : St) (l : list string) (nd : Node) : Prop :=
| tree_file n :
    kv_at s l = Some n → n.(kv_dir) = false → node_for (kv_now s) l n nd → nd.(Nodes) = [] → tree_for s l nd
| tree_dir n names :
    kv_at s l = Some n → n.(kv_dir) = true → node_for (kv_now s) l n nd →
    NoDup names → (∀ x, x ∈ names ↔ is_Some (kv_at s (l ++ [x])) ∧ hidden x = false) →
    Forall2 (λ x c, tree_for s (l ++ [x]) c) names nd.(Nodes) → tree_for s l nd.

End view.

Class KeysLaws {St} (K : KeysAPI St) (KV : KeysView St) := {
  kv_live : ∀ s l n e, kv_wf s → kv_at s l = Some n → n.(kv_expires) = Some e → kv_now s < e;
  kv_indexed : ∀ s l n, kv_wf s → kv_at s l = Some n → n.(kv_dir) = false → 0 < n.(kv_index) ≤ kv_clock s;
  kv_good : ∀ s l n, kv_wf s → kv_at s l = Some n → Forall good_elem l;
  kv_parent : ∀ s l x n, kv_wf s → kv_at s (l ++ [x]) = Some n →
    ∃ d, kv_at s l = Some d ∧ d.(kv_dir) = true;
  kv_dir_value : ∀ s l n, kv_wf s → kv_at s l = Some n → n.(kv_dir) = true → n.(kv_value) = "";
  kGet_missing : ∀ s l o, kv_wf s → Forall good_elem l → open_key s l → kv_at s l = None →
    kGet (key_of l) o s = Err (EtcdError ErrorCodeKeyNotFound);
  kGet_present : ∀ s l o n, kv_wf s → kv_at s l = Some n →
    ∃ nd, kGet (key_of l) o s = Ok nd ∧ node_for (kv_now s) l n nd ∧
      (o.(go_Recursive) = true → tree_for s l nd);
  kSet_done : ∀ s l v o, kv_wf s → l ≠ [] → Forall good_elem l → open_key s l →
    set_check o (kv_at s l) = None → (o.(so_TTL) ≤ 0 ∨ second ≤ o.(so_TTL)) →
    ∃ idx nd, let n := mkKv false v idx (expiration (kv_now s) o.(so_TTL)) in
      (kSet (key_of l) v o s).2 = Ok nd ∧ node_for (kv_now s) l n nd ∧
      wrote_key s l n (kSet (key_of l) v o s).1;
  kSet_refused : ∀ s l v o c, kv_wf s → l ≠ [] → Forall good_elem l → open_key s l →
    set_check o (kv_at s l) = Some c →
    (kSet (key_of l) v o s).2 = Err (EtcdError c) ∧ same_keys s (kSet (key_of l) v o s).1;
  kDelete_done : ∀ s l o, kv_wf s → l ≠ [] → Forall good_elem l → open_key s l →
    delete_check o (kv_at s l) = None →
    is_ok (kDelete (key_of l) o s).2 = true ∧ deleted_key s l (kDelete (key_of l) o s).1;
  kDelete_refused : ∀ s l o c, kv_wf s → l ≠ [] → Forall good_elem l → open_key s l →
    delete_check o (kv_at s l) = Some c →
    (kDelete (key_of l) o s).2 = Err (EtcdError c) ∧ same_keys s (kDelete (key_of l) o s).1
}.

Definition isEtcdError (err : etcd_error) (code : Z) : bool :=
  match err with EtcdError c => bool_decide (c = code) | OtherError _ => false end.

(** ** JSON

    [encoding/json] for the types fleet stores.  What is marshalled can be
    unmarshalled ([json_ok]) unless it has strings that are not UTF-8, whose
    bytes are replaced. *)
Class JSON (A : Type) := {
  marshal : A → res string string;
  unmarshal : string → option A;
  json_ok : A → Prop;
  json_roundtrip : ∀ a, json_ok a → ∃ b, marshal a = Ok b ∧ unmarshal b = Some a
}.

(** ** An etcd in memory

    A map from the keys, directories included, to what they hold; the laws hold
    of it. *)

Record mem_etcd := mkMemEtcd { mem_now : Z; mem_clock : Z; mem_store : gmap (list string) kv }.

Definition unexpired (now : Z) (n : kv) : bool :=
  match n.(kv_expires) with Some e => bool_decide (now < e) | None => true end.

Definition mem_at (s : mem_etcd) (l : list string) : option kv :=
  n ← s.(mem_store) !! l; if unexpired s.(mem_now) n then Some n else None.

Definition dir_node : kv := mkKv true "" 0 None.

Definition mem_wf (s : mem_etcd) : Prop :=
  0 ≤ s.(mem_clock) ∧ s.(mem_store) !! [] = Some dir_node ∧
  ∀ l n, s.(mem_store) !! l = Some n → Forall good_elem l ∧
    (n.(kv_dir) = true → n = dir_node) ∧
    (n.(kv_dir) = false → 0 < n.(kv_index) ≤ s.(mem_clock)) ∧
    ∀ l' x, l = l' ++ [x] → s.(mem_store) !! l' = Some dir_node.

#[export] Instance mem_view : KeysView mem_etcd := {|
  kv_now := mem_now; kv_clock := mem_clock; kv_at := mem_at; kv_wf := mem_wf |}.

Definition mem_ttl (now : Z) (n : kv) : Z :=
  match n.(kv_expires) with None => 0 | Some e => (e - now + (second - 1)) / second end.

(** The names of the children of [l] that are not hidden. *)
Definition child_name (l k : list string) : option string :=
  match last k with
  | Some x => if decide (k = l ++ [x] ∧ hidden x = false) then Some x else None
  | None => None
  end.

Definition mem_children (s : mem_etcd) (l : list string) : list string :=
  omap (λ '(k, n), if unexpired s.(mem_now) n then child_name l k else None) (map_to_list s.(mem_store)).

Fixpoint mem_node (fuel : nat) (s : mem_etcd) (l : list string) (n : kv) : Node :=
  mkNode (key_of l) n.(kv_dir) n.(kv_value)
    (match fuel with
     | O => []
     | S fuel =>
         if n.(kv_dir)
         then omap (λ x, mem_node fuel s (l ++ [x]) <$> mem_at s (l ++ [x])) (mem_children s l)
         else []
     end)
    n.(kv_index) (mem_ttl s.(mem_now) n).

(** More than the depth of the tree. *)
Definition mem_depth (s : mem_etcd) : nat := S (max_list ((length ∘ fst) <$> map_to_list s.(mem_store))).

Definition parents (l : list string) : list (list string) := (λ n, take n l) <$> seq 0 (length l).

Definition mem_put (l : list string) (n : kv) (s : mem_etcd) : mem_etcd :=
  mkMemEtcd s.(mem_now) (s.(mem_clock) + 1)
    (<[l := n]> (foldr (λ p m, <[p := dir_node]> m) s.(mem_store) (parents l))).

Definition mem_remove (l : list string) (s : mem_etcd) : mem_etcd :=
  mkMemEtcd s.(mem_now) s.(mem_clock) (filter (λ kv, ¬ l `prefix_of` kv.1) s.(mem_store)).

#[export] Instance mem_keys : KeysAPI mem_etcd := {|
  kGet k _ s :=
    let l := path_elems k in
    match mem_at s l with
    | None => Err (EtcdError ErrorCodeKeyNotFound)
    | Some n => Ok (mem_node (mem_depth s) s l n)
    end;
  kSet k v o s :=
    let l := path_elems k in
    match set_check o (mem_at s l) with
    | Some c => (s, Err (EtcdError c))
    | None =>
        let n := mkKv false v (s.(mem_clock) + 1) (expiration s.(mem_now) o.(so_TTL)) in
        (mem_put l n s, Ok (mem_node 0 s l n))
    end;
  kDelete k o s :=
    let l := path_elems k in
    match delete_check o (mem_at s l) with
    | Some c => (s, Err (EtcdError c))
    | None => (mem_remove l s, Ok (mkNode k false "" [] 0 0))
    end |}.

Lemma mem_at_Some s l n :
  mem_at s l = Some n ↔ s.(mem_store) !! l = Some n ∧ unexpired s.(mem_now) n = true.
Proof.
  unfold mem_at. rewrite bind_Some. split.
  - intros (n' & Hn & H). destruct (unexpired _ n') eqn:E; naive_solver.
  - intros [Hn Hu]. exists n. by rewrite Hu.
Qed.

Lemma mem_node_for fuel s l n :
  unexpired s.(mem_now) n = true → node_for s.(mem_now) l n (mem_node fuel s l n).
Proof.
  intros He. destruct fuel; (split_and!; [done..|]); cbn; unfold ttl_rounded, mem_ttl, unexpired in *;
    (destruct (kv_expires n) as [e|]; [|done]); apply bool_decide_eq_true in He; unfold second;
    pose proof (Z.div_mod (e - mem_now s + (1000000000 - 1)) 1000000000 ltac:(lia));
    pose proof (Z.mod_pos_bound (e - mem_now s + (1000000000 - 1)) 1000000000 ltac:(lia));
    assert (0 ≤ (e - mem_now s + (1000000000 - 1)) / 1000000000) by (apply Z.div_pos; lia); lia.
Qed.

Lemma child_name_Some l k x : child_name l k = Some x ↔ k = l ++ [x] ∧ hidden x = false.
Proof.
  unfold child_name. split.
  - destruct (last k) as [y|]; [|done]. case_decide as H; [|done]. by intros [= <-].
  - intros [-> Hh]. rewrite last_snoc. by rewrite decide_True.
Qed.

Lemma elem_of_mem_children s l x :
  x ∈ mem_children s l ↔ is_Some (mem_at s (l ++ [x])) ∧ hidden x = false.
Proof.
  unfold mem_children. rewrite list_elem_of_omap. split.
  - intros ([k n] & Hin%elem_of_map_to_list & H). destruct (unexpired _ n) eqn:E; [|done].
    apply child_name_Some in H as [-> Hh]. split; [|done]. exists n. by apply mem_at_Some.
  - intros [[n [Hn Hu]%mem_at_Some] Hh]. exists (l ++ [x], n). split; [by apply elem_of_map_to_list|].
    rewrite Hu. by apply child_name_Some.
Qed.

Lemma NoDup_omap_inj {A B} (f : A → option B) l :
  NoDup l → (∀ x y b, f x = Some b → f y = Some b → x ∈ l → y ∈ l → x = y) → NoDup (omap f l).
Proof.
  induction 1 as [|x l Hx Hl IH]; intros Hf; [constructor|]. cbn.
  assert (NoDup (omap f l)) as Hnd by (apply IH; intros; eapply Hf; eauto; by right).
  destruct (f x) as [b|] eqn:E; [|done]. constructor; [|done].
  rewrite list_elem_of_omap. intros (y & Hy & Ey).
  assert (x = y) as -> by (eapply Hf; eauto; [by left|by right]). done.
Qed.

Lemma mem_children_NoDup s l : NoDup (mem_children s l).
Proof.
  apply NoDup_omap_inj; [apply NoDup_map_to_list|].
  intros [k1 n1] [k2 n2] x H1 H2 Hin1%elem_of_map_to_list Hin2%elem_of_map_to_list.
  destruct (unexpired _ n1); [|done]. destruct (unexpired _ n2); [|done].
  apply child_name_Some in H1 as [-> _]. apply child_name_Some in H2 as [-> _]. congruence.
Qed.

Lemma mem_depth_lt s l n : s.(mem_store) !! l = Some n → (length l < mem_depth s)%nat.
Proof.
  intros Hn. unfold mem_depth. apply Nat.lt_succ_r, max_list_elem_of_le.
  apply list_elem_of_fmap. exists (l, n). split; [done|]. by apply elem_of_map_to_list.
Qed.

Lemma Forall2_omap {A B} (P : A → B → Prop) (f : A → option B) l :
  Forall (λ x, ∃ y, f x = Some y ∧ P x y) l → Forall2 P l (omap f l).
Proof. induction 1 as [|x l (y & Hy & HP) _ IH]; [constructor|]. cbn. rewrite Hy. by constructor. Qed.

Lemma mem_tree fuel s l n :
  mem_at s l = Some n → (mem_depth s ≤ length l + fuel)%nat → tree_for s l (mem_node fuel s l n).
Proof.
  revert l n. induction fuel as [|fuel IH]; intros l n Hn Hf.
  { apply mem_at_Some in Hn as [Hn _]. apply mem_depth_lt in Hn. lia. }
  pose proof Hn as [_ Hu]%mem_at_Some. pose proof (mem_node_for (S fuel) s l n Hu) as Hnd.
  destruct (kv_dir n) eqn:Hd.
  - eapply tree_dir; [exact Hn|done|exact Hnd|apply (mem_children_NoDup s l)|apply elem_of_mem_children|].
    cbn. rewrite Hd. apply Forall2_omap, Forall_forall. intros x [[m Hm] _]%elem_of_mem_children.
    rewrite Hm. eexists. split; [done|]. apply IH; [done|]. rewrite length_app. cbn. lia.
  - eapply tree_file; [exact Hn|done|exact Hnd|]. cbn. by rewrite Hd.
Qed.

Lemma elem_of_parents p l : p ∈ parents l ↔ p `prefix_of` l ∧ p ≠ l.
Proof.
  unfold parents. rewrite list_elem_of_fmap. split.
  - intros (n & -> & Hn%elem_of_seq). split; [apply prefix_take|]. intros E.
    apply (f_equal length) in E. rewrite length_take in E. lia.
  - intros [[k ->] Hne]. exists (length p). split; [by rewrite take_app_length|]. apply elem_of_seq.
    rewrite length_app. destruct k; [by rewrite app_nil_r in Hne|]. cbn. lia.
Qed.

Lemma mem_put_lookup l n s k :
  (mem_put l n s).(mem_store) !! k =
  if decide (k = l) then Some n else if decide (k ∈ parents l) then Some dir_node else s.(mem_store) !! k.
Proof.
  cbn. destruct (decide (k = l)) as [->|Hk]; [by rewrite lookup_insert_eq|]. rewrite lookup_insert_ne by done.
  induction (parents l) as [|p ps IH]; [done|]. cbn. destruct (decide (k = p)) as [->|Hp].
  - rewrite lookup_insert_eq, decide_True; [done|by left].
  - rewrite lookup_insert_ne, IH by done. repeat case_decide; set_solver.
Qed.

Lemma parent_of_parent l' x l : l' ++ [x] ∈ parents l → l' ∈ parents l.
Proof.
  rewrite !elem_of_parents. intros [Hp _]. split.
  - etrans; [|exact Hp]. by exists [x].
  - intros ->. apply prefix_length in Hp. rewrite length_app in Hp. cbn in Hp. lia.
Qed.

Lemma mem_put_wf l n s :
  mem_wf s → l ≠ [] → Forall good_elem l → n.(kv_dir) = false → n.(kv_index) = s.(mem_clock) + 1 →
  s.(mem_store) !! l ≠ Some dir_node → mem_wf (mem_put l n s).
Proof.
  intros (Hc & Hroot & Hall) Hl Hg Hd Hi Hnd. split_and!; [cbn; lia| |].
  - rewrite mem_put_lookup, decide_False by done. destruct (decide ([] ∈ parents l)); done.
  - intros k m. rewrite mem_put_lookup. repeat case_decide; intros Hk.
    + simplify_eq. split_and!; [done|congruence|intros _; cbn; lia|].
      intros l' x ->. rewrite mem_put_lookup, decide_False by (intros E; apply (f_equal length) in E; rewrite length_app in E; cbn in E; lia).
      rewrite decide_True; [done|]. apply elem_of_parents. split; [by exists [x]|].
      intros E; apply (f_equal length) in E; rewrite length_app in E; cbn in E; lia.
    + injection Hk as <-. split_and!; [|done|done|].
      * apply elem_of_parents in H0 as [[r ->] _]. by apply Forall_app in Hg as [? _].
      * intros l' x ->. pose proof (parent_of_parent _ _ _ H0) as Hpp. rewrite mem_put_lookup.
        pose proof Hpp as [_ Hne]%elem_of_parents. by rewrite decide_False, decide_True.
    + destruct (Hall k m Hk) as (Hgk & Hdk & Hik & Hpk). split_and!; [done|done|intros Hx; cbn; specialize (Hik Hx); lia|].
      intros l' x ->. specialize (Hpk l' x eq_refl). rewrite mem_put_lookup. rewrite decide_False by congruence.
      by case_decide.
Qed.

Lemma mem_remove_wf l s : mem_wf s → l ≠ [] → mem_wf (mem_remove l s).
Proof.
  intros (Hc & Hroot & Hall) Hl. split_and!; [done| |].
  - apply map_lookup_filter_Some. split; [done|]. cbn. by intros ?%prefix_nil_inv.
  - intros k m [Hk Hp]%map_lookup_filter_Some. cbn in Hp. destruct (Hall k m Hk) as (? & ? & ? & Hpar).
    split_and!; try done. intros l' x ->. apply map_lookup_filter_Some. split; [by eapply Hpar|].
    cbn. intros Hpre. apply Hp. by apply prefix_app_r.
Qed.

Lemma expiration_unexpired now ttl v idx :
  (ttl ≤ 0 ∨ second ≤ ttl) → unexpired now (mkKv false v idx (expiration now ttl)) = true.
Proof.
  intros H. unfold expiration, unexpired. cbn. case_bool_decide; [done|]. apply bool_decide_eq_true.
  destruct H; [done|]. assert (1 ≤ ttl / second) by (apply Z.div_le_lower_bound; unfold second in *; lia).
  unfold second in *. lia.
Qed.

Lemma mem_wrote s l v o :
  mem_wf s → l ≠ [] → Forall good_elem l → open_key s l → set_check o (mem_at s l) = None →
  (o.(so_TTL) ≤ 0 ∨ second ≤ o.(so_TTL)) →
  let n := mkKv false v (s.(mem_clock) + 1) (expiration s.(mem_now) o.(so_TTL)) in
  wrote_key s l n (mem_put l n s).
Proof.
  intros Hwf Hl Hg Ho Hc Ht n. pose proof (expiration_unexpired (mem_now s) (so_TTL o) v (mem_clock s + 1) Ht) as Hu.
  split_and!; cbn [kv_wf kv_now kv_clock kv_at mem_view].
  - apply mem_put_wf; try done. intros E. assert (mem_at s l = Some dir_node) as Ha by (by apply mem_at_Some).
    rewrite Ha in Hc. cbn in Hc. by case_bool_decide.
  - done.
  - cbn. lia.
  - cbn. lia.
  - apply mem_at_Some. by rewrite mem_put_lookup, decide_True.
  - intros l' Hl'. unfold mem_at. rewrite mem_put_lookup, !decide_False; [done| |].
    + intros [? _]%elem_of_parents. done.
    + by intros ->.
  - intros l' m Hp Hne [Hm _]%mem_at_Some. rewrite mem_put_lookup, decide_False, decide_True in Hm by (done || by apply elem_of_parents).
    by simplify_eq.
Qed.

#[export] Instance mem_laws : KeysLaws mem_keys mem_view.
Proof.
  assert (∀ l s n, mem_wf s → mem_at s l = Some n → Forall good_elem l) as Hgood.
  { intros l s n (_ & _ & Hall) [Hn _]%mem_at_Some. by apply Hall in Hn as [? _]. }
  split; cbn [kv_wf kv_now kv_clock kv_at mem_view kGet kSet kDelete mem_keys].
  - intros s l n e _ [_ Hu]%mem_at_Some He. unfold unexpired in Hu. rewrite He in Hu. by apply bool_decide_eq_true in Hu.
  - intros s l n (_ & _ & Hall) [Hn _]%mem_at_Some Hd. by apply Hall in Hn as (_ & _ & Hi & _); apply Hi.
  - eauto.
  - intros s l x n (_ & _ & Hall) [Hn _]%mem_at_Some. destruct (Hall _ _ Hn) as (_ & _ & _ & Hp).
    exists dir_node. split; [|done]. apply mem_at_Some. split; [|done]. by eapply Hp.
  - intros s l n (_ & _ & Hall) [Hn _]%mem_at_Some Hd. destruct (Hall _ _ Hn) as (_ & Hdn & _). by rewrite Hdn.
  - intros s l o _ Hl _ Hn. by rewrite path_elems_key, Hn.
  - intros s l o n Hwf Hn. rewrite path_elems_key, Hn by eauto. eexists. split_and!; [done| |].
    + apply mem_node_for. by apply mem_at_Some in Hn as [_ ?].
    + intros _. apply mem_tree; [done|lia].
  - intros s l v o Hwf Hl Hg Ho Hc Ht. rewrite path_elems_key, Hc by done. do 2 eexists. split_and!; [done| |].
    + apply mem_node_for. by apply expiration_unexpired.
    + by apply mem_wrote.
  - intros s l v o c Hwf Hl Hg Ho Hc. rewrite path_elems_key, Hc by done. split; [done|]. by split_and!.
  - intros s l o Hwf Hl Hg Ho Hc. rewrite path_elems_key, Hc by done. split; [done|].
    split_and!; [by apply mem_remove_wf|done|done|]. intros l'. cbn. unfold mem_at, mem_remove. cbn.
    case_decide as Hp.
    + rewrite (proj2 (map_lookup_filter_None _ _ _)); [done|]. right. intros n _. cbn. tauto.
    + destruct (mem_store s !! l') as [n|] eqn:E.
      * rewrite (proj2 (map_lookup_filter_Some _ _ _ n)); [done|]. done.
      * rewrite (proj2 (map_lookup_filter_None _ _ _)); [done|]. by left.
  - intros s l o c Hwf Hl Hg Ho Hc. rewrite path_elems_key, Hc by done. split; [done|]. by split_and!.
Qed.
