(* ===== verification/EtcdLease.v ===== *)
(** * [pkg/lease/etcd.go]: leases kept in etcd

    The lease manager as the code has it, and the proof that it satisfies the
    laws of [Lease]: hence the engines of a cluster that share an etcd never
    reconcile at the same time. *)

From stdpp Require Import base list gmap strings.
From S2P Require Import Prelude GoStrings GoPath Pkg Machine Engine Lease Leadership Etcd.

Definition leasePrefix : string := "lease".

Record etcdLeaseMetadata := mkLeaseMetadata { lm_MachineID : string; lm_Version : Z }.

Record etcdLease := mkEtcdLease {
  el_key : string; el_meta : etcdLeaseMetadata; el_idx : Z; el_ttl : Z
}.

Section etcd_lease.
Context `{K : KeysAPI St, JC : JSON etcdLeaseMetadata}.
Variable keyPrefix : string.

Definition serializeLeaseMetadata (machID : string) (ver : Z) : res etcd_error string :=
  match marshal (mkLeaseMetadata machID ver) with
  | Err e => Err (OtherError e)
  | Ok b => Ok b
  end.

Definition leasePath (name : string) : string := path_join [keyPrefix; leasePrefix; name].

Definition lease_meta (value : string) : etcdLeaseMetadata :=
  match unmarshal value with Some m => m | None => mkLeaseMetadata value 0 end.

Definition leaseFromResponse (nd : Node) : etcdLease :=
  mkEtcdLease nd.(Key) (lease_meta nd.(Value)) nd.(ModifiedIndex) (TTLDuration nd).

Definition elm_GetLease (name : string) (s : St) : res etcd_error (option etcdLease) :=
  match kGet (leasePath name) no_get_options s with
  | Err err => if isEtcdError err ErrorCodeKeyNotFound then Ok None else Err err
  | Ok resp => Ok (Some (leaseFromResponse resp))
  end.

Definition elm_StealLease (name machID : string) (ver period idx : Z) (s : St)
  : St * res etcd_error (option etcdLease) :=
  match serializeLeaseMetadata machID ver with
  | Err err => (s, Err err)
  | Ok val =>
      let opts := mkSetOptions "" idx PrevIgnore period in
      let '(s, r) := kSet (leasePath name) val opts s in
      match r with
      | Err err => (s, if isEtcdError err ErrorCodeNodeExist then Ok None else Err err)
      | Ok resp => (s, Ok (Some (leaseFromResponse resp)))
      end
  end.

Definition elm_AcquireLease (name machID : string) (ver period : Z) (s : St)
  : St * res etcd_error (option etcdLease) :=
  match serializeLeaseMetadata machID ver with
  | Err err => (s, Err err)
  | Ok val =>
      let opts := mkSetOptions "" 0 PrevNoExist period in
      let '(s, r) := kSet (leasePath name) val opts s in
      match r with
      | Err err => (s, if isEtcdError err ErrorCodeNodeExist then Ok None else Err err)
      | Ok resp => (s, Ok (Some (leaseFromResponse resp)))
      end
  end.

(** The error of the serialization is overwritten by that of [Set]. *)
Definition el_Renew (l : etcdLease) (period : Z) (s : St) : St * res etcd_error etcdLease :=
  let val :=
    match serializeLeaseMetadata l.(el_meta).(lm_MachineID) l.(el_meta).(lm_Version) with
    | Ok val => val
    | Err _ => ""
    end in
  let opts := mkSetOptions "" l.(el_idx) PrevIgnore period in
  let '(s, r) := kSet l.(el_key) val opts s in
  match r with
  | Err err => (s, Err err)
  | Ok resp => (s, Ok (leaseFromResponse resp))
  end.

Definition el_Release (l : etcdLease) (s : St) : St * res etcd_error unit :=
  let opts := mkDeleteOptions "" l.(el_idx) false in
  let '(s, r) := kDelete l.(el_key) opts s in
  (s, match r with Err err => Err err | Ok _ => Ok tt end).

#[export] Instance etcdLeaseManager : LeaseManager St etcdLease etcd_error := {|
  GetLease := elm_GetLease;
  AcquireLease := elm_AcquireLease;
  StealLease := elm_StealLease;
  Renew := el_Renew;
  Release := el_Release;
  MachineID l := l.(el_meta).(lm_MachineID);
  Version l := l.(el_meta).(lm_Version);
  Index := el_idx;
  TimeRemaining := el_ttl |}.

(** ** The laws *)

Context `{KV : !KeysView St, KL : !KeysLaws K KV}.
Variable name : string.

(** The prefix is absolute and the key has no odd element. *)
Hypothesis prefix_rooted : has_prefix "/" keyPrefix = true.
Hypothesis prefix_good : Forall good_elem (path_elems keyPrefix).
Hypothesis name_good : good_elem name.

Definition lease_key : list string := path_elems keyPrefix ++ [leasePrefix; name].

Definition record_of (n : kv) : lease_record :=
  mkLeaseRecord (lease_meta n.(kv_value)).(lm_MachineID) (lease_meta n.(kv_value)).(lm_Version)
    n.(kv_index) n.(kv_expires).

(** What else holds of the server that the lease manager's requests preserve,
    whatever it is. *)
Variable inv : St → Prop.
Hypothesis inv_wrote : ∀ s n s', kv_wf s → inv s → n.(kv_dir) = false → wrote_key s lease_key n s' → inv s'.
Hypothesis inv_deleted : ∀ s s', kv_wf s → inv s → deleted_key s lease_key s' → inv s'.
Hypothesis inv_same : ∀ s s', kv_wf s → inv s → same_keys s s' → inv s'.

(** A lease lasts whole seconds, and less than a century and a half. *)
Definition whole_seconds (p : Z) : Prop := (second ≤ p < 2 ^ 62 ∧ p mod second = 0)%Z.

Definition lease_key_wf (s : St) : Prop :=
  kv_wf s ∧ open_key s lease_key ∧
  (∀ n, kv_at s lease_key = Some n →
    n.(kv_dir) = false ∧ ∀ e, n.(kv_expires) = Some e → (e - kv_now s < 2 ^ 62)%Z) ∧
  inv s.

#[export] Instance etcdLeaseView : LeaseView St etcdLease := {|
  lease_now := kv_now;
  lease_clock := kv_clock;
  lease_at s := record_of <$> kv_at s lease_key;
  lease_wf := lease_key_wf;
  handle_of_lease l := l.(el_key) = key_of lease_key ∧ (l.(el_idx) ≠ 0)%Z;
  owner_ok m := ∀ v, json_ok (mkLeaseMetadata m v);
  period_ok := whole_seconds |}.

Lemma lease_key_good : Forall good_elem lease_key.
Proof.
  apply Forall_app_2; [done|]. repeat constructor; try done. all: apply name_good.
Qed.

Lemma lease_key_ne : lease_key ≠ [].
Proof. unfold lease_key. by destruct (path_elems keyPrefix). Qed.

Lemma leasePath_key : leasePath name = key_of lease_key.
Proof.
  unfold leasePath, lease_key. rewrite path_join_key; [|done|].
  - cbn [fmap list_fmap concat]. by rewrite (path_elems_good name).
  - cbn [fmap list_fmap concat]. rewrite (path_elems_good name) by done. apply lease_key_good.
Qed.

Lemma serialize_ok m v : json_ok (mkLeaseMetadata m v) → ∃ b, serializeLeaseMetadata m v = Ok b ∧ lease_meta b = mkLeaseMetadata m v.
Proof.
  intros Hm. destruct (json_roundtrip (mkLeaseMetadata m v) Hm) as (b & Hb & Hu). exists b.
  unfold serializeLeaseMetadata, lease_meta. by rewrite Hb, Hu.
Qed.

Lemma expiration_whole now p : whole_seconds p → expiration now p = Some (now + p)%Z.
Proof.
  intros [[H1 H2] Hm]. unfold expiration. rewrite bool_decide_eq_false_2 by (unfold second in *; lia).
  f_equal. pose proof (Z.div_mod p second ltac:(unfold second; lia)). lia.
Qed.

Lemma node_describes now n nd :
  node_for now lease_key n nd → (0 < n.(kv_index))%Z → describes (record_of n) (leaseFromResponse nd).
Proof.
  intros (Hk & _ & Hv & Hi & _) H0. unfold describes, handle_of_lease, record_of. cbn.
  rewrite Hk, Hv, Hi. split_and!; try done. lia.
Qed.

(** What the code does with a [Set] on the lease's key that succeeds. *)
Lemma set_grants s m v p o :
  lease_key_wf s → json_ok (mkLeaseMetadata m v) → whole_seconds p → o.(so_TTL) = p → set_check o (kv_at s lease_key) = None →
  ∃ b nd, serializeLeaseMetadata m v = Ok b ∧ (kSet (key_of lease_key) b o s).2 = Ok nd ∧
    granted s m v p (kSet (key_of lease_key) b o s).1 (leaseFromResponse nd).
Proof.
  intros (Hkv & Hopen & Hfile & Hinv) Hm Hp Ho Hc. destruct (serialize_ok m v Hm) as (b & Hb & Hmeta). exists b.
  destruct (kSet_done s lease_key b o Hkv lease_key_ne lease_key_good Hopen Hc) as (idx & nd & Hr & Hnd & Hw).
  { right. rewrite Ho. apply Hp. }
  exists nd. split_and!; [done|done|]. pose proof Hw as (Hkv' & En & Hi & Hat & _ & Hopen').
  rewrite Ho, expiration_whole in Hat, Hnd by done. cbn in Hi.
  pose proof (kv_indexed _ _ _ Hkv' Hat eq_refl) as Hpos. cbn in Hpos.
  pose proof (node_describes _ _ _ Hnd (proj1 Hpos)) as Hd.
  exists idx. unfold record_of in Hd. cbn in Hd. rewrite Hmeta in Hd. split; [|exact Hd].
  split_and!; cbn; [|done|lia|lia|].
  - split_and!; [done|done| |by eapply (inv_wrote s _ _ Hkv Hinv); [|exact Hw]]. rewrite Hat. intros n [= <-]. split; [done|]. cbn. intros e [= <-].
    rewrite En. destruct Hp. lia.
  - rewrite Hat. unfold record_of. cbn. by rewrite Hmeta.
Qed.

Lemma same_untouched s s' : lease_key_wf s → same_keys s s' → untouched s s'.
Proof.
  intros (Hkv & Hopen & Hfile & Hinv) Hs. pose proof Hs as (Hkv' & En & Hc & Hat). split_and!; cbn; [|done|lia|by rewrite Hat].
  split_and!; [done| | |exact (inv_same s s' Hkv Hinv Hs)].
  - intros l n Hl Hne. rewrite Hat. by apply Hopen.
  - intros n. rewrite Hat, En. apply Hfile.
Qed.

Lemma set_refused s b o c :
  lease_key_wf s → set_check o (kv_at s lease_key) = Some c →
  (kSet (key_of lease_key) b o s).2 = Err (EtcdError c) ∧ untouched s (kSet (key_of lease_key) b o s).1.
Proof.
  intros Hwf Hc. destruct (kSet_refused s lease_key b o c (proj1 Hwf) lease_key_ne lease_key_good (proj1 (proj2 Hwf)) Hc) as [Hr Hs].
  split; [done|]. by apply same_untouched.
Qed.

(** The conditions of the code's requests, in terms of the lease. *)
Lemma cas_check s idx ttl :
  lease_key_wf s → idx ≠ 0%Z → current s idx ↔ set_check (mkSetOptions "" idx PrevIgnore ttl) (kv_at s lease_key) = None.
Proof.
  intros (_ & _ & Hf & _) Hi. unfold current. cbn. destruct (kv_at s lease_key) as [n|] eqn:Hn; cbn.
  - destruct (Hf n eq_refl) as [-> _]. unfold conditions. cbn. rewrite (bool_decide_eq_false_2 (idx = 0%Z)) by done.
    rewrite (bool_decide_eq_false_2 (PrevIgnore = PrevNoExist)) by done.
    rewrite andb_true_r. cbn. case_bool_decide as H; split; try done.
    + intros _. eexists. split; [done|]. done.
    + intros (r & [= <-] & ?). done.
  - rewrite (bool_decide_eq_true_2 (idx ≠ 0%Z)) by done. rewrite orb_true_r. cbn. split; [|done]. intros (r & ? & _). done.
Qed.

Lemma delete_cas_check s idx :
  lease_key_wf s → idx ≠ 0%Z → current s idx ↔ delete_check (mkDeleteOptions "" idx false) (kv_at s lease_key) = None.
Proof.
  intros (_ & _ & Hf & _) Hi. unfold current. cbn. destruct (kv_at s lease_key) as [n|] eqn:Hn; cbn.
  - destruct (Hf n eq_refl) as [-> _]. unfold conditions. cbn. rewrite (bool_decide_eq_false_2 (idx = 0%Z)) by done.
    rewrite andb_true_r. cbn. case_bool_decide as H; split; try done.
    + intros _. eexists. split; [done|]. done.
    + intros (r & [= <-] & ?). done.
  - split; [|done]. intros (r & ? & _). done.
Qed.

Lemma create_check s ttl :
  set_check (mkSetOptions "" 0 PrevNoExist ttl) (kv_at s lease_key) =
  match kv_at s lease_key with None => None | Some _ => Some ErrorCodeNodeExist end.
Proof. by destruct (kv_at s lease_key). Qed.

Lemma lease_at_None s : lease_at s = None ↔ kv_at s lease_key = None.
Proof. cbn. by rewrite fmap_None. Qed.

Lemma TTLDuration_held s n nd e :
  lease_key_wf s → kv_at s lease_key = Some n → node_for (kv_now s) lease_key n nd →
  (0 ≤ TTLDuration nd)%Z ∧ (n.(kv_expires) = Some e → e ≤ kv_now s + TTLDuration nd)%Z.
Proof.
  intros (_ & _ & Hf & _) Hn (_ & _ & _ & _ & Ht). unfold ttl_rounded, TTLDuration in *.
  destruct (Hf n Hn) as [_ Hb]. destruct (kv_expires n) as [e'|].
  - specialize (Hb e' eq_refl). unfold second in *. rewrite int64_wrap_small by lia. split; [lia|].
    intros [= <-]. lia.
  - rewrite Ht. split; [by vm_compute|done].
Qed.

Lemma etcd_GetLease_held s n :
  lease_key_wf s → kv_at s lease_key = Some n →
  ∃ l, elm_GetLease name s = Ok (Some l) ∧ describes (record_of n) l ∧ (0 ≤ TimeRemaining l)%Z ∧
    ∀ e, (record_of n).(lr_expires) = Some e → (e ≤ kv_now s + TimeRemaining l)%Z.
Proof.
  intros Hwf Hn. destruct (kGet_present s lease_key no_get_options n (proj1 Hwf) Hn) as (nd & Hg & Hnd & _).
  exists (leaseFromResponse nd). unfold elm_GetLease. rewrite leasePath_key, Hg.
  pose proof (kv_indexed _ _ _ (proj1 Hwf) Hn (proj1 (proj1 (proj2 (proj2 Hwf)) n Hn))) as [Hi _].
  split_and!; [done|by eapply node_describes|by apply (TTLDuration_held s n nd 0)|].
  intros e He. by apply (TTLDuration_held s n nd e).
Qed.

Lemma etcd_Acquire_laws s m v p :
  lease_key_wf s →
  (lease_at s = None → json_ok (mkLeaseMetadata m v) → whole_seconds p →
   ∃ l, (elm_AcquireLease name m v p s).2 = Ok (Some l) ∧ granted s m v p (elm_AcquireLease name m v p s).1 l) ∧
  (lease_at s ≠ None →
   (∀ l, (elm_AcquireLease name m v p s).2 ≠ Ok (Some l)) ∧ untouched s (elm_AcquireLease name m v p s).1).
Proof.
  intros Hwf. unfold elm_AcquireLease. rewrite lease_at_None, leasePath_key. split.
  - intros Hn Hm Hp. pose proof (create_check s p) as Hc. rewrite Hn in Hc.
    destruct (set_grants s m v p (mkSetOptions "" 0 PrevNoExist p)) as (b & nd & Hb & Hr & Hg); try done; [by rewrite Hn|].
    rewrite Hb. destruct (kSet _ _ _ _) as [s' r]. cbn in Hr, Hg. subst r. eauto.
  - intros Hn. destruct (serializeLeaseMetadata m v) as [b|e]; [|by split; [done|apply untouched_refl]].
    pose proof (create_check s p) as Hc. destruct (kv_at s lease_key) as [n|] eqn:Hat; [|done].
    rewrite <- Hat in Hc. destruct (set_refused s b _ _ Hwf Hc) as [Hr Hu].
    destruct (kSet _ _ _ _) as [s' r]. cbn in Hr, Hu. subst r. done.
Qed.

Lemma etcd_Steal_laws s m v p idx :
  lease_key_wf s → idx ≠ 0%Z →
  (current s idx → json_ok (mkLeaseMetadata m v) → whole_seconds p →
   ∃ l, (elm_StealLease name m v p idx s).2 = Ok (Some l) ∧ granted s m v p (elm_StealLease name m v p idx s).1 l) ∧
  (¬ current s idx →
   (∀ l, (elm_StealLease name m v p idx s).2 ≠ Ok (Some l)) ∧ untouched s (elm_StealLease name m v p idx s).1).
Proof.
  intros Hwf Hi. unfold elm_StealLease. rewrite leasePath_key, (cas_check s idx p) by done. split.
  - intros Hc Hm Hp. destruct (set_grants s m v p (mkSetOptions "" idx PrevIgnore p)) as (b & nd & Hb & Hr & Hg); try done.
    rewrite Hb. destruct (kSet _ _ _ _) as [s' r]. cbn in Hr, Hg. subst r. eauto.
  - intros Hc. destruct (serializeLeaseMetadata m v) as [b|e]; [|by split; [done|apply untouched_refl]].
    destruct (set_check _ _) as [c|] eqn:E; [|done]. destruct (set_refused s b _ _ Hwf E) as [Hr Hu].
    destruct (kSet _ _ _ _) as [s' r]. cbn in Hr, Hu. subst r. split; [|done]. intros l. by destruct (isEtcdError _ _).
Qed.

Lemma etcd_Renew_laws s l p :
  lease_key_wf s → handle_of_lease l →
  (current s (Index l) → json_ok (mkLeaseMetadata (MachineID l) (Version l)) → whole_seconds p →
   ∃ l', (el_Renew l p s).2 = Ok l' ∧ granted s (MachineID l) (Version l) p (el_Renew l p s).1 l') ∧
  (¬ current s (Index l) → (∀ l', (el_Renew l p s).2 ≠ Ok l') ∧ untouched s (el_Renew l p s).1).
Proof.
  intros Hwf [Hk Hi]. cbn in *. unfold el_Renew. rewrite Hk, (cas_check s _ p) by done. split.
  - intros Hc Hm Hp.
    destruct (set_grants s (lm_MachineID (el_meta l)) (lm_Version (el_meta l)) p (mkSetOptions "" (el_idx l) PrevIgnore p))
      as (b & nd & Hb & Hr & Hg); try done.
    rewrite Hb. destruct (kSet _ _ _ _) as [s' r]. cbn in Hr, Hg. subst r. eauto.
  - intros Hc. destruct (set_check _ _) as [c|] eqn:E; [|done].
    set (b := match serializeLeaseMetadata _ _ with Ok val => val | Err _ => "" end).
    destruct (set_refused s b _ _ Hwf E) as [Hr Hu].
    destruct (kSet _ _ _ _) as [s' r]. cbn in Hr, Hu. by subst r.
Qed.

Lemma etcd_Release_laws s l :
  lease_key_wf s → handle_of_lease l →
  (current s (Index l) → (el_Release l s).2 = Ok tt ∧ lease_key_wf (el_Release l s).1 ∧
     kv_now (el_Release l s).1 = kv_now s ∧ (kv_clock s ≤ kv_clock (el_Release l s).1)%Z ∧
     lease_at (el_Release l s).1 = None) ∧
  (¬ current s (Index l) → untouched s (el_Release l s).1).
Proof.
  intros Hwf [Hk Hi]. cbn [Index etcdLeaseManager] in *. unfold el_Release. rewrite Hk, delete_cas_check by done. split.
  - intros Hc. destruct (kDelete_done s lease_key _ (proj1 Hwf) lease_key_ne lease_key_good (proj1 (proj2 Hwf)) Hc) as [Hr Hd].
    destruct (kDelete _ _ _) as [s' r]. cbn in Hr, Hd. pose proof Hd as (Hkv' & En & Hcl & Hat). destruct r; [|done]. cbn [fst snd].
    assert (kv_at s' lease_key = None) as Hno by (by rewrite Hat, decide_True).
    split_and!; [done| |done|done|by apply lease_at_None]. split_and!; [done| |by rewrite Hno|exact (inv_deleted s s' (proj1 Hwf) (proj2 (proj2 (proj2 Hwf))) Hd)].
    intros l' n Hl Hne. rewrite Hat. case_decide; [done|]. by apply Hwf.
  - intros Hc. destruct (delete_check _ _) as [c|] eqn:E; [|done].
    destruct (kDelete_refused s lease_key _ c (proj1 Hwf) lease_key_ne lease_key_good (proj1 (proj2 Hwf)) E) as [_ Hs].
    destruct (kDelete _ _ _) as [s' r]. by apply same_untouched.
Qed.

#[export] Instance etcdLeaseLaws : LeaseLaws etcdLeaseManager etcdLeaseView name.
Proof.
  assert (∀ s n, lease_key_wf s → kv_at s lease_key = Some n → (0 < kv_index n ≤ kv_clock s)%Z) as Hidx.
  { intros s n (Hkv & _ & Hf & _) Hn. apply (kv_indexed s lease_key n Hkv Hn). by apply Hf. }
  assert (∀ s idx, lease_key_wf s → current s idx → idx ≠ 0%Z) as Hpos.
  { intros s idx Hwf (r & Hr & <-). cbn in Hr. apply fmap_Some in Hr as (n & Hn & ->).
    apply Hidx in Hn; [cbn; lia|done]. }
  split; cbn [lease_wf lease_now lease_clock etcdLeaseView owner_ok period_ok].
  - intros s r e Hwf Hr He. cbn in Hr. apply fmap_Some in Hr as (n & Hn & ->). by eapply kv_live; [apply Hwf|..].
  - intros s r Hwf Hr. cbn in Hr. apply fmap_Some in Hr as (n & Hn & ->). by apply Hidx.
  - intros p [? _]. unfold second in *. lia.
  - intros s Hwf Hn%lease_at_None. cbn. unfold elm_GetLease.
    by rewrite leasePath_key, (kGet_missing s lease_key _ (proj1 Hwf) lease_key_good (proj1 (proj2 Hwf)) Hn).
  - intros s r Hwf Hr. cbn in Hr. apply fmap_Some in Hr as (n & Hn & ->). by apply etcd_GetLease_held.
  - intros s m v p Hwf Hn Hm Hp. by apply etcd_Acquire_laws.
  - intros s m v p Hwf Hn. by apply etcd_Acquire_laws.
  - intros s m v p idx Hwf Hc Hm Hp. apply etcd_Steal_laws; eauto.
  - intros s m v p idx Hwf Hi Hc. by apply etcd_Steal_laws.
  - intros s l p Hwf Hh Hc Hm Hp. by apply etcd_Renew_laws.
  - intros s l p Hwf Hh Hc. by apply etcd_Renew_laws.
  - intros s l Hwf Hh Hc. by apply etcd_Release_laws.
  - intros s l Hwf Hh Hc. by apply etcd_Release_laws.
Qed.

End etcd_lease.
