(* ===== verification/EtcdRegistry.v ===== *)
(** * [registry/*.go]: the registry kept in etcd

    Units, their files, their schedule, states and heartbeats, and the machines,
    as keys of an etcd ([Etcd]); how the trees that etcd answers with are read,
    and the invariant that the operations of the registry preserve. *)

From stdpp Require Import base list gmap strings.
From Stdlib Require Import Ascii ZArith.
From S2P Require Import Prelude GoStrings GoPath Pkg UnitFile Job Machine Cluster Engine Etcd Lease Leadership.

Definition DefaultKeyPrefix : string := "/_coreos.com/fleet/".
Definition jobPrefix : string := "job".
Definition machinePrefix : string := "machines".
Definition unitPrefix : string := "/unit/".
Definition statePrefix : string := "/state/".
Definition statesPrefix : string := "/states/".

(** ** What is stored *)

Record jobModel := mkJobModel { jm_Name : string; jm_UnitHash : Hash }.

Record unitModel := mkUnitModel { um_Raw : string }.

(** Of the machine's state, only the id is written. *)
Record unitStateModel := mkUnitStateModel {
  usm_LoadState : string; usm_ActiveState : string; usm_SubState : string;
  usm_MachineState : option MachineState; usm_UnitHash : string
}.

Definition modelToUnitState (usm : unitStateModel) (name : string) : UnitState :=
  mkUnitState usm.(usm_LoadState) usm.(usm_ActiveState) usm.(usm_SubState)
    (match usm.(usm_MachineState) with Some ms => ms.(ID) | None => "" end)
    usm.(usm_UnitHash) name.

Definition unitStateToModel (us : option UnitState) : option unitStateModel :=
  match us with
  | None => None
  | Some us =>
      if bool_decide (String.length us.(UnitHash) = 0) then None
      else Some (mkUnitStateModel us.(LoadState) us.(ActiveState) us.(SubState)
        (if bool_decide (us.(UsMachineID) ≠ "") then Some (mkMachineState us.(UsMachineID) "" ∅ ∅ "") else None)
        us.(UnitHash))
  end.

Definition determineJobState (heartbeat tgt : string) (us : option UnitState) : JobState :=
  if bool_decide (tgt = "") || bool_decide (us = None) then JobStateInactive
  else if bool_decide (heartbeat ≠ tgt) then JobStateLoaded
  else JobStateLaunched.

(** An empty dynamic value removes the key; a nil map changes nothing.  The
    loops visit each key once, so their order does not matter. *)
Definition mergeMetadata (machineMetadata : gmap string string) (dynamicMetadata : option (gmap string string))
  : gmap string string :=
  match dynamicMetadata with
  | None => machineMetadata
  | Some dynamic =>
      map_fold (λ k v final, if bool_decide (v = "") then delete k final else <[k := v]> final)
        machineMetadata dynamic
  end.

Record MUSKey := mkMUSKey { mus_Name : string; mus_MachID : string }.

#[export] Instance MUSKey_eq_dec : EqDecision MUSKey.
Proof. solve_decision. Defined.

#[export] Instance MUSKey_countable : Countable MUSKey.
Proof.
  refine (inj_countable' (λ k, (k.(mus_Name), k.(mus_MachID))) (λ '(n, m), mkMUSKey n m) _). by intros [].
Defined.

Definition MUSKeys_Less (mi mj : MUSKey) : bool :=
  string_less mi.(mus_Name) mj.(mus_Name) ||
  (bool_decide (mi.(mus_Name) = mj.(mus_Name)) && string_less mi.(mus_MachID) mj.(mus_MachID)).

(** ** Reading nodes *)

(** The value of the first child with the key; [""] if there is none. *)
Definition getValueInDir (dir : Node) (key : string) : string :=
  let valPath := path_join [dir.(Key); key] in
  match list_find (λ nd, nd.(Key) = valPath) dir.(Nodes) with
  | Some (_, nd) => nd.(Value)
  | None => ""
  end.

Definition dirToTargetMachineID (dir : Node) : string := getValueInDir dir "target".
Definition dirToTargetState (dir : Node) : string := getValueInDir dir "target-state".
Definition dirToHeartbeat (dir : Node) : string := getValueInDir dir "job-state".

Section registry.
#[local] Open Scope go_scope.
Context `{K : KeysAPI St, JJ : JSON jobModel, JU : JSON unitModel, JM : JSON MachineState, JS : JSON unitStateModel}.
Context `{DG : Digest, MR : MapRange, GS : GoSort}.
Variable keyPrefix : string.

Definition prefixed (p : list string) : string := path_join [keyPrefix; path_join p].

(** [marshal] wraps the error of [json.Marshal]; [unmarshal] likewise. *)
Definition marshal_ {A} `{JSON A} (obj : A) : res etcd_error string :=
  match marshal obj with
  | Ok encoded => Ok encoded
  | Err err => Err (OtherError ("unable to JSON-serialize object: " +:+ err))
  end.

Definition unmarshal_ {A} `{JSON A} (val : string) : res etcd_error A :=
  match unmarshal val with
  | Some obj => Ok obj
  | None => Err (OtherError "unable to JSON-deserialize object")
  end.

(** ** [registry/unit.go] *)

Definition hashedUnitPath (hash : Hash) : string := prefixed [unitPrefix; Hash_String hash].

Definition storeOrGetUnitFile (u : UnitFile) (s : St) : St * res etcd_error unit :=
  match marshal_ (mkUnitModel (UnitFile_String u)) with
  | Err err => (s, Err err)
  | Ok val =>
      let opts := mkSetOptions "" 0 PrevNoExist 0 in
      let '(s, r) := kSet (hashedUnitPath (UnitFile_Hash u)) val opts s in
      match r with
      | Ok _ => (s, Ok tt)
      | Err err => (s, if isEtcdError err ErrorCodeNodeExist then Ok tt else Err err)
      end
  end.

Definition unitFromEtcdNode (nd : Node) : option UnitFile :=
  match unmarshal_ (A := unitModel) nd.(Value) with
  | Err _ => None
  | Ok um => match NewUnitFile um.(um_Raw) with Err _ => None | Ok u => Some u end
  end.

Definition getUnitByHash (s : St) (hash : Hash) : option UnitFile :=
  match kGet (hashedUnitPath hash) (mkGetOptions true false false) s with
  | Err _ => None
  | Ok nd => unitFromEtcdNode nd
  end.

Definition unit_hash_entry (m : gmap string UnitFile) (nd : Node) : gmap string UnitFile :=
  match last (split_byte "/"%char nd.(Key)) with
  | None => m
  | Some stringHash =>
      match HashFromHexString stringHash with
      | Err _ => m
      | Ok _ => match unitFromEtcdNode nd with None => m | Some u => <[stringHash := u]> m end
      end
  end.

Definition getAllUnitsHashMap (s : St) : res etcd_error (gmap string UnitFile) :=
  let* nd := kGet (prefixed [unitPrefix]) (mkGetOptions true false true) s in
  Ok (foldl unit_hash_entry ∅ nd.(Nodes)).

(** ** [registry/unit_state.go] *)

Definition legacyUnitStatePath (jobName : string) : string := prefixed [statePrefix; jobName].
Definition unitStatesNamespace (jobName : string) : string := prefixed [statesPrefix; jobName].
Definition unitStatePath (machID jobName : string) : string := path_join [unitStatesNamespace jobName; machID].

Definition node_state (name : string) (nd : Node) : option UnitState :=
  match unmarshal_ (A := unitStateModel) nd.(Value) with
  | Err _ => None
  | Ok usm => Some (modelToUnitState usm name)
  end.

Definition dir_states (mus : gmap MUSKey UnitState) (dir : Node) : gmap MUSKey UnitState :=
  let name := path_split_file dir.(Key) in
  foldl (λ mus nd,
    match node_state name nd with
    | None => mus
    | Some us => <[mkMUSKey name (path_split_file nd.(Key)) := us]> mus
    end) mus dir.(Nodes).

Definition statesByMUSKey (s : St) : res etcd_error (gmap MUSKey UnitState) :=
  match kGet (prefixed [statesPrefix]) (mkGetOptions true false false) s with
  | Err err => if isEtcdError err ErrorCodeKeyNotFound then Ok ∅ else Err err
  | Ok nd => Ok (foldl dir_states ∅ nd.(Nodes))
  end.

(** The state in the first node, of the first directory of that name, that can
    be read. *)
Definition stateByMUSKey (uName : string) (s : St) : res etcd_error (option UnitState) :=
  match kGet (prefixed [statesPrefix]) (mkGetOptions true false false) s with
  | Err err => if isEtcdError err ErrorCodeKeyNotFound then Ok None else Err err
  | Ok nd =>
      let dirs := filter (λ dir, path_split_file dir.(Key) = uName) nd.(Nodes) in
      Ok (head (omap (node_state uName) (concat (Nodes <$> dirs))))
  end.

Definition er_UnitState (name : string) (s : St) : res etcd_error (option UnitState) := stateByMUSKey name s.

Definition er_UnitStates (s : St) : res etcd_error (list UnitState) :=
  let* mus := statesByMUSKey s in
  let sorted := go_sort MUSKeys_Less (map_to_list mus).*1 in
  Ok (omap (λ key, mus !! key) sorted).

Definition getUnitState (uName machID : string) (s : St) : res etcd_error (option UnitState) :=
  match kGet (unitStatePath machID uName) no_get_options s with
  | Err err => if isEtcdError err ErrorCodeKeyNotFound then Ok None else Err err
  | Ok nd => let* usm := unmarshal_ nd.(Value) in Ok (Some (modelToUnitState usm uName))
  end.

(** Errors are ignored. *)
Definition er_SaveUnitState (jobName : string) (us : UnitState) (ttl : Z) (s : St) : St :=
  match unitStateToModel (Some us) with
  | None => s
  | Some usm =>
      match marshal_ usm with
      | Err _ => s
      | Ok val =>
          let opts := mkSetOptions "" 0 PrevIgnore ttl in
          let s := (kSet (legacyUnitStatePath jobName) val opts s).1 in
          (kSet (unitStatePath us.(UsMachineID) jobName) val opts s).1
      end
  end.

Definition er_RemoveUnitState (jobName : string) (s : St) : St * res etcd_error unit :=
  let ignored {A} (r : res etcd_error A) :=
    match r with Ok _ => true | Err err => isEtcdError err ErrorCodeKeyNotFound end in
  let '(s, r) := kDelete (legacyUnitStatePath jobName) no_delete_options s in
  if negb (ignored r) then (s, match r with Err err => Err err | Ok _ => Ok tt end)
  else
    let '(s, r) := kDelete (unitStatesNamespace jobName) (mkDeleteOptions "" 0 true) s in
    if negb (ignored r) then (s, match r with Err err => Err err | Ok _ => Ok tt end)
    else (s, Ok tt).

(** ** [registry/job_state.go] *)

Definition jobHeartbeatPath (jobName : string) : string := prefixed [jobPrefix; jobName; "job-state"].

(** The error of a call, without its response. *)
Definition done_ {A} (r : res etcd_error A) : res etcd_error unit :=
  match r with Ok _ => Ok tt | Err err => Err err end.

Definition er_UnitHeartbeat (name machID : string) (ttl : Z) (s : St) : St * res etcd_error unit :=
  let '(s, r) := kSet (jobHeartbeatPath name) machID (mkSetOptions "" 0 PrevIgnore ttl) s in (s, done_ r).

Definition er_ClearUnitHeartbeat (name : string) (s : St) : St :=
  (kDelete (jobHeartbeatPath name) no_delete_options s).1.

(** ** [registry/job.go] *)

Definition jobTargetAgentPath (jobName : string) : string := prefixed [jobPrefix; jobName; "target"].
Definition jobTargetStatePath (jobName : string) : string := prefixed [jobPrefix; jobName; "target-state"].

(** The units by name, with their targets, and the heartbeats. *)
Definition schedule_entry (acc : gmap string string * gmap string string) (dir : Node)
  : gmap string string * gmap string string :=
  let name := path_split_file dir.(Key) in
  (<[name := dirToTargetMachineID dir]> acc.1, <[name := dirToHeartbeat dir]> acc.2).

Definition er_Schedule (t : moment) (s : St) : res etcd_error (list ScheduledUnit) :=
  match kGet (prefixed [jobPrefix]) (mkGetOptions true true false) s with
  | Err err => if isEtcdError err ErrorCodeKeyNotFound then Ok [] else Err err
  | Ok nd =>
      let '(uMap, heartbeats) := foldl schedule_entry (∅, ∅) nd.(Nodes) in
      let* states := statesByMUSKey s in
      let sortable := go_sort string_less (range t uMap).*1 in
      Ok (omap (λ name,
        (λ tgt, mkScheduledUnit name
           (Some (determineJobState (default "" (heartbeats !! name)) tgt (states !! mkMUSKey name tgt))) tgt)
        <$> uMap !! name) sortable)
  end.

Definition getUnitFromObjectNode (nd : Node) (unitHashLookupFunc : Hash → option UnitFile)
  : res etcd_error (option Unit) :=
  let* jm := unmarshal_ (A := jobModel) nd.(Value) in
  match unitHashLookupFunc jm.(jm_UnitHash) with
  | None => Ok None
  | Some u => Ok (Some (mkUnit jm.(jm_Name) u ""))
  end.

(** The object node is the last child with the key. *)
Definition dirToUnit (dir : Node) (unitHashLookupFunc : Hash → option UnitFile) : res etcd_error (option Unit) :=
  let objKey := path_join [dir.(Key); "object"] in
  match last (filter (λ nd, nd.(Key) = objKey) dir.(Nodes)) with
  | None => Ok None
  | Some objNode =>
      let* u := getUnitFromObjectNode objNode unitHashLookupFunc in
      match u with
      | None => Err (OtherError ("unable to parse Unit in Registry at key " +:+ objKey))
      | Some u =>
          let tgtstate := dirToTargetState dir in
          if bool_decide (tgtstate ≠ "") then
            match ParseJobState tgtstate with
            | Err e => Err (OtherError ("failed to parse Unit(" +:+ u.(UName) +:+ ") target-state: " +:+ e))
            | Ok ts => Ok (Some (mkUnit u.(UName) u.(UUnit) ts))
            end
          else Ok (Some u)
      end
  end.

(** A directory that cannot be read, or has no object, is skipped. *)
Definition er_Units (s : St) : res etcd_error (list Unit) :=
  match kGet (prefixed [jobPrefix]) (mkGetOptions true true false) s with
  | Err err => if isEtcdError err ErrorCodeKeyNotFound then Ok [] else Err err
  | Ok nd =>
      let* hashToUnit := getAllUnitsHashMap s in
      let unitHashLookupFunc hash := hashToUnit !! Hash_String hash in
      Ok (omap (λ dir, match dirToUnit dir unitHashLookupFunc with Ok u => u | Err _ => None end) nd.(Nodes))
  end.

Definition er_Unit (name : string) (s : St) : res etcd_error (option Unit) :=
  match kGet (prefixed [jobPrefix; name]) (mkGetOptions true false false) s with
  | Err err => if isEtcdError err ErrorCodeKeyNotFound then Ok None else Err err
  | Ok nd => dirToUnit nd (getUnitByHash s)
  end.

Definition er_ScheduledUnit (name : string) (s : St) : res etcd_error (option ScheduledUnit) :=
  match kGet (prefixed [jobPrefix; name]) (mkGetOptions true false false) s with
  | Err err => if isEtcdError err ErrorCodeKeyNotFound then Ok None else Err err
  | Ok nd =>
      let tgt := dirToTargetMachineID nd in
      let* us := if bool_decide (0 < String.length tgt) then getUnitState name tgt s else Ok None in
      Ok (Some (mkScheduledUnit name (Some (determineJobState (dirToHeartbeat nd) tgt us)) tgt))
  end.

Definition er_UnscheduleUnit (name machID : string) (s : St) : St * res etcd_error unit :=
  let '(s, r) := kDelete (jobTargetAgentPath name) (mkDeleteOptions machID 0 false) s in
  (s, match r with
      | Err err => if isEtcdError err ErrorCodeKeyNotFound then Ok tt else Err err
      | Ok _ => Ok tt
      end).

Definition er_DestroyUnit (name : string) (s : St) : St * res etcd_error unit :=
  let '(s, r) := kDelete (prefixed [jobPrefix; name]) (mkDeleteOptions "" 0 true) s in
  match r with
  | Err err =>
      (s, Err (if isEtcdError err ErrorCodeKeyNotFound then OtherError "job does not exist" else err))
  | Ok _ => (s, Ok tt)
  end.

Definition er_SetUnitTargetState (name : string) (state : JobState) (s : St) : St * res etcd_error unit :=
  let '(s, r) := kSet (jobTargetStatePath name) state no_set_options s in (s, done_ r).

Definition er_CreateUnit (u : Unit) (s : St) : St * res etcd_error unit :=
  let '(s, r) := storeOrGetUnitFile u.(UUnit) s in
  match r with
  | Err err => (s, Err err)
  | Ok _ =>
      match marshal_ (mkJobModel u.(UName) (UnitFile_Hash u.(UUnit))) with
      | Err err => (s, Err err)
      | Ok val =>
          let '(s, r) := kSet (prefixed [jobPrefix; u.(UName); "object"]) val (mkSetOptions "" 0 PrevIgnore 0) s in
          match r with
          | Err err => (s, Err err)
          | Ok _ => er_SetUnitTargetState u.(UName) u.(UTargetState) s
          end
      end
  end.

Definition er_ScheduleUnit (name machID : string) (s : St) : St * res etcd_error unit :=
  let '(s, r) := kSet (jobTargetAgentPath name) machID (mkSetOptions "" 0 PrevNoExist 0) s in (s, done_ r).

(** ** [registry/machine.go] *)

Definition read_metadata (nodes : list Node) : gmap string string :=
  foldl (λ m nd, <[path_base nd.(Key) := nd.(Value)]> m) ∅ nodes.

Definition empty_machine : MachineState := mkMachineState "" "" ∅ ∅ "".

(** The children are visited in order; a directory has at most one object and
    one metadata directory. *)
Fixpoint read_machine_nodes (nodes : list Node) (mach : MachineState) (metadata : option (gmap string string))
  : res etcd_error (MachineState * option (gmap string string)) :=
  match nodes with
  | [] => Ok (mach, metadata)
  | obj :: nodes =>
      if has_suffix "/object" obj.(Key) then
        let* mach := unmarshal_ (A := MachineState) obj.(Value) in read_machine_nodes nodes mach metadata
      else if has_suffix "/metadata" obj.(Key) then
        read_machine_nodes nodes mach (Some (read_metadata obj.(Nodes)))
      else read_machine_nodes nodes mach metadata
  end.

Definition readMachineState (nd : Node) : res etcd_error MachineState :=
  let* read := read_machine_nodes nd.(Nodes) empty_machine None in
  let '(mach, metadata) := read in
  Ok (mkMachineState mach.(ID) mach.(PublicIP) (mergeMetadata mach.(Metadata) metadata)
        mach.(Capabilities) mach.(Machine.Version)).

Fixpoint read_machines (nodes : list Node) : res etcd_error (list MachineState) :=
  match nodes with
  | [] => Ok []
  | nd :: nodes =>
      let* mach := readMachineState nd in
      let* machs := read_machines nodes in
      Ok (if bool_decide (mach.(ID) ≠ "") then mach :: machs else machs)
  end.

Definition er_Machines (s : St) : res etcd_error (list MachineState) :=
  match kGet (prefixed [machinePrefix]) (mkGetOptions true true false) s with
  | Err err => if isEtcdError err ErrorCodeKeyNotFound then Ok [] else Err err
  | Ok nd => read_machines nd.(Nodes)
  end.

Definition machine_object (machID : string) : string := prefixed [machinePrefix; machID; "object"].

Definition er_CreateMachineState (ms : MachineState) (ttl : Z) (s : St) : St * res etcd_error Z :=
  match marshal_ ms with
  | Err err => (s, Err err)
  | Ok val =>
      let '(s, r) := kSet (machine_object ms.(ID)) val (mkSetOptions "" 0 PrevNoExist ttl) s in
      (s, match r with Err err => Err err | Ok nd => Ok nd.(ModifiedIndex) end)
  end.

Definition er_SetMachineState (ms : MachineState) (ttl : Z) (s : St) : St * res etcd_error Z :=
  match marshal_ ms with
  | Err err => (s, Err err)
  | Ok val =>
      let '(s, r) := kSet (machine_object ms.(ID)) val (mkSetOptions "" 0 PrevExist ttl) s in
      match r with
      | Ok nd => (s, Ok nd.(ModifiedIndex))
      | Err _ =>
          let '(s, r) := kSet (machine_object ms.(ID)) val (mkSetOptions "" 0 PrevNoExist ttl) s in
          (s, match r with Err err => Err err | Ok nd => Ok nd.(ModifiedIndex) end)
      end
  end.

Definition er_MachineState (machID : string) (s : St) : res etcd_error MachineState :=
  let* nd := kGet (path_join [keyPrefix; machinePrefix; machID]) (mkGetOptions true true false) s in
  readMachineState nd.

Definition er_SetMachineMetadata (machID key value : string) (s : St) : St * res etcd_error unit :=
  let '(s, r) := kSet (path_join [keyPrefix; machinePrefix; machID; "metadata"; key]) value no_set_options s in
  (s, done_ r).

Definition er_DeleteMachineMetadata (machID key : string) (s : St) : St * res etcd_error unit :=
  er_SetMachineMetadata machID key "" s.

Definition er_RemoveMachineState (machID : string) (s : St) : St * res etcd_error unit :=
  let '(s, r) := kDelete (machine_object machID) no_delete_options s in
  (s, match r with
      | Err err => if isEtcdError err ErrorCodeKeyNotFound then Ok tt else Err err
      | Ok _ => Ok tt
      end).

(** ** [registry/version.go] *)

Definition engineVersionPath : string := prefixed ["/engine/version"].

Definition er_EngineVersion (s : St) : res etcd_error Z :=
  match kGet engineVersionPath no_get_options s with
  | Err err => if isEtcdError err ErrorCodeKeyNotFound then Ok 0%Z else Err err
  | Ok nd => match Atoi nd.(Value) with Some v => Ok v | None => Err (OtherError nd.(Value)) end
  end.

Definition er_UpdateEngineVersion (from to : Z) (s : St) : St * res etcd_error unit :=
  let '(s, r) := kSet engineVersionPath (Itoa to) (mkSetOptions (Itoa from) 0 PrevIgnore 0) s in
  match r with
  | Ok _ => (s, Ok tt)
  | Err err =>
      if negb (isEtcdError err ErrorCodeKeyNotFound) then (s, Err err)
      else
        let '(s, r) := kSet engineVersionPath (Itoa to) (mkSetOptions "" 0 PrevNoExist 0) s in (s, done_ r)
  end.

End registry.

(** The elements of a key are good. *)
Ltac good_key := repeat (apply Forall_cons_2; [first [assumption | by split_and!]|]); apply Forall_nil_2.

(** Membership in a list that is written out. *)
Ltac in_list := repeat first [by apply list_elem_of_here | apply list_elem_of_further].

(** ** Reading the tree of an answer *)

Section trees.
Context `{K : KeysAPI St, KV : !KeysView St, KL : !KeysLaws K KV}.
Implicit Types (s : St) (l : list string).

Lemma tree_node s l nd : tree_for s l nd → ∃ n, kv_at s l = Some n ∧ node_for (kv_now s) l n nd.
Proof. intros []; eauto. Qed.

Lemma tree_key s l nd : tree_for s l nd → nd.(Key) = key_of l.
Proof. intros (n & _ & Hk & _)%tree_node. done. Qed.

(** The children of a directory: each is the tree of the key below it, and every
    key below that is not hidden has one. *)
Lemma tree_children s l nd :
  tree_for s l nd →
  (∀ c, c ∈ nd.(Nodes) → ∃ x, tree_for s (l ++ [x]) c) ∧
  (∀ x, kv_wf s → is_Some (kv_at s (l ++ [x])) → hidden x = false → ∃ c, c ∈ nd.(Nodes) ∧ tree_for s (l ++ [x]) c).
Proof.
  intros [n Hn Hd Hnd ->|n names Hn Hd Hnd Hdup Hnames Hall].
  - split; [by intros c ?%not_elem_of_nil|]. intros x Hwf [m Hm] _.
    destruct (kv_parent s l x m Hwf Hm) as (d & Hd' & Hdd). congruence.
  - split.
    + intros c [i Hi]%list_elem_of_lookup. destruct (Forall2_lookup_r _ _ _ _ _ Hall Hi) as (x & _ & Hx). eauto.
    + intros x _ Hx Hh. pose proof (proj2 (Hnames x) (conj Hx Hh)) as [i Hi]%list_elem_of_lookup.
      destruct (Forall2_lookup_l _ _ _ _ _ Hall Hi) as (c & Hc & Ht). exists c. split; [by eapply list_elem_of_lookup_2|done].
Qed.

(** A child has an element of a path for a name, which etcd lists. *)
Lemma tree_child_listed s l nd c :
  kv_wf s → tree_for s l nd → c ∈ nd.(Nodes) → ∃ x, tree_for s (l ++ [x]) c ∧ good_elem x ∧ hidden x = false.
Proof.
  intros Hwf [n Hn Hd Hnd E|n names Hn Hd Hnd Hdup Hnames Hall] Hc; [rewrite E in Hc; by apply not_elem_of_nil in Hc|].
  apply list_elem_of_lookup in Hc as [i Hi]. destruct (Forall2_lookup_r _ _ _ _ _ Hall Hi) as (x & Hx & Ht).
  exists x. apply list_elem_of_lookup_2, Hnames in Hx as [[n' Hn'] Hh]. split_and!; [done| |done].
  apply (kv_good _ _ _ Hwf), Forall_app in Hn' as [_ Hg]. by apply Forall_cons in Hg as [? _].
Qed.

(** Children are told apart by their keys. *)
Lemma tree_child_name s l x y c c' :
  kv_wf s → tree_for s (l ++ [x]) c → tree_for s (l ++ [y]) c' → c.(Key) = c'.(Key) → x = y.
Proof.
  intros Hwf (n & Hn & Hk & _)%tree_node (n' & Hn' & Hk' & _)%tree_node E.
  rewrite Hk, Hk' in E. apply key_of_inj in E; [|by eapply kv_good|by eapply kv_good].
  by apply app_inj_tail in E as [_ ->].
Qed.

Lemma tree_name s l x c : kv_wf s → tree_for s (l ++ [x]) c → path_split_file c.(Key) = x.
Proof.
  intros Hwf (n & Hn & Hk & _)%tree_node. rewrite Hk. apply path_split_file_key.
  apply (kv_good _ _ _ Hwf), Forall_app in Hn as [_ Hx]. by apply Forall_cons in Hx as [? _].
Qed.

(** Looking for the child of a name: the last one of the nodes that satisfy a
    test that only that child passes. *)
Lemma tree_last_child s l nd x (P : Node → Prop) `{∀ c, Decision (P c)} :
  kv_wf s → tree_for s l nd → hidden x = false → (∀ y c, tree_for s (l ++ [y]) c → P c ↔ y = x) →
  match last (filter P nd.(Nodes)) with
  | Some c => tree_for s (l ++ [x]) c
  | None => kv_at s (l ++ [x]) = None
  end.
Proof.
  intros Hwf Ht Hh HP. destruct (tree_children _ _ _ Ht) as [Hc1 Hc2]. destruct (last _) as [c|] eqn:El.
  - apply last_Some_elem_of, list_elem_of_filter in El as [Hc Hin]. destruct (Hc1 c Hin) as [y Hy].
    by apply (HP y c Hy) in Hc as ->.
  - apply last_None in El. destruct (kv_at s (l ++ [x])) as [n|] eqn:En; [|done]. exfalso.
    destruct (Hc2 x Hwf) as (c & Hc & Htc); [by rewrite En|done|]. apply (not_elem_of_nil c). rewrite <- El.
    apply list_elem_of_filter. split; [by apply (HP x c Htc)|done].
Qed.

(** A child is the one with the key. *)
Lemma tree_key_name s l x y c :
  kv_wf s → good_elem x → tree_for s (l ++ [y]) c → c.(Key) = key_of (l ++ [x]) ↔ y = x.
Proof.
  intros Hwf Hx (n & Hn & Hk & _)%tree_node. rewrite Hk. split; [|by intros ->].
  pose proof (kv_good _ _ _ Hwf Hn) as Hg. intros E. apply key_of_inj in E; [|done|].
  - by apply app_inj_tail in E as [_ ->].
  - apply Forall_app in Hg as [Hg _]. apply Forall_app_2; [done|by constructor].
Qed.

(** Looking up a name in a directory. *)
Lemma getValueInDir_at s l nd x :
  kv_wf s → tree_for s l nd → good_elem x → hidden x = false →
  getValueInDir nd x = default "" (kv_value <$> kv_at s (l ++ [x])).
Proof.
  intros Hwf Ht Hx Hh. pose proof (tree_children _ _ _ Ht) as [Hc1 Hc2].
  pose proof Ht as (n & Hn & Hk & _)%tree_node. pose proof (kv_good _ _ _ Hwf Hn) as Hg.
  unfold getValueInDir. rewrite Hk, path_join_child by done.
  destruct (list_find _ _) as [[i c]|] eqn:Ef.
  - apply list_find_Some in Ef as (Hi & Hck & _). destruct (Hc1 c) as [y Hy]; [by eapply list_elem_of_lookup_2|].
    pose proof Hy as (m & Hm & Hkc & _ & Hv & _)%tree_node. rewrite Hkc in Hck.
    apply key_of_inj in Hck; [|by eapply kv_good|by apply Forall_app_2; [|constructor]].
    apply app_inj_tail in Hck as [_ ->]. by rewrite Hm, Hv.
  - apply list_find_None in Ef. destruct (kv_at s (l ++ [x])) as [m|] eqn:Em; [|done].
    destruct (Hc2 x Hwf) as (c & Hc & Htc); [by rewrite Em|done|]. rewrite Forall_forall in Ef.
    destruct (Ef c Hc). by apply tree_key in Htc.
Qed.

Lemma open_key_wrote s l n s' l2 :
  wrote_key s l n s' → open_key s l2 → ¬ (l `prefix_of` l2 ∧ l ≠ l2) → open_key s' l2.
Proof.
  intros (_ & _ & _ & Hat & Hframe & Hopen) Ho Hne l' m Hp Hl' Hm.
  destruct (decide (l' `prefix_of` l)) as [Hpl|Hpl].
  - destruct (decide (l' = l)) as [->|Hll]; [by destruct Hne|]. by apply (Hopen l' m).
  - rewrite Hframe in Hm by done. by apply (Ho l' m).
Qed.

Lemma open_key_deleted s l s' l2 : deleted_key s l s' → open_key s l2 → open_key s' l2.
Proof.
  intros (_ & _ & _ & Hat) Ho l' m Hp Hl' Hm. rewrite Hat in Hm. case_decide; [done|]. by apply (Ho l' m).
Qed.

Lemma open_key_same s s' l2 : same_keys s s' → open_key s l2 → open_key s' l2.
Proof. intros (_ & _ & _ & Hat) Ho l' m Hp Hl' Hm. rewrite Hat in Hm. by apply (Ho l' m). Qed.

(** A key of the same length is not below or above another. *)
Lemma prefix_same_length (l l' : list string) : l `prefix_of` l' → length l = length l' → l = l'.
Proof. intros [k ->] E. rewrite length_app in E. destruct k; [by rewrite app_nil_r|cbn in E; lia]. Qed.

(** Reading a value that may be missing. *)
Lemma kGet_value s l o :
  kv_wf s → Forall good_elem l → open_key s l →
  match kv_at s l with
  | None => kGet (key_of l) o s = Err (EtcdError ErrorCodeKeyNotFound)
  | Some n => ∃ nd, kGet (key_of l) o s = Ok nd ∧ nd.(Value) = n.(kv_value) ∧
      (o.(go_Recursive) = true → tree_for s l nd)
  end.
Proof.
  intros Hwf Hg Ho. destruct (kv_at s l) as [n|] eqn:Hn.
  - destruct (kGet_present s l o n Hwf Hn) as (nd & Hr & Hnd & Ht). exists nd. split_and!; [done|apply Hnd|done].
  - by apply kGet_missing.
Qed.

End trees.

(** ** The keys of the registry *)

Section keys.
Variable keyPrefix : string.
Hypothesis prefix_rooted : has_prefix "/" keyPrefix = true.
Hypothesis prefix_good : Forall good_elem (path_elems keyPrefix).

(** The key below the prefix with the given elements. *)
Definition reg_key (l : list string) : list string := path_elems keyPrefix ++ l.

Lemma reg_key_good l : Forall good_elem l → Forall good_elem (reg_key l).
Proof. intros. by apply Forall_app_2. Qed.

Lemma reg_key_ne l : l ≠ [] → reg_key l ≠ [].
Proof. intros Hl E. by apply app_eq_nil in E as [_ ?]. Qed.

Lemma prefixed_key p l :
  concat (path_elems <$> p) = l → l ≠ [] → Forall good_elem l →
  prefixed keyPrefix p = key_of (reg_key l).
Proof.
  intros <- Hne Hg. unfold prefixed.
  assert (concat (path_elems <$> [keyPrefix; path_join p]) = reg_key (concat (path_elems <$> p))) as E.
  { change (concat (path_elems <$> [keyPrefix; path_join p])) with
      (path_elems keyPrefix ++ path_elems (path_join p) ++ []).
    by rewrite path_elems_path_join, app_nil_r. }
  rewrite path_join_key; rewrite ?E; [done|done|by apply reg_key_good].
Qed.

Lemma joined_key l :
  Forall good_elem l → path_join (keyPrefix :: l) = key_of (reg_key l).
Proof.
  intros Hg. assert (concat (path_elems <$> keyPrefix :: l) = reg_key l) as E.
  { change (concat _) with (path_elems keyPrefix ++ concat (path_elems <$> l)). by rewrite concat_path_elems. }
  rewrite path_join_key; rewrite ?E; [done|done|by apply reg_key_good].
Qed.

Lemma prefixed_elems l : l ≠ [] → Forall good_elem l → prefixed keyPrefix l = key_of (reg_key l).
Proof. intros Hne Hg. apply prefixed_key; [by apply concat_path_elems|done|done]. Qed.

End keys.

(** ** The state of a registry

    The files a registry keeps, and the invariant that they are files and no key
    above one of them is, which every operation preserves. *)

Inductive leaf : list string → Prop :=
| leaf_job k x : good_elem k → x ∈ ["object"; "target"; "target-state"; "job-state"] → leaf [jobPrefix; k; x]
| leaf_unit h : good_elem h → leaf ["unit"; h]
| leaf_state k : good_elem k → leaf ["state"; k]
| leaf_states k m : good_elem k → good_elem m → leaf ["states"; k; m]
| leaf_machine m : good_elem m → leaf [machinePrefix; m; "object"]
| leaf_metadata m x : good_elem m → good_elem x → leaf [machinePrefix; m; "metadata"; x]
| leaf_version : leaf ["engine"; "version"]
| leaf_lease x : good_elem x → leaf ["lease"; x].

Lemma leaf_good l : leaf l → Forall good_elem l.
Proof.
  destruct 1 as [k x ? Hx| | | | | | |]; try good_key.
  repeat apply elem_of_cons in Hx as [->|Hx]; [good_key..|]. by apply not_elem_of_nil in Hx.
Qed.

Lemma leaf_ne l : leaf l → l ≠ [].
Proof. by destruct 1. Qed.

(** No file of the registry is below another. *)
Lemma leaf_apart l l' : leaf l → leaf l' → l `prefix_of` l' → l = l'.
Proof.
  intros H H' [k E]. destruct H, H'; simplify_list_eq; try done. all: by destruct k.
Qed.

Section wf.
Context `{K : KeysAPI St, KV : !KeysView St, KL : !KeysLaws K KV}.
Variable keyPrefix : string.
Hypothesis prefix_rooted : has_prefix "/" keyPrefix = true.
Hypothesis prefix_good : Forall good_elem (path_elems keyPrefix).

Definition file_at (s : St) (l : list string) : option kv := kv_at s (reg_key keyPrefix l).

Definition registry_wf (s : St) : Prop :=
  kv_wf s ∧ ∀ l, leaf l → open_key s (reg_key keyPrefix l) ∧ ∀ n, file_at s l = Some n → n.(kv_dir) = false.

Lemma reg_key_prefix l l' : reg_key keyPrefix l `prefix_of` reg_key keyPrefix l' ↔ l `prefix_of` l'.
Proof. unfold reg_key. split; [apply prefix_app_inv|apply prefix_app]. Qed.

Lemma reg_key_inj l l' : reg_key keyPrefix l = reg_key keyPrefix l' → l = l'.
Proof. apply app_inv_head. Qed.

(** The invariant is preserved by a write to a file of the registry, by deleting
    and by a request that is refused. *)
Lemma wrote_wf s l n s' :
  registry_wf s → leaf l → n.(kv_dir) = false → wrote_key s (reg_key keyPrefix l) n s' → registry_wf s'.
Proof.
  intros [Hwf Ho] Hl Hd Hw. pose proof Hw as (Hwf' & _ & _ & Hat & Hframe & _).
  split; [done|]. intros l' Hl'. destruct (Ho l' Hl') as [Ho' Hf']. split.
  - eapply open_key_wrote; [done|done|]. intros [Hp Hn].
    rewrite reg_key_prefix in Hp. by rewrite (leaf_apart l l' Hl Hl' Hp) in Hn.
  - intros n'. unfold file_at. destruct (decide (l' = l)) as [->|Hll]; [rewrite Hat; by intros [= <-]|].
    rewrite Hframe; [apply Hf'|]. rewrite reg_key_prefix. intros Hp. exact (Hll (leaf_apart l' l Hl' Hl Hp)).
Qed.

Lemma deleted_wf s k s' : registry_wf s → deleted_key s k s' → registry_wf s'.
Proof.
  intros [Hwf Ho] Hd. split; [apply Hd|]. intros l' Hl'. destruct (Ho l' Hl') as [Ho' Hf'].
  split; [by eapply open_key_deleted|]. intros n. unfold file_at. destruct Hd as (_ & _ & _ & ->).
  case_decide; [done|]. apply Hf'.
Qed.

Lemma same_wf s s' : registry_wf s → same_keys s s' → registry_wf s'.
Proof.
  intros [Hwf Ho] Hs. split; [apply Hs|]. intros l' Hl'. destruct (Ho l' Hl') as [Ho' Hf'].
  split; [by eapply open_key_same|]. intros n. unfold file_at. destruct Hs as (_ & _ & _ & ->). apply Hf'.
Qed.

(** What a [Set] on a file of the registry does. *)
Lemma set_leaf s l v o :
  registry_wf s → leaf l → (o.(so_TTL) ≤ 0 ∨ second ≤ o.(so_TTL))%Z →
  let '(s', r) := kSet (key_of (reg_key keyPrefix l)) v o s in
  registry_wf s' ∧
  match set_check o (file_at s l) with
  | None => is_ok r = true ∧
      (∃ n, file_at s' l = Some n ∧ n.(kv_value) = v ∧ n.(kv_expires) = expiration (kv_now s) o.(so_TTL)) ∧
      ∀ l', ¬ l' `prefix_of` l → file_at s' l' = file_at s l'
  | Some c => r = Err (EtcdError c) ∧ ∀ l', file_at s' l' = file_at s l'
  end.
Proof.
  intros Hrwf Hl Ht. pose proof Hrwf as [Hwf Ho]. pose proof (reg_key_good keyPrefix prefix_good _ (leaf_good _ Hl)) as Hg.
  pose proof (reg_key_ne keyPrefix l (leaf_ne _ Hl)) as Hne. unfold file_at.
  destruct (set_check o (kv_at s (reg_key keyPrefix l))) as [c|] eqn:Hc.
  - destruct (kSet_refused s _ v o c Hwf Hne Hg (proj1 (Ho l Hl)) Hc) as [Hr Hs]. destruct (kSet _ _ _ _) as [s' r].
    cbn in Hr, Hs. subst r. split; [by eapply same_wf|split; [done|intros l'; apply Hs]].
  - destruct (kSet_done s _ v o Hwf Hne Hg (proj1 (Ho l Hl)) Hc Ht) as (idx & nd & Hr & _ & Hw). destruct (kSet _ _ _ _) as [s' r].
    cbn in Hr, Hw. subst r. pose proof Hw as (Hwf' & _ & _ & Hat & Hframe & _). split; [by refine (wrote_wf s l _ s' Hrwf Hl _ Hw)|split; [done|split]].
    + eexists. by split_and!.
    + intros l' Hl'. apply Hframe. by rewrite reg_key_prefix.
Qed.

(** What a [Delete] of a file, or of a directory with all below it, does. *)
Lemma delete_below s l o :
  registry_wf s → l ≠ [] → Forall good_elem l → open_key s (reg_key keyPrefix l) →
  let '(s', r) := kDelete (key_of (reg_key keyPrefix l)) o s in
  registry_wf s' ∧
  match delete_check o (file_at s l) with
  | None => is_ok r = true ∧ ∀ l', file_at s' l' = if decide (l `prefix_of` l') then None else file_at s l'
  | Some c => r = Err (EtcdError c) ∧ ∀ l', file_at s' l' = file_at s l'
  end.
Proof.
  intros Hrwf Hl Hgl Hop. pose proof Hrwf as [Hwf Ho]. pose proof (reg_key_good keyPrefix prefix_good _ Hgl) as Hg.
  pose proof (reg_key_ne keyPrefix l Hl) as Hne. unfold file_at.
  destruct (delete_check o (kv_at s (reg_key keyPrefix l))) as [c|] eqn:Hc.
  - destruct (kDelete_refused s _ o c Hwf Hne Hg Hop Hc) as [Hr Hs]. destruct (kDelete _ _ _) as [s' r].
    cbn in Hr, Hs. subst r. split; [by eapply same_wf|split; [done|intros l'; apply Hs]].
  - destruct (kDelete_done s _ o Hwf Hne Hg Hop Hc) as [Hr Hd]. destruct (kDelete _ _ _) as [s' r].
    cbn in Hr, Hd. pose proof Hd as (Hwf' & _ & _ & Hat). split; [by eapply deleted_wf|split; [done|]].
    intros l'. rewrite Hat. pose proof (reg_key_prefix l l') as Hp. repeat case_decide; tauto.
Qed.

Lemma delete_leaf s l o :
  registry_wf s → leaf l →
  let '(s', r) := kDelete (key_of (reg_key keyPrefix l)) o s in
  registry_wf s' ∧
  match delete_check o (file_at s l) with
  | None => is_ok r = true ∧ ∀ l', file_at s' l' = if decide (l `prefix_of` l') then None else file_at s l'
  | Some c => r = Err (EtcdError c) ∧ ∀ l', file_at s' l' = file_at s l'
  end.
Proof.
  intros Hwf Hl. apply delete_below; [done|by apply leaf_ne|by apply leaf_good|by apply Hwf].
Qed.

(** A key above a file of the registry is open too. *)
Lemma open_above s l l' : registry_wf s → leaf (l ++ l') → open_key s (reg_key keyPrefix l).
Proof.
  intros [_ Ho] Hl k n Hp Hne Hn. eapply (proj1 (Ho _ Hl) k n); [| |done].
  - etrans; [done|]. apply reg_key_prefix. by exists l'.
  - intros ->. apply Hne, prefix_same_length; [done|]. apply prefix_length in Hp.
    unfold reg_key in *. rewrite !length_app in *. lia.
Qed.

(** Reading a key that is above a file, or is one. *)
Lemma get_at s l l' o :
  registry_wf s → leaf (l ++ l') →
  match file_at s l with
  | None => kGet (key_of (reg_key keyPrefix l)) o s = Err (EtcdError ErrorCodeKeyNotFound)
  | Some n => ∃ nd, kGet (key_of (reg_key keyPrefix l)) o s = Ok nd ∧ nd.(Value) = n.(kv_value) ∧
      (o.(go_Recursive) = true → tree_for s (reg_key keyPrefix l) nd)
  end.
Proof.
  intros Hwf Hl. apply kGet_value; [apply Hwf| |by eapply open_above].
  apply reg_key_good; [done|]. apply leaf_good, Forall_app in Hl as [? _]. done.
Qed.

(** A missing directory has nothing below it. *)
Lemma file_below s l x : registry_wf s → file_at s l = None → file_at s (l ++ [x]) = None.
Proof.
  intros [Hwf _]. unfold file_at, reg_key. rewrite app_assoc. intros Hn.
  destruct (kv_at s ((path_elems keyPrefix ++ l) ++ [x])) as [m|] eqn:E; [|done].
  apply kv_parent in E as (d & Hd & _); [congruence|done].
Qed.

(** A key with an odd element is never present. *)
Lemma bad_file s l x : registry_wf s → ¬ good_elem x → file_at s (l ++ [x]) = None.
Proof.
  intros [Hwf _] Hx. unfold file_at, reg_key. rewrite app_assoc. destruct (kv_at s _) as [n|] eqn:E; [|done].
  apply (kv_good _ _ _ Hwf), Forall_app in E as [_ E]. by apply Forall_cons in E as [? _].
Qed.

Lemma reg_key_snoc l x : reg_key keyPrefix l ++ [x] = reg_key keyPrefix (l ++ [x]).
Proof. unfold reg_key. by rewrite app_assoc. Qed.

Lemma value_in_dir s l nd x :
  registry_wf s → tree_for s (reg_key keyPrefix l) nd → good_elem x → hidden x = false →
  getValueInDir nd x = default "" (kv_value <$> file_at s (l ++ [x])).
Proof.
  intros [Hwf _] Ht Hx Hh. rewrite (getValueInDir_at _ _ _ _ Hwf Ht Hx Hh). by rewrite reg_key_snoc.
Qed.

End wf.
