(* ===== verification/Events.v ===== *)
(** * [registry/event.go], [pkg/reconcile.go]: events and the loop of the reconcilers

    The stream of events is a watch on the jobs in etcd.  The loop runs a function at
    least every interval, and when there is an event; its two goroutines and their
    channel are a step relation, in which the function takes any time. *)

From stdpp Require Import base list gmap strings.
From Stdlib Require Import ZArith Lia Ascii.
From S2P Require Import Prelude GoStrings GoPath Pkg UnitFile Job Etcd EtcdRegistry.

(** ** [event.go] *)

Inductive event := JobTargetChangeEvent | JobTargetStateChangeEvent.

(** [key] is the key of the node of the response, if there is a response with one. *)
Definition event_parse (key : option string) (prefix : string) : option event :=
  match key with
  | None => None
  | Some key =>
      if negb (has_prefix (path_join [prefix; jobPrefix]) key) then None
      else if decide (path_base key = "target-state") then Some JobTargetStateChangeEvent
      else if decide (path_base key = "target") then Some JobTargetChangeEvent
      else None
  end.

(** The answers of the watcher, one after the other: a key, or an error.  A second
    passes after each, whether or not it is an error.  [None]: no key among them. *)
Fixpoint event_watch (answers : list (option string)) : option (string * Z * list (option string)) :=
  match answers with
  | [] => None
  | Some key :: rest => Some (key, 1%Z, rest)
  | None :: rest => '(key, slept, rest) ← event_watch rest; Some (key, (slept + 1)%Z, rest)
  end.

(** [Next] without a stop: the event and the seconds that were slept. *)
Fixpoint event_Next (fuel : nat) (prefix : string) (answers : list (option string)) : option (event * Z * list (option string)) :=
  match fuel with
  | 0 => None
  | S fuel =>
      '(key, slept, rest) ← event_watch answers;
      match event_parse (Some key) prefix with
      | Some ev => Some (ev, slept, rest)
      | None => '(ev, more, rest) ← event_Next fuel prefix rest; Some (ev, (slept + more)%Z, rest)
      end
  end.

(** ** [reconcile.go]

    [rc_last] and [rc_end] are the start and the end of the last call of the function,
    [rc_busy] whether it runs; [rc_pending] is when the event came that the other
    goroutine now offers; [rc_stop] whether the channel is closed. *)
Record rec_state := mkRecState {
  rc_now : Z; rc_ticker : Z; rc_last : Z; rc_end : Z; rc_busy : bool; rc_pending : option Z; rc_stop : bool; rc_done : bool
}.

Section reconciler.
#[local] Open Scope Z_scope.
Variables (ival : Z) (stream : bool).

(** The function is called and takes [d]. *)
Definition rec_run (d : Z) (pending : option Z) (s : rec_state) : rec_state :=
  mkRecState s.(rc_now) (s.(rc_now) + ival) s.(rc_now) (s.(rc_now) + d) true pending s.(rc_stop) false.

(** The first call is at the start. *)
Definition rec_init (now d : Z) : rec_state := mkRecState now (now + ival) now (now + d) true None false false.

Inductive rec_step : rec_state → rec_state → Prop :=
| rec_pass t s : s.(rc_now) ≤ t → s.(rc_done) = false →
    (if s.(rc_busy) then t ≤ s.(rc_end) else s.(rc_pending) = None ∧ s.(rc_stop) = false ∧ t ≤ s.(rc_ticker)) →
    rec_step s (mkRecState t s.(rc_ticker) s.(rc_last) s.(rc_end) s.(rc_busy) s.(rc_pending) s.(rc_stop) s.(rc_done))
| rec_finish s : s.(rc_busy) = true → s.(rc_now) = s.(rc_end) →
    rec_step s (mkRecState s.(rc_now) s.(rc_ticker) s.(rc_last) s.(rc_end) false s.(rc_pending) s.(rc_stop) s.(rc_done))
| rec_tick d s : 0 ≤ d → s.(rc_busy) = false → s.(rc_done) = false → s.(rc_ticker) ≤ s.(rc_now) → rec_step s (rec_run d s.(rc_pending) s)
| rec_trigger d s t : 0 ≤ d → s.(rc_busy) = false → s.(rc_done) = false → s.(rc_pending) = Some t → rec_step s (rec_run d None s)
| rec_event s : stream = true → s.(rc_pending) = None → s.(rc_stop) = false →
    rec_step s (mkRecState s.(rc_now) s.(rc_ticker) s.(rc_last) s.(rc_end) s.(rc_busy) (Some s.(rc_now)) s.(rc_stop) s.(rc_done))
| rec_stopping s :
    rec_step s (mkRecState s.(rc_now) s.(rc_ticker) s.(rc_last) s.(rc_end) s.(rc_busy) s.(rc_pending) true s.(rc_done))
| rec_exit s : s.(rc_busy) = false → s.(rc_stop) = true →
    rec_step s (mkRecState s.(rc_now) s.(rc_ticker) s.(rc_last) s.(rc_end) false s.(rc_pending) true true).

Definition rec_reachable (s : rec_state) : Prop := ∃ now d, 0 ≤ d ∧ rtc rec_step (rec_init now d) s.

(** What holds between the calls. *)
Definition rec_inv (s : rec_state) : Prop :=
  s.(rc_last) ≤ s.(rc_now) ∧ s.(rc_last) ≤ s.(rc_end) ∧ s.(rc_ticker) = s.(rc_last) + ival ∧
  (s.(rc_busy) = true → s.(rc_now) ≤ s.(rc_end)) ∧ (s.(rc_busy) = false → s.(rc_end) ≤ s.(rc_now)) ∧
  s.(rc_now) ≤ Z.max (s.(rc_last) + ival) s.(rc_end) ∧
  ∀ t, s.(rc_pending) = Some t → t ≤ s.(rc_now) ≤ Z.max t s.(rc_end).

Lemma rec_inv_step s s' : 0 ≤ ival → rec_inv s → rec_step s s' → rec_inv s'.
Proof.
  intros Hi (H1 & H2 & H3 & H4 & H5 & H6 & H7) Hstep.
  destruct Hstep as [t x Ht Hd Hp|x Hb Hn|d x Hd Hb _ Ht|d x t Hd Hb _ Hp|x _ Hp _|x|x Hb Hs]; unfold rec_inv; cbn.
  - destruct (rc_busy x); [|destruct Hp as (Hp & _ & Hp')]; split_and!; try done; try lia.
    + intros t' Hpt. specialize (H7 t' Hpt). lia.
    + by rewrite Hp.
  - split_and!; try done; lia.
  - split_and!; try done; try lia. intros t' Hpt. specialize (H7 t' Hpt). lia.
  - split_and!; try done; lia.
  - split_and!; try done. intros t' [= <-]. lia.
  - split_and!; done.
  - split_and!; try done; intros; auto.
Qed.

Lemma rec_reachable_inv s : 0 ≤ ival → rec_reachable s → rec_inv s.
Proof.
  intros Hi (now & d & Hd & Hsteps). assert (rec_inv (rec_init now d)) as H0.
  { unfold rec_inv, rec_init. cbn. split_and!; try done; lia. }
  revert H0. induction Hsteps as [s|s s' s'' Hstep _ IH]; [done|]. intros H0. apply IH. by eapply rec_inv_step.
Qed.

(** C35: in any run of the loop, the function is called again at most an interval after
    its last call began, or as soon as that call ends, if it took longer; and an event
    is acted on at once, or when the call ends during which it came. *)
Theorem reconciler_in_time s s' : 0 ≤ ival → rec_reachable s → rec_step s s' → s.(rc_busy) = false → s'.(rc_busy) = true →
  s'.(rc_last) - s.(rc_last) ≤ Z.max ival (s.(rc_end) - s.(rc_last)) ∧
  ∀ t, s.(rc_pending) = Some t → s'.(rc_last) = Z.max t s.(rc_end).
Proof.
  intros Hi Hr Hstep Hb Hb'. assert (s'.(rc_last) = s.(rc_now)) as ->.
  { destruct Hstep; cbn in *; try congruence. }
  destruct (rec_reachable_inv s Hi Hr) as (H1 & H2 & H3 & H4 & H5 & H6 & H7). specialize (H5 Hb).
  split; [lia|]. intros t Ht. specialize (H7 t Ht). lia.
Qed.

(** The loop does not stop by itself: unless it was told to stop, it can always go
    on, and when it waits, it waits for a tick no later than an interval from now. *)
Theorem reconciler_live s : 0 ≤ ival → rec_reachable s → s.(rc_done) = false → s.(rc_stop) = false → s.(rc_busy) = false →
  ∃ s1 s2, (s1 = s ∨ rec_step s s1) ∧ s1.(rc_now) ≤ s.(rc_now) + ival ∧ rec_step s1 s2 ∧ s2.(rc_last) = s1.(rc_now) ∧ s2.(rc_busy) = true.
Proof.
  intros Hi Hr Hd Hs Hb. destruct (rec_reachable_inv s Hi Hr) as (H1 & H2 & H3 & H4 & H5 & H6 & H7).
  destruct (rc_pending s) as [t|] eqn:Hp.
  - exists s, (rec_run 0 None s). split_and!; [by left|lia|by eapply rec_trigger|done|done].
  - destruct (decide (s.(rc_ticker) ≤ s.(rc_now))) as [Ht|Ht].
    + exists s, (rec_run 0 (rc_pending s) s). split_and!; [by left|lia|by apply rec_tick|done|done].
    + eexists (mkRecState s.(rc_ticker) s.(rc_ticker) s.(rc_last) s.(rc_end) s.(rc_busy) s.(rc_pending) s.(rc_stop) s.(rc_done)), _. split_and!.
      * right. apply rec_pass; [lia|done|]. by rewrite Hb, Hp, Hs.
      * cbn. lia.
      * by apply (rec_tick 0).
      * done.
      * done.
Qed.
End reconciler.

(** ** Which writes are events *)

Lemma join_byte_app c l1 l2 : l1 ≠ [] → ∃ t, join_byte c (l1 ++ l2) = join_byte c l1 +:+ t.
Proof.
  induction l1 as [|x l1 IH]; [done|]. intros _. destruct l1 as [|y l1].
  - destruct l2 as [|z l2]; [exists ""; by rewrite str_app_nil_r|]. by eexists.
  - destruct IH as [t Ht]; [done|]. exists t. change ((x :: y :: l1) ++ l2) with (x :: (y :: l1) ++ l2).
    change (join_byte c (x :: (y :: l1) ++ l2)) with (x +:+ String c (join_byte c ((y :: l1) ++ l2))). rewrite Ht.
    change (join_byte c (x :: y :: l1)) with (x +:+ String c (join_byte c (y :: l1))). by rewrite str_app_assoc.
Qed.

Lemma key_of_prefix l1 l2 : l1 ≠ [] → has_prefix (key_of l1) (key_of (l1 ++ l2)) = true.
Proof.
  intros Hne. apply has_prefix_spec. destruct (join_byte_app "/" l1 l2 Hne) as [t Ht]. exists t. unfold key_of. rewrite Ht. by rewrite str_app_assoc.
Qed.

Section jobs.
Variable keyPrefix : string.
Hypothesis prefix_rooted : has_prefix "/" keyPrefix = true.
Hypothesis prefix_good : Forall good_elem (path_elems keyPrefix).

Lemma event_parse_job name attr : good_elem name → good_elem attr →
  event_parse (Some (prefixed keyPrefix [jobPrefix; name; attr])) keyPrefix =
  if decide (attr = "target-state") then Some JobTargetStateChangeEvent
  else if decide (attr = "target") then Some JobTargetChangeEvent else None.
Proof.
  intros Hn Ha. assert (good_elem jobPrefix) as Hj by done.
  rewrite (prefixed_elems keyPrefix prefix_rooted prefix_good) by (done || (repeat (apply Forall_cons_2; [done|]); apply Forall_nil_2)).
  unfold event_parse, reg_key. assert (path_join [keyPrefix; jobPrefix] = key_of (path_elems keyPrefix ++ [jobPrefix])) as ->.
  { assert (concat (path_elems <$> [keyPrefix; jobPrefix]) = path_elems keyPrefix ++ [jobPrefix]) as He by reflexivity.
    rewrite path_join_key; rewrite ?He; [done|done|]. apply Forall_app_2; [done|by apply Forall_singleton]. }
  replace (path_elems keyPrefix ++ [jobPrefix; name; attr]) with ((path_elems keyPrefix ++ [jobPrefix]) ++ [name; attr]) by by rewrite <- app_assoc.
  rewrite key_of_prefix by (by destruct (path_elems keyPrefix)). cbn [negb].
  replace ((path_elems keyPrefix ++ [jobPrefix]) ++ [name; attr]) with (((path_elems keyPrefix ++ [jobPrefix]) ++ [name]) ++ [attr]) by by rewrite <- app_assoc.
  by rewrite path_base_key.
Qed.

(** Of the files of a job, those of its target machine and of its target state, and
    no others, make an event when they change: the reconcilers wake when a unit is
    scheduled or unscheduled, or its target state is set, and not for heartbeats. *)
Theorem event_parse_wakes name : good_elem name →
  event_parse (Some (jobTargetAgentPath keyPrefix name)) keyPrefix = Some JobTargetChangeEvent ∧
  event_parse (Some (jobTargetStatePath keyPrefix name)) keyPrefix = Some JobTargetStateChangeEvent ∧
  event_parse (Some (jobHeartbeatPath keyPrefix name)) keyPrefix = None ∧
  event_parse (Some (prefixed keyPrefix [jobPrefix; name; "object"])) keyPrefix = None.
Proof. intros Hn. split_and!; unfold jobTargetAgentPath, jobTargetStatePath, jobHeartbeatPath; by rewrite event_parse_job. Qed.
End jobs.

Lemma event_parse_wakes_witness :
  event_parse (Some (jobTargetAgentPath "/_coreos.com/fleet" "web.service")) "/_coreos.com/fleet" = Some JobTargetChangeEvent.
Proof. apply event_parse_wakes; [reflexivity|vm_compute; repeat constructor; discriminate|vm_compute; repeat constructor; discriminate]. Defined.

(** A loop of 5 seconds whose first call takes 2. *)
Definition ex_idle : rec_state := mkRecState 5 5 0 2 false None false false.

Lemma ex_idle_reachable : rec_reachable 5 true ex_idle.
Proof.
  exists 0%Z, 2%Z. split; [lia|]. eapply rtc_l; [apply (rec_pass 5 true 2); cbn; lia || done|]. eapply rtc_l; [by apply rec_finish|].
  eapply rtc_l; [apply (rec_pass 5 true 5); cbn; [lia|done|split_and!; [done|done|lia]]|]. apply rtc_refl.
Qed.

Lemma reconciler_in_time_witness : (rc_last (rec_run 5 1 None ex_idle) - 0 ≤ 5)%Z.
Proof.
  apply (reconciler_in_time 5 true ex_idle (rec_run 5 1 None ex_idle)); [lia|apply ex_idle_reachable| |reflexivity..].
  apply (rec_tick 5 true 1); [lia|reflexivity..|cbn; lia].
Defined.

Lemma reconciler_live_witness : ∃ s1 s2, (s1 = ex_idle ∨ rec_step 5 true ex_idle s1) ∧ rec_step 5 true s1 s2.
Proof.
  destruct (reconciler_live 5 true ex_idle) as (s1 & s2 & H1 & _ & H2 & _); [lia|apply ex_idle_reachable|reflexivity..|].
  exists s1, s2. split; [exact H1|exact H2].
Defined.

(** The watch that follows an event begins a second after the answer, and sees nothing
    of what happened in between. *)
Example ex_watch_sleeps : event_watch [Some "/fleet/job/web.service/target"; None] = Some ("/fleet/job/web.service/target", 1%Z, [None]).
Proof. reflexivity. Qed.
