(* ===== verification/EtcdSchedule.v ===== *)
(** * The schedule and the engine version in etcd

    What the engine relies on, proved of the registry kept in etcd: the laws of
    the schedule ([ScheduleLaws]) and of the engine version ([VersionLaws]). *)

From stdpp Require Import base list gmap strings.
From Stdlib Require Import Ascii ZArith.
From S2P Require Import Prelude GoStrings GoPath Pkg UnitFile Job Machine Cluster Engine Etcd Lease Leadership EtcdRegistry.

(** ** The schedule *)

Section schedule.
Context `{K : KeysAPI St, KV : !KeysView St, KL : !KeysLaws K KV}.
Context `{JJ : JSON jobModel, JU : JSON unitModel, JM : JSON MachineState, JS : JSON unitStateModel}.
Context `{DG : Digest, MR : MapRange, GS : GoSort}.
Variable keyPrefix : string.
Hypothesis prefix_rooted : has_prefix "/" keyPrefix = true.
Hypothesis prefix_good : Forall good_elem (path_elems keyPrefix).
Variable t : moment.

#[local] Abbreviation registry_wf := (registry_wf keyPrefix).
#[local] Abbreviation file_at := (file_at keyPrefix).

#[export] Instance etcd_EngineRegistry : EngineRegistry St etcd_error := {|
  reg_Units := er_Units keyPrefix;
  reg_Schedule := er_Schedule keyPrefix t;
  reg_Machines := er_Machines keyPrefix;
  reg_ScheduleUnit := er_ScheduleUnit keyPrefix;
  reg_UnscheduleUnit := er_UnscheduleUnit keyPrefix |}.

(** The names of units the registry can keep: one element of a path, which etcd
    does not hide. *)
Definition unit_name (k : string) : Prop := good_elem k ∧ hidden k = false.

Definition target_at (s : St) (k : string) : option string := kv_value <$> file_at s [jobPrefix; k; "target"].

Lemma leaf_target k : good_elem k → leaf [jobPrefix; k; "target"].
Proof. intros Hk. by constructor; [|in_list]. Qed.

Lemma target_path k : good_elem k → jobTargetAgentPath keyPrefix k = key_of (reg_key keyPrefix [jobPrefix; k; "target"]).
Proof. intros Hk. unfold jobTargetAgentPath. apply prefixed_elems; try done. good_key. Qed.

Lemma job_prefix_inj k k' x : [jobPrefix; k; x] `prefix_of` [jobPrefix; k'; x] → k = k'.
Proof. intros [r E]. by simplify_eq/=. Qed.

Lemma er_ScheduleUnit_target name m s :
  registry_wf s → unit_name name →
  let s' := (er_ScheduleUnit keyPrefix name m s).1 in
  registry_wf s' ∧ ∀ k, unit_name k →
    target_at s' k = if decide (k = name ∧ target_at s name = None) then Some m else target_at s k.
Proof.
  intros Hwf [Hn _]. unfold er_ScheduleUnit. rewrite target_path by done.
  pose proof (set_leaf keyPrefix prefix_good s [jobPrefix; name; "target"] m (mkSetOptions "" 0 PrevNoExist 0) Hwf
    (leaf_target _ Hn) (or_introl (Z.le_refl 0))) as H.
  destruct (kSet _ _ _ _) as [s' r]. cbn [fst]. destruct H as [Hwf' H]. split; [done|]. intros k Hk.
  unfold target_at. destruct (file_at s [jobPrefix; name; "target"]) as [n|] eqn:E; cbn in H.
  - destruct H as [_ H]. rewrite H, decide_False; [done|]. by intros [_ ?].
  - destruct H as (_ & (n & Hat & Hv & _) & H). destruct (decide (k = name)) as [->|Hne].
    + rewrite Hat, decide_True by done. cbn. by rewrite Hv.
    + rewrite H, decide_False; [done|tauto|]. by intros ?%job_prefix_inj.
Qed.

Lemma er_UnscheduleUnit_target name m s :
  m ≠ "" → registry_wf s → unit_name name →
  let s' := (er_UnscheduleUnit keyPrefix name m s).1 in
  registry_wf s' ∧ ∀ k, unit_name k →
    target_at s' k = if decide (k = name ∧ target_at s name = Some m) then None else target_at s k.
Proof.
  intros Hm Hwf [Hn _]. unfold er_UnscheduleUnit. rewrite target_path by done.
  pose proof (delete_leaf keyPrefix prefix_good s [jobPrefix; name; "target"] (mkDeleteOptions m 0 false) Hwf
    (leaf_target _ Hn)) as H.
  destruct (kDelete _ _ _) as [s' r]. cbn [fst]. destruct H as [Hwf' H]. split; [done|]. intros k Hk.
  unfold target_at. destruct (file_at s [jobPrefix; name; "target"]) as [n|] eqn:E; cbn in H.
  - destruct (kv_dir n) eqn:Hd; cbn in H.
    { destruct H as [_ H]. rewrite H, decide_False; [done|]. intros [_ Hv]. cbn in Hv.
      apply (kv_dir_value _ _ _ (proj1 Hwf) E) in Hd. congruence. }
    unfold conditions in H. cbn in H. rewrite (bool_decide_eq_false_2 (m = "")) in H by done. cbn in H.
    destruct (bool_decide_reflect (kv_value n = m)) as [Hv|Hv]; cbn in H; destruct H as [_ H]; rewrite H.
    + destruct (decide (k = name)) as [->|Hne]; [by rewrite decide_True, decide_True by (cbn; rewrite ?Hv; done)|].
      rewrite !decide_False; [done|tauto|]. by intros ?%job_prefix_inj.
    + rewrite decide_False; [done|]. intros [_ [= ?]]. done.
  - destruct H as [_ H]. rewrite H, decide_False; [done|]. by intros [_ ?].
Qed.

Lemma schedule_entries nodes u h :
  foldl schedule_entry (u, h) nodes =
  (foldl (λ m dir, <[path_split_file dir.(Key) := dirToTargetMachineID dir]> m) u nodes,
   foldl (λ m dir, <[path_split_file dir.(Key) := dirToHeartbeat dir]> m) h nodes).
Proof. revert u h. induction nodes as [|dir nodes IH]; intros u h; [done|]. cbn. apply IH. Qed.

Definition job_dir : list string := reg_key keyPrefix [jobPrefix].

(** The unit [k] in the map built from the directories. *)
Lemma dirs_lookup {V} (f : Node → V) s nd k :
  registry_wf s → tree_for s job_dir nd → unit_name k →
  match foldl (λ m dir, <[path_split_file dir.(Key) := f dir]> m) (@empty (gmap string V) _) nd.(Nodes) !! k with
  | Some v => ∃ c, tree_for s (reg_key keyPrefix [jobPrefix; k]) c ∧ v = f c
  | None => file_at s [jobPrefix; k] = None
  end.
Proof.
  intros [Hwf _] Ht [Hk Hh]. rewrite (lookup_foldl_insert (λ dir, path_split_file (Key dir)) f), lookup_empty.
  pose proof (tree_last_child s job_dir nd k (λ dir, path_split_file (Key dir) = k) Hwf Ht Hh) as H.
  unfold job_dir in *. rewrite reg_key_snoc in H.
  destruct (last _) as [c|]; [exists c; split; [|done]|]; apply H; intros y c' Hc'; by rewrite (tree_name _ _ _ _ Hwf Hc').
Qed.

Lemma target_missing s k : registry_wf s → file_at s [jobPrefix; k] = None → target_at s k = None.
Proof.
  intros Hwf Hn. unfold target_at.
  by rewrite (file_below keyPrefix s [jobPrefix; k] "target" Hwf Hn : file_at s [jobPrefix; k; "target"] = None).
Qed.

Lemma recorded_units (uMap : gmap string string) (f : string → string → ScheduledUnit) names k :
  (∀ n tgt, SName (f n tgt) = n ∧ STargetMachineID (f n tgt) = tgt) →
  (is_Some (uMap !! k) → k ∈ names) →
  recorded_target (omap (λ n, f n <$> uMap !! n) names) k =
  (tgt ← uMap !! k; if decide (tgt = "") then None else Some tgt).
Proof.
  intros Hf Hk. unfold recorded_target, sUnitMap. rewrite (lookup_foldl_insert SName (λ x, x)), lookup_empty.
  assert (∀ su, su ∈ filter (λ su, SName su = k) (omap (λ n, f n <$> uMap !! n) names) →
    ∃ tgt, uMap !! k = Some tgt ∧ STargetMachineID su = tgt) as Hel.
  { intros su [<- (n & Hn & Hsu)%list_elem_of_omap]%list_elem_of_filter.
    apply fmap_Some in Hsu as (tgt & Ht & ->). destruct (Hf n tgt) as [-> ->]. eauto. }
  destruct (last _) as [su|] eqn:El.
  - apply last_Some_elem_of, Hel in El as (tgt & -> & <-). done.
  - apply last_None in El. destruct (uMap !! k) as [tgt|] eqn:Ek; [|done]. exfalso.
    apply (not_elem_of_nil (f k tgt)). rewrite <- El. apply list_elem_of_filter.
    split; [apply Hf|]. apply list_elem_of_omap. exists k. split; [by apply Hk|]. by rewrite Ek.
Qed.

(** The schedule that is read is the one that is stored. *)
Lemma er_Schedule_target s l k :
  registry_wf s → unit_name k → er_Schedule keyPrefix t s = Ok l → target_at s k ≠ Some "" →
  target_at s k = recorded_target l k.
Proof.
  intros Hwf Hk Hl Hne. unfold er_Schedule in Hl.
  rewrite (prefixed_elems keyPrefix prefix_rooted prefix_good [jobPrefix]) in Hl by (done || good_key).
  pose proof (get_at keyPrefix prefix_good s [jobPrefix] [k; "target"] (mkGetOptions true true false) Hwf
    (leaf_target k (proj1 Hk))) as Hget.
  destruct (file_at s [jobPrefix]) as [n|] eqn:Hn.
  - destruct Hget as (nd & Hr & _ & Ht). rewrite Hr in Hl. specialize (Ht eq_refl).
    rewrite schedule_entries in Hl. destruct (statesByMUSKey _ s) as [states|]; [|done]. cbn in Hl.
    injection Hl as <-. pose proof (dirs_lookup dirToTargetMachineID s nd k Hwf Ht Hk) as Hu.
    set (uMap := foldl (λ m dir, <[_ := dirToTargetMachineID dir]> m) _ _) in *.
    set (hb := foldl _ _ _).
    rewrite (recorded_units uMap (λ name tgt, mkScheduledUnit name
      (Some (determineJobState (default "" (hb !! name)) tgt (states !! mkMUSKey name tgt))) tgt)); [|done|].
    + destruct (uMap !! k) as [tgt|]; cbn.
      * destruct Hu as (c & Hc & ->). unfold dirToTargetMachineID.
        rewrite (value_in_dir keyPrefix s _ c "target" Hwf Hc) by done.
        change (kv_value <$> _) with (target_at s k).
        destruct (target_at s k) as [m|]; cbn; [|done]. rewrite decide_False; [done|]. by intros ->.
      * by apply target_missing.
    + intros Hsome. rewrite go_sort_perm. apply elem_of_range_fst. by apply elem_of_dom.
  - rewrite Hget in Hl. cbn in Hl. injection Hl as <-. apply target_missing; [done|].
    by apply (file_below keyPrefix s [jobPrefix] k).
Qed.

#[export] Instance etcd_ScheduleLaws : ScheduleLaws etcd_EngineRegistry := {|
  Engine.reg_wf := registry_wf; reg_name := unit_name; reg_target := target_at;
  reg_Schedule_target := er_Schedule_target;
  reg_ScheduleUnit_target := er_ScheduleUnit_target;
  reg_UnscheduleUnit_target := er_UnscheduleUnit_target |}.

End schedule.

(** ** The engine version *)

Section version.
Context `{K : KeysAPI St, KV : !KeysView St, KL : !KeysLaws K KV}.
Variable keyPrefix : string.
Hypothesis prefix_rooted : has_prefix "/" keyPrefix = true.
Hypothesis prefix_good : Forall good_elem (path_elems keyPrefix).

#[export] Instance etcd_ClusterRegistry : ClusterRegistry St etcd_error := {|
  clr_EngineVersion := er_EngineVersion keyPrefix;
  clr_UpdateEngineVersion := er_UpdateEngineVersion keyPrefix |}.

Definition recorded_version (s : St) : Z :=
  match file_at keyPrefix s ["engine"; "version"] with
  | None => 0
  | Some n => default 0%Z (Atoi n.(kv_value))
  end.

Lemma version_path : engineVersionPath keyPrefix = key_of (reg_key keyPrefix ["engine"; "version"]).
Proof. unfold engineVersionPath. apply prefixed_key; [done|done|done|done|good_key]. Qed.

Lemma er_EngineVersion_reads s v :
  registry_wf keyPrefix s → er_EngineVersion keyPrefix s = Ok v → v = recorded_version s.
Proof.
  intros Hwf. unfold er_EngineVersion, recorded_version. rewrite version_path.
  pose proof (get_at keyPrefix prefix_good s ["engine"; "version"] [] no_get_options Hwf leaf_version) as Hget.
  destruct (file_at keyPrefix s _) as [n|].
  - destruct Hget as (nd & -> & Hv & _). rewrite Hv. destruct (Atoi _); [|done]. by intros [= <-].
  - rewrite Hget. cbn. by intros [= <-].
Qed.

(** The first request swaps the version that is recorded, the second records the
    first one. *)
Lemma er_UpdateEngineVersion_swaps s from to :
  registry_wf keyPrefix s → int_range to →
  let '(s', r) := er_UpdateEngineVersion keyPrefix from to s in
  registry_wf keyPrefix s' ∧ (∀ l, leaf l → l ≠ ["engine"; "version"] → file_at keyPrefix s' l = file_at keyPrefix s l) ∧
  match r with Ok _ => recorded_version s' = to | Err _ => recorded_version s' = recorded_version s end.
Proof.
  intros Hwf Hto. unfold er_UpdateEngineVersion, recorded_version. rewrite version_path.
  assert (∀ l, leaf l → l ≠ ["engine"; "version"] → ¬ l `prefix_of` ["engine"; "version"]) as Hap.
  { intros l Hl Hne Hp. exact (Hne (leaf_apart l _ Hl leaf_version Hp)). }
  pose proof (set_leaf keyPrefix prefix_good s ["engine"; "version"] (Itoa to) (mkSetOptions (Itoa from) 0 PrevIgnore 0)
    Hwf leaf_version (or_introl (Z.le_refl 0))) as H.
  destruct (kSet _ _ _ s) as [s1 r1]. destruct H as [Hwf1 H]. destruct (set_check _ _) as [c|].
  - destruct H as [-> Hsame]. cbn [isEtcdError].
    destruct (bool_decide (c = ErrorCodeKeyNotFound)); cbn [negb].
    + pose proof (set_leaf keyPrefix prefix_good s1 ["engine"; "version"] (Itoa to) (mkSetOptions "" 0 PrevNoExist 0)
        Hwf1 leaf_version (or_introl (Z.le_refl 0))) as H.
      destruct (kSet _ _ _ s1) as [s2 r2]. destruct H as [Hwf2 H]. split; [done|]. destruct (set_check _ _).
      * destruct H as [-> Hsame2]. cbn. setoid_rewrite Hsame2. setoid_rewrite Hsame. done.
      * destruct H as (Hok & (n & Hat & Hv & _) & Hframe). destruct r2; [|done]. cbn. split.
        -- intros l Hl Hne. rewrite Hframe by auto. apply Hsame.
        -- rewrite Hat, Hv. by rewrite Atoi_Itoa.
    + split_and!; [done|auto|by rewrite Hsame].
  - destruct H as (Hok & (n & Hat & Hv & _) & Hframe). destruct r1; [|done]. split_and!; [done|auto|].
    rewrite Hat, Hv. by rewrite Atoi_Itoa.
Qed.

#[export] Instance etcd_VersionLaws : VersionLaws etcd_ClusterRegistry.
Proof.
  refine {| version_wf := registry_wf keyPrefix; version_at := recorded_version |}.
  - apply er_EngineVersion_reads.
  - intros s from to Hwf Hto. pose proof (er_UpdateEngineVersion_swaps s from to Hwf Hto) as H. cbn [clr_UpdateEngineVersion etcd_ClusterRegistry].
    destruct (er_UpdateEngineVersion _ _ _ _) as [s' [u|e]]; destruct H as (_ & _ & H); [intros _|]; exact H.
Defined.

End version.
