(* ===== verification/EtcdStore.v ===== *)
(** * Units, unit states and machines in etcd

    What is written to the registry is what is read from it: units with their
    files, the states of units, and the metadata of machines. *)

From stdpp Require Import base list gmap strings.
From Stdlib Require Import Ascii ZArith.
From S2P Require Import Prelude GoStrings GoPath Pkg UnitFile UnitSerial Job Machine Cluster Engine Etcd Lease Leadership EtcdRegistry.

Section store.
Context `{K : KeysAPI St, KV : !KeysView St, KL : !KeysLaws K KV}.
Context `{JJ : JSON jobModel, JU : JSON unitModel, JM : JSON MachineState, JS : JSON unitStateModel}.
Context `{DG : Digest}.
Variable keyPrefix : string.
Hypothesis prefix_rooted : has_prefix "/" keyPrefix = true.
Hypothesis prefix_good : Forall good_elem (path_elems keyPrefix).

#[local] Abbreviation registry_wf := (registry_wf keyPrefix).
#[local] Abbreviation file_at := (file_at keyPrefix).
#[local] Abbreviation reg_key := (reg_key keyPrefix).

Lemma marshal_roundtrip {A} `{JSON A} (a : A) :
  json_ok a → ∃ b, marshal_ a = Ok b ∧ unmarshal_ (A := A) b = Ok a.
Proof.
  intros (b & Hm & Hu)%json_roundtrip. exists b. unfold marshal_, unmarshal_. by rewrite Hm, Hu.
Qed.

(** ** Unit files *)

Definition unit_leaf (h : Hash) : list string := ["unit"; Hash_String h].

Lemma hash_good u : good_elem (Hash_String (UnitFile_Hash u)).
Proof.
  pose proof (sha1_length (UnitFile_Bytes u)) as Hl. fold (UnitFile_Hash u) in Hl.
  assert (Hash_String (UnitFile_Hash u) ≠ "") as Hne by (by destruct (UnitFile_Hash u)).
  pose proof (Hash_String_no_byte (UnitFile_Hash u) "."%char eq_refl) as Hdot.
  split_and!; [done|..]; [by intros E; rewrite E in Hdot..|by apply Hash_String_no_byte].
Qed.

Lemma hashed_path u : hashedUnitPath keyPrefix (UnitFile_Hash u) = key_of (reg_key (unit_leaf (UnitFile_Hash u))).
Proof.
  pose proof (hash_good u) as Hg. unfold hashedUnitPath, unit_leaf. apply prefixed_key; try done; [|good_key].
  change (concat _) with ("unit" :: path_elems (Hash_String (UnitFile_Hash u)) ++ []).
  by rewrite path_elems_good.
Qed.

(** The file of [u] is stored under its hash. *)
Definition file_stored (s : St) (u : UnitFile) : Prop :=
  ∃ n, file_at s (unit_leaf (UnitFile_Hash u)) = Some n ∧
    unmarshal_ n.(kv_value) = Ok (mkUnitModel (UnitFile_String u)).

Lemma getUnitByHash_stored s u :
  registry_wf s → NewUnitFile (UnitFile_String u) = Ok u → file_stored s u →
  getUnitByHash keyPrefix s (UnitFile_Hash u) = Some u.
Proof.
  intros Hwf Hp (n & Hn & Hu). unfold getUnitByHash. rewrite hashed_path.
  pose proof (get_at keyPrefix prefix_good s (unit_leaf (UnitFile_Hash u)) [] (mkGetOptions true false false) Hwf
    (leaf_unit _ (hash_good u))) as Hget. rewrite Hn in Hget. destruct Hget as (nd & -> & Hv & _).
  unfold unitFromEtcdNode. rewrite Hv, Hu. cbn [um_Raw]. by rewrite Hp.
Qed.

Lemma file_stored_parsed s u : file_stored s u → file_stored s (parsed_file u).
Proof. unfold file_stored. by rewrite parsed_file_Hash, parsed_file_String. Qed.

(** Storing a file: it is there afterwards, and no other file changes. *)
Lemma storeOrGetUnitFile_stored s u :
  registry_wf s → json_ok (mkUnitModel (UnitFile_String u)) →
  (file_at s (unit_leaf (UnitFile_Hash u)) = None ∨ file_stored s u) →
  let '(s', r) := storeOrGetUnitFile keyPrefix u s in
  r = Ok tt ∧ registry_wf s' ∧ file_stored s' u ∧
  ∀ l, leaf l → l ≠ unit_leaf (UnitFile_Hash u) → file_at s' l = file_at s l.
Proof.
  intros Hwf Hj Hst. destruct (marshal_roundtrip _ Hj) as (b & Hb & Hu). unfold storeOrGetUnitFile.
  rewrite Hb, hashed_path. pose proof (leaf_unit _ (hash_good u)) as Hleaf. fold (unit_leaf (UnitFile_Hash u)) in Hleaf.
  pose proof (set_leaf keyPrefix prefix_good s (unit_leaf (UnitFile_Hash u)) b (mkSetOptions "" 0 PrevNoExist 0) Hwf
    Hleaf (or_introl (Z.le_refl 0))) as H.
  destruct (kSet _ _ _ _) as [s' r]. destruct H as [Hwf' H].
  destruct (file_at s (unit_leaf (UnitFile_Hash u))) as [n|] eqn:Hn; cbn in H.
  - destruct Hst as [?|Hst]; [done|]. destruct H as [-> Hsame]. cbn. split_and!; [done|done| |auto].
    destruct Hst as (n' & Hn' & ?). exists n'. by rewrite Hsame.
  - destruct H as (Hok & (n & Hat & Hv & _) & Hframe). destruct r; [|done]. split_and!; [done|done| |].
    + exists n. by rewrite Hat, Hv.
    + intros l Hl Hne. apply Hframe. intros Hp. exact (Hne (leaf_apart l _ Hl Hleaf Hp)).
Qed.

(** ** Units *)

Lemma job_leaf k x : good_elem k → x ∈ ["object"; "target"; "target-state"; "job-state"] → leaf [jobPrefix; k; x].
Proof. intros. by constructor. Qed.

Lemma job_path k x : good_elem k → good_elem x →
  prefixed keyPrefix [jobPrefix; k; x] = key_of (reg_key [jobPrefix; k; x]).
Proof. intros Hk Hx. apply prefixed_elems; try done. good_key. Qed.

(** Writing a file of the registry without conditions. *)
Lemma set_file s l v ttl :
  registry_wf s → leaf l → (ttl ≤ 0 ∨ second ≤ ttl)%Z →
  let '(s', r) := kSet (key_of (reg_key l)) v (mkSetOptions "" 0 PrevIgnore ttl) s in
  is_ok r = true ∧ registry_wf s' ∧ (∃ n, file_at s' l = Some n ∧ n.(kv_value) = v ∧ n.(kv_expires) = expiration (kv_now s) ttl) ∧
  ∀ l', leaf l' → l' ≠ l → file_at s' l' = file_at s l'.
Proof.
  intros Hwf Hleaf Ht.
  pose proof (set_leaf keyPrefix prefix_good s l v (mkSetOptions "" 0 PrevIgnore ttl) Hwf Hleaf Ht) as H.
  destruct (kSet _ _ _ _) as [s' r]. destruct H as [Hwf' H].
  assert (set_check (mkSetOptions "" 0 PrevIgnore ttl) (file_at s l) = None) as Hc.
  { destruct (file_at s l) as [n|] eqn:Hn; [|done]. cbn. by rewrite (proj2 (proj2 Hwf l Hleaf) n Hn). }
  rewrite Hc in H. destruct H as (Hok & Hat & Hframe). split_and!; [done|done|done|].
  intros l' Hl Hne. apply Hframe. intros Hp. exact (Hne (leaf_apart l' _ Hl Hleaf Hp)).
Qed.

(** Reading a unit from its directory, in terms of its files. *)
Lemma dirToUnit_at s k nd lookup u n jm :
  registry_wf s → good_elem k → tree_for s (reg_key [jobPrefix; k]) nd →
  file_at s [jobPrefix; k; "object"] = Some n → unmarshal_ n.(kv_value) = Ok jm → lookup jm.(jm_UnitHash) = Some u →
  dirToUnit nd lookup =
  match default "" (kv_value <$> file_at s [jobPrefix; k; "target-state"]) with
  | "" => Ok (Some (mkUnit jm.(jm_Name) u ""))
  | ts => match ParseJobState ts with
          | Ok ts => Ok (Some (mkUnit jm.(jm_Name) u ts))
          | Err e => Err (OtherError ("failed to parse Unit(" +:+ jm.(jm_Name) +:+ ") target-state: " +:+ e))
          end
  end.
Proof.
  intros Hwf Hk Ht Hn Hu Hl. unfold dirToUnit. pose proof (proj1 Hwf) as Hkv.
  pose proof (tree_key _ _ _ Ht) as Hkey. assert (Forall good_elem (reg_key [jobPrefix; k])) as Hg.
  { apply reg_key_good; [done|good_key]. }
  rewrite Hkey, path_join_child by done.
  pose proof (tree_last_child s _ nd "object" (λ c, Key c = key_of (reg_key [jobPrefix; k] ++ ["object"])) Hkv Ht eq_refl
    (λ y c Hc, tree_key_name s _ "object" y c Hkv ltac:(done) Hc)) as H. rewrite reg_key_snoc in H |- *. cbn [app] in H |- *.
  destruct (last _) as [c|].
  - apply tree_node in H as (n' & Hn' & _ & _ & Hv & _).
    assert (n' = n) as -> by (unfold EtcdRegistry.file_at in Hn; congruence).
    unfold getUnitFromObjectNode. rewrite Hv, Hu. cbn [res_bind]. rewrite Hl. cbn [res_bind].
    unfold dirToTargetState. rewrite (value_in_dir keyPrefix s _ nd "target-state" Hwf Ht) by done. cbn [app].
    destruct (default "" _) as [|a ts]; cbn [UName UUnit]; [done|].
    rewrite bool_decide_eq_true_2 by done. by destruct (ParseJobState _).
  - exfalso. unfold EtcdRegistry.file_at in Hn. congruence.
Qed.

(** A unit that is created can be read back. *)
Lemma CreateUnit_reads s u :
  registry_wf s → good_elem u.(UName) →
  json_ok (mkUnitModel (UnitFile_String u.(UUnit))) → json_ok (mkJobModel u.(UName) (UnitFile_Hash u.(UUnit))) →
  Forall (λ o, option_ok o = true) u.(UUnit).(Options) →
  (file_at s (unit_leaf (UnitFile_Hash u.(UUnit))) = None ∨ file_stored s u.(UUnit)) →
  is_ok (ParseJobState u.(UTargetState)) = true →
  let '(s', r) := er_CreateUnit keyPrefix u s in
  r = Ok tt ∧ registry_wf s' ∧
  er_Unit keyPrefix u.(UName) s' = Ok (Some (mkUnit u.(UName) (parsed_file u.(UUnit)) u.(UTargetState))).
Proof.
  intros Hwf Hk Hj1 Hj2 Hp Hst Hts. unfold er_CreateUnit.
  pose proof (storeOrGetUnitFile_stored s _ Hwf Hj1 Hst) as H1.
  destruct (storeOrGetUnitFile _ _ s) as [s1 r1]. destruct H1 as (-> & Hwf1 & Hst1 & _).
  destruct (marshal_roundtrip _ Hj2) as (b & Hb & Hu). rewrite Hb.
  pose proof (job_leaf _ "object" Hk ltac:(in_list)) as Hobj.
  pose proof (job_leaf _ "target-state" Hk ltac:(in_list)) as Htst.
  rewrite job_path by done. pose proof (set_file s1 _ b 0 Hwf1 Hobj (or_introl (Z.le_refl 0))) as H2.
  destruct (kSet _ _ _ s1) as [s2 r2]. destruct H2 as (Hok2 & Hwf2 & (n2 & Hn2 & Hv2 & _) & Hf2). destruct r2; [|done].
  unfold er_SetUnitTargetState, jobTargetStatePath. rewrite job_path by done.
  pose proof (set_file s2 _ (UTargetState u) 0 Hwf2 Htst (or_introl (Z.le_refl 0))) as H3.
  unfold no_set_options. destruct (kSet _ _ _ s2) as [s3 r3]. destruct H3 as (Hok3 & Hwf3 & (n3 & Hn3 & Hv3 & _) & Hf3).
  destruct r3; [|done]. split_and!; [done|done|].
  assert (file_stored s3 (UUnit u)) as Hst3.
  { destruct Hst1 as (n & Hn & ?). exists n.
    pose proof (leaf_unit _ (hash_good (UUnit u))) as Hul. fold (unit_leaf (UnitFile_Hash (UUnit u))) in Hul.
    by rewrite Hf3, Hf2. }
  assert (file_at s3 [jobPrefix; UName u; "object"] = Some n2) as Hobj3 by (by rewrite Hf3).
  unfold er_Unit. rewrite (prefixed_elems keyPrefix prefix_rooted prefix_good) by (done || good_key).
  pose proof (get_at keyPrefix prefix_good s3 [jobPrefix; UName u] ["object"] (mkGetOptions true false false) Hwf3 Hobj) as Hget.
  destruct (file_at s3 [jobPrefix; UName u]) as [nd|] eqn:Hdir.
  - destruct Hget as (d & -> & _ & Ht). specialize (Ht eq_refl).
    rewrite (dirToUnit_at s3 (UName u) d (getUnitByHash keyPrefix s3) (parsed_file (UUnit u)) n2
      (mkJobModel (UName u) (UnitFile_Hash (UUnit u))) Hwf3 Hk Ht Hobj3); [|by rewrite Hv2|].
    2: { cbn [jm_UnitHash]. rewrite <- parsed_file_Hash.
         apply getUnitByHash_stored; [done|by apply parsed_file_parsed|by apply file_stored_parsed]. }
    rewrite Hn3. cbn. rewrite Hv3. destruct u as [name file ts]. cbn in *.
    unfold ParseJobState in *. destruct ts; [done|]. by destruct (_ && _).
  - exfalso. pose proof (file_below keyPrefix s3 [jobPrefix; UName u] "object" Hwf3 Hdir) as Hno. cbn [app] in Hno. congruence.
Qed.

(** C15: a unit that is created can be read back, on any registry that is well formed
    and has no other file under the same hash: its name and its target state, a job state, are
    recovered, and of its file all options, in their order, except that those of a
    section are brought together; so the file too is recovered as it was if it had them
    together.  The options are well-formed ones (no line of them is mistaken for another,
    or longer than a line may be), and the parts of the unit are ones that JSON keeps. *)
Theorem CreateUnit_roundtrip s u :
  registry_wf s → good_elem u.(UName) →
  json_ok (mkUnitModel (UnitFile_String u.(UUnit))) → json_ok (mkJobModel u.(UName) (UnitFile_Hash u.(UUnit))) →
  Forall (λ o, option_ok o = true) u.(UUnit).(Options) →
  (file_at s (unit_leaf (UnitFile_Hash u.(UUnit))) = None ∨ file_stored s u.(UUnit)) →
  is_ok (ParseJobState u.(UTargetState)) = true →
  let '(s', r) := er_CreateUnit keyPrefix u s in
  r = Ok tt ∧ registry_wf s' ∧
  er_Unit keyPrefix u.(UName) s' =
    Ok (Some (mkUnit u.(UName) (NewUnitFromOptions (regroup u.(UUnit).(Options))) u.(UTargetState))) ∧
  (unit_file_ok u.(UUnit) → er_Unit keyPrefix u.(UName) s' = Ok (Some u)).
Proof.
  intros Hwf Hk Hj1 Hj2 Hp Hst Hts. pose proof (CreateUnit_reads s u Hwf Hk Hj1 Hj2 Hp Hst Hts) as H.
  destruct (er_CreateUnit _ _ s) as [s' r]. destruct H as (-> & Hwf' & Hu). split_and!; [done..|].
  intros Hok. rewrite Hu, parsed_file_ok by done. by destruct u.
Qed.

(** ** The states of units *)

Lemma legacy_path k : good_elem k → legacyUnitStatePath keyPrefix k = key_of (reg_key ["state"; k]).
Proof.
  intros Hk. unfold legacyUnitStatePath. apply prefixed_key; try done; [|good_key].
  change (concat _) with ("state" :: path_elems k ++ []). by rewrite path_elems_good.
Qed.

Lemma states_path k : good_elem k → unitStatesNamespace keyPrefix k = key_of (reg_key ["states"; k]).
Proof.
  intros Hk. unfold unitStatesNamespace. apply prefixed_key; try done; [|good_key].
  change (concat _) with ("states" :: path_elems k ++ []). by rewrite path_elems_good.
Qed.

Lemma state_path m k : good_elem k → good_elem m → unitStatePath keyPrefix m k = key_of (reg_key ["states"; k; m]).
Proof.
  intros Hk Hm. unfold unitStatePath. rewrite states_path by done.
  rewrite path_join_child; [by rewrite reg_key_snoc| |done]. apply reg_key_good; [done|good_key].
Qed.

(** The model of a state determines it, given the name of the unit. *)
Lemma unitStateToModel_inv us :
  us.(UnitHash) ≠ "" → ∃ usm, unitStateToModel (Some us) = Some usm ∧ modelToUnitState usm us.(UnitName) = us.
Proof.
  intros Hh. cbn. rewrite bool_decide_eq_false_2; [|by destruct (UnitHash us)].
  eexists. split; [done|]. destruct us as [l a su m h nm]. unfold modelToUnitState. cbn.
  case_bool_decide as Hm; [done|]. cbn. f_equal. by destruct (decide (m = "")); [|destruct Hm].
Qed.

(** What is stored where a state is: a file with the value of the model. *)
Lemma SaveUnitState_files s k us usm b ttl :
  registry_wf s → good_elem k → good_elem us.(UsMachineID) → (ttl ≤ 0 ∨ second ≤ ttl)%Z →
  unitStateToModel (Some us) = Some usm → marshal_ usm = Ok b →
  let s' := er_SaveUnitState keyPrefix k us ttl s in
  registry_wf s' ∧
  (∀ l, l = ["state"; k] ∨ l = ["states"; k; us.(UsMachineID)] →
    ∃ n, file_at s' l = Some n ∧ n.(kv_value) = b) ∧
  ∀ l, leaf l → l ≠ ["state"; k] → l ≠ ["states"; k; us.(UsMachineID)] → file_at s' l = file_at s l.
Proof.
  intros Hwf Hk Hm Ht Hus Hb. unfold er_SaveUnitState. rewrite Hus, Hb, legacy_path, state_path by done.
  pose proof (leaf_state k Hk) as Hl1. pose proof (leaf_states k _ Hk Hm) as Hl2.
  pose proof (set_file s _ b ttl Hwf Hl1 Ht) as H1. destruct (kSet _ _ _ s) as [s1 r1].
  destruct H1 as (_ & Hwf1 & (n1 & Hn1 & Hv1 & _) & Hf1). cbn [fst].
  pose proof (set_file s1 _ b ttl Hwf1 Hl2 Ht) as H2. destruct (kSet _ _ _ s1) as [s2 r2].
  destruct H2 as (_ & Hwf2 & (n2 & Hn2 & Hv2 & _) & Hf2). cbn [fst]. split_and!; [done| |].
  - intros l [->| ->]; [exists n1; by rewrite Hf2|eauto].
  - intros l Hl Hne1 Hne2. by rewrite Hf2, Hf1.
Qed.

Lemma getUnitState_at s k m :
  registry_wf s → good_elem k → good_elem m →
  getUnitState keyPrefix k m s =
  match file_at s ["states"; k; m] with
  | None => Ok None
  | Some n => res_bind (unmarshal_ n.(kv_value)) (λ usm, Ok (Some (modelToUnitState usm k)))
  end.
Proof.
  intros Hwf Hk Hm. unfold getUnitState. rewrite state_path by done.
  pose proof (get_at keyPrefix prefix_good s ["states"; k; m] [] no_get_options Hwf (leaf_states k m Hk Hm)) as Hget.
  destruct (file_at s _) as [n|]; [|by rewrite Hget]. destruct Hget as (nd & -> & -> & _). done.
Qed.

(** The state a machine saves for a unit is the one read back for that unit
    and machine, and saving it disturbs no other machine's or unit's state. *)
Theorem SaveUnitState_roundtrip s us usm ttl :
  registry_wf s → good_elem us.(UnitName) → good_elem us.(UsMachineID) → (ttl ≤ 0 ∨ second ≤ ttl)%Z →
  unitStateToModel (Some us) = Some usm → json_ok usm →
  let s' := er_SaveUnitState keyPrefix us.(UnitName) us ttl s in
  registry_wf s' ∧ getUnitState keyPrefix us.(UnitName) us.(UsMachineID) s' = Ok (Some us) ∧
  ∀ k m, good_elem k → good_elem m → (k, m) ≠ (us.(UnitName), us.(UsMachineID)) →
    getUnitState keyPrefix k m s' = getUnitState keyPrefix k m s.
Proof.
  intros Hwf Hk Hm Ht Hus Hj. destruct (marshal_roundtrip _ Hj) as (b & Hb & Hu).
  destruct (SaveUnitState_files s _ us usm b ttl Hwf Hk Hm Ht Hus Hb) as (Hwf' & Hat & Hframe).
  split_and!; [done| |].
  - rewrite getUnitState_at by done. destruct (Hat _ (or_intror eq_refl)) as (n & -> & ->). rewrite Hu. cbn.
    destruct (unitStateToModel_inv us) as (usm' & E & Heq); [intros E; cbn in Hus; by rewrite E in Hus|].
    assert (usm' = usm) as -> by congruence. by rewrite Heq.
  - intros k m Hgk Hgm Hne. rewrite !getUnitState_at by done.
    rewrite Hframe; [done|by apply leaf_states|done|]. intros [= -> ->]. by destruct Hne.
Qed.

(** Deleting with [KeyNotFound] ignored. *)
Lemma delete_ignored s l o :
  registry_wf s → l ≠ [] → Forall good_elem l → open_key s (reg_key l) →
  (∀ n, file_at s l = Some n → delete_check o (Some n) = None) →
  let '(s', r) := kDelete (key_of (reg_key l)) o s in
  registry_wf s' ∧ (match r with Ok _ => true | Err err => isEtcdError err ErrorCodeKeyNotFound end) = true ∧
  ∀ l', file_at s' l' = if decide (l `prefix_of` l') then None else file_at s l'.
Proof.
  intros Hwf Hl Hg Ho Hc. pose proof (delete_below keyPrefix prefix_good s l o Hwf Hl Hg Ho) as H.
  destruct (kDelete _ _ _) as [s' r]. destruct H as [Hwf' H]. split; [done|].
  destruct (file_at s l) as [n|] eqn:Hn; cbn in H.
  - specialize (Hc n eq_refl). cbn in Hc. rewrite Hc in H.
    destruct H as [Hok H]. by destruct r.
  - destruct H as [-> H]. split; [done|]. intros l'. rewrite H. case_decide as Hp; [|done].
    destruct Hp as [k ->]. clear -Hn Hwf KL. induction k as [|x k IH] using rev_ind; [by rewrite app_nil_r|].
    rewrite app_assoc. by apply file_below.
Qed.

(** Removing the state of a unit removes it for every machine, and leaves
    the states of other units. *)
Theorem RemoveUnitState_removes s k :
  registry_wf s → good_elem k →
  let '(s', r) := er_RemoveUnitState keyPrefix k s in
  r = Ok tt ∧ registry_wf s' ∧ (∀ m, good_elem m → getUnitState keyPrefix k m s' = Ok None) ∧
  ∀ k' m, good_elem k' → good_elem m → k' ≠ k → getUnitState keyPrefix k' m s' = getUnitState keyPrefix k' m s.
Proof.
  intros Hwf Hk. unfold er_RemoveUnitState. rewrite legacy_path, states_path by done.
  assert (∀ x, good_elem x → Forall good_elem [x; k]) as Hg by (intros; good_key).
  pose proof (delete_ignored s ["state"; k] no_delete_options Hwf ltac:(done) (Hg "state" ltac:(by split_and!))
    (proj1 (proj2 Hwf _ (leaf_state k Hk)))) as H1.
  destruct (kDelete _ no_delete_options s) as [s1 r1]. destruct H1 as (Hwf1 & -> & Hf1).
  { intros n Hn. cbn. by rewrite (proj2 (proj2 Hwf _ (leaf_state k Hk)) n Hn). }
  cbn [negb].
  pose proof (delete_ignored s1 ["states"; k] (mkDeleteOptions "" 0 true) Hwf1 ltac:(done) (Hg "states" ltac:(by split_and!))
    (open_above keyPrefix s1 ["states"; k] [k] Hwf1 (leaf_states k k Hk Hk))) as H2.
  destruct (kDelete _ _ s1) as [s2 r2]. destruct H2 as (Hwf2 & -> & Hf2).
  { intros n Hn. cbn. rewrite andb_false_r. done. }
  cbn [negb]. split_and!; [done|done| |].
  - intros m Hm. rewrite getUnitState_at, Hf2 by done. by rewrite decide_True by (by exists [m]).
  - intros k' m Hk' Hm Hne. rewrite !getUnitState_at, Hf2, Hf1 by done. rewrite !decide_False; [done|..].
    + intros [? ?]. by simplify_eq/=.
    + intros [? ?]. by simplify_eq/=.
Qed.

(** ** Machines *)

Lemma mergeMetadata_lookup base dyn k :
  mergeMetadata base (Some dyn) !! k =
  match dyn !! k with None => base !! k | Some v => if decide (v = "") then None else Some v end.
Proof.
  unfold mergeMetadata.
  apply (map_fold_weak_ind (λ final dyn, final !! k =
    match dyn !! k with None => base !! k | Some v => if decide (v = "") then None else Some v end)).
  - by rewrite lookup_empty.
  - intros k' v dyn' final Hn IH. destruct (decide (k' = k)) as [->|Hne].
    + rewrite lookup_insert_eq. case_bool_decide as Hv; [by rewrite lookup_delete_eq, decide_True|].
      by rewrite lookup_insert_eq, decide_False.
    + rewrite lookup_insert_ne, <- IH by done.
      by case_bool_decide; [rewrite lookup_delete_ne|rewrite lookup_insert_ne].
Qed.

(** The dynamic metadata of a machine, as far as etcd lists it. *)
Definition dynamic_at (s : St) (m k : string) : option string :=
  if hidden k then None else kv_value <$> file_at s [machinePrefix; m; "metadata"; k].

Lemma read_metadata_at s m nd k :
  registry_wf s → tree_for s (reg_key [machinePrefix; m; "metadata"]) nd →
  read_metadata nd.(Nodes) !! k = dynamic_at s m k.
Proof.
  intros [Hwf _] Ht. unfold read_metadata. rewrite (lookup_foldl_insert (λ c, path_base (Key c)) Value), lookup_empty.
  assert (∀ y c, tree_for s (reg_key [machinePrefix; m; "metadata"] ++ [y]) c → path_base (Key c) = k ↔ y = k) as Hname.
  { intros y c (n & Hn & Hk & _)%tree_node. rewrite Hk, path_base_key; [done|].
    apply (kv_good _ _ _ Hwf), Forall_app in Hn as [_ Hn]. by apply Forall_cons in Hn as [? _]. }
  unfold dynamic_at. destruct (hidden k) eqn:Hh.
  - destruct (last _) as [c|] eqn:El; [exfalso|done].
    apply last_Some_elem_of, list_elem_of_filter in El as [Hc Hin].
    destruct Ht as [n _ _ _ E|n names _ _ _ _ Hnames Hall]; [by rewrite E in Hin; apply not_elem_of_nil in Hin|].
    apply list_elem_of_lookup in Hin as [i Hi]. destruct (Forall2_lookup_r _ _ _ _ _ Hall Hi) as (y & Hy & Hty).
    apply (Hname y c Hty) in Hc as ->. destruct (Hnames k) as [Hk _].
    destruct Hk as [_ ?]; [by eapply list_elem_of_lookup_2|congruence].
  - pose proof (tree_last_child s _ nd k (λ c, path_base (Key c) = k) Hwf Ht Hh Hname) as H.
    rewrite reg_key_snoc in H. cbn [app] in H. unfold EtcdRegistry.file_at. destruct (last _) as [c|]; [|by rewrite H].
    apply tree_node in H as (n & -> & _ & _ & Hv & _). cbn. by rewrite Hv.
Qed.

(** What the nodes of a machine's directory are read as. *)
Lemma read_machine_nodes_at s l names nodes mach md :
  kv_wf s → Forall2 (λ x c, tree_for s (l ++ [x]) c) names nodes → NoDup names →
  ∃ md', (if decide ("metadata" ∈ names)
          then ∃ c, tree_for s (l ++ ["metadata"]) c ∧ md' = Some (read_metadata c.(Nodes)) else md' = md) ∧
    read_machine_nodes nodes mach md =
    res_bind (if decide ("object" ∈ names)
              then unmarshal_ (default "" (kv_value <$> kv_at s (l ++ ["object"]))) else Ok mach)
      (λ mach, Ok (mach, md')).
Proof.
  intros Hwf Hall. revert mach md. induction Hall as [|y c names nodes Ht Hall IH]; intros mach md Hnd.
  { exists md. by rewrite !decide_False by apply not_elem_of_nil. }
  apply NoDup_cons in Hnd as [Hy Hnd]. pose proof Ht as (n & Hn & Hk & _ & Hv & _)%tree_node. cbn [read_machine_nodes].
  assert (good_elem y) as Hg.
  { apply (kv_good _ _ _ Hwf), Forall_app in Hn as [_ Hg]. by apply Forall_cons in Hg as [? _]. }
  rewrite Hk. rewrite (has_suffix_key l "object") by (done || by split_and!).
  rewrite (has_suffix_key l "metadata") by (done || by split_and!).
  assert (∀ x, x ≠ y → (x ∈ y :: names) ↔ x ∈ names) as Hcons by (intros; rewrite elem_of_cons; tauto).
  case_bool_decide as Ho.
  - subst y. rewrite (decide_True (P := "object" ∈ _)) by (by left). rewrite Hn. cbn [fmap option_fmap option_map default from_option id].
    rewrite Hv. destruct (unmarshal_ (kv_value n)) as [mach'|e]; cbn [res_bind].
    + destruct (IH mach' md Hnd) as (md' & Hmd & ->). exists md'. rewrite (decide_False (P := "object" ∈ names)) by done.
      split; [|done]. by rewrite (decide_ext _ ("metadata" ∈ names)) by (by apply Hcons).
    + destruct (IH mach md Hnd) as (md' & Hmd & _). exists md'. split; [|done].
      by rewrite (decide_ext _ ("metadata" ∈ names)) by (by apply Hcons).
  - rewrite (decide_ext ("object" ∈ _) ("object" ∈ names)) by (apply Hcons; congruence).
    case_bool_decide as Hm.
    + subst y. destruct (IH mach (Some (read_metadata c.(Nodes))) Hnd) as (md' & Hmd & ->). exists md'. split; [|done].
      rewrite decide_True by (by left). rewrite decide_False in Hmd by done. eauto.
    + destruct (IH mach md Hnd) as (md' & Hmd & ->). exists md'. split; [|done].
      by rewrite (decide_ext _ ("metadata" ∈ names)) by (apply Hcons; congruence).
Qed.

(** The machine as it registered itself. *)
Definition machine_base (s : St) (m : string) : res etcd_error MachineState :=
  match file_at s [machinePrefix; m; "object"] with
  | Some n => unmarshal_ n.(kv_value)
  | None => Ok empty_machine
  end.

(** The same machine with the dynamic metadata laid over its own. *)
Definition overlaid (s : St) (m : string) (base ms : MachineState) : Prop :=
  ms = mkMachineState base.(ID) base.(PublicIP) ms.(Metadata) base.(Capabilities) base.(Machine.Version) ∧
  ∀ k, ms.(Metadata) !! k =
    match dynamic_at s m k with None => base.(Metadata) !! k | Some v => if decide (v = "") then None else Some v end.

Lemma no_dynamic s m :
  registry_wf s → kv_at s (reg_key [machinePrefix; m; "metadata"]) = None → ∀ k, dynamic_at s m k = None.
Proof.
  intros Hwf Hn k. unfold dynamic_at. destruct (hidden k); [done|].
  pose proof (file_below keyPrefix s [machinePrefix; m; "metadata"] k Hwf Hn) as E. cbn [app] in E. by rewrite E.
Qed.

Lemma readMachineState_at s m nd :
  registry_wf s → tree_for s (reg_key [machinePrefix; m]) nd →
  match machine_base s m with
  | Err e => readMachineState nd = Err e
  | Ok base => ∃ ms, readMachineState nd = Ok ms ∧ overlaid s m base ms
  end.
Proof.
  intros Hwf Ht. pose proof (proj1 Hwf) as Hkv.
  assert (∃ names, NoDup names ∧ (∀ x, x ∈ names ↔ is_Some (kv_at s (reg_key [machinePrefix; m] ++ [x])) ∧ hidden x = false) ∧
    Forall2 (λ x c, tree_for s (reg_key [machinePrefix; m] ++ [x]) c) names nd.(Nodes)) as (names & Hnd & Hnames & Hall).
  { destruct Ht as [n Hn Hd _ E|n names _ _ _ Hnd Hnames Hall]; [|eauto]. exists []. rewrite E. split_and!; [constructor| |constructor].
    intros x. split; [by intros ?%not_elem_of_nil|]. intros [[c Hc] _]. destruct (kv_parent _ _ _ _ Hkv Hc) as (d & Hd' & ?). congruence. }
  destruct (read_machine_nodes_at s _ names nd.(Nodes) empty_machine None Hkv Hall Hnd) as (md & Hmd & Hr).
  unfold readMachineState. rewrite Hr. clear Hr. rewrite reg_key_snoc in Hmd |- *. cbn [app] in Hmd |- *.
  setoid_rewrite reg_key_snoc in Hnames. cbn [app] in Hnames.
  assert ((if decide ("object" ∈ names) then unmarshal_ (default "" (kv_value <$> kv_at s (reg_key [machinePrefix; m; "object"])))
    else Ok empty_machine) = machine_base s m) as ->.
  { unfold machine_base, EtcdRegistry.file_at. destruct (decide ("object" ∈ names)) as [Ho|Ho].
    - apply Hnames in Ho as [[n ->] _]. done.
    - destruct (kv_at s _) as [n|] eqn:En; [|done]. destruct Ho. apply Hnames. by rewrite En. }
  destruct (machine_base s m) as [base|e]; [|done]. cbn [res_bind]. eexists. split; [done|]. split; [done|].
  intros k. cbn [Metadata]. case_decide as Hm.
  - destruct Hmd as (c & Hc & ->). by rewrite mergeMetadata_lookup, (read_metadata_at s m).
  - subst md. cbn. rewrite no_dynamic; [done|done|].
    destruct (kv_at s (reg_key [machinePrefix; m; "metadata"])) as [n|] eqn:En; [|done]. destruct Hm. apply Hnames. by rewrite En.
Qed.

Lemma er_MachineState_at s m :
  registry_wf s → good_elem m →
  match file_at s [machinePrefix; m], machine_base s m with
  | None, _ => er_MachineState keyPrefix m s = Err (EtcdError ErrorCodeKeyNotFound)
  | Some _, Err e => er_MachineState keyPrefix m s = Err e
  | Some _, Ok base => ∃ ms, er_MachineState keyPrefix m s = Ok ms ∧ overlaid s m base ms
  end.
Proof.
  intros Hwf Hm. unfold er_MachineState. rewrite (joined_key keyPrefix prefix_rooted prefix_good) by good_key.
  pose proof (get_at keyPrefix prefix_good s [machinePrefix; m] ["object"] (mkGetOptions true true false) Hwf
    (leaf_machine m Hm)) as Hget.
  destruct (file_at s [machinePrefix; m]) as [n|]; [|by rewrite Hget].
  destruct Hget as (nd & -> & _ & Ht). cbn [res_bind]. exact (readMachineState_at s m nd Hwf (Ht eq_refl)).
Qed.

Lemma overlaid_unique s m base ms ms' : overlaid s m base ms → overlaid s m base ms' → ms = ms'.
Proof.
  intros [E1 H1] [E2 H2]. assert (Metadata ms = Metadata ms') as E by (apply map_eq; intros k; by rewrite H1, H2).
  rewrite E1, E2. by rewrite E.
Qed.

Lemma metadata_path m k :
  good_elem m → good_elem k →
  path_join [keyPrefix; machinePrefix; m; "metadata"; k] = key_of (reg_key [machinePrefix; m; "metadata"; k]).
Proof. intros. apply joined_key; try done. good_key. Qed.

(** A file has the directories above it. *)
Lemma file_dir s l l' n : registry_wf s → file_at s (l ++ l') = Some n → is_Some (file_at s l).
Proof.
  intros Hwf. revert n. induction l' as [|x l' IH] using rev_ind; intros n; [rewrite app_nil_r; eauto|].
  rewrite app_assoc. intros Hn. destruct (file_at s (l ++ l')) as [n'|] eqn:E; [eauto|].
  rewrite (file_below keyPrefix s (l ++ l') x Hwf E) in Hn. done.
Qed.

(** Setting a key of a machine's dynamic metadata changes exactly that key of
    the machine as it is read, and the empty value (which deleting writes)
    removes it, even when the machine itself announces the key. *)
Theorem SetMachineMetadata_overlay s m k v ms :
  registry_wf s → good_elem m → good_elem k → hidden k = false → er_MachineState keyPrefix m s = Ok ms →
  let '(s', r) := er_SetMachineMetadata keyPrefix m k v s in
  r = Ok tt ∧ registry_wf s' ∧
  er_MachineState keyPrefix m s' =
    Ok (mkMachineState ms.(ID) ms.(PublicIP)
          (if decide (v = "") then delete k ms.(Metadata) else <[k := v]> ms.(Metadata))
          ms.(Capabilities) ms.(Machine.Version)).
Proof.
  intros Hwf Hm Hk Hh Hms. unfold er_SetMachineMetadata, no_set_options. rewrite metadata_path by done.
  pose proof (leaf_metadata m k Hm Hk) as Hleaf.
  pose proof (set_file s _ v 0 Hwf Hleaf (or_introl (Z.le_refl 0))) as H. destruct (kSet _ _ _ s) as [s' r].
  destruct H as (Hok & Hwf' & (n & Hn & Hv & _) & Hframe). destruct r; [|done]. split_and!; [done|done|].
  pose proof (er_MachineState_at s m Hwf Hm) as H1. pose proof (er_MachineState_at s' m Hwf' Hm) as H2.
  destruct (file_dir s' [machinePrefix; m] ["metadata"; k] n Hwf' Hn) as [d Hd]. rewrite Hd in H2.
  assert (machine_base s' m = machine_base s m) as Hb.
  { unfold machine_base. rewrite Hframe; [done|by apply leaf_machine|done]. }
  rewrite Hb in H2. destruct (file_at s [machinePrefix; m]); [|congruence].
  destruct (machine_base s m) as [base|]; [|congruence]. destruct H1 as (ms1 & E1 & Eq1 & H1).
  assert (ms1 = ms) as -> by congruence. destruct H2 as (ms2 & -> & Eq2 & H2). f_equal. rewrite Eq2.
  assert (∀ k', dynamic_at s' m k' = if decide (k' = k) then Some v else dynamic_at s m k') as Hdyn.
  { intros k'. unfold dynamic_at. case_decide as Hkk; [subst k'; rewrite Hh, Hn; cbn; by rewrite Hv|].
    destruct (hidden k'); [done|]. destruct (decide (good_elem k')) as [Hg|Hg].
    - rewrite Hframe; [done|by apply leaf_metadata|]. by intros [= ?].
    - pose proof (bad_file keyPrefix s [machinePrefix; m; "metadata"] k' Hwf Hg) as E1'.
      pose proof (bad_file keyPrefix s' [machinePrefix; m; "metadata"] k' Hwf' Hg) as E2'. cbn [app] in E1', E2'.
      by rewrite E1', E2'. }
  assert (Metadata ms2 = (if decide (v = "") then delete k (Metadata ms) else <[k:=v]> (Metadata ms))) as ->.
  { apply map_eq. intros k'. rewrite H2, Hdyn. destruct (decide (k' = k)) as [->|Hne].
    - case_decide; [by rewrite lookup_delete_eq|by rewrite lookup_insert_eq].
    - rewrite <- H1. by case_decide; [rewrite lookup_delete_ne|rewrite lookup_insert_ne]. }
  by rewrite Eq1.
Qed.

Lemma machine_path m : good_elem m → machine_object keyPrefix m = key_of (reg_key [machinePrefix; m; "object"]).
Proof. intros. unfold machine_object. apply prefixed_elems; try done. good_key. Qed.

(** A machine that leaves the cluster and joins it again gets back the
    dynamic metadata it had, laid over what it now announces. *)
Theorem machine_rejoins s ms ttl :
  registry_wf s → good_elem ms.(ID) → json_ok ms → (ttl ≤ 0 ∨ second ≤ ttl)%Z →
  let '(s1, r1) := er_RemoveMachineState keyPrefix ms.(ID) s in
  let '(s2, r2) := er_CreateMachineState keyPrefix ms ttl s1 in
  r1 = Ok tt ∧ is_ok r2 = true ∧ registry_wf s2 ∧
  ∃ ms', er_MachineState keyPrefix ms.(ID) s2 = Ok ms' ∧ overlaid s ms.(ID) ms ms'.
Proof.
  intros Hwf Hm Hj Ht. destruct (marshal_roundtrip _ Hj) as (b & Hb & Hu).
  unfold er_RemoveMachineState, er_CreateMachineState. rewrite Hb, machine_path by done.
  pose proof (leaf_machine _ Hm) as Hleaf.
  pose proof (delete_ignored s _ no_delete_options Hwf (leaf_ne _ Hleaf) (leaf_good _ Hleaf) (proj1 (proj2 Hwf _ Hleaf))) as H.
  destruct (kDelete _ _ s) as [s1 r1]. destruct H as (Hwf1 & Hr1 & Hf1).
  { intros n Hn. cbn. by rewrite (proj2 (proj2 Hwf _ Hleaf) n Hn). }
  pose proof (set_leaf keyPrefix prefix_good s1 _ b (mkSetOptions "" 0 PrevNoExist ttl) Hwf1 Hleaf Ht) as H.
  rewrite Hf1, decide_True in H by done. destruct (kSet _ _ _ s1) as [s2 r2]. destruct H as [Hwf2 H]. cbn in H.
  destruct H as (Hok & (n & Hn & Hv & _) & Hf2). destruct r2; [|done].
  split_and!; [destruct r1; [done|by rewrite Hr1]|done|done|].
  pose proof (er_MachineState_at s2 _ Hwf2 Hm) as H2. unfold machine_base in H2. rewrite Hn, Hv, Hu in H2.
  destruct (file_dir s2 [machinePrefix; ID ms] ["object"] n Hwf2 Hn) as [d Hd]. rewrite Hd in H2.
  destruct H2 as (ms' & H2 & E' & Hov). exists ms'. split; [done|]. split; [exact E'|]. intros k. rewrite Hov.
  assert (dynamic_at s2 (ID ms) k = dynamic_at s (ID ms) k) as ->; [|done].
  unfold dynamic_at. rewrite Hf2, Hf1, decide_False; [done|..]; intros [x Hx]; by simplify_eq/=.
Qed.

End store.
