(* ===== verification/EtcdInvariant.v ===== *)
(** * What the registry in etcd always holds

    The operations of the registry as steps, the types of the files they write,
    and the theorem that what is read back can always be read. *)

From stdpp Require Import base list gmap strings.
From Stdlib Require Import Ascii ZArith.
From S2P Require Import Prelude GoStrings GoPath Pkg UnitFile UnitSerial Job Machine Cluster Engine Etcd Lease Leadership EtcdRegistry EtcdSchedule EtcdStore.

Section invariant.
Context `{K : KeysAPI St, KV : !KeysView St, KL : !KeysLaws K KV}.
Context `{JJ : JSON jobModel, JU : JSON unitModel, JM : JSON MachineState, JS : JSON unitStateModel}.
Context `{DG : Digest}.
Variable keyPrefix : string.
Hypothesis prefix_rooted : has_prefix "/" keyPrefix = true.
Hypothesis prefix_good : Forall good_elem (path_elems keyPrefix).

#[local] Abbreviation registry_wf := (registry_wf keyPrefix).
#[local] Abbreviation file_at := (file_at keyPrefix).
#[local] Abbreviation reg_key := (reg_key keyPrefix).
#[local] Abbreviation file_stored := (file_stored keyPrefix).

(** ** The operations as steps *)

Definition ttl_ok (ttl : Z) : Prop := (ttl ≤ 0 ∨ second ≤ ttl)%Z.

(** A unit that can be stored: its name is one element of a path, its parts can
    be serialized, its options are well formed, and no other file is stored under
    its hash. *)
Definition storable (s : St) (u : Unit) : Prop :=
  good_elem u.(UName) ∧ json_ok (mkUnitModel (UnitFile_String u.(UUnit))) ∧
  json_ok (mkJobModel u.(UName) (UnitFile_Hash u.(UUnit))) ∧
  Forall (λ o, option_ok o = true) u.(UUnit).(Options) ∧
  (file_at s (unit_leaf (UnitFile_Hash u.(UUnit))) = None ∨ file_stored s u.(UUnit)).

(** Every operation that writes, with any arguments that name one element of a
    path and can be serialized; and the passing of time, which takes away files
    that were written to expire. *)
Inductive registry_step (s : St) : St → Prop :=
| rs_CreateUnit u : storable s u → registry_step s (er_CreateUnit keyPrefix u s).1
| rs_DestroyUnit k : good_elem k → registry_step s (er_DestroyUnit keyPrefix k s).1
| rs_SetUnitTargetState k st : good_elem k → registry_step s (er_SetUnitTargetState keyPrefix k st s).1
| rs_ScheduleUnit k m : good_elem k → registry_step s (er_ScheduleUnit keyPrefix k m s).1
| rs_UnscheduleUnit k m : good_elem k → registry_step s (er_UnscheduleUnit keyPrefix k m s).1
| rs_UnitHeartbeat k m ttl : good_elem k → ttl_ok ttl → registry_step s (er_UnitHeartbeat keyPrefix k m ttl s).1
| rs_ClearUnitHeartbeat k : good_elem k → registry_step s (er_ClearUnitHeartbeat keyPrefix k s)
| rs_SaveUnitState k us ttl : good_elem k → good_elem us.(UsMachineID) → ttl_ok ttl →
    (∀ usm, unitStateToModel (Some us) = Some usm → json_ok usm) →
    registry_step s (er_SaveUnitState keyPrefix k us ttl s)
| rs_RemoveUnitState k : good_elem k → registry_step s (er_RemoveUnitState keyPrefix k s).1
| rs_CreateMachineState ms ttl : good_elem ms.(ID) → json_ok ms → ttl_ok ttl →
    registry_step s (er_CreateMachineState keyPrefix ms ttl s).1
| rs_SetMachineState ms ttl : good_elem ms.(ID) → json_ok ms → ttl_ok ttl →
    registry_step s (er_SetMachineState keyPrefix ms ttl s).1
| rs_SetMachineMetadata m k v : good_elem m → good_elem k → registry_step s (er_SetMachineMetadata keyPrefix m k v s).1
| rs_DeleteMachineMetadata m k : good_elem m → good_elem k → registry_step s (er_DeleteMachineMetadata keyPrefix m k s).1
| rs_RemoveMachineState m : good_elem m → registry_step s (er_RemoveMachineState keyPrefix m s).1
| rs_UpdateEngineVersion from to : int_range to → registry_step s (er_UpdateEngineVersion keyPrefix from to s).1
| rs_expire s' : registry_wf s' →
    (∀ l, leaf l → file_at s' l = file_at s l ∨
      file_at s' l = None ∧ ∃ n, file_at s l = Some n ∧ n.(kv_expires) ≠ None) →
    registry_step s s'.

Definition registry_empty (s : St) : Prop := registry_wf s ∧ ∀ l, leaf l → file_at s l = None.

Definition registry_reachable (s : St) : Prop := ∃ s0, registry_empty s0 ∧ rtc registry_step s0 s.

(** ** The types of the files *)

(** What the file [l] holds: a unit's object has the unit's own name and the hash
    of a file that is stored, a state that of the machine it is stored for. *)
Inductive leaf_typed (s : St) : list string → kv → Prop :=
| typed_object k n u : n.(kv_expires) = None → unmarshal_ n.(kv_value) = Ok (mkJobModel k (UnitFile_Hash u)) →
    file_stored s u → NewUnitFile (UnitFile_String u) = Ok u → leaf_typed s [jobPrefix; k; "object"] n
| typed_unit h n : n.(kv_expires) = None → leaf_typed s ["unit"; h] n
| typed_job k x n : x ∈ ["target"; "target-state"; "job-state"] → leaf_typed s [jobPrefix; k; x] n
| typed_state k n usm : unmarshal_ (A := unitStateModel) n.(kv_value) = Ok usm → leaf_typed s ["state"; k] n
| typed_states k m n usm ms : unmarshal_ n.(kv_value) = Ok usm → usm.(usm_MachineState) = Some ms → ms.(ID) = m →
    leaf_typed s ["states"; k; m] n
| typed_machine m n ms : unmarshal_ n.(kv_value) = Ok ms → ms.(ID) = m → leaf_typed s [machinePrefix; m; "object"] n
| typed_metadata m x n : leaf_typed s [machinePrefix; m; "metadata"; x] n
| typed_version n v : Atoi n.(kv_value) = Some v → leaf_typed s ["engine"; "version"] n
| typed_lease x n : leaf_typed s ["lease"; x] n.

Definition registry_typed (s : St) : Prop :=
  registry_wf s ∧ ∀ l n, leaf l → file_at s l = Some n → leaf_typed s l n.

(** Unit files stay, and what is new is typed. *)
Lemma typed_change s s' :
  registry_typed s → registry_wf s' →
  (∀ h n, good_elem h → file_at s ["unit"; h] = Some n → file_at s' ["unit"; h] = Some n) →
  (∀ l n, leaf l → file_at s' l = Some n → file_at s l = Some n ∨ leaf_typed s' l n) →
  registry_typed s'.
Proof.
  intros [_ Ht] Hwf Hunit Hnew. split; [done|]. intros l n Hl Hn.
  destruct (Hnew l n Hl Hn) as [Hold|?]; [|done]. destruct (Ht l n Hl Hold); try by econstructor.
  eapply typed_object; try done. destruct H1 as (n' & Hn' & Hu). exists n'. split; [|done].
  apply Hunit; [apply hash_good|done].
Qed.

(** Writing a file; a unit file is only ever created. *)
Lemma set_typed s l v o :
  registry_typed s → leaf l → (hd "" l = "unit" → o.(so_PrevExist) = PrevNoExist) → ttl_ok o.(so_TTL) →
  (∀ s' n, (∀ h n, good_elem h → file_at s ["unit"; h] = Some n → file_at s' ["unit"; h] = Some n) →
     n.(kv_value) = v → n.(kv_expires) = expiration (kv_now s) o.(so_TTL) → leaf_typed s' l n) →
  registry_typed (kSet (key_of (reg_key l)) v o s).1.
Proof.
  intros Ht Hl Hcreate Httl Hty. pose proof (set_leaf keyPrefix prefix_good s l v o (proj1 Ht) Hl Httl) as H.
  destruct (kSet _ _ _ s) as [s' r]. destruct H as [Hwf' H]. cbn [fst]. destruct (set_check _ _) eqn:Hc.
  - destruct H as [_ H]. apply (typed_change s s' Ht Hwf'); intros; rewrite ?H in *; auto.
  - destruct H as (_ & (n & Hn & Hv & He) & Hframe).
    assert (∀ l', leaf l' → l' ≠ l → file_at s' l' = file_at s l') as Hf.
    { intros l' Hl' Hll. apply Hframe. intros Hp. exact (Hll (leaf_apart l' l Hl' Hl Hp)). }
    assert (∀ h n, good_elem h → file_at s ["unit"; h] = Some n → file_at s' ["unit"; h] = Some n) as Hunit.
    { intros h n' Hh. destruct (decide (["unit"; h] = l)) as [<-|]; [|rewrite Hf; [done|by apply leaf_unit|done]].
      intros Hold. rewrite Hold in Hc. cbn in Hc. by rewrite Hcreate in Hc. }
    apply (typed_change s s' Ht Hwf' Hunit). intros l' n' Hl' Hn'. destruct (decide (l' = l)) as [->|Hll].
    + right. assert (n' = n) as -> by congruence. by apply Hty.
    + left. by rewrite <- Hf.
Qed.

(** Deleting below a key that is not that of unit files. *)
Lemma delete_typed s l o :
  registry_typed s → l ≠ [] → Forall good_elem l → hd "" l ≠ "unit" → open_key s (reg_key l) →
  registry_typed (kDelete (key_of (reg_key l)) o s).1.
Proof.
  intros Ht Hl Hg Hne Ho. pose proof (delete_below keyPrefix prefix_good s l o (proj1 Ht) Hl Hg Ho) as H.
  destruct (kDelete _ _ s) as [s' r]. destruct H as [Hwf' H]. cbn [fst]. destruct (delete_check _ _).
  - destruct H as [_ H]. apply (typed_change s s' Ht Hwf'); intros; rewrite ?H in *; auto.
  - destruct H as [_ H]. apply (typed_change s s' Ht Hwf').
    + intros h n Hh. rewrite H. rewrite decide_False; [done|]. intros [k Hk]. by destruct l; simplify_eq/=.
    + intros l' n _. rewrite H. case_decide; [done|]. auto.
Qed.

Lemma delete_leaf_typed s l o :
  registry_typed s → leaf l → hd "" l ≠ "unit" → registry_typed (kDelete (key_of (reg_key l)) o s).1.
Proof.
  intros Ht Hl Hne. apply delete_typed; [done|by apply leaf_ne|by apply leaf_good|done|by apply Ht].
Qed.

(** The first component of a call whose answer is only inspected. *)
Lemma fst_let {A B C} (p : A * B) (f : B → C) : (let '(a, b) := p in (a, f b)).1 = p.1.
Proof. by destruct p. Qed.

Lemma SaveUnitState_typed s k us ttl :
  registry_typed s → good_elem k → good_elem us.(UsMachineID) → ttl_ok ttl →
  (∀ usm, unitStateToModel (Some us) = Some usm → json_ok usm) →
  registry_typed (er_SaveUnitState keyPrefix k us ttl s).
Proof.
  intros Ht Hk Hm Httl Hj. unfold er_SaveUnitState. destruct (unitStateToModel (Some us)) as [usm|] eqn:E; [|done].
  destruct (marshal_roundtrip _ (Hj usm eq_refl)) as (b & -> & Hu).
  rewrite (legacy_path keyPrefix prefix_rooted prefix_good), (state_path keyPrefix prefix_rooted prefix_good) by done.
  assert (∃ ms, usm_MachineState usm = Some ms ∧ ID ms = UsMachineID us) as (ms & Hms & Hid).
  { cbn in E. case_bool_decide; [done|]. injection E as <-. cbn. rewrite bool_decide_eq_true_2 by apply Hm. eauto. }
  apply set_typed; [|by apply leaf_states|done|done|].
  - apply set_typed; [done|by apply leaf_state|done|done|]. intros s' n _ <- _. by eapply typed_state.
  - intros s' n _ <- _. by eapply typed_states.
Qed.

Lemma storeOrGetUnitFile_typed s u : registry_typed s → registry_typed (storeOrGetUnitFile keyPrefix u s).1.
Proof.
  intros Ht. unfold storeOrGetUnitFile. destruct (marshal_ _) as [b|]; [|done].
  rewrite (hashed_path keyPrefix prefix_rooted prefix_good).
  match goal with |- context [kSet ?k b ?o s] => assert (registry_typed (kSet k b o s).1) as Ht1 end.
  { apply set_typed; [done|apply leaf_unit, hash_good|done|by left|]. intros s' n _ _ He. by apply typed_unit. }
  by destruct (kSet _ _ _ s) as [s1 [r|e]].
Qed.

(** The files of a unit that hold any text. *)
Lemma set_job_typed s k x v p ttl :
  registry_typed s → good_elem k → ttl_ok ttl → x ∈ ["target"; "target-state"; "job-state"] →
  registry_typed (kSet (key_of (reg_key [jobPrefix; k; x])) v (mkSetOptions "" 0 p ttl) s).1.
Proof.
  intros Ht Hk Httl Hx. apply set_typed; [done|by apply job_leaf; [|right]|done|done|]. intros. by apply typed_job.
Qed.

Lemma SetUnitTargetState_typed s k st :
  registry_typed s → good_elem k → registry_typed (er_SetUnitTargetState keyPrefix k st s).1.
Proof.
  intros Ht Hk. unfold er_SetUnitTargetState, jobTargetStatePath. rewrite fst_let.
  rewrite (job_path keyPrefix prefix_rooted prefix_good) by done. apply set_job_typed; [done|done|by left|in_list].
Qed.

Lemma DestroyUnit_typed s k : registry_typed s → good_elem k → registry_typed (er_DestroyUnit keyPrefix k s).1.
Proof.
  intros Ht Hk. unfold er_DestroyUnit. rewrite (prefixed_elems keyPrefix prefix_rooted prefix_good) by (done || good_key).
  match goal with |- context [kDelete ?p ?o s] => assert (registry_typed (kDelete p o s).1) as H end.
  { apply delete_typed; [done|done|good_key|done|]. apply (open_above keyPrefix s [jobPrefix; k] ["object"]); [apply Ht|].
    by apply job_leaf; [|in_list]. }
  by destruct (kDelete _ _ s) as [s1 [r|e]].
Qed.

Lemma RemoveUnitState_typed s k : registry_typed s → good_elem k → registry_typed (er_RemoveUnitState keyPrefix k s).1.
Proof.
  intros Ht Hk. unfold er_RemoveUnitState.
  rewrite (legacy_path keyPrefix prefix_rooted prefix_good), (states_path keyPrefix prefix_rooted prefix_good) by done.
  pose proof (delete_leaf_typed s ["state"; k] no_delete_options Ht (leaf_state k Hk) ltac:(done)) as H1.
  destruct (kDelete _ _ s) as [s1 r1]. cbn [fst] in H1. destruct (negb _); [done|].
  match goal with |- context [kDelete ?p ?o s1] => assert (registry_typed (kDelete p o s1).1) as H end.
  { apply delete_typed; [done|done|good_key|done|]. apply (open_above keyPrefix s1 ["states"; k] [k]); [apply H1|].
    by apply leaf_states. }
  destruct (kDelete _ _ s1) as [s2 r2]. by destruct (negb _).
Qed.

Lemma set_machine_typed s ms b p ttl :
  registry_typed s → good_elem ms.(ID) → unmarshal_ b = Ok ms → ttl_ok ttl →
  registry_typed (kSet (machine_object keyPrefix ms.(ID)) b (mkSetOptions "" 0 p ttl) s).1.
Proof.
  intros Ht Hm Hu Httl. rewrite (machine_path keyPrefix prefix_rooted prefix_good) by done.
  apply set_typed; [done|by apply leaf_machine|done|done|]. intros s' n _ <- _. by eapply typed_machine.
Qed.

Lemma SetMachineState_typed s ms ttl :
  registry_typed s → good_elem ms.(ID) → json_ok ms → ttl_ok ttl →
  registry_typed (er_SetMachineState keyPrefix ms ttl s).1.
Proof.
  intros Ht Hm Hj Httl. unfold er_SetMachineState. destruct (marshal_roundtrip _ Hj) as (b & -> & Hu).
  pose proof (set_machine_typed s ms b PrevExist ttl Ht Hm Hu Httl) as H1.
  destruct (kSet _ _ _ s) as [s1 [r|e]]; [done|]. rewrite fst_let. by apply set_machine_typed.
Qed.

Lemma set_metadata_typed s m k v :
  registry_typed s → good_elem m → good_elem k → registry_typed (er_SetMachineMetadata keyPrefix m k v s).1.
Proof.
  intros Ht Hm Hk. unfold er_SetMachineMetadata. rewrite fst_let, (metadata_path keyPrefix prefix_rooted prefix_good) by done.
  apply set_typed; [done|by apply leaf_metadata|done|by left|]. intros. apply typed_metadata.
Qed.

Lemma UpdateEngineVersion_typed s from to :
  registry_typed s → int_range to → registry_typed (er_UpdateEngineVersion keyPrefix from to s).1.
Proof.
  intros Ht Hto. unfold er_UpdateEngineVersion. rewrite (version_path keyPrefix prefix_rooted prefix_good).
  assert (∀ s pv p, registry_typed s →
    registry_typed (kSet (key_of (reg_key ["engine"; "version"])) (Itoa to) (mkSetOptions pv 0 p 0) s).1) as Hset.
  { intros s0 pv p Ht0. apply set_typed; [done|apply leaf_version|done|by left|]. intros s' n _ Hv _.
    eapply typed_version. by rewrite Hv, Atoi_Itoa. }
  pose proof (Hset s (Itoa from) PrevIgnore Ht) as H1. destruct (kSet _ _ _ s) as [s1 [r|e]]; [done|].
  cbn [fst] in H1. destruct (negb _); [done|]. rewrite fst_let. by apply Hset.
Qed.

Lemma CreateUnit_typed s u : registry_typed s → storable s u → registry_typed (er_CreateUnit keyPrefix u s).1.
Proof.
  intros Ht (Hk & Hj1 & Hj2 & Hp & Hst). unfold er_CreateUnit.
  pose proof (storeOrGetUnitFile_stored keyPrefix prefix_rooted prefix_good s _ (proj1 Ht) Hj1 Hst) as H1.
  pose proof (storeOrGetUnitFile_typed s (UUnit u) Ht) as Ht1.
  destruct (storeOrGetUnitFile _ _ s) as [s1 r1]. destruct H1 as (-> & _ & (n1 & Hn1 & Hu1) & _). cbn [fst] in Ht1.
  destruct (marshal_roundtrip _ Hj2) as (b & -> & Hu). rewrite (job_path keyPrefix prefix_rooted prefix_good) by done.
  match goal with |- context [kSet ?k b ?o s1] => assert (registry_typed (kSet k b o s1).1) as Ht2 end.
  { apply set_typed; [done|by apply job_leaf; [|in_list]|done|by left|]. intros s' n Hunit <- He.
    apply (typed_object s' _ n (parsed_file (UUnit u))); [done|by rewrite parsed_file_Hash| |by apply parsed_file_parsed].
    apply file_stored_parsed. exists n1. split; [|done]. apply Hunit; [apply hash_good|done]. }
  destruct (kSet _ _ _ s1) as [s2 [r2|e]]; [|done]. cbn [fst] in Ht2. by apply SetUnitTargetState_typed.
Qed.

(** What the type of a file says, file by file. *)
Lemma typed_object_inv s k n :
  leaf_typed s [jobPrefix; k; "object"] n →
  ∃ u, unmarshal_ n.(kv_value) = Ok (mkJobModel k (UnitFile_Hash u)) ∧ file_stored s u ∧ NewUnitFile (UnitFile_String u) = Ok u.
Proof.
  intros H. inversion H as [? ? u He Hu Hst Hp| |? ? ? Hx| | | | | |]; [eauto|].
  repeat (apply elem_of_cons in Hx as [?|Hx]; [done|]). by apply not_elem_of_nil in Hx.
Qed.

Lemma typed_states_inv s k m n :
  leaf_typed s ["states"; k; m] n →
  ∃ usm ms, unmarshal_ n.(kv_value) = Ok usm ∧ usm.(usm_MachineState) = Some ms ∧ ms.(ID) = m.
Proof. intros H. inversion H. eauto. Qed.

Lemma typed_machine_inv s m n :
  leaf_typed s [machinePrefix; m; "object"] n → ∃ ms, unmarshal_ n.(kv_value) = Ok ms ∧ ms.(ID) = m.
Proof. intros H. inversion H. eauto. Qed.

Lemma typed_version_inv s n : leaf_typed s ["engine"; "version"] n → ∃ v, Atoi n.(kv_value) = Some v.
Proof. intros H. inversion H. eauto. Qed.

(** ** The invariant *)

Lemma step_typed s s' : registry_typed s → registry_step s s' → registry_typed s'.
Proof.
  intros Ht Hs. destruct Hs.
  - by apply CreateUnit_typed.
  - by apply DestroyUnit_typed.
  - by apply SetUnitTargetState_typed.
  - unfold er_ScheduleUnit. rewrite fst_let, (target_path keyPrefix prefix_rooted prefix_good) by done.
    apply set_job_typed; [done|done|by left|in_list].
  - unfold er_UnscheduleUnit. rewrite fst_let, (target_path keyPrefix prefix_rooted prefix_good) by done.
    by apply delete_leaf_typed; [|apply leaf_target|].
  - unfold er_UnitHeartbeat. rewrite fst_let. unfold jobHeartbeatPath.
    rewrite (job_path keyPrefix prefix_rooted prefix_good) by done. apply set_job_typed; [done|done|done|in_list].
  - unfold er_ClearUnitHeartbeat, jobHeartbeatPath. rewrite (job_path keyPrefix prefix_rooted prefix_good) by done.
    by apply delete_leaf_typed; [|apply job_leaf; [|in_list]|].
  - by apply SaveUnitState_typed.
  - by apply RemoveUnitState_typed.
  - unfold er_CreateMachineState. destruct (marshal_roundtrip _ H0) as (b & -> & Hu). rewrite fst_let.
    by apply set_machine_typed.
  - by apply SetMachineState_typed.
  - by apply set_metadata_typed.
  - by apply set_metadata_typed.
  - unfold er_RemoveMachineState. rewrite fst_let, (machine_path keyPrefix prefix_rooted prefix_good) by done.
    by apply delete_leaf_typed; [|apply leaf_machine|].
  - by apply UpdateEngineVersion_typed.
  - apply (typed_change s s' Ht H).
    + intros h n Hh Hn. destruct (H0 ["unit"; h] (leaf_unit h Hh)) as [->|(_ & n' & Hn' & He)]; [done|].
      assert (n' = n) as -> by congruence. destruct He. pose proof (proj2 Ht _ _ (leaf_unit h Hh) Hn) as Hty.
      by inversion Hty.
    + intros l n Hl Hn. left. by destruct (H0 l Hl) as [<-|[? _]]; [|congruence].
Qed.

Lemma reachable_typed s : registry_reachable s → registry_typed s.
Proof.
  intros (s0 & [Hwf He] & Hs). assert (registry_typed s0) as H0.
  { split; [done|]. intros l n Hl. by rewrite He. }
  clear He Hwf. induction Hs as [|x y z Hxy _ IH]; [done|]. apply IH. by eapply step_typed.
Qed.

End invariant.
