(* ===== verification/EtcdViews.v ===== *)
(** * Reading the registry: in bulk and one by one

    [Units] and [Schedule] read everything in a few requests; [Unit] and
    [ScheduledUnit] read one unit.  On every registry that the operations can
    produce they agree, for the names that etcd lists. *)

From stdpp Require Import base list gmap strings.
From Stdlib Require Import Ascii ZArith.
From S2P Require Import Prelude GoStrings GoPath Pkg UnitFile Job Machine Cluster Engine Api Etcd Lease Leadership EtcdRegistry EtcdSchedule EtcdStore EtcdInvariant.

Section views.
Context `{K : KeysAPI St, KV : !KeysView St, KL : !KeysLaws K KV}.
Context `{JJ : JSON jobModel, JU : JSON unitModel, JM : JSON MachineState, JS : JSON unitStateModel}.
Context `{DG : Digest, MR : MapRange, GS : GoSort}.
Variable keyPrefix : string.
Hypothesis prefix_rooted : has_prefix "/" keyPrefix = true.
Hypothesis prefix_good : Forall good_elem (path_elems keyPrefix).

#[local] Abbreviation registry_wf := (registry_wf keyPrefix).
#[local] Abbreviation file_at := (file_at keyPrefix).
#[local] Abbreviation reg_key := (reg_key keyPrefix).
#[local] Abbreviation file_stored := (file_stored keyPrefix).
#[local] Abbreviation registry_typed := (registry_typed keyPrefix).
#[local] Abbreviation registry_reachable := (registry_reachable keyPrefix).

(** ** Units *)

(** The unit [k] as its files say: its object, or nothing; a target state that is
    no job state is an error. *)
Definition unit_at (s : St) (k : string) (r : res etcd_error (option Unit)) : Prop :=
  match file_at s [jobPrefix; k; "object"] with
  | None => r = Ok None
  | Some n => ∃ u, unmarshal_ n.(kv_value) = Ok (mkJobModel k (UnitFile_Hash u)) ∧
      file_stored s u ∧ NewUnitFile (UnitFile_String u) = Ok u ∧
      r = match default "" (kv_value <$> file_at s [jobPrefix; k; "target-state"]) with
          | "" => Ok (Some (mkUnit k u ""))
          | ts => match ParseJobState ts with
                  | Ok ts => Ok (Some (mkUnit k u ts))
                  | Err e => Err (OtherError ("failed to parse Unit(" +:+ k +:+ ") target-state: " +:+ e))
                  end
          end
  end.

Lemma dirToUnit_typed s k nd lookup :
  registry_typed s → good_elem k → tree_for s (reg_key [jobPrefix; k]) nd →
  (∀ u, file_stored s u → NewUnitFile (UnitFile_String u) = Ok u → lookup (UnitFile_Hash u) = Some u) →
  unit_at s k (dirToUnit nd lookup) .
Proof.
  intros Ht Hk Htr Hl. unfold unit_at. destruct (file_at s [jobPrefix; k; "object"]) as [n|] eqn:Hn.
  - pose proof (proj2 Ht _ _ (job_leaf k "object" Hk ltac:(in_list)) Hn) as Hty.
    apply typed_object_inv in Hty as (u & Hu & Hst & Hp). exists u. split_and!; [done..|].
    rewrite (dirToUnit_at keyPrefix prefix_good s k nd lookup u n _ (proj1 Ht) Hk Htr Hn Hu (Hl u Hst Hp)). done.
  - unfold dirToUnit. pose proof (proj1 (proj1 Ht)) as Hwf.
    assert (Forall good_elem (reg_key [jobPrefix; k])) as Hg by (apply reg_key_good; [done|good_key]).
    rewrite (tree_key _ _ _ Htr), path_join_child by done.
    pose proof (tree_last_child s _ nd "object" (λ c, Key c = key_of (reg_key [jobPrefix; k] ++ ["object"])) Hwf Htr eq_refl
      (λ y c Hc, tree_key_name s _ "object" y c Hwf ltac:(done) Hc)) as H. rewrite reg_key_snoc in H |- *. cbn [app] in H |- *.
    destruct (last _) as [c|]; [|done]. apply tree_node in H as (n' & Hn' & _). unfold EtcdRegistry.file_at in Hn. congruence.
Qed.

Lemma er_Unit_at s k : registry_typed s → good_elem k → unit_at s k (er_Unit keyPrefix k s).
Proof.
  intros Ht Hk. unfold er_Unit. rewrite (prefixed_elems keyPrefix prefix_rooted prefix_good) by (done || good_key).
  pose proof (get_at keyPrefix prefix_good s [jobPrefix; k] ["object"] (mkGetOptions true false false) (proj1 Ht)
    (job_leaf k "object" Hk ltac:(in_list))) as Hget.
  destruct (file_at s [jobPrefix; k]) as [n|] eqn:Hn.
  - destruct Hget as (nd & -> & _ & Htr). apply dirToUnit_typed; [done|done|by apply Htr|].
    intros u Hst Hp. by apply getUnitByHash_stored; [..|apply Ht| |].
  - rewrite Hget. unfold unit_at. pose proof (file_below keyPrefix s [jobPrefix; k] "object" (proj1 Ht) Hn) as E.
    cbn [app] in E. by rewrite E.
Qed.

(** What the files say is unique. *)
Lemma unit_at_unique s k r r' : unit_at s k r → unit_at s k r' → r = r'.
Proof.
  unfold unit_at. destruct (file_at s [jobPrefix; k; "object"]) as [n|]; [|congruence].
  intros (u & Hu & (n1 & Hn1 & Hm1) & Hp & ->) (u' & Hu' & (n2 & Hn2 & Hm2) & Hp' & ->).
  assert (UnitFile_Hash u = UnitFile_Hash u') as E by congruence. rewrite E in Hn1.
  assert (UnitFile_String u = UnitFile_String u') as E' by congruence. rewrite E' in Hp.
  by assert (u = u') as -> by congruence.
Qed.

(** The hash of a file, printed, is an element of a path that etcd lists. *)
Lemma hash_listed u : hidden (Hash_String (UnitFile_Hash u)) = false.
Proof.
  unfold hidden. apply not_true_iff_false. intros [t E]%has_prefix_spec.
  pose proof (Hash_String_no_byte (UnitFile_Hash u) "_"%char eq_refl) as H. rewrite E in H. done.
Qed.

Lemma unit_hash_lookup nodes m h u :
  is_ok (HashFromHexString h) = true →
  (∀ c, c ∈ nodes → last (split_byte "/" c.(Key)) = Some h → unitFromEtcdNode c = Some u) →
  m !! h = Some u ∨ (∃ c, c ∈ nodes ∧ last (split_byte "/" c.(Key)) = Some h) →
  foldl unit_hash_entry m nodes !! h = Some u.
Proof.
  intros Hh. revert m. induction nodes as [|c nodes IH]; intros m Hall Hex; cbn.
  { destruct Hex as [?|(c & Hc & _)]; [done|by apply not_elem_of_nil in Hc]. }
  apply IH; [intros c' Hc'; apply Hall; by right|]. unfold unit_hash_entry.
  destruct (last (split_byte "/" (Key c))) as [h'|] eqn:El.
  - destruct (decide (h' = h)) as [->|Hne].
    + left. rewrite (Hall c) by (done || by left). destruct (HashFromHexString h); [|done]. by rewrite lookup_insert_eq.
    + destruct Hex as [Hm|(c' & [->|Hc']%elem_of_cons & Hl)]; [left|congruence|right; eauto].
      destruct (HashFromHexString h'); [|done]. destruct (unitFromEtcdNode c); [|done]. by rewrite lookup_insert_ne.
  - destruct Hex as [Hm|(c' & [->|Hc']%elem_of_cons & Hl)]; [by left|congruence|right; eauto].
Qed.

Lemma split_key l x : good_elem x → last (split_byte "/" (key_of (l ++ [x]))) = Some x.
Proof.
  intros (_ & _ & _ & Hx). destruct (key_of_last l x) as [pre ->].
  by rewrite split_byte_app_sep, (split_byte_no _ x), last_snoc.
Qed.

(** The map of all unit files has every file that is stored. *)
Lemma getAllUnitsHashMap_at s u m :
  registry_typed s → file_stored s u → NewUnitFile (UnitFile_String u) = Ok u →
  getAllUnitsHashMap keyPrefix s = Ok m → m !! Hash_String (UnitFile_Hash u) = Some u.
Proof.
  intros Ht (n & Hn & Hu) Hp. unfold getAllUnitsHashMap. pose proof (proj1 (proj1 Ht)) as Hwf.
  rewrite (prefixed_key keyPrefix prefix_rooted prefix_good [unitPrefix] ["unit"]) by (done || good_key).
  pose proof (get_at keyPrefix prefix_good s ["unit"] [Hash_String (UnitFile_Hash u)] (mkGetOptions true false true) (proj1 Ht)
    (leaf_unit _ (hash_good u))) as Hget.
  destruct (file_dir keyPrefix s ["unit"] [Hash_String (UnitFile_Hash u)] n (proj1 Ht) Hn) as [d Hd].
  rewrite Hd in Hget. destruct Hget as (nd & -> & _ & Htr). specialize (Htr eq_refl). cbn [res_bind]. intros [= <-].
  destruct (tree_children _ _ _ Htr) as [Hc1 Hc2]. apply unit_hash_lookup.
  - by rewrite HashFromHexString_String.
  - intros c Hc Hl. destruct (Hc1 c Hc) as [x Hx]. pose proof Hx as (n' & Hn' & Hk & _ & Hv & _)%tree_node.
    pose proof (kv_good _ _ _ Hwf Hn') as [_ Hg]%Forall_app. apply Forall_cons in Hg as [Hg _].
    rewrite Hk, split_key in Hl by done. injection Hl as ->. rewrite reg_key_snoc in Hn'. cbn [app] in Hn'.
    unfold EtcdRegistry.file_at, unit_leaf in Hn. assert (n' = n) as -> by congruence.
    unfold unitFromEtcdNode. rewrite Hv, Hu. cbn. by rewrite Hp.
  - right. destruct (Hc2 (Hash_String (UnitFile_Hash u)) Hwf) as (c & Hc & Htc).
    + rewrite reg_key_snoc. unfold EtcdRegistry.file_at, unit_leaf in Hn. cbn [app]. by rewrite Hn.
    + apply hash_listed.
    + exists c. split; [done|]. rewrite (tree_key _ _ _ Htc). apply split_key, hash_good.
Qed.

(** A unit that can be read has an object and its file. *)
Lemma unit_stored s k u :
  registry_typed s → good_elem k → er_Unit keyPrefix k s = Ok (Some u) →
  is_Some (file_at s [jobPrefix; k; "object"]) ∧ file_stored s u.(UUnit).
Proof.
  intros Ht Hk Hu. pose proof (er_Unit_at s k Ht Hk) as H. rewrite Hu in H. unfold unit_at in H.
  destruct (file_at s [jobPrefix; k; "object"]) as [n|]; [|done]. destruct H as (u' & _ & Hst & _ & H). split; [eauto|].
  destruct (default "" _); [by injection H as ->|]. destruct (ParseJobState _); [by injection H as ->|done].
Qed.

Lemma unit_at_name s k u : unit_at s k (Ok (Some u)) → u.(UName) = k.
Proof.
  unfold unit_at. destruct (file_at s _); [|done]. intros (u' & _ & _ & _ & H).
  destruct (default "" _); [by injection H as ->|]. destruct (ParseJobState _); [by injection H as ->|done].
Qed.

Lemma hash_map_read s u : registry_typed s → file_stored s u → ∃ m, getAllUnitsHashMap keyPrefix s = Ok m.
Proof.
  intros Ht (n & Hn & _). unfold getAllUnitsHashMap.
  rewrite (prefixed_key keyPrefix prefix_rooted prefix_good [unitPrefix] ["unit"]) by (done || good_key).
  pose proof (get_at keyPrefix prefix_good s ["unit"] [Hash_String (UnitFile_Hash u)] (mkGetOptions true false true) (proj1 Ht)
    (leaf_unit _ (hash_good u))) as Hget.
  destruct (file_dir keyPrefix s ["unit"] [Hash_String (UnitFile_Hash u)] n (proj1 Ht) Hn) as [d Hd].
  rewrite Hd in Hget. destruct Hget as (nd & -> & _). by eexists.
Qed.

(** The units read from the directories of a listing. *)
Lemma units_of_dirs s nd m u :
  registry_typed s → tree_for s (reg_key [jobPrefix]) nd → getAllUnitsHashMap keyPrefix s = Ok m →
  u ∈ omap (λ dir, match dirToUnit dir (λ hash, m !! Hash_String hash) with Ok u => u | Err _ => None end) nd.(Nodes) ↔
  unit_name u.(UName) ∧ er_Unit keyPrefix u.(UName) s = Ok (Some u).
Proof.
  intros Ht Htr Hm. pose proof (proj1 (proj1 Ht)) as Hwf. rewrite list_elem_of_omap.
  assert (∀ k dir, good_elem k → tree_for s (reg_key [jobPrefix; k]) dir →
    dirToUnit dir (λ hash, m !! Hash_String hash) = er_Unit keyPrefix k s) as Hdir.
  { intros k dir Hk Hd. eapply unit_at_unique; [|by apply er_Unit_at]. apply dirToUnit_typed; [done..|].
    intros u' Hst Hp. by eapply getAllUnitsHashMap_at. }
  split.
  - intros (dir & Hin & H). destruct (tree_child_listed s _ nd dir Hwf Htr Hin) as (k & Hd & Hk & Hh).
    rewrite reg_key_snoc in Hd. cbn [app] in Hd. rewrite (Hdir k dir Hk Hd) in H.
    destruct (er_Unit keyPrefix k s) as [o|e] eqn:Hu; [|done]. subst o.
    pose proof (er_Unit_at s k Ht Hk) as Hat. rewrite Hu in Hat. apply unit_at_name in Hat as ->. by split.
  - intros [[Hk Hh] Hu]. destruct (tree_children _ _ _ Htr) as [_ Hc2].
    destruct (unit_stored s _ u Ht Hk Hu) as [[n Hn] _].
    destruct (file_dir keyPrefix s [jobPrefix; UName u] ["object"] n (proj1 Ht) Hn) as [d Hd].
    destruct (Hc2 (UName u) Hwf) as (dir & Hin & Htd).
    { rewrite reg_key_snoc. cbn [app]. unfold EtcdRegistry.file_at in Hd. by rewrite Hd. }
    { done. }
    rewrite reg_key_snoc in Htd. cbn [app] in Htd. exists dir. split; [done|]. by rewrite (Hdir _ dir Hk Htd), Hu.
Qed.

(** Listing the units, against reading them. *)
Lemma er_Units_listed s us u :
  registry_typed s → er_Units keyPrefix s = Ok us →
  u ∈ us ↔ unit_name u.(UName) ∧ er_Unit keyPrefix u.(UName) s = Ok (Some u).
Proof.
  intros Ht. unfold er_Units.
  rewrite (prefixed_elems keyPrefix prefix_rooted prefix_good [jobPrefix]) by (done || good_key).
  pose proof (get_at keyPrefix prefix_good s [jobPrefix] ["a"; "object"] (mkGetOptions true true false) (proj1 Ht)
    (job_leaf "a" "object" ltac:(by split_and!) ltac:(in_list))) as Hget.
  destruct (file_at s [jobPrefix]) as [n|] eqn:Hn.
  - destruct Hget as (nd & -> & _ & Htr). specialize (Htr eq_refl).
    destruct (getAllUnitsHashMap keyPrefix s) as [m|] eqn:Hm; [|done]. cbn [res_bind]. intros [= <-]. by apply units_of_dirs.
  - rewrite Hget. cbn. intros [= <-]. split; [by intros ?%not_elem_of_nil|].
    intros [[Hg _] Hu]. apply unit_stored in Hu as [[n' Hn'] _]; [|done|done].
    by destruct (file_dir keyPrefix s [jobPrefix] [UName u; "object"] n' (proj1 Ht) Hn') as [? ?]; congruence.
Qed.

Lemma er_Units_ok s k u :
  registry_typed s → good_elem k → er_Unit keyPrefix k s = Ok (Some u) → is_ok (er_Units keyPrefix s) = true.
Proof.
  intros Ht Hk Hu. destruct (unit_stored s k u Ht Hk Hu) as ([n Hn] & Hst). unfold er_Units.
  rewrite (prefixed_elems keyPrefix prefix_rooted prefix_good [jobPrefix]) by (done || good_key).
  pose proof (get_at keyPrefix prefix_good s [jobPrefix] [k; "object"] (mkGetOptions true true false) (proj1 Ht)
    (job_leaf k "object" Hk ltac:(in_list))) as Hget.
  destruct (file_dir keyPrefix s [jobPrefix] [k; "object"] n (proj1 Ht) Hn) as [d Hd]. rewrite Hd in Hget.
  destruct Hget as (nd & -> & _). by destruct (hash_map_read s _ Ht Hst) as [m ->].
Qed.

(** C8: on every registry the operations can produce, the list of all units has
    exactly the units that can be read one by one, apart from those whose name
    starts with an underscore; and it can be read whenever there is a unit. *)
Theorem Units_agree s :
  registry_reachable s →
  (∀ us u, er_Units keyPrefix s = Ok us →
    u ∈ us ↔ unit_name u.(UName) ∧ er_Unit keyPrefix u.(UName) s = Ok (Some u)) ∧
  (∀ k u, good_elem k → er_Unit keyPrefix k s = Ok (Some u) → is_ok (er_Units keyPrefix s) = true).
Proof.
  intros Ht%reachable_typed; try done. split; [intros us u; by apply er_Units_listed|intros k u; by apply er_Units_ok].
Qed.

(** A unit whose name the API accepts, and that is stored, is listed exactly
    when its name does not start with an underscore: with one, it is accepted,
    stored and can be read by its name, but no list of units has it, so it is
    never scheduled. *)
Theorem valid_unit_listed s u us :
  registry_reachable s → ValidateName u.(UName) = Ok tt → er_Unit keyPrefix u.(UName) s = Ok (Some u) →
  er_Units keyPrefix s = Ok us → u ∈ us ↔ has_prefix "_" u.(UName) = false.
Proof.
  intros Ht%reachable_typed Hn%ValidateName_good Hu Hus; try done. rewrite er_Units_listed by done.
  unfold unit_name, hidden. tauto.
Qed.

(** ** States and the schedule *)

(** The states in the directories of a listing, in the order they are read. *)
Definition listed_states (dirs : list Node) : list (MUSKey * UnitState) :=
  dirs ≫= λ dir, omap (λ nd, (λ us, (mkMUSKey (path_split_file dir.(Key)) (path_split_file nd.(Key)), us)) <$>
    node_state (path_split_file dir.(Key)) nd) dir.(Nodes).

Lemma dir_states_listed dirs mus :
  foldl dir_states mus dirs = foldl (λ m p, <[p.1 := p.2]> m) mus (listed_states dirs).
Proof.
  revert mus. induction dirs as [|dir dirs IH]; intros mus; [done|]. cbn. rewrite foldl_app, IH. f_equal.
  unfold dir_states. generalize mus. induction (Nodes dir) as [|nd nodes IHn]; intros m; [done|]. cbn.
  rewrite IHn. by destruct (node_state _ nd).
Qed.

(** The state of [k] on [m], if there is one. *)
Definition state_at (s : St) (k m : string) : option UnitState :=
  n ← file_at s ["states"; k; m];
  match unmarshal_ n.(kv_value) with Ok usm => Some (modelToUnitState usm k) | Err _ => None end.

Lemma statesByMUSKey_at s k m :
  registry_typed s → unit_name k → unit_name m →
  ∃ mus, statesByMUSKey keyPrefix s = Ok mus ∧ mus !! mkMUSKey k m = state_at s k m.
Proof.
  intros Ht Hk Hm. pose proof (proj1 (proj1 Ht)) as Hwf. unfold statesByMUSKey.
  rewrite (prefixed_key keyPrefix prefix_rooted prefix_good [statesPrefix] ["states"]) by (done || good_key).
  pose proof (get_at keyPrefix prefix_good s ["states"] [k; m] (mkGetOptions true false false) (proj1 Ht)
    (leaf_states k m (proj1 Hk) (proj1 Hm))) as Hget.
  destruct (file_at s ["states"]) as [n|] eqn:Hn.
  - destruct Hget as (nd & -> & _ & Htr). specialize (Htr eq_refl). eexists. split; [done|].
    rewrite dir_states_listed. apply lookup_filled. intros us. unfold listed_states. rewrite list_elem_of_bind. split.
    + intros (dir & (nd' & Hin' & Hus)%list_elem_of_omap & Hin). apply fmap_Some in Hus as (us' & Hus & [= -> -> ->]).
      destruct (tree_child_listed s _ nd dir Hwf Htr Hin) as (k' & Hd & _ & _).
      destruct (tree_child_listed s _ dir nd' Hwf Hd Hin') as (m' & Hd' & _ & _).
      rewrite (tree_name _ _ _ _ Hwf Hd) in *. rewrite (tree_name _ _ _ _ Hwf Hd') in *.
      rewrite !reg_key_snoc in Hd'. cbn [app] in Hd'. apply tree_node in Hd' as (n' & Hn' & _ & _ & Hv & _).
      unfold state_at, EtcdRegistry.file_at. rewrite Hn'. cbn. unfold node_state in Hus. by rewrite Hv in Hus.
    + unfold state_at. intros (n' & Hn' & Hus)%bind_Some.
      destruct (file_dir keyPrefix s ["states"; k] [m] n' (proj1 Ht) Hn') as [d Hd].
      destruct (tree_children _ _ _ Htr) as [_ Hc]. destruct (Hc k Hwf) as (dir & Hin & Htd); [|apply Hk|].
      { rewrite reg_key_snoc. cbn [app]. unfold EtcdRegistry.file_at in Hd. by rewrite Hd. }
      destruct (tree_children _ _ _ Htd) as [_ Hc']. destruct (Hc' m Hwf) as (nd' & Hin' & Htd'); [|apply Hm|].
      { rewrite !reg_key_snoc. cbn [app]. unfold EtcdRegistry.file_at in Hn'. by rewrite Hn'. }
      exists dir. split; [|done]. apply list_elem_of_omap. exists nd'. split; [done|].
      rewrite (tree_name _ _ _ _ Hwf Htd), (tree_name _ _ _ _ Hwf Htd').
      rewrite !reg_key_snoc in Htd'. cbn [app] in Htd'. apply tree_node in Htd' as (n'' & Hn'' & _ & _ & Hv & _).
      unfold EtcdRegistry.file_at in Hn'. assert (n'' = n') as -> by congruence.
      unfold node_state. rewrite Hv. by destruct (unmarshal_ _); simplify_eq/=.
  - rewrite Hget. cbn. eexists. split; [done|]. rewrite lookup_empty. unfold state_at.
    destruct (file_at s ["states"; k; m]) as [n'|] eqn:Hn'; [|done].
    destruct (file_dir keyPrefix s ["states"] [k; m] n' (proj1 Ht) Hn') as [? ?]. congruence.
Qed.

Lemma getUnitState_typed s k m :
  registry_typed s → good_elem k → good_elem m → getUnitState keyPrefix k m s = Ok (state_at s k m).
Proof.
  intros Ht Hk Hm. rewrite (getUnitState_at keyPrefix prefix_rooted prefix_good) by (done || apply Ht).
  unfold state_at. destruct (file_at s _) as [n|] eqn:Hn; [|done].
  pose proof (proj2 Ht _ _ (leaf_states k m Hk Hm) Hn) as (usm & ms & Hu & _)%typed_states_inv. cbn. by rewrite Hu.
Qed.

(** ** Machines *)

Lemma machine_base_typed s m :
  registry_typed s → good_elem m → ∃ base, machine_base keyPrefix s m = Ok base ∧ (base.(ID) = m ∨ base.(ID) = "").
Proof.
  intros Ht Hm. unfold machine_base. destruct (file_at s _) as [n|] eqn:Hn; [|exists empty_machine; auto].
  pose proof (proj2 Ht _ _ (leaf_machine m Hm) Hn) as (ms & Hu & Hid)%typed_machine_inv. eauto.
Qed.

Lemma er_MachineState_typed s m :
  registry_typed s → good_elem m →
  match file_at s [machinePrefix; m] with
  | None => er_MachineState keyPrefix m s = Err (EtcdError ErrorCodeKeyNotFound)
  | Some _ => ∃ ms, er_MachineState keyPrefix m s = Ok ms ∧ (ms.(ID) = m ∨ ms.(ID) = "") ∧
      ∀ nd, tree_for s (reg_key [machinePrefix; m]) nd → readMachineState nd = Ok ms
  end.
Proof.
  intros Ht Hm. pose proof (er_MachineState_at keyPrefix prefix_rooted prefix_good s m (proj1 Ht) Hm) as H.
  destruct (machine_base_typed s m Ht Hm) as (base & Hb & Hid). rewrite Hb in H.
  destruct (file_at s [machinePrefix; m]); [|done]. destruct H as (ms & Hms & Hov). exists ms. split_and!; [done| |].
  - destruct Hov as [-> _]. done.
  - intros nd Htr. pose proof (readMachineState_at keyPrefix s m nd (proj1 Ht) Htr) as H. rewrite Hb in H.
    destruct H as (ms' & -> & Hov'). f_equal. by eapply overlaid_unique.
Qed.

Lemma read_machines_all nodes :
  (∀ nd, nd ∈ nodes → ∃ ms, readMachineState nd = Ok ms) →
  ∃ l, read_machines nodes = Ok l ∧ ∀ ms, ms ∈ l ↔ ms.(ID) ≠ "" ∧ ∃ nd, nd ∈ nodes ∧ readMachineState nd = Ok ms.
Proof.
  induction nodes as [|nd nodes IH]; intros Hall.
  { exists []. split; [done|]. intros ms. split; [by intros ?%not_elem_of_nil|]. by intros (_ & nd & ?%not_elem_of_nil & _). }
  destruct (Hall nd) as [ms Hms]; [by left|]. destruct IH as (l & Hl & Hin); [intros; apply Hall; by right|].
  cbn. rewrite Hms, Hl. cbn. eexists. split; [done|]. intros ms'.
  assert ((∃ nd', nd' ∈ nd :: nodes ∧ readMachineState nd' = Ok ms') ↔
    ms' = ms ∨ ∃ nd', nd' ∈ nodes ∧ readMachineState nd' = Ok ms') as ->.
  { split.
    - intros (nd' & [->|Hnd]%elem_of_cons & E); [left; congruence|eauto].
    - intros [->|(nd' & ? & ?)]; [exists nd; split; [by left|done]|exists nd'; split; [by right|done]]. }
  case_bool_decide; rewrite ?elem_of_cons, Hin; naive_solver.
Qed.

(** The machines that are listed are those that can be read one by one. *)
Lemma er_Machines_typed s :
  registry_typed s → ∃ l, er_Machines keyPrefix s = Ok l ∧
    ∀ ms, ms ∈ l ↔ unit_name ms.(ID) ∧ er_MachineState keyPrefix ms.(ID) s = Ok ms.
Proof.
  intros Ht. pose proof (proj1 (proj1 Ht)) as Hwf. unfold er_Machines.
  rewrite (prefixed_elems keyPrefix prefix_rooted prefix_good [machinePrefix]) by (done || good_key).
  pose proof (get_at keyPrefix prefix_good s [machinePrefix] ["a"; "object"] (mkGetOptions true true false) (proj1 Ht)
    (leaf_machine "a" ltac:(by split_and!))) as Hget.
  assert (∀ m, file_at s [machinePrefix] = None → file_at s [machinePrefix; m] = None) as Hnone.
  { intros m. apply (file_below keyPrefix s [machinePrefix] m), Ht. }
  destruct (file_at s [machinePrefix]) as [n|].
  - destruct Hget as (nd & -> & _ & Htr). specialize (Htr eq_refl).
    assert (∀ c, c ∈ nd.(Nodes) → ∃ m ms, unit_name m ∧ er_MachineState keyPrefix m s = Ok ms ∧
      (ms.(ID) = m ∨ ms.(ID) = "") ∧ readMachineState c = Ok ms) as Hc.
    { intros c Hc. destruct (tree_child_listed s _ nd c Hwf Htr Hc) as (m & Htc & Hgm & Hhm). rewrite reg_key_snoc in Htc. cbn [app] in Htc.
      pose proof (er_MachineState_typed s m Ht Hgm) as H. pose proof Htc as (n' & Hn' & _)%tree_node.
      assert (file_at s [machinePrefix; m] = Some n') as E by done. rewrite E in H.
      destruct H as (ms & Hms & Hid & Hr). exists m, ms. split_and!; [by split|done|done|by apply Hr]. }
    destruct (read_machines_all nd.(Nodes)) as (l & Hl & Hin); [intros c Hin; destruct (Hc c Hin) as (? & ? & ?); naive_solver|].
    exists l. split; [done|]. intros ms. rewrite Hin. split.
    + intros (Hne & c & Hcin & Hr). destruct (Hc c Hcin) as (m & ms' & Hm & Hms & [Hid|?] & Hr'); [|congruence].
      assert (ms' = ms) as -> by congruence. by subst m.
    + intros [[Hg Hh] Hms]. split; [apply Hg|]. pose proof (er_MachineState_typed s _ Ht Hg) as H.
      destruct (file_at s [machinePrefix; ID ms]) as [n'|] eqn:Hn'; [|congruence]. destruct H as (ms' & Hms' & _ & Hr).
      assert (ms' = ms) as -> by congruence. destruct (tree_children _ _ _ Htr) as [_ Hch].
      destruct (Hch (ID ms) Hwf) as (c & Hcin & Htc); [|done|].
      { rewrite reg_key_snoc. cbn [app]. unfold EtcdRegistry.file_at in Hn'. by rewrite Hn'. }
      rewrite reg_key_snoc in Htc. cbn [app] in Htc. exists c. split; [done|]. by apply Hr.
  - rewrite Hget. cbn. eexists. split; [done|]. intros ms. split; [by intros ?%not_elem_of_nil|]. intros [[Hg _] Hms].
    pose proof (er_MachineState_typed s _ Ht Hg) as H. rewrite (Hnone _ eq_refl) in H. congruence.
Qed.

(** C5: whatever sequence of its operations and of expirations produced a registry, where
    names are single elements of a path and the units that
    were created have well-formed options and parts that can be serialized and no two
    files have one hash, what is in it can be read back as what it is: the engine version
    is a number; a unit's object names that unit and its file is there (reading it fails
    only when its target state was set to something that is no job state); a unit state is
    that of the unit and machine it is stored for; a machine is the one asked for, or
    is nameless when only metadata is left of it; and the list of machines has
    exactly the machines that can be read and whose id etcd lists. *)
Theorem reachable_reads s :
  registry_reachable s →
  (∃ v, er_EngineVersion keyPrefix s = Ok v) ∧
  (∀ k, good_elem k →
    match er_Unit keyPrefix k s with
    | Ok o => ∀ u, o = Some u → u.(UName) = k ∧ file_stored s u.(UUnit)
    | Err _ => ∃ n, file_at s [jobPrefix; k; "target-state"] = Some n ∧ is_ok (ParseJobState n.(kv_value)) = false
    end) ∧
  (∀ k m, good_elem k → good_elem m →
    ∃ o, getUnitState keyPrefix k m s = Ok o ∧ ∀ us, o = Some us → us.(UnitName) = k ∧ us.(UsMachineID) = m) ∧
  (∀ m, good_elem m → er_MachineState keyPrefix m s = Err (EtcdError ErrorCodeKeyNotFound) ∨
    ∃ ms, er_MachineState keyPrefix m s = Ok ms ∧ (ms.(ID) = m ∨ ms.(ID) = "")) ∧
  (∃ l, er_Machines keyPrefix s = Ok l ∧
    ∀ ms, ms ∈ l ↔ unit_name ms.(ID) ∧ er_MachineState keyPrefix ms.(ID) s = Ok ms).
Proof.
  intros Ht%reachable_typed; try done. split_and!.
  - unfold er_EngineVersion. rewrite (version_path keyPrefix prefix_rooted prefix_good).
    pose proof (get_at keyPrefix prefix_good s ["engine"; "version"] [] no_get_options (proj1 Ht) leaf_version) as Hget.
    destruct (file_at s ["engine"; "version"]) as [n|] eqn:Hn; [|rewrite Hget; cbn; eauto].
    destruct Hget as (nd & -> & -> & _). pose proof (proj2 Ht _ _ leaf_version Hn) as [v ->]%typed_version_inv. eauto.
  - intros k Hk. destruct (er_Unit keyPrefix k s) as [o|e] eqn:Hu.
    + intros u ->. split; [|by eapply unit_stored]. pose proof (er_Unit_at s k Ht Hk) as H. rewrite Hu in H.
      by apply unit_at_name in H.
    + pose proof (er_Unit_at s k Ht Hk) as H. rewrite Hu in H. unfold unit_at in H.
      destruct (file_at s [jobPrefix; k; "object"]); [|done]. destruct H as (u & _ & _ & _ & H).
      destruct (file_at s [jobPrefix; k; "target-state"]) as [n|]; cbn in H; [|done]. exists n. split; [done|].
      destruct (kv_value n); [done|]. by destruct (ParseJobState _).
  - intros k m Hk Hm. rewrite getUnitState_typed by done. eexists. split; [done|]. unfold state_at.
    intros us (n & Hn & Hus)%bind_Some. pose proof (proj2 Ht _ _ (leaf_states k m Hk Hm) Hn) as (usm & ms & Hu & Hms & Hid)%typed_states_inv.
    rewrite Hu in Hus. injection Hus as <-. unfold modelToUnitState. cbn. by rewrite Hms.
  - intros m Hm. pose proof (er_MachineState_typed s m Ht Hm) as H. destruct (file_at s _); [|by left].
    destruct H as (ms & ? & ? & _). right. eauto.
  - by apply er_Machines_typed.
Qed.

#[local] Abbreviation target_at := (target_at keyPrefix).

(** Units are scheduled to machines whose id is one element of a path that etcd
    lists. *)
Definition targets_listed (s : St) : Prop := ∀ k m, target_at s k = Some m → m = "" ∨ unit_name m.

(** The entry of a unit in the schedule, as its files say. *)
Definition scheduled_at (s : St) (k : string) : ScheduledUnit :=
  let tgt := default "" (target_at s k) in
  let hb := default "" (kv_value <$> file_at s [jobPrefix; k; "job-state"]) in
  mkScheduledUnit k (Some (determineJobState hb tgt (state_at s k tgt))) tgt.

Lemma determineJobState_untargeted hb us us' : determineJobState hb "" us = determineJobState hb "" us'.
Proof. done. Qed.

Lemma er_ScheduledUnit_at s k :
  registry_typed s → targets_listed s → good_elem k →
  er_ScheduledUnit keyPrefix k s =
  Ok (match file_at s [jobPrefix; k] with None => None | Some _ => Some (scheduled_at s k) end).
Proof.
  intros Ht Htg Hk. unfold er_ScheduledUnit.
  rewrite (prefixed_elems keyPrefix prefix_rooted prefix_good) by (done || good_key).
  pose proof (get_at keyPrefix prefix_good s [jobPrefix; k] ["object"] (mkGetOptions true false false) (proj1 Ht)
    (job_leaf k "object" Hk ltac:(in_list))) as Hget.
  destruct (file_at s [jobPrefix; k]) as [n|]; [|by rewrite Hget]. destruct Hget as (nd & -> & _ & Htr).
  specialize (Htr eq_refl). unfold dirToTargetMachineID, dirToHeartbeat.
  rewrite (value_in_dir keyPrefix s _ nd "target" (proj1 Ht) Htr) by done.
  rewrite (value_in_dir keyPrefix s _ nd "job-state" (proj1 Ht) Htr) by done. cbn [app].
  change (kv_value <$> file_at s [jobPrefix; k; "target"]) with (target_at s k). unfold scheduled_at.
  destruct (target_at s k) as [m|] eqn:Hm; cbn [default from_option id].
  - destruct (Htg k m Hm) as [->|[Hgm _]]; [done|]. rewrite bool_decide_eq_true_2; [|destruct m; [by destruct Hgm|cbn; lia]].
    by rewrite (getUnitState_typed s k m Ht Hk Hgm).
  - done.
Qed.

(** What the directories of a listing are read into. *)
Definition dirs_map {V} (f : Node → V) (nodes : list Node) : gmap string V :=
  foldl (λ m dir, <[path_split_file dir.(Key) := f dir]> m) ∅ nodes.

Lemma dirs_map_name {V} (f : Node → V) s nd k :
  kv_wf s → tree_for s (reg_key [jobPrefix]) nd → is_Some (dirs_map f nd.(Nodes) !! k) → unit_name k.
Proof.
  intros Hwf Htr [v Hk]. unfold dirs_map in Hk.
  rewrite (lookup_foldl_insert (λ dir, path_split_file (Key dir))), lookup_empty in Hk.
  destruct (last _) as [dir|] eqn:El; [|done]. apply last_Some_elem_of, list_elem_of_filter in El as [Hdk Hin].
  destruct (tree_child_listed s _ nd dir Hwf Htr Hin) as (x & Hx & Hgx & Hhx).
  rewrite (tree_name _ _ _ _ Hwf Hx) in Hdk. by subst x.
Qed.

(** One entry, from the maps the schedule is read into. *)
Lemma schedule_entry_at s nd mus k tgt :
  registry_typed s → targets_listed s → tree_for s (reg_key [jobPrefix]) nd → statesByMUSKey keyPrefix s = Ok mus →
  dirs_map dirToTargetMachineID nd.(Nodes) !! k = Some tgt →
  unit_name k ∧ is_Some (file_at s [jobPrefix; k]) ∧
  mkScheduledUnit k (Some (determineJobState (default "" (dirs_map dirToHeartbeat nd.(Nodes) !! k)) tgt
    (mus !! mkMUSKey k tgt))) tgt = scheduled_at s k.
Proof.
  intros Ht Htg Htr Hmus Hk.
  assert (unit_name k) as Hname by (eapply dirs_map_name; [apply Ht|done|by rewrite Hk]).
  pose proof (dirs_lookup keyPrefix dirToTargetMachineID s nd k (proj1 Ht) Htr Hname) as H1.
  pose proof (dirs_lookup keyPrefix dirToHeartbeat s nd k (proj1 Ht) Htr Hname) as H2.
  fold (dirs_map dirToTargetMachineID nd.(Nodes)) in H1. fold (dirs_map dirToHeartbeat nd.(Nodes)) in H2.
  rewrite Hk in H1. destruct H1 as (c & Hc & ->).
  pose proof Hc as (nk & Hnk & _)%tree_node. assert (file_at s [jobPrefix; k] = Some nk) as Hfk by done.
  rewrite Hfk. split_and!; [done..|]. destruct (dirs_map dirToHeartbeat _ !! k) as [h|]; [|congruence]. destruct H2 as (c' & Hc' & ->).
  unfold dirToTargetMachineID, dirToHeartbeat, scheduled_at.
  rewrite (value_in_dir keyPrefix s _ c "target" (proj1 Ht) Hc) by done.
  rewrite (value_in_dir keyPrefix s _ c' "job-state" (proj1 Ht) Hc') by done. cbn [app].
  change (kv_value <$> file_at s [jobPrefix; k; "target"]) with (target_at s k).
  destruct (target_at s k) as [m|] eqn:Hm; [|done]. cbn [default from_option id].
  destruct (Htg k m Hm) as [->|Hgm]; [done|].
  destruct (statesByMUSKey_at s k m Ht Hname Hgm) as (mus' & Hmus' & Hlk). assert (mus' = mus) as -> by congruence.
  by rewrite Hlk.
Qed.

Lemma omap_names {V} (m : gmap string V) (f : string → V → ScheduledUnit) (names : list string) :
  (∀ k v, SName (f k v) = k) → SName <$> omap (λ k, f k <$> m !! k) names = filter (λ k, is_Some (m !! k)) names.
Proof.
  intros Hf. induction names as [|k names IH]; [done|]. rewrite filter_cons. cbn. destruct (m !! k) as [v|].
  - rewrite decide_True by eauto. cbn. by rewrite Hf, IH.
  - rewrite decide_False by (by intros []). done.
Qed.

(** The schedule, against reading its entries. *)
Lemma er_Schedule_listed s t :
  registry_typed s → targets_listed s →
  ∃ l, er_Schedule keyPrefix t s = Ok l ∧ NoDup (SName <$> l) ∧
    ∀ su, su ∈ l ↔ unit_name su.(SName) ∧ er_ScheduledUnit keyPrefix su.(SName) s = Ok (Some su).
Proof.
  intros Ht Htg. pose proof (proj1 (proj1 Ht)) as Hwf. unfold er_Schedule.
  rewrite (prefixed_elems keyPrefix prefix_rooted prefix_good [jobPrefix]) by (done || good_key).
  assert (good_elem "a" ∧ unit_name "a") as [Ha Ha'] by (by split_and!).
  pose proof (get_at keyPrefix prefix_good s [jobPrefix] ["a"; "object"] (mkGetOptions true true false) (proj1 Ht)
    (job_leaf "a" "object" Ha ltac:(in_list))) as Hget.
  assert (∀ k, file_at s [jobPrefix] = None → file_at s [jobPrefix; k] = None) as Hnone.
  { intros k. apply (file_below keyPrefix s [jobPrefix] k), Ht. }
  destruct (file_at s [jobPrefix]) as [n|] eqn:Hn.
  - destruct Hget as (nd & -> & _ & Htr). specialize (Htr eq_refl). rewrite schedule_entries.
    destruct (statesByMUSKey_at s "a" "a" Ht Ha' Ha') as (mus & Hmus & _). rewrite Hmus. cbn [res_bind].
    pose proof (schedule_entry_at s nd mus) as Hentry. unfold dirs_map in Hentry.
    set (uMap := foldl (λ m dir, <[_ := dirToTargetMachineID dir]> m) _ _) in *.
    eexists. split; [done|]. split.
    + rewrite omap_names by done. apply NoDup_filter. rewrite go_sort_perm. apply range_NoDup_fst.
    + intros su. rewrite list_elem_of_omap. split.
      * intros (k & _ & (tgt & Hk & ->)%fmap_Some). destruct (Hentry k tgt) as (Hname & [n' Hn'] & ->); [done..|].
        split; [done|]. cbn [SName scheduled_at]. by rewrite er_ScheduledUnit_at, Hn' by (done || apply Hname).
      * intros [Hname Hsu]. rewrite er_ScheduledUnit_at in Hsu by (done || apply Hname).
        destruct (file_at s [jobPrefix; SName su]) as [n'|] eqn:Hn'; [|done]. injection Hsu as Hsu.
        pose proof (dirs_lookup keyPrefix dirToTargetMachineID s nd (SName su) (proj1 Ht) Htr Hname) as H1. fold uMap in H1.
        destruct (uMap !! SName su) as [tgt|] eqn:Hk; [|congruence]. exists (SName su).
        split; [rewrite go_sort_perm; apply elem_of_range_fst, elem_of_dom; by rewrite Hk|].
        destruct (Hentry (SName su) tgt) as (_ & _ & E); [done..|]. rewrite Hk. cbn. by rewrite E, Hsu.
  - rewrite Hget. cbn. eexists. split_and!; [done|constructor|]. intros su. split; [by intros ?%not_elem_of_nil|].
    intros [[Hg _] Hsu]. rewrite er_ScheduledUnit_at, (Hnone _ eq_refl) in Hsu by done. done.
Qed.

(** C6: on every registry the operations can produce in which units are scheduled only to
    machines whose id etcd lists, the schedule that is read in bulk can be read, has no two
    entries for a unit, and has exactly the entries that are read one by one for the units
    whose name does not start with an underscore: their target, and whether they are
    inactive, loaded or launched there.  Units whose name starts with an underscore are
    missing from it. *)
Theorem Schedule_agree s t :
  registry_reachable s → targets_listed s →
  ∃ l, er_Schedule keyPrefix t s = Ok l ∧ NoDup (SName <$> l) ∧
    ∀ su, su ∈ l ↔ unit_name su.(SName) ∧ er_ScheduledUnit keyPrefix su.(SName) s = Ok (Some su).
Proof. intros Ht%reachable_typed; try done. by apply er_Schedule_listed. Qed.

End views.
