(* ===== verification/EtcdLeadership.v ===== *)
(** * The engines of a cluster that share an etcd

    The lease manager and the registry kept in the same etcd, put together: no
    two engines reconcile at the same time. *)

From stdpp Require Import base list gmap strings.
From S2P Require Import Prelude GoStrings GoPath Pkg UnitFile Job Machine Cluster Engine Etcd Lease Leadership EtcdLease EtcdRegistry EtcdSchedule.

Section etcd_leadership.
Context `{K : KeysAPI St, KV : !KeysView St, KL : !KeysLaws K KV, JC : JSON etcdLeaseMetadata}.
Context `{JJ : JSON jobModel, JU : JSON unitModel, JM : JSON MachineState, JS : JSON unitStateModel}.
Context `{DG : Digest, MR : MapRange, GS : GoSort}.
Variable keyPrefix : string.
Hypothesis prefix_rooted : has_prefix "/" keyPrefix = true.
Hypothesis prefix_good : Forall good_elem (path_elems keyPrefix).
Variable t : moment.

#[local] Instance the_leases : LeaseManager St etcdLease etcd_error := etcdLeaseManager keyPrefix.
#[local] Instance the_cluster : ClusterRegistry St etcd_error := etcd_ClusterRegistry keyPrefix.
#[local] Instance the_registry : EngineRegistry St etcd_error := etcd_EngineRegistry keyPrefix t.

(** The lease of the engines, in an etcd whose registry is well formed. *)
#[local] Instance engine_lease_view : LeaseView St etcdLease :=
  etcdLeaseView keyPrefix engineLeaseName (registry_wf keyPrefix).

Lemma engine_lease_good : good_elem engineLeaseName.
Proof. by split_and!. Qed.

Lemma engine_lease_leaf : leaf ["lease"; engineLeaseName].
Proof. apply leaf_lease, engine_lease_good. Qed.

#[local] Instance engine_lease_laws : LeaseLaws the_leases engine_lease_view engineLeaseName.
Proof.
  apply etcdLeaseLaws; [exact KL|done|done|apply engine_lease_good|..].
  - intros s n s' _ Hwf Hd Hw. by apply (wrote_wf keyPrefix s _ n s' Hwf engine_lease_leaf Hd).
  - intros s s' _. apply deleted_wf.
  - intros s s' _. apply same_wf.
Qed.
(** The version of the engines is kept at a key of its own. *)
Lemma version_set_untouched s v o :
  o.(so_TTL) = 0%Z → lease_wf s → untouched s (kSet (engineVersionPath keyPrefix) v o s).1.
Proof.
  intros Ho Hwf. pose proof Hwf as (Hkv & Hop & Hf & Hreg).
  pose proof leaf_version as Hlv. pose proof (leaf_ne _ Hlv) as Hne. pose proof (leaf_good _ Hlv) as Hg.
  rewrite (version_path keyPrefix prefix_rooted prefix_good).
  destruct (set_check o (kv_at s (reg_key keyPrefix ["engine"; "version"]))) as [c|] eqn:Hc.
  - destruct (kSet_refused s _ v o c Hkv (reg_key_ne keyPrefix _ Hne) (reg_key_good keyPrefix prefix_good _ Hg)
      (proj1 (proj2 Hreg _ Hlv)) Hc) as [_ Hs].
    apply same_untouched; [by intros; eapply same_wf|done|done].
  - destruct (kSet_done s _ v o Hkv (reg_key_ne keyPrefix _ Hne) (reg_key_good keyPrefix prefix_good _ Hg)
      (proj1 (proj2 Hreg _ Hlv)) Hc) as (idx & nd & _ & _ & Hw); [left; lia|].
    pose proof Hw as (Hkv' & En & Hclk & Hat & Hframe & _).
    assert (kv_at (kSet (key_of (reg_key keyPrefix ["engine"; "version"])) v o s).1 (lease_key keyPrefix engineLeaseName) =
      kv_at s (lease_key keyPrefix engineLeaseName)) as Hsame.
    { apply Hframe. change (lease_key keyPrefix engineLeaseName) with (reg_key keyPrefix ["lease"; engineLeaseName]).
      rewrite reg_key_prefix. intros [? ?]. by simplify_eq/=. }
    cbn in Hclk. split_and!; cbn; [|done|lia|by rewrite Hsame]. split_and!; [done| | |].
    + eapply open_key_wrote; [exact Hw|done|].
      change (lease_key keyPrefix engineLeaseName) with (reg_key keyPrefix ["lease"; engineLeaseName]).
      rewrite reg_key_prefix. intros [[? ?] _]. by simplify_eq/=.
    + rewrite Hsame, En. apply Hf.
    + by refine (wrote_wf keyPrefix s _ _ _ Hreg Hlv _ Hw).
Qed.

Lemma version_untouched from to s :
  lease_wf s → untouched s (clr_UpdateEngineVersion from to s).1.
Proof.
  intros Hwf. cbn [clr_UpdateEngineVersion the_cluster etcd_ClusterRegistry].
  unfold er_UpdateEngineVersion.
  pose proof (version_set_untouched s (Itoa to) (mkSetOptions (Itoa from) 0 PrevIgnore 0) eq_refl Hwf) as H1.
  destruct (kSet _ _ _ s) as [s1 [r|e]]; [done|]. cbn [fst] in H1. destruct (negb _); [done|].
  pose proof (version_set_untouched s1 (Itoa to) (mkSetOptions "" 0 PrevNoExist 0) eq_refl (proj1 H1)) as H2.
  destruct (kSet _ _ _ s1) as [s2 r2]. cbn [fst] in *. by eapply untouched_trans.
Qed.

(** C3: at most one engine of a cluster reconciles at any time, whatever the
    engines' versions, whether they use gRPC, and whatever their registries answer: an engine
    that takes over, by a new version or after a lease ran out, starts only when
    the previous leader has been aborted.  The engines share an etcd, which holds
    both the lease and the registry.  The lease of each engine lasts some whole number
    of seconds, of at least one, as does the sum with what remains of the lease that it
    replaces; etcd answers, requests take no time, and an engine that stops releases
    its lease. *)
Theorem leader_exclusive snf caps ver ttl (st : run St etcdLease) m m' :
  run_reachable snf caps ver ttl st →
  reconciling st m → reconciling st m' → m = m'.
Proof.
  intros Hr H1 H2. refine (reachable_exclusive snf caps ver ttl _ st m m' Hr H1 H2). apply version_untouched.
Qed.

(** *** Progress *)

(** The version, from the file that holds it. *)
Lemma er_EngineVersion_at s :
  registry_wf keyPrefix s →
  er_EngineVersion keyPrefix s =
  match file_at keyPrefix s ["engine"; "version"] with
  | None => Ok 0%Z
  | Some n => match Atoi n.(kv_value) with Some v => Ok v | None => Err (OtherError n.(kv_value)) end
  end.
Proof.
  intros Hwf. unfold er_EngineVersion. rewrite (version_path keyPrefix prefix_rooted prefix_good).
  pose proof (get_at keyPrefix prefix_good s ["engine"; "version"] [] no_get_options Hwf leaf_version) as Hget.
  destruct (file_at keyPrefix s _) as [n|]; [|by rewrite Hget]. by destruct Hget as (nd & -> & -> & _).
Qed.

(** Renewing a lease that is gone is refused. *)
Lemma renew_gone (l : etcdLease) p (s : St) :
  lease_wf s → lease_at s = None → handle_of_lease l →
  ∃ e, (el_Renew l p s).2 = Err e ∧ same_keys s (el_Renew l p s).1.
Proof.
  intros (Hkv & Hop & _ & _) Hn [Hk Hi]. apply lease_at_None in Hn. unfold el_Renew. rewrite Hk.
  set (b := match serializeLeaseMetadata _ _ with Ok val => val | Err _ => "" end).
  destruct (kSet_refused s (lease_key keyPrefix engineLeaseName) b (mkSetOptions "" l.(el_idx) PrevIgnore p) ErrorCodeKeyNotFound)
    as [Hr Hs]; [done|by apply lease_key_ne|by apply lease_key_good; [|apply engine_lease_good]|done| |].
  - rewrite Hn. cbn. rewrite (bool_decide_eq_true_2 (el_idx l ≠ 0%Z)) by done. by rewrite orb_true_r.
  - destruct (kSet _ _ _ s) as [s' r]. cbn in Hr, Hs |- *. subst r. eauto.
Qed.

(** An engine without a lease, at the cluster's version, takes the free lease. *)
Lemma free_lease_taken (snf : etcd_error → bool) caps ver ttl rg m (es : estate etcdLease) (s : St) :
  lease_wf s → lease_at s = None → owner_ok m → period_ok (ttl m) → er_EngineVersion keyPrefix s = Ok (ver m) →
  isLeader (es_lease es) m = false → (Capabilities_Has (caps m) CapGRPC = true → may_take rg = true) →
  tn_leads (take_turn snf caps ver ttl rg m es s) = true.
Proof.
  intros Hwf Hn Hm Hp Hv Hl Hrg. unfold take_turn, leadership_turn, ensureEngineVersionMatch.
  cbn [clr_EngineVersion the_cluster etcd_ClusterRegistry]. rewrite Hv, Z.ltb_irrefl, Z.gtb_ltb, Z.ltb_irrefl. cbn [negb].
  destruct (AcquireLease_free s m (ver m) (ttl m) Hwf Hn Hm Hp) as (l & Hr & Hg). apply granted_leads in Hg.
  unfold rpcLeadership. rewrite !Hl.
  assert (acquireLeadership m (ver m) (ttl m) s = ((AcquireLease engineLeaseName m (ver m) (ttl m) s).1, Some l, 0%Z)) as H1.
  { unfold acquireLeadership. rewrite (GetLease_free s Hwf Hn). destruct (AcquireLease _ _ _ _ s). cbn in Hr. by subst. }
  assert (may_take rg = true →
    rpcAcquireLeadership rg m (ver m) (ttl m) s = ((AcquireLease engineLeaseName m (ver m) (ttl m) s).1, Some l, 0%Z)) as H2.
  { intros Ht. unfold rpcAcquireLeadership. rewrite (GetLease_free s Hwf Hn), Ht.
    destruct (AcquireLease _ _ _ _ s). cbn in Hr. by subst. }
  destruct (Capabilities_Has _ _).
  - rewrite (H2 (Hrg eq_refl)). destruct (es_lease es); exact Hg.
  - rewrite H1. destruct (es_lease es); exact Hg.
Qed.

(** With gRPC and a connection that is ready, it leaves the lease free. *)
Lemma free_lease_left (snf : etcd_error → bool) caps ver ttl rg m (es : estate etcdLease) (s : St) :
  lease_wf s → lease_at s = None → er_EngineVersion keyPrefix s = Ok (ver m) →
  isLeader (es_lease es) m = false → Capabilities_Has (caps m) CapGRPC = true → may_take rg = false →
  tn_leads (take_turn snf caps ver ttl rg m es s) = false ∧ tn_world (take_turn snf caps ver ttl rg m es s) = s.
Proof.
  intros Hwf Hn Hv Hl Hc Hrg. unfold take_turn, leadership_turn, ensureEngineVersionMatch.
  cbn [clr_EngineVersion the_cluster etcd_ClusterRegistry]. rewrite Hv, Z.ltb_irrefl, Z.gtb_ltb, Z.ltb_irrefl. cbn [negb].
  rewrite Hc. unfold rpcLeadership, rpcAcquireLeadership. rewrite !Hl, (GetLease_free s Hwf Hn), Hrg. by destruct (es_lease es).
Qed.

(** An engine that still believes to lead finds its lease gone: it takes the lease
    again at once, or forgets it and changes nothing. *)
Lemma gone_lease_turn (snf : etcd_error → bool) caps ver ttl rg m l busy (s : St) :
  lease_wf s → lease_at s = None → handle_of_lease l → owner_ok m → period_ok (ttl m) →
  er_EngineVersion keyPrefix s = Ok (ver m) → isLeader (Some l) m = true →
  let tn := take_turn snf caps ver ttl rg m (mkEstate (Some l) busy) s in
  tn.(tn_leads) = true ∨ tn.(tn_lease) = None ∧ same_keys s tn.(tn_world).
Proof.
  intros Hwf Hn Hh Hm Hp Hv Hl. destruct (renew_gone l (ttl m) s Hwf Hn Hh) as (e & Hre & Hs).
  unfold take_turn, leadership_turn, ensureEngineVersionMatch.
  cbn [clr_EngineVersion the_cluster etcd_ClusterRegistry es_lease]. rewrite Hv, Z.ltb_irrefl, Z.gtb_ltb, Z.ltb_irrefl. cbn [negb].
  unfold rpcLeadership, renewLeadership, rpcRenewLeadership. rewrite !Hl. change (Renew l (ttl m) s) with (el_Renew l (ttl m) s).
  destruct (el_Renew l (ttl m) s) as [s1 r]. cbn in Hre, Hs. subst r. destruct (Capabilities_Has _ _); [|right; by split].
  destruct (snf e); [|right; by split].
  assert (MachineID l = m) as Hid by (unfold isLeader in Hl; case_bool_decide as Hb; [done|]; by destruct (decide (MachineID l = m)); [|destruct Hb]).
  assert (untouched s s1) as (Hwf1 & _ & _ & Ha).
  { apply (same_untouched keyPrefix engineLeaseName (registry_wf keyPrefix)); [|done|done]. intros s2 s3 _. apply same_wf. }
  rewrite Hn in Ha. rewrite Hid.
  destruct (AcquireLease_free s1 m (ver m) (ttl m) Hwf1 Ha Hm Hp) as (l' & Hr & Hg). apply granted_leads in Hg.
  destruct (AcquireLease _ _ _ _ s1) as [s2 r2]. cbn in Hr. subst r2. left. exact Hg.
Qed.

(** C4: the cluster is not left without a leader: when the lease is free and the engine
    version that is recorded is the engine's own, an engine that is up leads after at
    most two of its own turns, even if it still believes to hold an old lease.  One
    with gRPC does if its registry is the one in etcd, or is not ready, at both turns;
    while its connection to an old leader stays ready, it leaves the lease alone unless
    it counts itself as leader. *)
Theorem leader_elected snf caps ver ttl (st : run St etcdLease) m es rg1 rg2 :
  run_reachable snf caps ver ttl st →
  st.(engines) !! m = Some es → lease_at st.(world) = None → er_EngineVersion keyPrefix st.(world) = Ok (ver m) →
  let tn1 := take_turn snf caps ver ttl rg1 m es st.(world) in
  let tn2 := take_turn snf caps ver ttl rg2 m (mkEstate tn1.(tn_lease) None) tn1.(tn_world) in
  ((Capabilities_Has (caps m) CapGRPC = true → may_take rg1 = true ∧ may_take rg2 = true) →
   tn1.(tn_leads) = true ∨ tn2.(tn_leads) = true) ∧
  (Capabilities_Has (caps m) CapGRPC = true → may_take rg1 = false → isLeader es.(es_lease) m = false →
   tn1.(tn_leads) = false ∧ tn1.(tn_world) = st.(world)).
Proof.
  intros Hr Hm Hn Hv. apply (run_reachable_inv snf caps ver ttl version_untouched) in Hr as [Hwf He _ _].
  destruct (He m es Hm) as [(Hown & Hp & _) [_ Hk]]. split; [|intros; by apply free_lease_left]. intros Hrg.
  destruct (isLeader (es_lease es) m) eqn:Hl; [|left; apply free_lease_taken; try done; intros Hc; by apply Hrg].
  destruct es as [[l|] busy]; [|done]. cbn [es_lease] in *. destruct (Hk l eq_refl) as (Hh & _ & _).
  destruct (gone_lease_turn snf caps ver ttl rg1 m l busy _ Hwf Hn Hh Hown Hp Hv Hl) as [?|[Hno Hs]]; [by left|right].
  assert (untouched (world st) (tn_world (take_turn snf caps ver ttl rg1 m (mkEstate (Some l) busy) (world st)))) as (Hwf1 & _ & _ & Ha).
  { apply (same_untouched keyPrefix engineLeaseName (registry_wf keyPrefix)); [|done|done]. intros s2 s3 _. apply same_wf. }
  apply free_lease_taken; [done|by rewrite Ha|done|done| |by rewrite Hno|intros Hc; by apply Hrg].
  rewrite er_EngineVersion_at in Hv |- * by (apply Hwf || apply Hwf1). unfold file_at in *. destruct Hs as (_ & _ & _ & ->). exact Hv.
Qed.

End etcd_leadership.
