(* ===== verification/EtcdExamples.v ===== *)
(** * A registry on an etcd in memory

    Concrete codecs and a fresh server, on which the theorems about etcd are
    instantiated; and a run of two engines, one of which crashes. *)

From stdpp Require Import base list gmap strings.
From Stdlib Require Import Ascii ZArith.
From S2P Require Import Prelude GoStrings GoPath Pkg UnitFile UnitSerial Job Machine Cluster Engine Api Etcd Lease Leadership EtcdLease EtcdRegistry EtcdSchedule EtcdStore EtcdInvariant EtcdViews EtcdLeadership.

(** ** Codecs *)

(** The bits of a number, as text. *)
Fixpoint bits (p : positive) : string :=
  match p with
  | xH => ""
  | xO p => String "0" (bits p)
  | xI p => String "1" (bits p)
  end.

Fixpoint unbits (s : string) : option positive :=
  match s with
  | "" => Some xH
  | String a s =>
      if decide (a = "0"%char) then xO <$> unbits s
      else if decide (a = "1"%char) then xI <$> unbits s
      else None
  end.

Lemma unbits_bits p : unbits (bits p) = Some p.
Proof. induction p as [p IH|p IH|]; cbn; rewrite ?IH; done. Qed.

(** Values of a countable type, written as the bits of their number. *)
Definition bits_json A `{Countable A} : JSON A.
Proof.
  refine {| marshal a := Ok (bits (encode a)); unmarshal b := unbits b ≫= decode; json_ok _ := True |}.
  intros a _. exists (bits (encode a)). split; [done|]. rewrite unbits_bits. cbn. apply decode_encode.
Defined.

#[export] Instance jobModel_eq_dec : EqDecision jobModel.
Proof. solve_decision. Defined.

#[export] Instance jobModel_countable : Countable jobModel.
Proof. refine (inj_countable' (λ j, (j.(jm_Name), j.(jm_UnitHash))) (λ '(n, h), mkJobModel n h) _). by intros []. Defined.

#[export] Instance unitModel_eq_dec : EqDecision unitModel.
Proof. solve_decision. Defined.

#[export] Instance unitModel_countable : Countable unitModel.
Proof. refine (inj_countable' um_Raw mkUnitModel _). by intros []. Defined.

#[export] Instance MachineState_countable : Countable MachineState.
Proof.
  refine (inj_countable' (λ m, (m.(ID), m.(PublicIP), m.(Metadata), m.(Capabilities), m.(Machine.Version)))
    (λ '(i, p, md, c, v), mkMachineState i p md c v) _). by intros [].
Defined.

#[export] Instance unitStateModel_eq_dec : EqDecision unitStateModel.
Proof. solve_decision. Defined.

#[export] Instance unitStateModel_countable : Countable unitStateModel.
Proof.
  refine (inj_countable' (λ u, (u.(usm_LoadState), u.(usm_ActiveState), u.(usm_SubState), u.(usm_MachineState), u.(usm_UnitHash)))
    (λ '(l, a, s, m, h), mkUnitStateModel l a s m h) _). by intros [].
Defined.

#[export] Instance etcdLeaseMetadata_eq_dec : EqDecision etcdLeaseMetadata.
Proof. solve_decision. Defined.

#[export] Instance etcdLeaseMetadata_countable : Countable etcdLeaseMetadata.
Proof. refine (inj_countable' (λ m, (m.(lm_MachineID), m.(lm_Version))) (λ '(i, v), mkLeaseMetadata i v) _). by intros []. Defined.

#[local] Instance job_json : JSON jobModel := bits_json jobModel.
#[local] Instance unit_json : JSON unitModel := bits_json unitModel.
#[local] Instance machine_json : JSON MachineState := bits_json MachineState.
#[local] Instance state_json : JSON unitStateModel := bits_json unitStateModel.
#[local] Instance lease_json : JSON etcdLeaseMetadata := bits_json etcdLeaseMetadata.
#[local] Existing Instance canonical_range.
#[local] Existing Instance merge_go_sort.

(** ** A fresh server *)

Definition prefix : string := "/_coreos.com/fleet".

Definition fresh : mem_etcd := mkMemEtcd 0 0 {[ [] := dir_node ]}.

Lemma fresh_wf : mem_wf fresh.
Proof.
  split_and!; [done|apply lookup_singleton_eq|]. intros l n H. cbn in H. apply lookup_singleton_Some in H as [<- <-].
  split_and!; [constructor|done|done|]. intros l' x E. by destruct l'.
Qed.

Lemma fresh_at l : mem_at fresh l = if decide (l = []) then Some dir_node else None.
Proof.
  unfold mem_at. cbn. case_decide as H; [subst l; by rewrite lookup_singleton_eq|]. by rewrite lookup_singleton_ne.
Qed.

Lemma fresh_registry : registry_empty prefix fresh.
Proof.
  assert (∀ l, file_at prefix fresh l = None) as Hno.
  { intros l. unfold file_at. cbn [kv_at mem_view]. rewrite fresh_at, decide_False; [done|]. by destruct l. }
  split; [|auto]. split; [apply fresh_wf|]. intros l Hl. split.
  - intros l' n _ _. cbn [kv_at mem_view]. rewrite fresh_at. case_decide; [|done]. by intros [= <-].
  - by rewrite Hno.
Qed.

(** The first 20 bytes of the text, padded: a digest of the right length. *)
#[local] Instance ex_digest : Digest.
Proof.
  refine {| sha1_sum := λ s, str_take 20 (s +:+ "00000000000000000000") |}.
  intros s. rewrite str_length_take, str_length_app.
  change (String.length "00000000000000000000") with 20. lia.
Defined.


Lemma prefix_rooted : has_prefix "/" prefix = true.
Proof. done. Qed.

Lemma prefix_good : Forall good_elem (path_elems prefix).
Proof. apply (bool_decide_eq_true_1 _). vm_compute. reflexivity. Qed.

(** ** Units *)

Definition web_file : UnitFile :=
  NewUnitFromOptions [mkUnitOption "Unit" "Description" "web"; mkUnitOption "Service" "ExecStart" "/usr/bin/web -p 80";
                      mkUnitOption "X-Fleet" "Conflicts" "web@*.service"].

Definition web : Unit := mkUnit "web.service" web_file JobStateLaunched.

Lemma web_file_ok : unit_file_ok web_file.
Proof. apply (bool_decide_unpack _). vm_compute. exact I. Qed.

Lemma web_good : good_elem web.(UName).
Proof. by split_and!. Qed.

Lemma web_storable : storable prefix fresh web.
Proof. split_and!; [apply web_good|done|done|apply web_file_ok|]. left. apply fresh_registry. apply leaf_unit, hash_good. Qed.

(** A unit whose sections are mixed, and that is read back in order. *)
Definition mixed_file : UnitFile :=
  NewUnitFromOptions [mkUnitOption "Unit" "Description" "web"; mkUnitOption "Service" "ExecStart" "/usr/bin/web";
                      mkUnitOption "Unit" "After" "db.service"].
Definition mixed : Unit := mkUnit "web.service" mixed_file JobStateLaunched.

Lemma CreateUnit_roundtrip_witness :
  (let '(s', r) := er_CreateUnit prefix web fresh in r = Ok tt ∧ er_Unit prefix web.(UName) s' = Ok (Some web)) ∧
  (let '(s', r) := er_CreateUnit prefix mixed fresh in r = Ok tt ∧
   er_Unit prefix mixed.(UName) s' = Ok (Some (mkUnit "web.service"
     (NewUnitFromOptions [mkUnitOption "Unit" "Description" "web"; mkUnitOption "Unit" "After" "db.service";
                          mkUnitOption "Service" "ExecStart" "/usr/bin/web"]) JobStateLaunched))).
Proof.
  assert (∀ u, file_at prefix fresh (unit_leaf (UnitFile_Hash u)) = None ∨ file_stored prefix fresh u) as Hno
    by (intros u; left; apply fresh_registry, leaf_unit, hash_good).
  split.
  - pose proof (CreateUnit_roundtrip prefix prefix_rooted prefix_good fresh web (proj1 fresh_registry) web_good I I
      (proj1 (proj2 web_file_ok)) (Hno _) eq_refl) as H.
    destruct (er_CreateUnit prefix web fresh) as [s' r]. destruct H as (-> & _ & _ & H). split; [done|apply H, web_file_ok].
  - pose proof (CreateUnit_roundtrip prefix prefix_rooted prefix_good fresh mixed (proj1 fresh_registry) web_good I I) as H.
    destruct (er_CreateUnit prefix mixed fresh) as [s' r]. destruct H as (-> & _ & H & _);
      [apply (bool_decide_unpack _); vm_compute; exact I|apply Hno|reflexivity|]. split; [done|exact H].
Defined.

(** The unit is created, scheduled to [m1] and said to run there. *)
Definition created : mem_etcd := (er_CreateUnit prefix web fresh).1.
Definition placed : mem_etcd := (er_ScheduleUnit prefix "web.service" "m1" created).1.
Definition running : mem_etcd := (er_UnitHeartbeat prefix "web.service" "m1" (5 * second) placed).1.

Definition web_state : UnitState := mkUnitState "loaded" "active" "running" "m1" "hash" "web.service".
Definition reported : mem_etcd := er_SaveUnitState prefix "web.service" web_state (5 * second) running.

Lemma reported_reachable : registry_reachable prefix reported.
Proof.
  assert (good_elem "web.service" ∧ good_elem "m1") as [Hk Hm] by (by split_and!).
  exists fresh. split; [apply fresh_registry|].
  eapply rtc_l; [by apply rs_CreateUnit, web_storable|].
  eapply rtc_l; [by apply (rs_ScheduleUnit prefix _ "web.service" "m1")|].
  eapply rtc_l; [by apply (rs_UnitHeartbeat prefix _ "web.service" "m1" (5 * second)); [|right]|].
  apply rtc_once. by apply rs_SaveUnitState; [| |right|].
Qed.

(** Every target in the server is a machine id that etcd lists. *)
Lemma mem_targets_listed s :
  map_Forall (λ l n, last l = Some "target" → unit_name n.(kv_value)) s.(mem_store) → targets_listed prefix s.
Proof.
  intros Hall k m. unfold target_at, file_at. cbn [kv_at mem_view].
  intros (n & [Hn _]%mem_at_Some & ->)%fmap_Some. right. by apply (Hall _ n Hn).
Qed.

Lemma Units_agree_witness :
  (∀ us u, er_Units prefix reported = Ok us →
    u ∈ us ↔ unit_name u.(UName) ∧ er_Unit prefix u.(UName) reported = Ok (Some u)) ∧
  is_ok (er_Units prefix reported) = true.
Proof.
  destruct (Units_agree prefix prefix_rooted prefix_good reported reported_reachable) as [H1 H2].
  split; [exact H1|]. apply (H2 "web.service" web web_good). vm_compute. reflexivity.
Defined.

Lemma Schedule_agree_witness :
  ∃ l, er_Schedule prefix [] reported = Ok l ∧ NoDup (SName <$> l) ∧
    ∀ su, su ∈ l ↔ unit_name su.(SName) ∧ er_ScheduledUnit prefix su.(SName) reported = Ok (Some su).
Proof.
  apply (Schedule_agree prefix prefix_rooted prefix_good reported [] reported_reachable).
  apply mem_targets_listed, (bool_decide_eq_true_1 _). vm_compute. reflexivity.
Defined.

(** The schedule of that registry: launched on [m1]. *)
Example reported_schedule :
  er_Schedule prefix [] reported = Ok [mkScheduledUnit "web.service" (Some JobStateLaunched) "m1"].
Proof. vm_compute. reflexivity. Qed.

Lemma reachable_reads_witness :
  (∃ v, er_EngineVersion prefix reported = Ok v) ∧
  (∃ l, er_Machines prefix reported = Ok l ∧
    ∀ ms, ms ∈ l ↔ unit_name ms.(ID) ∧ er_MachineState prefix ms.(ID) reported = Ok ms).
Proof.
  destruct (reachable_reads prefix prefix_rooted prefix_good reported reported_reachable) as (H1 & _ & _ & _ & H2). by split.
Defined.

(** A unit that the API accepts and no list has. *)
Definition hidden_unit : Unit := mkUnit "_web.service" web_file JobStateLaunched.
Definition hidden_created : mem_etcd := (er_CreateUnit prefix hidden_unit fresh).1.

Lemma hidden_reachable : registry_reachable prefix hidden_created.
Proof.
  exists fresh. split; [apply fresh_registry|]. apply rtc_once, rs_CreateUnit.
  split_and!; [by split_and!|done|done|apply web_file_ok|]. left. apply fresh_registry. apply leaf_unit, hash_good.
Qed.

Lemma valid_unit_listed_witness :
  (hidden_unit ∈ (match er_Units prefix hidden_created with Ok us => us | Err _ => [] end) ↔
    has_prefix "_" hidden_unit.(UName) = false) ∧
  er_Units prefix hidden_created = Ok [] ∧ er_Unit prefix "_web.service" hidden_created = Ok (Some hidden_unit).
Proof.
  split_and!; [|vm_compute; reflexivity..].
  apply (valid_unit_listed prefix prefix_rooted prefix_good hidden_created hidden_unit);
    [apply hidden_reachable|vm_compute; reflexivity..].
Defined.

(** ** States and machines *)

Lemma SaveUnitState_roundtrip_witness :
  getUnitState prefix "web.service" "m1" (er_SaveUnitState prefix "web.service" web_state (5 * second) fresh) = Ok (Some web_state).
Proof.
  eapply (SaveUnitState_roundtrip prefix prefix_rooted prefix_good fresh web_state _ (5 * second));
    [apply fresh_registry|by split_and!|by split_and!|by right|reflexivity|done].
Defined.

Lemma RemoveUnitState_removes_witness :
  let '(s', r) := er_RemoveUnitState prefix "web.service" fresh in
  r = Ok tt ∧ registry_wf prefix s' ∧ (∀ m, good_elem m → getUnitState prefix "web.service" m s' = Ok None) ∧
  ∀ k' m, good_elem k' → good_elem m → k' ≠ "web.service" → getUnitState prefix k' m s' = getUnitState prefix k' m fresh.
Proof.
  apply (RemoveUnitState_removes prefix prefix_rooted prefix_good fresh "web.service"); [apply fresh_registry|by split_and!].
Defined.

Definition m1 : MachineState := mkMachineState "m1" "10.0.0.1" {[ "region" := "eu" ]} ∅ "".
Definition joined : mem_etcd := (er_CreateMachineState prefix m1 (30 * second) fresh).1.

Lemma joined_wf : registry_wf prefix joined.
Proof.
  assert (registry_reachable prefix joined) as H.
  { exists fresh. split; [apply fresh_registry|]. apply rtc_once.
    apply rs_CreateMachineState; [by split_and!|done|by right]. }
  by apply (reachable_typed prefix prefix_rooted prefix_good) in H as [? _].
Qed.

Lemma SetMachineMetadata_overlay_witness :
  let '(s', r) := er_SetMachineMetadata prefix "m1" "region" "us" joined in
  r = Ok tt ∧ registry_wf prefix s' ∧
  er_MachineState prefix "m1" s' = Ok (mkMachineState "m1" "10.0.0.1" (<[ "region" := "us" ]> {[ "region" := "eu" ]}) ∅ "").
Proof.
  apply (SetMachineMetadata_overlay prefix prefix_rooted prefix_good joined "m1" "region" "us" m1);
    [apply joined_wf|by split_and!|by split_and!|reflexivity|vm_compute; reflexivity].
Defined.

Lemma machine_rejoins_witness :
  let s := (er_SetMachineMetadata prefix "m1" "region" "us" joined).1 in
  let '(s1, r1) := er_RemoveMachineState prefix "m1" s in
  let '(s2, r2) := er_CreateMachineState prefix m1 (30 * second) s1 in
  r1 = Ok tt ∧ is_ok r2 = true ∧ registry_wf prefix s2 ∧
  ∃ ms', er_MachineState prefix "m1" s2 = Ok ms' ∧ overlaid prefix s "m1" m1 ms'.
Proof.
  apply (machine_rejoins prefix prefix_rooted prefix_good (er_SetMachineMetadata prefix "m1" "region" "us" joined).1 m1 (30 * second));
    [|by split_and!|done|by right].
  pose proof (SetMachineMetadata_overlay prefix prefix_rooted prefix_good joined "m1" "region" "us" m1 joined_wf) as H.
  destruct (er_SetMachineMetadata _ _ _ _ _) as [s' r]. by apply H; [by split_and!|by split_and!|reflexivity|vm_compute; reflexivity].
Defined.

(** ** The engine version *)

Lemma ensureEngineVersionMatch_gate_witness :
  let '(s', ok) := ensureEngineVersionMatch (CR := etcd_ClusterRegistry prefix) engineVersion fresh in
  (ok = true → recorded_version prefix s' = engineVersion) ∧ (recorded_version prefix fresh ≤ recorded_version prefix s')%Z ∧
  ((engineVersion < recorded_version prefix fresh)%Z → ok = false ∧ s' = fresh).
Proof.
  apply (ensureEngineVersionMatch_gate (VL := etcd_VersionLaws prefix prefix_rooted prefix_good) engineVersion fresh);
    [apply fresh_registry|by split].
Defined.

(** ** Engines *)

Section engines.
#[local] Instance ex_lease_manager : LeaseManager mem_etcd etcdLease etcd_error := etcdLeaseManager prefix.
#[local] Instance ex_cluster_registry : ClusterRegistry mem_etcd etcd_error := etcd_ClusterRegistry prefix.
#[local] Instance ex_engine_registry : EngineRegistry mem_etcd etcd_error := etcd_EngineRegistry prefix [].
#[local] Instance ex_lease_view : LeaseView mem_etcd etcdLease := engine_lease_view prefix.

(** Engines without gRPC, of the same version, with leases of ten seconds. *)
Definition ex_snf (_ : etcd_error) : bool := false.
Definition ex_caps (_ : string) : gmap string bool := ∅.
Definition ex_ver (_ : string) : Z := engineVersion.
Definition ex_ttl (_ : string) : Z := 10 * second.

(** The registry they use is the one in etcd. *)
Definition etcd_status : registry_status := mkStatus true true.

#[local] Abbreviation ex_run := (run mem_etcd etcdLease).
#[local] Abbreviation ex_step := (eng_step ex_snf ex_caps ex_ver ex_ttl).

Definition nobody : ex_run := mkRun fresh ∅.

Lemma fresh_lease_wf : lease_wf fresh.
Proof.
  pose proof fresh_registry as [Hwf Hno]. split_and!; [apply fresh_wf|by apply Hwf; apply engine_lease_leaf| |done].
  intros n Hn. assert (file_at prefix fresh ["lease"; engineLeaseName] = Some n) as E by exact Hn.
  by rewrite (Hno _ engine_lease_leaf) in E.
Qed.

Lemma nobody_initial : initial nobody.
Proof. split_and!; [apply fresh_lease_wf|vm_compute; reflexivity|done]. Qed.

(** The engine [m] starts, or takes its turn. *)
Definition starts (m : string) (st : ex_run) : ex_run :=
  mkRun st.(world) (<[m := mkEstate None None]> st.(engines)).

Definition turns (m : string) (es : estate etcdLease) (st : ex_run) : ex_run :=
  let tn := take_turn ex_snf ex_caps ex_ver ex_ttl etcd_status m es st.(world) in
  mkRun tn.(tn_world) (<[m := mkEstate tn.(tn_lease) (window ex_ttl m (lease_now st.(world)) tn)]> st.(engines)).

Lemma starts_step m st : st.(engines) !! m = None → ex_step st (starts m st).
Proof. intros Hm. by apply step_start. Qed.

Lemma turns_step m es st :
  st.(engines) !! m = Some es → es.(es_busy) = None →
  match GetLease engineLeaseName (ensureEngineVersionMatch (ex_ver m) st.(world)).1 with
  | Ok (Some l) => TimeRemaining l <= 2 ^ 30 * second ∧ 0 <= TimeRemaining l ∧ TimeRemaining l mod second = 0
  | _ => True
  end%Z →
  ex_step st (turns m es st).
Proof.
  intros Hm Hb Hr. apply (step_turn _ _ _ _ _ etcd_status); [done|done|]. intros l Hl. unfold in_range. rewrite Hl in Hr. destruct Hr as (H1 & H2 & H3).
  split; [unfold ex_ttl, second in *; lia|]. unfold ex_ttl. rewrite Z.add_mod, H3 by done. done.
Qed.

(** One engine: it takes the lease and reconciles. *)
Definition alone : ex_run := turns "m1" (mkEstate None None) (starts "m1" nobody).

Lemma alone_reachable : run_reachable ex_snf ex_caps ex_ver ex_ttl alone.
Proof.
  exists nobody. split; [apply nobody_initial|]. eapply rtc_l; [by apply (starts_step "m1")|].
  apply rtc_once, turns_step; [reflexivity|reflexivity|]. vm_compute. exact I.
Qed.

Lemma leader_exclusive_witness :
  run_reachable ex_snf ex_caps ex_ver ex_ttl alone ∧ reconciling alone "m1" ∧
  ∀ m, reconciling alone m → "m1" = m.
Proof.
  pose proof alone_reachable as Hr.
  assert (reconciling alone "m1") as H1.
  { do 3 eexists. split_and!; [vm_compute; reflexivity|reflexivity|..]; vm_compute; congruence. }
  split_and!; [done|done|]. intros m Hm.
  exact (leader_exclusive prefix prefix_rooted prefix_good [] ex_snf ex_caps ex_ver ex_ttl alone "m1" m Hr H1 Hm).
Defined.
(** *** A crash *)

(** The same server at a later time. *)
Definition later (now : Z) (s : mem_etcd) : mem_etcd := mkMemEtcd now s.(mem_clock) s.(mem_store).

Lemma later_at now s l :
  (s.(mem_now) ≤ now)%Z → mem_at (later now s) l = n ← mem_at s l; if unexpired now n then Some n else None.
Proof.
  intros Hn. unfold mem_at. cbn. destruct (mem_store s !! l) as [n|]; [|done]. cbn.
  destruct (unexpired (mem_now s) n) eqn:E; cbn; [done|].
  destruct (unexpired now n) eqn:E'; [|done]. exfalso. unfold unexpired in *.
  destruct (kv_expires n); [|done]. apply bool_decide_eq_true in E'. apply bool_decide_eq_false in E. lia.
Qed.

Lemma later_wf now s : (s.(mem_now) ≤ now)%Z → lease_wf s → lease_wf (later now s).
Proof.
  intros Hn (Hkv & Ho & Hf & Hreg).
  assert (∀ l n, mem_at (later now s) l = Some n → mem_at s l = Some n) as Hsub.
  { intros l n. rewrite later_at by done. intros (n' & Hn' & H)%bind_Some. destruct (unexpired now n'); congruence. }
  split_and!; [done| | |].
  - intros l n Hp Hne Hl. apply Hsub in Hl. by apply (Ho l n).
  - intros n Hl. apply Hsub in Hl. destruct (Hf n Hl) as [Hd He]. split; [done|]. intros e He'. specialize (He e He').
    change (kv_now (later now s)) with now. change (kv_now s) with (mem_now s) in He. lia.
  - destruct Hreg as [_ Hreg]. split; [done|]. intros l Hl. destruct (Hreg l Hl) as [Ho' Hf']. split.
    + intros l' n Hp Hne Hl'. apply Hsub in Hl'. by apply (Ho' l' n).
    + intros n Hl'. apply Hsub in Hl'. by apply Hf'.
Qed.

(** Time passes. *)
Definition waits (now : Z) (st : ex_run) : ex_run := mkRun (later now st.(world)) st.(engines).

Lemma waits_step now st : lease_wf st.(world) → (st.(world).(mem_now) ≤ now)%Z → ex_step st (waits now st).
Proof.
  intros Hwf Hn. apply step_elapse; [by apply later_wf|done|cbn; lia|]. cbn [lease_at lease_now ex_lease_view engine_lease_view etcdLeaseView kv_at kv_now mem_view].
  rewrite later_at by done. destruct (mem_at _ _) as [n|]; [|done]. cbn. unfold expired, unexpired. cbn.
  destruct (kv_expires n) as [e|]; [|done]. destruct (Z.leb_spec e now).
  - by rewrite bool_decide_eq_false_2 by lia.
  - by rewrite bool_decide_eq_true_2 by lia.
Qed.

Lemma ex_reachable_wf st : run_reachable ex_snf ex_caps ex_ver ex_ttl st → lease_wf st.(world).
Proof.
  intros Hr. pose proof (engine_lease_laws prefix prefix_rooted prefix_good) as HL.
  assert (run_inv ex_ttl st) as Hinv; [|apply Hinv].
  eapply (run_reachable_inv ex_snf ex_caps ex_ver ex_ttl); [|exact Hr].
  exact (version_untouched prefix prefix_rooted prefix_good).
Qed.

(** The lease of the only engine has run out. *)
Definition lapsed : ex_run := waits (11 * second) alone.

Lemma lapsed_reachable : run_reachable ex_snf ex_caps ex_ver ex_ttl lapsed.
Proof.
  pose proof (ex_reachable_wf _ alone_reachable) as Hwf. destruct alone_reachable as (st0 & Hi & Hs).
  exists st0. split; [done|]. eapply rtc_r; [exact Hs|]. apply waits_step; [done|vm_compute; congruence].
Qed.

Definition lapsed_engine : estate etcdLease := default (mkEstate None None) (engines lapsed !! "m1").

Lemma leader_elected_witness :
  let tn1 := take_turn ex_snf ex_caps ex_ver ex_ttl etcd_status "m1" lapsed_engine lapsed.(world) in
  let tn2 := take_turn ex_snf ex_caps ex_ver ex_ttl etcd_status "m1" (mkEstate tn1.(tn_lease) None) tn1.(tn_world) in
  tn1.(tn_leads) = true ∨ tn2.(tn_leads) = true.
Proof.
  apply (leader_elected prefix prefix_rooted prefix_good [] ex_snf ex_caps ex_ver ex_ttl lapsed "m1" lapsed_engine etcd_status etcd_status
    lapsed_reachable); [vm_compute; reflexivity..|done].
Defined.

(** A lease of two and a half seconds is kept by etcd for two: the engine that holds it
    may reconcile until it is aborted, half a second after another has taken the lease. *)
Definition ex_half (_ : string) : Z := 2500 * 1000000.

Example fractional_lease_overlap :
  let idle := mkEstate None None in
  let tna := take_turn ex_snf ex_caps ex_ver ex_half etcd_status "a" idle fresh in
  let s := later (2200 * 1000000) tna.(tn_world) in
  let tnb := take_turn ex_snf ex_caps ex_ver ex_half etcd_status "b" idle s in
  window ex_half "a" 0 tna = Some (0, 2500 * 1000000)%Z ∧
  window ex_half "b" (2200 * 1000000) tnb = Some (2200 * 1000000, 4700 * 1000000)%Z.
Proof. vm_compute. split; reflexivity. Qed.

(** The run: [a] takes the lease; nine seconds later it crashes, starts again and
    takes its turn; a second later the lease is over and [b] takes it. *)
Definition idle : estate etcdLease := mkEstate None None.
Definition crash0 : ex_run := turns "a" idle (starts "b" (starts "a" nobody)).
Definition crash1 : ex_run := starts "a" (waits (9 * second) crash0).
Definition crash2 : ex_run := turns "a" idle crash1.
Definition crash3 : ex_run := turns "b" idle (waits (10 * second) crash2).

Lemma crash0_reachable : run_reachable ex_snf ex_caps ex_ver ex_ttl crash0.
Proof.
  exists nobody. split; [apply nobody_initial|]. eapply rtc_l; [by apply (starts_step "a")|].
  eapply rtc_l; [by apply (starts_step "b")|]. apply rtc_once, turns_step; [reflexivity|reflexivity|]. vm_compute. exact I.
Qed.

(** The second turn of [a] finds its lease and leaves the server as it is. *)
Lemma crash2_world : world crash2 = later (9 * second) (world crash0).
Proof. vm_compute. reflexivity. Qed.

(** C23: an engine that crashes and comes back can reconcile at the same time as
    another: it finds the lease it took before the crash, does not renew it and
    reconciles for as long as a whole new lease, while the old one runs out and
    is taken by the other engine. *)
Theorem crash_overlap :
  ∃ st, run_reachable_with_crashes ex_snf ex_caps ex_ver ex_ttl st ∧ reconciling st "a" ∧ reconciling st "b".
Proof.
  pose proof (ex_reachable_wf _ crash0_reachable) as Hwf. exists crash3. split; [|split].
  - destruct crash0_reachable as (st0 & Hi & Hs). exists st0. split; [done|].
    etrans; [eapply rtc_subrel; [|exact Hs]; intros; by left|].
    eapply rtc_l; [left; apply (waits_step (9 * second)); [done|vm_compute; congruence]|].
    eapply rtc_l; [right; apply (step_crash _ "a"); vm_compute; eauto|].
    eapply rtc_l; [left; apply (turns_step "a" idle crash1); [reflexivity|reflexivity|vm_compute; split_and!; congruence]|].
    eapply rtc_l; [left; apply (waits_step (10 * second) crash2); [|vm_compute; congruence]|].
    { rewrite crash2_world. apply later_wf; [vm_compute; congruence|done]. }
    apply rtc_once. left. apply (turns_step "b" idle); [reflexivity|reflexivity|vm_compute; exact I].
  - do 3 eexists. split_and!; [vm_compute; reflexivity|reflexivity|..]; vm_compute; congruence.
  - do 3 eexists. split_and!; [vm_compute; reflexivity|reflexivity|..]; vm_compute; congruence.
Qed.
End engines.
