(* ===== verification/Versions.v ===== *)
(** * Versions

    The versions of the semver package ([vendor/github.com/coreos/go-semver/semver]),
    the latest version of the daemons of a cluster ([registry/version.go]), and the
    warning of the command line client ([fleetctl/fleetctl.go], [version/version.go]). *)

From Stdlib Require Import ZArith Lia Ascii DecimalString.
From Stdlib Require Decimal DecimalZ DecimalFacts.
From stdpp Require Import base list gmap strings.
From S2P Require Import Prelude GoStrings GoPath Pkg UnitFile Job Machine Etcd EtcdRegistry EtcdExamples.

(** ** Versions *)

Record semver := mkSemver { Major : Z; Minor : Z; Patch : Z; PreRelease : string; VMetadata : string }.

(** What is before the delimiter, and what is after it. *)
Definition splitOff (input : string) (delim : ascii) : string * string :=
  match split_byte_2 delim input with
  | [before; after] => (before, after)
  | _ => (input, "")
  end.

(** [strings.SplitN(s, ".", 3)]. *)
Definition split_dots_3 (s : string) : list string :=
  match index_byte "." s with
  | Some i => str_take i s :: split_byte_2 "." (str_drop (S i) s)
  | None => [s]
  end.

(** [Version.Set] on the zero version; [None] is an error. *)
Definition NewVersion (version : string) : option semver :=
  let '(version, metadata) := splitOff version "+" in
  let '(version, preRelease) := splitOff version "-" in
  match split_dots_3 version with
  | [a; b; c] =>
    major ← Atoi a; minor ← Atoi b; patch ← Atoi c;
    Some (mkSemver major minor patch preRelease metadata)
  | _ => None
  end.

Definition semver_String (v : semver) : string :=
  Itoa v.(Major) +:+ "." +:+ Itoa v.(Minor) +:+ "." +:+ Itoa v.(Patch)
  +:+ (if bool_decide (v.(PreRelease) = "") then "" else "-" +:+ v.(PreRelease))
  +:+ (if bool_decide (v.(VMetadata) = "") then "" else "+" +:+ v.(VMetadata)).

Definition Slice (v : semver) : list Z := [v.(Major); v.(Minor); v.(Patch)].

Definition PreRelease_Slice (p : string) : list string := split_byte "." p.

(** The order of Go's strings, byte by byte. *)
Fixpoint string_compare (a b : string) : comparison :=
  match a, b with
  | "", "" => Eq
  | "", String _ _ => Lt
  | String _ _, "" => Gt
  | String x a, String y b =>
    match (N_of_ascii x ?= N_of_ascii y)%N with Eq => string_compare a b | c => c end
  end.

(** [recursiveCompare]: 1, -1 and 0 are [Gt], [Lt] and [Eq]; both slices have three
    elements. *)
Fixpoint recursiveCompare (versionA versionB : list Z) : comparison :=
  match versionA, versionB with
  | a :: versionA, b :: versionB => match (a ?= b)%Z with Eq => recursiveCompare versionA versionB | c => c end
  | _, _ => Eq
  end.

Definition compare_identifiers (a b : string) : comparison :=
  match Atoi a, Atoi b with
  | Some aI, Some bI => match (aI ?= bI)%Z with Eq => string_compare a b | c => c end
  | _, _ => string_compare a b
  end.

Fixpoint recursivePreReleaseCompare (versionA versionB : list string) : comparison :=
  match versionA, versionB with
  | [], [] => Eq
  | [], _ :: _ => Lt
  | _ :: _, [] => Gt
  | a :: versionA, b :: versionB =>
    match compare_identifiers a b with Eq => recursivePreReleaseCompare versionA versionB | c => c end
  end.

Definition preReleaseCompare (versionA versionB : semver) : comparison :=
  let a := versionA.(PreRelease) in
  let b := versionB.(PreRelease) in
  if bool_decide (a = "") && negb (bool_decide (b = "")) then Gt
  else if bool_decide (b = "") && negb (bool_decide (a = "")) then Lt
  else recursivePreReleaseCompare (PreRelease_Slice a) (PreRelease_Slice b).

Definition Compare (v versionB : semver) : comparison :=
  match recursiveCompare (Slice v) (Slice versionB) with
  | Eq => preReleaseCompare v versionB
  | cmp => cmp
  end.

Definition LessThan (v versionB : semver) : bool := match Compare v versionB with Lt => true | _ => false end.

(** ** The latest version *)

(** The loop of [LatestDaemonVersion]. *)
Definition latest_step (lv : option semver) (m : MachineState) : option semver :=
  match NewVersion m.(Version) with
  | None => lv
  | Some v =>
    match lv with
    | None => Some v
    | Some l => if LessThan l v then Some v else lv
    end
  end.

Definition latest (machs : list MachineState) : option semver := foldl latest_step None machs.

Section registry.
Context `{KeysAPI St, JSON MachineState} (keyPrefix : string).

(** [None] is a nil pointer. *)
Definition er_LatestDaemonVersion (s : St) : res etcd_error (option semver) :=
  match er_Machines keyPrefix s with
  | Err err => if isEtcdError err ErrorCodeKeyNotFound then Ok None else Err err
  | Ok machs => Ok (latest machs)
  end.
End registry.

(** ** The version of a program *)

Definition default_Version : string := "0.0.0+wasnotbuiltproperly".

(** [init] of [version/version.go]: [Fatal] is its panic. *)
Definition SemVersion (Version : string) : outcome semver :=
  match NewVersion (if has_prefix "v" Version then str_drop 1 Version else Version) with
  | Some sv => Done sv
  | None => Fatal
  end.

(** [checkVersion]: the versions that the warning names, or no warning. *)
Definition checkVersion {E} (fv : semver) (LatestDaemonVersion : res E (option semver)) : option (string * string) :=
  match LatestDaemonVersion with
  | Err _ => None
  | Ok (Some lv) => if LessThan fv lv then Some (semver_String fv, semver_String lv) else None
  | Ok None => None
  end.

(** ** Comparisons that are orders *)

(** [cmp] is a total preorder on the elements with [P]. *)
Record total_cmp {A} (P : A → Prop) (cmp : A → A → comparison) : Prop := {
  cmp_sym x y : cmp y x = CompOpp (cmp x y);
  cmp_trans x y z : P x → P y → P z → cmp x y ≠ Gt → cmp y z ≠ Gt → cmp x z ≠ Gt
}.
Arguments cmp_sym {A P cmp} _ x y.
Arguments cmp_trans {A P cmp} _ x y z.

Lemma cmp_split {A} {P : A → Prop} {cmp} x y z : total_cmp P cmp → P x → P y → P z →
  cmp x y ≠ Gt → cmp y z ≠ Gt → cmp x z = Lt ∨ cmp x y = Eq ∧ cmp y z = Eq ∧ cmp x z = Eq.
Proof.
  intros T Px Py Pz Hxy Hyz. pose proof (cmp_trans T x y z Px Py Pz Hxy Hyz) as Hxz.
  destruct (cmp x z) eqn:E; [right|by left|done].
  pose proof (cmp_trans T z x y Pz Px Py) as H1. pose proof (cmp_trans T y z x Py Pz Px) as H2.
  rewrite (cmp_sym T x z), E, (cmp_sym T y z) in H1. rewrite (cmp_sym T x z), E, (cmp_sym T x y) in H2.
  destruct (cmp x y), (cmp y z); cbn in *; try done; naive_solver.
Qed.

(** One comparison, and another when the first finds no difference. *)
Definition lex_cmp {A} (c1 c2 : A → A → comparison) (x y : A) : comparison :=
  match c1 x y with Eq => c2 x y | c => c end.

Lemma lex_total {A} (P : A → Prop) c1 c2 : total_cmp P c1 → total_cmp P c2 → total_cmp P (lex_cmp c1 c2).
Proof.
  intros T1 T2. split; unfold lex_cmp.
  - intros x y. rewrite (cmp_sym T1 x y). destruct (c1 x y); [apply T2|done..].
  - intros x y z Px Py Pz Hxy Hyz.
    destruct (cmp_split x y z T1) as [->|(E1 & E2 & E3)]; try done; [by destruct (c1 x y)|by destruct (c1 y z)|].
    rewrite E1 in Hxy. rewrite E2 in Hyz. rewrite E3. by apply (cmp_trans T2 x y z).
Qed.

Fixpoint list_cmp {A} (cmp : A → A → comparison) (l1 l2 : list A) : comparison :=
  match l1, l2 with
  | [], [] => Eq
  | [], _ :: _ => Lt
  | _ :: _, [] => Gt
  | x :: l1, y :: l2 => match cmp x y with Eq => list_cmp cmp l1 l2 | c => c end
  end.

Lemma list_total {A} (P : A → Prop) cmp : total_cmp P cmp → total_cmp (Forall P) (list_cmp cmp).
Proof.
  intros T. split.
  - induction x as [|x l1 IH]; intros [|y l2]; cbn; try done. rewrite (cmp_sym T x y).
    destruct (cmp x y); cbn; [apply IH|done..].
  - induction x as [|x l1 IH]; intros [|y l2] [|z l3] P1 P2 P3 Hxy Hyz; cbn in *; try done.
    apply Forall_cons in P1 as [Px P1], P2 as [Py P2], P3 as [Pz P3].
    destruct (cmp_split x y z T) as [->|(E1 & E2 & E3)]; try done; [by destruct (cmp x y)|by destruct (cmp y z)|].
    rewrite E1 in Hxy. rewrite E2 in Hyz. rewrite E3. by apply (IH l2 l3).
Qed.

Lemma map_total {A B} (f : A → B) (P : B → Prop) cmp :
  total_cmp P cmp → total_cmp (λ x, P (f x)) (λ x y, cmp (f x) (f y)).
Proof. intros T. split; intros; [apply T|]. by eapply (cmp_trans T (f x) (f y)). Qed.

Lemma cmp_ext {A} (P Q : A → Prop) c1 c2 :
  total_cmp P c1 → (∀ x, Q x → P x) → (∀ x y, c2 y x = CompOpp (c2 x y)) → (∀ x y, Q x → Q y → c2 x y = c1 x y) → total_cmp Q c2.
Proof.
  intros T HP Hs He. split; [done|]. intros x y z Qx Qy Qz. rewrite !He by done. apply (cmp_trans T); auto.
Qed.

Lemma Z_total : total_cmp (λ _, True) Z.compare.
Proof. split; [intros; apply Z.compare_antisym|]. intros x y z _ _ _. change (x ≤ y → y ≤ z → x ≤ z)%Z. lia. Qed.

Lemma N_total : total_cmp (λ _, True) N.compare.
Proof. split; [intros; apply N.compare_antisym|]. intros x y z _ _ _. change (x ≤ y → y ≤ z → x ≤ z)%N. lia. Qed.

Fixpoint bytes_of (s : string) : list N :=
  match s with "" => [] | String a s => N_of_ascii a :: bytes_of s end.

Lemma string_compare_list a : ∀ b, string_compare a b = list_cmp N.compare (bytes_of a) (bytes_of b).
Proof. induction a as [|x a IH]; intros [|y b]; cbn; try done. by rewrite IH. Qed.

Lemma string_total : total_cmp (λ _, True) string_compare.
Proof.
  eapply cmp_ext; [apply (map_total bytes_of), list_total, N_total| | |].
  - intros s _. by apply Forall_true.
  - intros x y. rewrite !string_compare_list. apply (list_total _ _ N_total).
  - intros x y _ _. apply string_compare_list.
Qed.

(** ** Versions are ordered, unless their pre-releases mix numbers and words *)

(** No identifier of the pre-release is a number. *)
Definition plain (v : semver) : Prop := Forall (λ x, Atoi x = None) (PreRelease_Slice v.(PreRelease)).

#[export] Instance plain_dec v : Decision (plain v).
Proof. unfold plain. apply _. Defined.

Lemma compare_identifiers_sym x y : compare_identifiers y x = CompOpp (compare_identifiers x y).
Proof.
  unfold compare_identifiers. pose proof (cmp_sym string_total x y).
  destruct (Atoi x) as [a|], (Atoi y) as [b|]; try done. rewrite (Z.compare_antisym a b). by destruct (a ?= b)%Z.
Qed.

Lemma identifiers_total : total_cmp (λ x, Atoi x = None) compare_identifiers.
Proof.
  eapply cmp_ext; [apply string_total|done|apply compare_identifiers_sym|].
  intros x y Hx Hy. unfold compare_identifiers. by rewrite Hx.
Qed.

Lemma recursivePreRelease_list a : ∀ b, recursivePreReleaseCompare a b = list_cmp compare_identifiers a b.
Proof. induction a as [|x a IH]; intros [|y b]; cbn; try done. by rewrite IH. Qed.

(** A release is greater than its pre-releases. *)
Definition release_rank (v : semver) : Z := if bool_decide (v.(PreRelease) = "") then 1 else 0.

Lemma Compare_lex v w :
  Compare v w =
  lex_cmp (λ v w, Z.compare v.(Major) w.(Major)) (lex_cmp (λ v w, Z.compare v.(Minor) w.(Minor))
    (lex_cmp (λ v w, Z.compare v.(Patch) w.(Patch)) (lex_cmp (λ v w, Z.compare (release_rank v) (release_rank w))
      (λ v w, list_cmp compare_identifiers (PreRelease_Slice v.(PreRelease)) (PreRelease_Slice w.(PreRelease)))))) v w.
Proof.
  unfold Compare, Slice, lex_cmp, preReleaseCompare, release_rank. cbn [recursiveCompare].
  destruct (Z.compare (Major v) (Major w)), (Z.compare (Minor v) (Minor w)), (Z.compare (Patch v) (Patch w)); try done.
  rewrite recursivePreRelease_list. by case_bool_decide; case_bool_decide.
Qed.

Lemma Compare_total : total_cmp plain Compare.
Proof.
  assert (Hz : ∀ f : semver → Z, total_cmp plain (λ v w, Z.compare (f v) (f w))).
  { intros f. eapply cmp_ext; [apply (map_total f), Z_total|done| |done]. intros x y. apply Z.compare_antisym. }
  assert (Hp : total_cmp plain (λ v w, list_cmp compare_identifiers (PreRelease_Slice v.(PreRelease)) (PreRelease_Slice w.(PreRelease)))).
  { apply (map_total (λ v, PreRelease_Slice v.(PreRelease)) (Forall (λ x, Atoi x = None))), list_total, identifiers_total. }
  pose proof (lex_total _ _ _ (Hz Major) (lex_total _ _ _ (Hz Minor) (lex_total _ _ _ (Hz Patch) (lex_total _ _ _ (Hz release_rank) Hp)))) as T.
  eapply cmp_ext; [apply T|done| |intros; apply Compare_lex].
  intros x y. rewrite !Compare_lex. apply (cmp_sym T).
Qed.

Lemma LessThan_Lt v w : LessThan v w = true ↔ Compare v w = Lt.
Proof. unfold LessThan. by destruct (Compare v w). Qed.

Lemma not_LessThan v w : LessThan v w = false ↔ Compare w v ≠ Gt.
Proof. unfold LessThan. rewrite (cmp_sym Compare_total v w). by destruct (Compare v w). Qed.

(** ** The latest version *)

Definition versions (machs : list MachineState) : list semver := omap (λ m, NewVersion m.(Version)) machs.

Lemma latest_max_from machs : ∀ lv, Forall plain (versions machs) → plain lv →
  ∃ l, foldl latest_step (Some lv) machs = Some l ∧ plain l ∧ (l = lv ∨ l ∈ versions machs) ∧
    ∀ v, v = lv ∨ v ∈ versions machs → LessThan l v = false.
Proof.
  induction machs as [|m machs IH]; intros lv Hp Hlv; cbn.
  - exists lv. split_and!; auto. intros v [->|Hv]; [|by apply elem_of_nil in Hv].
    apply not_LessThan. pose proof (cmp_sym Compare_total lv lv) as Hs. by destruct (Compare lv lv).
  - unfold versions, latest_step in *. cbn in *. destruct (NewVersion (Version m)) as [v|]; [|by apply IH].
    apply Forall_cons in Hp as [Hv Hp]. destruct (LessThan lv v) eqn:El.
    + destruct (IH v Hp Hv) as (l & E & Hl & Hin & Hmax). exists l. split_and!; [done|done|set_solver|].
      intros w Hw. rewrite elem_of_cons in Hw. destruct Hw as [->|Hw]; [|by apply Hmax].
      pose proof (Hmax v (or_introl eq_refl)) as Hvl. apply not_LessThan in Hvl. apply not_LessThan.
      apply (cmp_trans Compare_total lv v l); try done. apply LessThan_Lt in El. by rewrite El.
    + destruct (IH lv Hp Hlv) as (l & E & Hl & Hin & Hmax). exists l. split_and!; [done|done|set_solver|].
      intros w Hw. rewrite elem_of_cons in Hw. destruct Hw as [->|[->|Hw]]; [by apply Hmax; left| |by apply Hmax; right].
      pose proof (Hmax lv (or_introl eq_refl)) as Hlvl. apply not_LessThan in Hlvl, El. apply not_LessThan.
      by apply (cmp_trans Compare_total v lv l).
Qed.

Lemma latest_max machs : Forall plain (versions machs) →
  match latest machs with
  | None => versions machs = []
  | Some l => l ∈ versions machs ∧ ∀ v, v ∈ versions machs → LessThan l v = false
  end.
Proof.
  unfold latest. induction machs as [|m machs IH]; intros Hp; [done|].
  unfold versions in *. cbn in *. destruct (NewVersion (Version m)) as [v|] eqn:Ev.
  - apply Forall_cons in Hp as [Hv Hp]. unfold latest_step at 2. rewrite Ev.
    destruct (latest_max_from machs v Hp Hv) as (l & -> & _ & Hin & Hmax). unfold versions in *.
    split; [set_solver|]. intros w Hw. apply Hmax. set_solver.
  - unfold latest_step at 2. rewrite Ev. by apply IH.
Qed.

Section warning.
Context `{KeysAPI St, JSON MachineState} (keyPrefix : string).

(** C32: the client warns exactly when some machine of the cluster announces a version
    that parses and is greater than its own, whatever order the machines are listed in,
    as long as no pre-release has a number as an identifier. *)
Theorem checkVersion_warns (fv : semver) (s : St) machs :
  er_Machines keyPrefix s = Ok machs → plain fv → Forall plain (versions machs) →
  (checkVersion fv (er_LatestDaemonVersion keyPrefix s) ≠ None ↔
   ∃ m v, m ∈ machs ∧ NewVersion m.(Version) = Some v ∧ LessThan fv v = true).
Proof.
  intros Hm Hfv Hp. unfold er_LatestDaemonVersion. rewrite Hm. cbn. pose proof (latest_max machs Hp) as Hmax.
  assert (Hin : ∀ v, v ∈ versions machs ↔ ∃ m, m ∈ machs ∧ NewVersion m.(Version) = Some v).
  { intros v. unfold versions. by rewrite list_elem_of_omap. }
  destruct (latest machs) as [l|].
  - destruct Hmax as [Hl Hmax]. split.
    + destruct (LessThan fv l) eqn:E; [|done]. intros _. apply Hin in Hl as (m & ? & ?). eauto.
    + intros (m & v & Hmm & Hv & Hlt). destruct (LessThan fv l) eqn:E; [done|]. exfalso.
      assert (Hvin : v ∈ versions machs) by (apply Hin; eauto).
      apply not_LessThan in E. pose proof (Hmax v Hvin) as Hvl. apply not_LessThan in Hvl.
      rewrite Forall_forall in Hp.
      assert (Hbad : Compare v fv ≠ Gt) by (apply (cmp_trans Compare_total v l fv); auto).
      apply LessThan_Lt in Hlt. rewrite (cmp_sym Compare_total fv v), Hlt in Hbad. done.
  - split; [done|]. intros (m & v & Hmm & Hv & _).
    assert (Hvin : v ∈ versions machs) by (apply Hin; eauto). rewrite Hmax in Hvin. by apply elem_of_nil in Hvin.
Qed.
End warning.

(** ** Numbers and words do not mix *)

Definition announces (id version : string) : MachineState := mkMachineState id "" ∅ ∅ version.

Definition mixed_9 : semver := mkSemver 1 0 0 "9" "".
Definition mixed_10 : semver := mkSemver 1 0 0 "10" "".
Definition mixed_5a : semver := mkSemver 1 0 0 "5a" "".

(** Identifiers that are numbers and identifiers that are not make the comparison
    go round in a circle, so that the latest version depends on the order in which the
    machines are listed. *)
Theorem semver_circle :
  LessThan mixed_9 mixed_10 = true ∧ LessThan mixed_10 mixed_5a = true ∧ LessThan mixed_5a mixed_9 = true ∧
  latest [announces "a" "1.0.0-9"; announces "b" "1.0.0-10"; announces "c" "1.0.0-5a"] = Some mixed_5a ∧
  latest [announces "c" "1.0.0-5a"; announces "a" "1.0.0-9"; announces "b" "1.0.0-10"] = Some mixed_10.
Proof. repeat split; vm_compute; reflexivity. Qed.

Lemma checkVersion_warns_witness :
  let s := (er_CreateMachineState (JM := machine_json) prefix (announces "m1" "1.0.1-rc") (30 * second) fresh).1 in
  checkVersion (mkSemver 1 0 0 "" "") (er_LatestDaemonVersion (H0 := machine_json) prefix s) ≠ None ↔
  ∃ m v, m ∈ [announces "m1" "1.0.1-rc"] ∧ NewVersion m.(Version) = Some v ∧ LessThan (mkSemver 1 0 0 "" "") v = true.
Proof.
  apply checkVersion_warns; [vm_compute; reflexivity|..].
  - apply Forall_singleton. vm_compute. reflexivity.
  - apply Forall_singleton. cbn. apply Forall_singleton. vm_compute. reflexivity.
Defined.

(** ** Writing a version that was read *)

Definition digit (c : ascii) : bool := bool_decide (c ∈ ["0"; "1"; "2"; "3"; "4"; "5"; "6"; "7"; "8"; "9"]%char).

Lemma uint_digits c d : digit c = false → has_byte c (NilEmpty.string_of_uint d) = false.
Proof.
  intros Hc. induction d; cbn [NilEmpty.string_of_uint]; [done|..]; rewrite has_byte_cons, IHd, orb_false_r;
    apply bool_decide_eq_false; intros <-; done.
Qed.

Lemma Itoa_digits c z : (0 ≤ z)%Z → digit c = false → has_byte c (Itoa z) = false.
Proof.
  intros Hz Hc. unfold Itoa.
  assert (Hu : ∃ d, Z.to_int z = Decimal.Pos d) by (destruct z; [by eexists..|lia]). destruct Hu as [d ->]. cbn.
  unfold NilZero.string_of_uint. destruct d; try by apply uint_digits.
  rewrite has_byte_cons, orb_false_r. apply bool_decide_eq_false. by intros <-.
Qed.

Lemma Atoi_nonneg s z : has_byte "-" s = false → Atoi s = Some z → (0 ≤ z)%Z ∧ int_range z.
Proof.
  intros Hs Ha. unfold Atoi in Ha.
  set (parsed := match s with String "+" digits => _ | _ => _ end) in Ha.
  destruct parsed as [d|] eqn:Ed; cbn in Ha; [|done]. case_decide as Hr; [|done]. injection Ha as <-. split; [|done].
  assert (Hpos : ∃ u, d = Decimal.Pos u); [|destruct Hpos as [u ->]; unfold Z.of_int, Z.of_uint; lia].
  unfold parsed in Ed. clear parsed Hr. destruct s as [|a s]; [done|]. rewrite has_byte_cons in Hs. apply orb_false_iff in Hs as [Ha _].
  apply bool_decide_eq_false in Ha.
  assert (Hint : NilZero.int_of_string (String a s) = Decimal.Pos <$> NilZero.uint_of_string (String a s)).
  { unfold NilZero.int_of_string. by destruct (Ascii.eqb_spec a "-"). }
  rewrite Hint in Ed. revert Ed. generalize (NilZero.uint_of_string s), (NilZero.uint_of_string (String a s)). clear.
  intros o1 o2. destruct (decide (a = "+"%char)) as [->|Ha].
  - destruct o1; naive_solver.
  - assert (Hm : ∀ X Y : option Decimal.signed_int, match a with "+"%char => X | _ => Y end = Y).
    { intros X Y. destruct a as [[] [] [] [] [] [] [] []]; done. }
    rewrite Hm. destruct o2; naive_solver.
Qed.

Lemma splitOff_spec s c before after : splitOff s c = (before, after) →
  has_byte c before = false ∧ (s = before ∧ after = "" ∨ s = before +:+ String c after).
Proof.
  unfold splitOff, split_byte_2. destruct (index_byte c s) as [i|] eqn:E.
  - intros [= <- <-]. apply index_byte_Some in E as [E ?]. auto.
  - intros [= <- <-]. apply index_byte_None in E. auto.
Qed.

Lemma splitOff_no s c : has_byte c s = false → splitOff s c = (s, "").
Proof. intros Hs. unfold splitOff, split_byte_2. apply index_byte_None in Hs. by rewrite Hs. Qed.

Lemma splitOff_app s c t : has_byte c s = false → splitOff (s +:+ String c t) c = (s, t).
Proof.
  intros Hs. unfold splitOff, split_byte_2. rewrite index_byte_app_no by done.
  by rewrite str_take_app, str_drop_app_S.
Qed.

Lemma split_dots_3_spec s a b c : split_dots_3 s = [a; b; c] → s = a +:+ "." +:+ b +:+ "." +:+ c.
Proof.
  unfold split_dots_3, split_byte_2. destruct (index_byte "." s) as [i|] eqn:E; [|done].
  destruct (index_byte "." (str_drop (S i) s)) as [j|] eqn:E'; [|done]. intros [= <- <- <-].
  apply index_byte_Some in E as [E _]. apply index_byte_Some in E' as [E' _]. rewrite E at 1. by rewrite E' at 1.
Qed.

Lemma split_dots_3_app a b c : has_byte "." a = false → has_byte "." b = false →
  split_dots_3 (a +:+ "." +:+ b +:+ "." +:+ c) = [a; b; c].
Proof.
  intros Ha Hb. unfold split_dots_3, split_byte_2. change ("." +:+ b +:+ "." +:+ c) with (String "." (b +:+ String "." c)).
  rewrite index_byte_app_no by done. rewrite str_take_app, str_drop_app_S, index_byte_app_no by done.
  by rewrite str_take_app, str_drop_app_S.
Qed.

(** A version that was read is written so that it is read back as the same version. *)
Theorem NewVersion_String s v : NewVersion s = Some v → NewVersion (semver_String v) = Some v.
Proof.
  unfold NewVersion at 1. destruct (splitOff s "+") as [s1 metadata] eqn:E1. destruct (splitOff s1 "-") as [s2 pre] eqn:E2.
  destruct (split_dots_3 s2) as [|a [|b [|c []]]] eqn:E3; try done. intros Hv.
  destruct (Atoi a) as [x|] eqn:Ea; [|done]. destruct (Atoi b) as [y|] eqn:Eb; [|done]. destruct (Atoi c) as [z|] eqn:Ec; [|done].
  injection Hv as <-.
  apply splitOff_spec in E1 as [Hplus _]. apply splitOff_spec in E2 as [Hminus Hs1]. apply split_dots_3_spec in E3.
  assert (Hp : has_byte "+" pre = false).
  { destruct Hs1 as [[_ ->]| ->]; [done|]. rewrite has_byte_app, has_byte_cons in Hplus. by apply orb_false_iff in Hplus as [_ [_ ?]%orb_false_iff]. }
  rewrite E3, !has_byte_app in Hminus. rewrite !orb_false_iff in Hminus. destruct Hminus as (Ha & _ & Hb & _ & Hc).
  apply Atoi_nonneg in Ea as [? ?]; [|done]. apply Atoi_nonneg in Eb as [? ?]; [|done]. apply Atoi_nonneg in Ec as [? ?]; [|done].
  set (num := Itoa x +:+ "." +:+ Itoa y +:+ "." +:+ Itoa z).
  assert (Hnum : ∀ ch, digit ch = false → ch ≠ "."%char → has_byte ch num = false).
  { intros ch Hd Hne. unfold num. rewrite !has_byte_app, !Itoa_digits by done.
    rewrite has_byte_cons, bool_decide_eq_false_2 by congruence. done. }
  set (core := num +:+ (if bool_decide (pre = "") then "" else "-" +:+ pre)).
  assert (Hcore : has_byte "+" core = false).
  { unfold core. rewrite has_byte_app, Hnum by done. case_bool_decide; [done|]. by rewrite has_byte_app, Hp. }
  assert (Hs : semver_String (mkSemver x y z pre metadata) = core +:+ (if bool_decide (metadata = "") then "" else "+" +:+ metadata)).
  { unfold semver_String, core, num. cbn [Major Minor Patch PreRelease VMetadata]. by rewrite !str_app_assoc. }
  assert (Hso : splitOff (semver_String (mkSemver x y z pre metadata)) "+" = (core, metadata)).
  { rewrite Hs. case_bool_decide as Hm; [rewrite str_app_nil_r, Hm; by apply splitOff_no|by apply splitOff_app]. }
  assert (Hco : splitOff core "-" = (num, pre)).
  { clear Hs Hso. unfold core. case_bool_decide as Hm; [rewrite str_app_nil_r, Hm; by apply splitOff_no, Hnum|by apply splitOff_app, Hnum]. }
  unfold NewVersion. rewrite Hso, Hco. unfold num. rewrite split_dots_3_app by (apply Itoa_digits; done).
  by rewrite !Atoi_Itoa.
Qed.

Lemma NewVersion_String_witness : NewVersion (semver_String (mkSemver 1 0 0 "rc-1" "a-b+c")) = Some (mkSemver 1 0 0 "rc-1" "a-b+c").
Proof. apply (NewVersion_String "01.0.00-rc-1+a-b+c"). vm_compute. reflexivity. Defined.
