(* ===== verification/Registry.v ===== *)
(** * [registry/interface.go]: the registry, as its clients see it

    The interface [registry.Registry]; the parts of it that the engine, the agent,
    the publisher and the API use; and its implementation in etcd. *)

From stdpp Require Import base list gmap strings.
From S2P Require Import Prelude GoStrings GoPath Pkg UnitFile Job Machine AgentState Cluster Engine UnitManager Agent Publisher Schema Etcd Lease Leadership EtcdRegistry.

(** [LatestDaemonVersion] is left out: its result is a version of the semver
    package. *)
Class Registry (St E : Type) := {
  r_ClearUnitHeartbeat : string → St → St;
  r_CreateMachineState : MachineState → Z → St → St * res E Z;
  r_CreateUnit : Unit → St → St * res E unit;
  r_DestroyUnit : string → St → St * res E unit;
  r_UnitHeartbeat : string → string → Z → St → St * res E unit;
  r_Machines : St → res E (list MachineState);
  r_RemoveMachineState : string → St → St * res E unit;
  r_RemoveUnitState : string → St → St * res E unit;
  r_SaveUnitState : string → UnitState → Z → St → St;
  r_ScheduleUnit : string → string → St → St * res E unit;
  r_SetUnitTargetState : string → JobState → St → St * res E unit;
  r_SetMachineState : MachineState → Z → St → St * res E Z;
  r_MachineState : string → St → res E MachineState;
  r_UnscheduleUnit : string → string → St → St * res E unit;
  r_SetMachineMetadata : string → string → string → St → St * res E unit;
  r_DeleteMachineMetadata : string → string → St → St * res E unit;
  r_IsRegistryReady : St → bool;
  r_UseEtcdRegistry : St → bool;
  r_Schedule : St → res E (list ScheduledUnit);
  r_ScheduledUnit : string → St → res E (option ScheduledUnit);
  r_Unit : string → St → res E (option Unit);
  r_Units : St → res E (list Unit);
  r_UnitState : string → St → res E (option UnitState);
  r_UnitStates : St → res E (list UnitState)
}.

Section clients.
Context `{R : Registry St E}.

Definition registry_engine : EngineRegistry St E := {|
  reg_Units := r_Units; reg_Schedule := r_Schedule; reg_Machines := r_Machines;
  reg_ScheduleUnit := r_ScheduleUnit; reg_UnscheduleUnit := r_UnscheduleUnit |}.

Definition registry_agent : AgentRegistry St E := {|
  ar_Units := r_Units; ar_Schedule := r_Schedule; ar_MachineState := r_MachineState;
  ar_UnitHeartbeat := r_UnitHeartbeat; ar_ClearUnitHeartbeat := r_ClearUnitHeartbeat |}.

Definition registry_states : StateRegistry St E := {|
  sr_RemoveUnitState := r_RemoveUnitState; sr_SaveUnitState := r_SaveUnitState |}.

Definition registry_client : ClientRegistry St E := {|
  cr_Units := r_Units; cr_Schedule := r_Schedule; cr_Unit := r_Unit; cr_ScheduledUnit := r_ScheduledUnit;
  cr_UnitState := r_UnitState; cr_UnitStates := r_UnitStates; cr_CreateUnit := r_CreateUnit;
  cr_SetUnitTargetState := r_SetUnitTargetState; cr_DestroyUnit := r_DestroyUnit; cr_Machines := r_Machines;
  cr_SetMachineMetadata := r_SetMachineMetadata; cr_DeleteMachineMetadata := r_DeleteMachineMetadata |}.

End clients.

Section etcd.
Context `{K : KeysAPI St, JJ : JSON jobModel, JU : JSON unitModel, JM : JSON MachineState, JS : JSON unitStateModel}.
Context `{DG : Digest, MR : MapRange, GS : GoSort}.

Definition etcd_Registry (keyPrefix : string) (t : moment) : Registry St etcd_error := {|
  r_ClearUnitHeartbeat := er_ClearUnitHeartbeat keyPrefix;
  r_CreateMachineState := er_CreateMachineState keyPrefix;
  r_CreateUnit := er_CreateUnit keyPrefix;
  r_DestroyUnit := er_DestroyUnit keyPrefix;
  r_UnitHeartbeat := er_UnitHeartbeat keyPrefix;
  r_Machines := er_Machines keyPrefix;
  r_RemoveMachineState := er_RemoveMachineState keyPrefix;
  r_RemoveUnitState := er_RemoveUnitState keyPrefix;
  r_SaveUnitState := er_SaveUnitState keyPrefix;
  r_ScheduleUnit := er_ScheduleUnit keyPrefix;
  r_SetUnitTargetState := er_SetUnitTargetState keyPrefix;
  r_SetMachineState := er_SetMachineState keyPrefix;
  r_MachineState := er_MachineState keyPrefix;
  r_UnscheduleUnit := er_UnscheduleUnit keyPrefix;
  r_SetMachineMetadata := er_SetMachineMetadata keyPrefix;
  r_DeleteMachineMetadata := er_DeleteMachineMetadata keyPrefix;
  r_IsRegistryReady _ := true;
  r_UseEtcdRegistry _ := true;
  r_Schedule := er_Schedule keyPrefix t;
  r_ScheduledUnit := er_ScheduledUnit keyPrefix;
  r_Unit := er_Unit keyPrefix;
  r_Units := er_Units keyPrefix;
  r_UnitState := er_UnitState keyPrefix;
  r_UnitStates := er_UnitStates keyPrefix |}.

End etcd.
