(* ===== verification/Presence.v ===== *)
(** * A machine's presence: [heart/heart.go], [server/monitor.go]

    A machine announces itself with a lifetime and renews the announcement; the
    monitor does it at every tick and gives up when a renewal fails for too long.
    Times are in nanoseconds.  A renewal takes time and may fail; where both timers
    of a [select] are due, [pick] decides. *)

From stdpp Require Import base list gmap strings.
From S2P Require Import Prelude Pkg Machine Etcd Registry.

(** ** [heart/heart.go] *)

Section heart.
Context `{R : Registry St E}.

(** [mach] is the state of the machine at the call. *)
Definition heart_Register (mach : MachineState) (ttl : Z) (s : St) : St * res E Z := r_CreateMachineState mach ttl s.
Definition heart_Beat (mach : MachineState) (ttl : Z) (s : St) : St * res E Z := r_SetMachineState mach ttl s.
Definition heart_Clear (mach : MachineState) (s : St) : St * res E unit := r_RemoveMachineState mach.(ID) s.

End heart.

(** ** [server/monitor.go] *)

Record Monitor := mkMonitor { TTL : Z; ival : Z }.

Definition NewMonitor (ttl : Z) : Monitor := mkMonitor ttl (Z.quot ttl 2).

(** What the [i]-th beat of a check answers, and how long it takes. *)
Record beats := mkBeats { bt_index : nat → option Z; bt_takes : nat → Z; bt_pick : nat → bool }.

(** A beat that succeeded was sent at [sent] and answered at [answered]. *)
Inductive check_result := Beaten (tries : nat) (idx sent answered : Z) | TimedOut (tries : nat) (at_ : Z).

Fixpoint beat_loop (fuel : nat) (bt : beats) (timeout interval : Z) (i : nat) (now next : Z) : option check_result :=
  match fuel with
  | 0 => None
  | S fuel =>
      let wake := Z.max now (Z.min timeout next) in
      if (timeout <=? wake)%Z && (negb (next <=? wake)%Z || bt.(bt_pick) i) then Some (TimedOut i wake)
      else
        let done_ := (wake + bt.(bt_takes) i)%Z in
        match bt.(bt_index) i with
        | Some idx =>
            if decide (idx = 0%Z) then beat_loop fuel bt timeout interval (S i) done_ (done_ + interval)
            else Some (Beaten (S i) idx wake done_)
        | None => beat_loop fuel bt timeout interval (S i) done_ (done_ + interval)
        end
  end.

(** The timers are relative to the start of the check. *)
Definition check_timeout (ttl : Z) : Z := Z.quot ttl 3.
Definition check_interval (ttl : Z) : Z := Z.quot (check_timeout ttl) 4.

Definition check (fuel : nat) (bt : beats) (ttl : Z) : option check_result :=
  beat_loop fuel bt (check_timeout ttl) (check_interval ttl) 0 0 0.

(** The events that the monitor selects, in order: the machine is shut down, or a
    tick at this time. *)
Inductive monitor_event := Shutdown | Tick (at_ : Z) (bt : beats).

(** The times at which beats were answered, and how it ended: [None] while it
    goes on. *)
Fixpoint Monitor_run (fuel : nat) (m : Monitor) (events : list monitor_event) : list (Z * Z) * option (bool * bool) :=
  match events with
  | [] => ([], None)
  | Shutdown :: _ => ([], Some (true, true))
  | Tick start bt :: events =>
      match check fuel bt m.(TTL) with
      | Some (Beaten _ _ sent answered) =>
          let '(l, r) := Monitor_run fuel m events in (((start + sent)%Z, (start + answered)%Z) :: l, r)
      | _ => ([], Some (false, false))
      end
  end.

(** ** Bounds *)

Lemma check_times ttl :
  (48 ≤ ttl)%Z →
  (4 ≤ check_interval ttl ∧ 4 * check_interval ttl ≤ check_timeout ttl < 5 * check_interval ttl ∧ 3 * check_timeout ttl ≤ ttl)%Z.
Proof.
  intros H. unfold check_interval, check_timeout. rewrite !Z.quot_div_nonneg by (try apply Z.quot_pos; lia).
  pose proof (Z.div_mod ttl 3 ltac:(lia)). pose proof (Z.mod_pos_bound ttl 3 ltac:(lia)).
  pose proof (Z.div_mod (ttl / 3) 4 ltac:(lia)). pose proof (Z.mod_pos_bound (ttl / 3) 4 ltac:(lia)). lia.
Qed.

(** No beat is sent before the one before it is answered, nor after the timeout. *)
Definition in_time (timeout : Z) (bt : beats) (r : check_result) : Prop :=
  match r with
  | Beaten tries idx sent answered =>
      tries ≤ 5 ∧ idx ≠ 0%Z ∧ bt.(bt_index) (tries - 1) = Some idx ∧ (0 ≤ sent ≤ timeout)%Z ∧
      answered = (sent + bt.(bt_takes) (tries - 1))%Z
  | TimedOut tries at_ => tries ≤ 5 ∧ (timeout ≤ at_)%Z ∧ ∀ i, i < tries → default 0%Z (bt.(bt_index) i) = 0%Z
  end.

Lemma beat_loop_in_time fuel bt timeout interval i now next :
  (0 < interval)%Z → (4 * interval ≤ timeout < 5 * interval)%Z → (∀ i, 0 ≤ bt.(bt_takes) i)%Z →
  (0 ≤ now)%Z → next = (now + interval)%Z ∨ (now = 0 ∧ next = 0)%Z → (Z.of_nat i * interval ≤ next)%Z →
  (∀ j, j < i → default 0%Z (bt.(bt_index) j) = 0%Z) → i ≤ 5 → 6 - i ≤ fuel →
  ∃ r, beat_loop fuel bt timeout interval i now next = Some r ∧ in_time timeout bt r.
Proof.
  intros Hi Hto Hd. revert i now next. induction fuel as [|fuel IH]; intros i now next Hn Hnx Hin Hno H5 Hf; [lia|].
  cbn [beat_loop]. set (wake := Z.max now (Z.min timeout next)).
  destruct ((timeout <=? wake)%Z && (negb (next <=? wake)%Z || bt_pick bt i)) eqn:Ht.
  { eexists. split; [done|]. apply andb_true_iff in Ht as [?%Z.leb_le _]. by split_and!. }
  assert (wake = next ∧ next ≤ timeout)%Z as [Hw Hle].
  { unfold wake in *. destruct (Z.leb_spec timeout (Z.max now (Z.min timeout next))) as [H1|H1];
      destruct (Z.leb_spec next (Z.max now (Z.min timeout next))) as [H2|H2]; cbn in Ht; [lia|done|lia|lia]. }
  assert (i ≤ 4) as H4 by nia. clearbody wake. subst wake. specialize (Hd i).
  assert (default 0%Z (bt_index bt i) = 0%Z →
    ∃ r, beat_loop fuel bt timeout interval (S i) (next + bt_takes bt i) (next + bt_takes bt i + interval) = Some r ∧ in_time timeout bt r) as Hnext.
  { intros Hz. apply IH; [lia|by left|lia| |lia|lia]. intros j Hj. destruct (decide (j = i)) as [->|]; [done|]. apply Hno. lia. }
  destruct (bt_index bt i) as [idx|] eqn:Hidx; [|by apply Hnext]. case_decide as Hz; [by apply Hnext; subst|].
  eexists. split; [done|]. cbn. rewrite Nat.sub_0_r. split_and!; [lia|done|done|lia|done|done].
Qed.

Lemma beat_loop_tries fuel bt timeout interval i now tries at_ :
  (0 < interval)%Z → (4 * interval ≤ timeout)%Z → (∀ i, bt.(bt_takes) i = 0)%Z → (now ≤ Z.of_nat i * interval)%Z →
  beat_loop fuel bt timeout interval i now (Z.of_nat i * interval) = Some (TimedOut tries at_) → 4 ≤ tries.
Proof.
  intros Hi Hto Hd. revert i now. induction fuel as [|fuel IH]; intros i now Hn; [done|].
  cbn [beat_loop]. set (next := (Z.of_nat i * interval)%Z) in *. set (wake := Z.max now (Z.min timeout next)).
  destruct ((timeout <=? wake)%Z && _) eqn:Ht.
  { intros [= <- _]. apply andb_true_iff in Ht as [?%Z.leb_le _]. unfold wake, next in *. nia. }
  assert (wake = next) as Hw.
  { unfold wake in *. destruct (Z.leb_spec timeout (Z.max now (Z.min timeout next))) as [H1|H1];
      destruct (Z.leb_spec next (Z.max now (Z.min timeout next))) as [H2|H2]; cbn in Ht; [lia|done|lia|lia]. }
  clearbody wake. subst wake. rewrite Hd, Z.add_0_r.
  replace (next + interval)%Z with (Z.of_nat (S i) * interval)%Z by (unfold next; lia).
  assert (next ≤ Z.of_nat (S i) * interval)%Z by (unfold next; lia).
  destruct (bt_index bt i) as [idx|]; [case_decide; [by apply IH|done]|by apply IH].
Qed.

Lemma check_in_time bt ttl :
  (48 ≤ ttl)%Z → (∀ i, 0 ≤ bt.(bt_takes) i)%Z → ∃ r, check 6 bt ttl = Some r ∧ in_time (check_timeout ttl) bt r.
Proof.
  intros Ht Hd. destruct (check_times ttl Ht) as (? & ? & ?).
  apply beat_loop_in_time; [lia|lia|done|done|by right|done| |lia|lia]. intros j Hj. lia.
Qed.

(** C22: a check ends, whatever the beats answer and however long they take: after at
    most five beats, none of them sent after a third of the lifetime.  It fails only
    when no beat succeeded until then; and if beats take no time, after at least
    four. *)
Theorem check_bounded bt ttl :
  (48 ≤ ttl)%Z → (∀ i, 0 ≤ bt.(bt_takes) i)%Z →
  ∃ r, check 6 bt ttl = Some r ∧ in_time (check_timeout ttl) bt r ∧
    ((∀ i, bt.(bt_takes) i = 0)%Z → ∀ tries at_, r = TimedOut tries at_ → 4 ≤ tries).
Proof.
  intros Ht Hd. destruct (check_in_time bt ttl Ht Hd) as (r & Hr & Hin). exists r. split_and!; [done|done|].
  intros H0 tries at_ ->. destruct (check_times ttl Ht) as (? & ? & ?).
  eapply (beat_loop_tries 6 bt (check_timeout ttl) (check_interval ttl) 0 0); [lia|lia|done|lia|exact Hr].
Qed.

(** ** Presence *)

#[local] Arguments check : simpl never.

(** The ticks of a monitor whose beats take at most [d]. *)
Fixpoint ticking (m : Monitor) (d start : Z) (events : list monitor_event) : Prop :=
  match events with
  | Tick at_ bt :: events =>
      at_ = start ∧ (∀ i, 0 ≤ bt.(bt_takes) i ≤ d)%Z ∧ ticking m d (start + m.(ival)) events
  | _ => True
  end.

(** Each beat is answered before the announcement of the one before it, which was
    made when it was sent or later, runs out: etcd keeps it for whole seconds. *)
Fixpoint overlapping (ttl : Z) (l : list (Z * Z)) : Prop :=
  match l with
  | (sent, _) :: (((_, answered) :: _) as l) =>
      match expiration sent ttl with Some e => (answered < e)%Z | None => True end ∧ overlapping ttl l
  | _ => True
  end.

Lemma Monitor_run_first ttl d start events :
  (48 ≤ ttl)%Z → ticking (NewMonitor ttl) d start events →
  match (Monitor_run 6 (NewMonitor ttl) events).1 with
  | (sent, answered) :: _ => (start ≤ sent ∧ answered ≤ start + check_timeout ttl + d)%Z
  | [] => True
  end.
Proof.
  intros Ht. destruct events as [|[|at_ bt] events]; [done|done|]. intros (-> & Hd & _). cbn.
  destruct (check_in_time bt ttl Ht) as (r & -> & Hr); [apply Hd|]. destruct r as [tries idx sent answered|]; [|done].
  destruct Hr as (_ & _ & _ & Hs & ->). destruct (Monitor_run _ _ _). cbn. specialize (Hd (tries - 1)). lia.
Qed.

(** C21: while its checks succeed, a machine is always announced.  Etcd keeps an
    announcement for the whole seconds of its lifetime.  When a beat takes less than a
    sixth of a lifetime of whole seconds, the monitor renews the announcement before it
    runs out, although it beats every half lifetime only and retries for a third of it;
    with a fraction of a second in the lifetime, that fraction has to fit in too. *)
Theorem presence_continuous ttl d start events :
  (second ≤ ttl)%Z → (5 * ttl + 6 * d < 6 * (ttl / second * second))%Z → ticking (NewMonitor ttl) d start events →
  overlapping ttl (Monitor_run 6 (NewMonitor ttl) events).1.
Proof.
  intros Hsec H6. assert (48 ≤ ttl)%Z as Ht by (unfold second in Hsec; lia).
  revert start. induction events as [|[|at_ bt] events IH]; intros start; [done|done|]. intros (-> & Hd & Hev). cbn.
  destruct (check_in_time bt ttl Ht) as (r & -> & Hr); [apply Hd|]. destruct r as [tries idx sent answered|]; [|done].
  destruct Hr as (_ & _ & _ & Hs & _). specialize (IH _ Hev). pose proof (Monitor_run_first ttl d _ events Ht Hev) as Hfirst.
  destruct (Monitor_run _ _ events) as [[|[sent' answered'] l] o]; cbn [fst overlapping ival NewMonitor] in *; [done|]. split; [|done].
  unfold expiration. rewrite bool_decide_eq_false_2 by lia.
  destruct (check_times ttl Ht) as (_ & _ & H3). pose proof (Z.quot_div_nonneg ttl 2 ltac:(lia) ltac:(lia)) as E. rewrite E in Hfirst.
  pose proof (Z.div_mod ttl 2 ltac:(lia)). pose proof (Z.mod_pos_bound ttl 2 ltac:(lia)). lia.
Qed.

(** ** Witnesses *)

(** Three beats fail at once, the fourth succeeds after a second. *)
Definition slow_beats : beats :=
  mkBeats (λ i, if decide (i < 3) then None else Some 7%Z) (λ i, if decide (i < 3) then 0%Z else 1000000000%Z) (λ _, true).

Definition thirty : Z := 30000000000.

Lemma check_bounded_witness :
  ∃ r, check 6 slow_beats thirty = Some r ∧ in_time (check_timeout thirty) slow_beats r.
Proof.
  destruct (check_bounded slow_beats thirty) as (r & Hr & Hin & _); [done| |exists r; split; [exact Hr|exact Hin]].
  intros i. unfold slow_beats. cbn. case_decide; lia.
Defined.

Lemma presence_continuous_witness :
  overlapping thirty (Monitor_run 6 (NewMonitor thirty) [Tick 0 slow_beats; Tick 15000000000 slow_beats; Shutdown]).1.
Proof.
  apply (presence_continuous thirty 1000000000 0); [done|done|].
  cbn. split_and!; try done; intros i; case_decide; lia.
Defined.

(** A lifetime of 1.9 seconds is kept for one: the second check starts in time, but the
    beat that it repeats after a failure is too late. *)
Example fractional_ttl_lapses :
  let ttl := 1900000000%Z in
  let quick := mkBeats (λ _, Some 7%Z) (λ _, 0%Z) (λ _, true) in
  let retried := mkBeats (λ i, if decide (i = 0) then None else Some 7%Z) (λ _, 0%Z) (λ _, true) in
  let events := [Tick 0 quick; Tick (ival (NewMonitor ttl)) retried] in
  ticking (NewMonitor ttl) 0 0 events ∧ ¬ overlapping ttl (Monitor_run 6 (NewMonitor ttl) events).1.
Proof. split; [cbn; split_and!; done || (intros; lia)|]. vm_compute. by intros [H _]. Qed.
