(* ===== verification/Daemon.v ===== *)
(** * [server/server.go], [fleetd/fleetd.go]: the life of the daemon

    A server registers its machine, starts its components, and is supervised: when the
    check of the monitor fails it is taken down and run again, when it is killed it is
    taken down for good.  The daemon keeps a server and answers signals, one after the
    other.  The goroutines are step relations; what the components do and the monitor's
    checks are in the files of their own.  Of etcd there is whether the machine is
    announced in it: to register is to announce a machine that is not. *)

From stdpp Require Import base list gmap strings relations.
From S2P Require Import Prelude.

(** ** [server.go] *)

(** The channel that stops the components. *)
Inductive stop_channel := NilChan | OpenChan | ClosedChan.

(** In [Run] before the machine is registered; after [Supervise] was started, before
    the channel is made; with its components started; told to stop, by the killer or
    not; taken down; and after a panic. *)
Inductive phase := Registering | Launching | Up | Closing (sd : bool) | Down | Crashed.

(** [sv_keys] is the part of etcd that the configuration names. *)
Record server := mkServer {
  sv_keys : string; sv_phase : phase; sv_stopc : stop_channel;
  sv_killed : bool; sv_reconfig : bool; sv_restart : bool; sv_running : bool
}.

(** [New]. *)
Definition new_server (keys : string) : server := mkServer keys Registering NilChan false false false false.

Definition with_phase (p : phase) (c : stop_channel) (running : bool) (s : server) : server :=
  mkServer s.(sv_keys) p c s.(sv_killed) s.(sv_reconfig) s.(sv_restart) running.

Definition SetReconfigServer (b : bool) (s : server) : server :=
  mkServer s.(sv_keys) s.(sv_phase) s.(sv_stopc) s.(sv_killed) b s.(sv_restart) s.(sv_running).

Definition SetRestartServer (b : bool) (s : server) : server :=
  mkServer s.(sv_keys) s.(sv_phase) s.(sv_stopc) s.(sv_killed) s.(sv_reconfig) b s.(sv_running).

(** [Kill] closes the channel of the monitor. *)
Definition Kill (s : server) : server :=
  if negb s.(sv_reconfig) then mkServer s.(sv_keys) s.(sv_phase) s.(sv_stopc) true s.(sv_reconfig) s.(sv_restart) s.(sv_running) else s.

(** [close(s.stopc)]: closing a channel that is nil or closed is a panic. *)
Definition close_stopc (sd : bool) (s : server) : server :=
  match s.(sv_stopc) with
  | OpenChan => with_phase (Closing sd) ClosedChan s.(sv_running) s
  | c => with_phase Crashed c s.(sv_running) s
  end.

(** The announcements of the machine, by the parts of etcd that have one, and a server.
    [Register] creates the announcement and fails, and is tried again, where there is one;
    [Beat], of a server that is run again and of the monitor, renews it or creates it. *)
Inductive server_step : gset string * server → gset string * server → Prop :=
| sv_registered ann s : s.(sv_phase) = Registering → s.(sv_restart) = false → s.(sv_keys) ∉ ann →
    server_step (ann, s) ({[s.(sv_keys)]} ∪ ann, with_phase Launching s.(sv_stopc) s.(sv_running) s)
| sv_beaten ann s : s.(sv_phase) = Registering → s.(sv_restart) = true →
    server_step (ann, s) ({[s.(sv_keys)]} ∪ ann, with_phase Launching s.(sv_stopc) s.(sv_running) s)
| sv_started ann s : s.(sv_phase) = Launching → server_step (ann, s) (ann, with_phase Up OpenChan true s)
| sv_beats ann s : s.(sv_phase) = Launching ∨ s.(sv_phase) = Up → server_step (ann, s) ({[s.(sv_keys)]} ∪ ann, s)
| sv_monitor sd ann s : s.(sv_phase) = Launching ∨ s.(sv_phase) = Up → (sd = true → s.(sv_killed) = true) →
    server_step (ann, s) (ann, close_stopc sd s)
| sv_timeout sd ann s : s.(sv_phase) = Closing sd → server_step (ann, s) (ann, with_phase Crashed s.(sv_stopc) s.(sv_running) s)
| sv_down ann s : s.(sv_phase) = Closing true → server_step (ann, s) (ann, with_phase Down s.(sv_stopc) false s)
| sv_restarting ann s : s.(sv_phase) = Closing false →
    server_step (ann, s) (ann, SetRestartServer true (with_phase Registering s.(sv_stopc) false s))
| sv_restarted ann s : s.(sv_phase) = Up → server_step (ann, s) (ann, SetRestartServer false s).

(** ** [fleetd.go]

    [dm_servers] has the server of the variable [srv] first, and before it those it
    held; [dm_busy] is whether a handler of a signal runs, or [Main] has not come to
    listen yet; [dm_announced] are the announcements of the machine. *)
Record daemon := mkDaemon { dm_servers : list server; dm_busy : bool; dm_exiting : bool; dm_announced : gset string }.

(** A daemon that starts, where the announcement of an earlier one may be left. *)
Definition daemon_init (keys : string) (ann : gset string) : daemon := mkDaemon [new_server keys] true false ann.

(** [Run] has returned. *)
Definition run_returned (s : server) : bool :=
  match s.(sv_phase) with Registering | Launching => false | _ => true end.

(** The handler of SIGHUP up to [Run] of the new server, whose configuration names [keys]. *)
Definition reconfigure (keys : string) (d : daemon) : daemon :=
  match d.(dm_servers) with
  | srv :: old => mkDaemon (new_server keys :: Kill (SetReconfigServer true srv) :: old) true d.(dm_exiting) d.(dm_announced)
  | [] => d
  end.

(** Its end, when [srv] is the new server. *)
Definition reconfigured (d : daemon) : daemon :=
  match d.(dm_servers) with
  | srv :: old => mkDaemon (SetReconfigServer false srv :: old) false d.(dm_exiting) d.(dm_announced)
  | [] => d
  end.

(** The handler of SIGTERM and SIGINT, up to [Purge] and the exit. *)
Definition shutdown (d : daemon) : daemon :=
  match d.(dm_servers) with
  | srv :: old => mkDaemon (Kill srv :: old) true true d.(dm_announced)
  | [] => d
  end.

(** An announcement lapses when it was not renewed for its lifetime. *)
Inductive daemon_step : daemon → daemon → Prop :=
| dm_server l1 s s' l2 b e ann ann' : Forall (λ s, s.(sv_phase) ≠ Crashed) (l1 ++ s :: l2) → server_step (ann, s) (ann', s') →
    daemon_step (mkDaemon (l1 ++ s :: l2) b e ann) (mkDaemon (l1 ++ s' :: l2) b e ann')
| dm_listens srv old ann : run_returned srv = true →
    daemon_step (mkDaemon (srv :: old) true false ann) (reconfigured (mkDaemon (srv :: old) true false ann))
| dm_hup keys srv old ann :
    daemon_step (mkDaemon (srv :: old) false false ann) (reconfigure keys (mkDaemon (srv :: old) false false ann))
| dm_term srv old ann : daemon_step (mkDaemon (srv :: old) false false ann) (shutdown (mkDaemon (srv :: old) false false ann))
| dm_lapse keys l b e ann : daemon_step (mkDaemon l b e ann) (mkDaemon l b e (ann ∖ {[keys]})).

Definition daemon_reachable (d : daemon) : Prop := ∃ keys ann, rtc daemon_step (daemon_init keys ann) d.

(** ** One server *)

(** When components run, and what the channel is. *)
Definition server_inv (s : server) : Prop :=
  match s.(sv_phase) with
  | Registering | Launching => s.(sv_running) = false ∧ s.(sv_stopc) ≠ OpenChan
  | Up => s.(sv_running) = true ∧ s.(sv_stopc) = OpenChan
  | Closing sd => s.(sv_stopc) = ClosedChan ∧ (sd = true → s.(sv_killed) = true)
  | Down => s.(sv_running) = false ∧ s.(sv_stopc) = ClosedChan ∧ s.(sv_killed) = true
  | Crashed => True
  end.

Lemma server_inv_step ann s ann' s' : server_inv s → server_step (ann, s) (ann', s') → server_inv s'.
Proof.
  intros Hi Hstep. inversion Hstep as [? x Hp|? x Hp|? x Hp|? x Hp|sd ? x Hp Hk|sd ? x Hp|? x Hp|? x Hp|? x Hp]; subst; unfold server_inv in *; cbn.
  - by rewrite Hp in Hi.
  - by rewrite Hp in Hi.
  - done.
  - done.
  - unfold close_stopc. destruct Hp as [Hp|Hp]; rewrite Hp in Hi; destruct Hi as [_ Hc]; destruct (sv_stopc s); done.
  - done.
  - rewrite Hp in Hi. destruct Hi as [Hc Hk]. auto.
  - rewrite Hp in Hi. destruct Hi as [Hc _]. by rewrite Hc.
  - by rewrite Hp in Hi |- *.
Qed.

Lemma Kill_inv s : server_inv s → server_inv (Kill s).
Proof. unfold Kill, server_inv. destruct (sv_reconfig s); [done|]. cbn. destruct (sv_phase s); naive_solver. Qed.

Lemma reconfig_inv b s : server_inv s → server_inv (SetReconfigServer b s).
Proof. done. Qed.

(** ** The daemon *)

(** Whoever is not the current server was never killed, and cannot be any more; the
    current one is killed only by the shutdown. *)
Definition daemon_inv (d : daemon) : Prop :=
  Forall server_inv d.(dm_servers) ∧
  match d.(dm_servers) with
  | [] => False
  | srv :: old =>
      (d.(dm_exiting) = false → srv.(sv_killed) = false) ∧ (d.(dm_busy) = false → srv.(sv_reconfig) = false) ∧
      Forall (λ s, s.(sv_killed) = false ∧ s.(sv_reconfig) = true) old
  end.

Lemma server_step_flags ann s ann' s' :
  server_step (ann, s) (ann', s') → s'.(sv_killed) = s.(sv_killed) ∧ s'.(sv_reconfig) = s.(sv_reconfig).
Proof. intros H. inversion H; subst; try done. unfold close_stopc. by destruct (sv_stopc s). Qed.

Lemma daemon_inv_step d d' : daemon_inv d → daemon_step d d' → daemon_inv d'.
Proof.
  intros [Hi Hd] Hstep. destruct Hstep as [l1 s s' l2 b e ann ann' _ Hs|srv old ann Hr|keys srv old ann|srv old ann|keys l b e ann];
    unfold daemon_inv in *; cbn in *; [| | | |done].
  - destruct (server_step_flags _ s _ s' Hs) as [Hk Hc]. split.
    + apply Forall_app in Hi as [Hi1 Hi2]. apply Forall_cons in Hi2 as [Hi2 Hi3]. apply Forall_app_2; [done|].
      constructor; [by eapply server_inv_step|done].
    + destruct l1 as [|x l1]; cbn in *; [by rewrite Hk, Hc|]. destruct Hd as (? & ? & Ho). split; [done|]. split; [done|].
      apply Forall_app in Ho as [Ho1 Ho2]. apply Forall_cons in Ho2 as [Ho2 Ho3]. apply Forall_app_2; [done|]. constructor; [by rewrite Hk, Hc|done].
  - apply Forall_cons in Hi as [Hi1 Hi2]. split; [by constructor|]. tauto.
  - apply Forall_cons in Hi as [Hi1 Hi2]. split; [by repeat constructor|]. split; [done|]. split; [done|].
    destruct Hd as (Hk & _ & Ho). constructor; [split; [by apply Hk|done]|done].
  - apply Forall_cons in Hi as [Hi1 Hi2]. split; [constructor; [by apply Kill_inv|done]|]. split; [done|]. split; [done|]. tauto.
Qed.

Lemma daemon_reachable_inv d : daemon_reachable d → daemon_inv d.
Proof.
  intros (keys & ann & Hr). assert (daemon_inv (daemon_init keys ann)) as H0 by (split; [by repeat constructor|done]).
  revert H0. induction Hr as [d|d d' d'' Hstep _ IH]; [done|]. intros H0. apply IH. by eapply daemon_inv_step.
Qed.

(** Within one server, components run only while it is up or being taken down: a
    server that is started again has none running of its last life, and one that is
    down was killed and has none. *)
Theorem server_lives_apart d s : daemon_reachable d → s ∈ d.(dm_servers) →
  match s.(sv_phase) with
  | Registering | Launching => s.(sv_running) = false
  | Up => s.(sv_running) = true ∧ s.(sv_stopc) = OpenChan
  | Down => s.(sv_running) = false ∧ s.(sv_killed) = true
  | _ => True
  end.
Proof.
  intros Hr Hs. destruct (daemon_reachable_inv d Hr) as [Hi _]. rewrite Forall_forall in Hi. specialize (Hi s Hs).
  unfold server_inv in Hi. destruct (sv_phase s); naive_solver.
Qed.

(** Steps of the server that [srv] holds. *)
Lemma dm_current s s' old b e ann ann' : Forall (λ s, s.(sv_phase) ≠ Crashed) (s :: old) → server_step (ann, s) (ann', s') →
  daemon_step (mkDaemon (s :: old) b e ann) (mkDaemon (s' :: old) b e ann').
Proof. intros H Hs. by apply (dm_server [] s s' old). Qed.

Definition up_server (keys : string) (reconfig : bool) : server := mkServer keys Up OpenChan false reconfig false true.

(** A new server comes up where the machine is not announced. *)
Lemma run_new keys ann old : keys ∉ ann → Forall (λ s, s.(sv_phase) ≠ Crashed) old →
  rtc daemon_step (mkDaemon (new_server keys :: old) true false ann) (mkDaemon (up_server keys false :: old) false false ({[keys]} ∪ ann)).
Proof.
  intros Hk Ho. eapply rtc_l; [apply dm_current; [by constructor|by apply sv_registered]|].
  eapply rtc_l; [apply dm_current; [by constructor|by apply sv_started]|]. eapply rtc_l; [by apply dm_listens|]. apply rtc_refl.
Qed.

(** The announcement lapses in each of [n] reloads. *)
Lemma reloads keys n :
  rtc daemon_step (daemon_init keys ∅)
    (mkDaemon (up_server keys false :: replicate n (up_server keys true)) false false {[keys]}).
Proof.
  assert ({[keys]} ∪ ∅ = ({[keys]} : gset string)) as E by set_solver.
  assert ({[keys]} ∖ {[keys]} = (∅ : gset string)) as E' by set_solver.
  induction n as [|n IH].
  { pose proof (run_new keys ∅ [] ltac:(set_solver) ltac:(constructor)) as H. by rewrite E in H. }
  refine (transitivity (R := rtc daemon_step) IH _). eapply rtc_l; [apply (dm_hup keys)|].
  unfold reconfigure. cbn [dm_servers dm_exiting dm_announced]. eapply rtc_l; [apply (dm_lapse keys)|]. rewrite E'.
  pose proof (run_new keys ∅ (up_server keys true :: replicate n (up_server keys true)) ltac:(set_solver)) as H. rewrite E in H.
  apply H. by apply (Forall_replicate _ (S n)).
Qed.

(** While the machine stays announced, the new server of a reload does not get beyond its
    registration. *)
Definition kept_step (keys : string) (d d' : daemon) : Prop := daemon_step d d' ∧ keys ∈ d'.(dm_announced).

Definition waiting (keys : string) (d : daemon) : Prop :=
  d.(dm_busy) = true ∧ d.(dm_exiting) = false ∧ keys ∈ d.(dm_announced) ∧
  ∃ srv old, d.(dm_servers) = srv :: old ∧ srv.(sv_keys) = keys ∧ srv.(sv_phase) = Registering ∧ srv.(sv_restart) = false.

Lemma waiting_step keys d d' : waiting keys d → kept_step keys d d' → waiting keys d'.
Proof.
  intros (Hb & He & Ha & srv & old & Hs & Hk & Hp & Hr) [Hstep Ha'].
  destruct Hstep as [l1 s s' l2 b e ann ann' _ Hst|srv' old' ann Hret|keys' srv' old' ann|srv' old' ann|keys' l b e ann]; cbn in *; subst; try done.
  - destruct l1 as [|x l1]; cbn in *.
    + injection Hs as -> ->. exfalso. inversion Hst; subst; congruence || (destruct_or?; congruence).
    + injection Hs as -> <-. split_and!; [done..|]. exists srv, (l1 ++ s' :: l2). done.
  - injection Hs as -> ->. unfold run_returned in Hret. by rewrite Hp in Hret.
  - split_and!; [done..|]. by exists srv, old.
Qed.

Lemma waiting_steps keys d d' : waiting keys d → rtc (kept_step keys) d d' → waiting keys d'.
Proof. intros Hw Hs. induction Hs as [|d1 d2 d3 Hs _ IH]; [done|]. apply IH. by eapply waiting_step. Qed.

(** C39: a reload does not stop the server it replaces: no server is ever killed before
    the daemon is told to exit, and then only the last one is.  So the old server goes on
    renewing the announcement of the machine, and as long as that does not lapse the new
    server, if it uses the same part of etcd, is not registered: the reload waits, and the
    daemon answers no signal, also not the one to exit.  If the announcement lapses in
    each of any number of reloads, all the servers there were run side by side. *)
Theorem reload_keeps_servers :
  (∀ d, daemon_reachable d → ∃ srv old, d.(dm_servers) = srv :: old ∧
     (d.(dm_exiting) = false → srv.(sv_killed) = false) ∧ Forall (λ s, s.(sv_killed) = false) old) ∧
  (∀ d keys d', daemon_reachable d → d.(dm_busy) = false → d.(dm_exiting) = false → keys ∈ d.(dm_announced) →
     rtc (λ a b, daemon_step a b ∧ keys ∈ b.(dm_announced)) (reconfigure keys d) d' →
     d'.(dm_busy) = true ∧ d'.(dm_exiting) = false ∧
     ∃ srv old, d'.(dm_servers) = srv :: old ∧ srv.(sv_phase) = Registering) ∧
  ∀ keys n, daemon_reachable
    (mkDaemon (up_server keys false :: replicate n (up_server keys true)) false false {[keys]}).
Proof.
  split_and!.
  - intros d Hr. destruct (daemon_reachable_inv d Hr) as [_ Hd]. destruct (dm_servers d) as [|srv old]; [done|].
    exists srv, old. destruct Hd as (Hk & _ & Ho). split; [done|]. split; [done|]. eapply Forall_impl; [done|]. naive_solver.
  - intros d keys d' Hr Hb He Ha Hs. destruct (daemon_reachable_inv d Hr) as [_ Hd].
    destruct (waiting_steps keys (reconfigure keys d) d') as (? & ? & _ & srv & old & ? & _ & ? & _); [|done|eauto 6].
    unfold reconfigure. destruct (dm_servers d) as [|srv old]; [done|]. split_and!; [done..|].
    by eexists _, _.
  - intros keys n. exists keys, ∅. apply reloads.
Qed.

(** A shutdown while the server is being run again can panic: [Run] starts [Supervise]
    before it makes the channel, and the monitor that finds itself killed closes the
    channel of the last life a second time. *)
Theorem shutdown_may_panic : ∃ d s, daemon_reachable d ∧ d.(dm_exiting) = true ∧ s ∈ d.(dm_servers) ∧ s.(sv_phase) = Crashed.
Proof.
  eexists (mkDaemon [_] true true _), _. split_and!; [|done|left|].
  - exists "/", ∅. refine (transitivity (R := rtc daemon_step) (reloads "/" 0) _). cbn [replicate].
    eapply rtc_l; [apply dm_current; [by repeat constructor|apply (sv_monitor false); [by right|done]]|].
    eapply rtc_l; [apply dm_current; [by repeat constructor|by apply sv_restarting]|].
    eapply rtc_l; [apply dm_current; [by repeat constructor|by apply sv_beaten]|].
    eapply rtc_l; [apply dm_term|].
    eapply rtc_l; [apply dm_current; [by repeat constructor|apply (sv_monitor true); [by left|done]]|]. apply rtc_refl.
  - done.
Qed.

Lemma server_lives_apart_witness : sv_running (up_server "/" false) = true ∧ sv_stopc (up_server "/" false) = OpenChan.
Proof.
  apply (server_lives_apart (mkDaemon [up_server "/" false] false false {["/"]}) (up_server "/" false)); [|left].
  exists "/", ∅. apply (reloads "/" 0).
Defined.
