(* ===== verification/RpcRegistry.v ===== *)
(** * [registry/rpc]: the registry served over gRPC

    The messages, the registry that the leading engine keeps in memory
    ([inmemory.go]), the server that writes through it to etcd ([rpcserver.go]),
    and the client the other machines use ([rpcregistry.go]).  The network and the
    generated stubs deliver each call to the server and its reply. *)

From stdpp Require Import base list gmap strings.
From S2P Require Import Prelude GoStrings GoPath Pkg UnitFile Job Machine Etcd EtcdRegistry Registry.

(** ** Messages ([protobuf/fleet.pb.go]) *)

Definition TargetState_INACTIVE : Z := 0.
Definition TargetState_LOADED : Z := 1.
Definition TargetState_LAUNCHED : Z := 2.

Record PbUnitOption := mkPbUnitOption { po_Section : string; po_Name : string; po_Value : string }.

Record PbUnit := mkPbUnit { pu_Name : string; pu_Options : list PbUnitOption; pu_DesiredState : Z }.

Record PbScheduledUnit := mkPbScheduledUnit { ps_Name : string; ps_CurrentState : Z; ps_MachineID : string }.

Record PbUnitState := mkPbUnitState {
  us_Name : string; us_Hash : string; us_LoadState : string; us_ActiveState : string; us_SubState : string;
  us_MachineID : string
}.

(** ** [job/job_protobuf.go], [unit/unit_protobuf.go], [registry/rpc/rpcutils.go] *)

Definition JobState_ToPB (state : JobState) : Z :=
  if bool_decide (state = JobStateInactive) then TargetState_INACTIVE
  else if bool_decide (state = JobStateLoaded) then TargetState_LOADED
  else if bool_decide (state = JobStateLaunched) then TargetState_LAUNCHED
  else TargetState_LOADED.

Definition UnitFile_ToPB (u : UnitFile) : list PbUnitOption :=
  (λ opt, mkPbUnitOption opt.(Section_) opt.(OptName) opt.(OptValue)) <$> u.(Options).

Definition Unit_ToPB (u : Unit) : PbUnit := mkPbUnit u.(UName) (UnitFile_ToPB u.(UUnit)) (JobState_ToPB u.(UTargetState)).

(** [None]: the state is a nil pointer, and is dereferenced. *)
Definition ScheduledUnit_ToPB (u : ScheduledUnit) : option PbScheduledUnit :=
  (λ state, mkPbScheduledUnit u.(SName) (JobState_ToPB state) u.(STargetMachineID)) <$> u.(SState).

Definition UnitState_ToPB (s : UnitState) : PbUnitState :=
  mkPbUnitState s.(UnitName) s.(UnitHash) s.(LoadState) s.(ActiveState) s.(SubState) s.(UsMachineID).

Definition rpcUnitStateToJobState (state : Z) : JobState :=
  if bool_decide (state = TargetState_INACTIVE) then JobStateInactive
  else if bool_decide (state = TargetState_LOADED) then JobStateLoaded
  else if bool_decide (state = TargetState_LAUNCHED) then JobStateLaunched
  else JobStateInactive.

Definition rpcUnitStateToExtUnitState (state : PbUnitState) : UnitState :=
  mkUnitState state.(us_LoadState) state.(us_ActiveState) state.(us_SubState) state.(us_MachineID) state.(us_Hash)
    state.(us_Name).

Definition rpcUnitToJobUnit (u : PbUnit) : Unit :=
  mkUnit u.(pu_Name)
    (NewUnitFromOptions ((λ opt, mkUnitOption opt.(po_Section) opt.(po_Name) opt.(po_Value)) <$> u.(pu_Options)))
    (rpcUnitStateToJobState u.(pu_DesiredState)).

(** ** [registry/rpc/inmemory.go] *)

(** A state with the time until which it is valid. *)
Record unitStateHeartbeat := mkUnitStateHeartbeat { hb_deadline : Z; hb_state : PbUnitState }.

Definition isValid (now : Z) (u : unitStateHeartbeat) : bool := (now <? u.(hb_deadline))%Z.

Record inmemoryRegistry := mkInmemoryRegistry {
  unitsCache : gmap string PbUnit;
  scheduledUnits : gmap string PbScheduledUnit;
  unitHeartbeats : gmap string (gmap string Z);
  unitStates : gmap string (gmap string unitStateHeartbeat)
}.

Definition newInmemoryRegistry : inmemoryRegistry := mkInmemoryRegistry ∅ ∅ ∅ ∅.

Definition with_units (f : gmap string PbUnit → gmap string PbUnit) (r : inmemoryRegistry) : inmemoryRegistry :=
  mkInmemoryRegistry (f r.(unitsCache)) r.(scheduledUnits) r.(unitHeartbeats) r.(unitStates).
Definition with_schedule (f : gmap string PbScheduledUnit → gmap string PbScheduledUnit) (r : inmemoryRegistry) : inmemoryRegistry :=
  mkInmemoryRegistry r.(unitsCache) (f r.(scheduledUnits)) r.(unitHeartbeats) r.(unitStates).
Definition with_heartbeats (f : gmap string (gmap string Z) → gmap string (gmap string Z)) (r : inmemoryRegistry) : inmemoryRegistry :=
  mkInmemoryRegistry r.(unitsCache) r.(scheduledUnits) (f r.(unitHeartbeats)) r.(unitStates).
Definition with_states (f : gmap string (gmap string unitStateHeartbeat) → gmap string (gmap string unitStateHeartbeat))
  (r : inmemoryRegistry) : inmemoryRegistry :=
  mkInmemoryRegistry r.(unitsCache) r.(scheduledUnits) r.(unitHeartbeats) (f r.(unitStates)).

Section inmemory.
Context `{MR : MapRange, GS : GoSort}.

(** Each loop stops at the first error, with what was loaded before; [None]: a
    nil pointer is dereferenced. *)
Definition LoadFrom `{Registry St E} (s : St) (r : inmemoryRegistry) : option (inmemoryRegistry * res E unit) :=
  match r_Units s with
  | Err err => Some (r, Err err)
  | Ok units =>
      let r := foldl (λ r u, with_units <[u.(UName) := Unit_ToPB u]> r) r units in
      match r_Schedule s with
      | Err err => Some (r, Err err)
      | Ok schedule =>
          (λ sus, (foldl (λ r su, with_schedule <[su.(ps_Name) := su]> r) r sus, Ok tt)) <$>
          mapM ScheduledUnit_ToPB schedule
      end
  end.

Definition isUnitLoaded (unitName machineID : string) (r : inmemoryRegistry) : bool :=
  match r.(unitStates) !! unitName with
  | Some states => bool_decide (is_Some (states !! machineID))
  | None => false
  end.

Definition isUnitLaunched (unitName machineID : string) (r : inmemoryRegistry) : bool :=
  match r.(unitHeartbeats) !! unitName with
  | Some beats => bool_decide (is_Some (beats !! machineID))
  | None => false
  end.

Definition getScheduledUnitState (unitName machineID : string) (r : inmemoryRegistry) : Z :=
  if isUnitLoaded unitName machineID r then
    if isUnitLaunched unitName machineID r then TargetState_LAUNCHED else TargetState_LOADED
  else TargetState_INACTIVE.

Definition isScheduled (unitName machine : string) (r : inmemoryRegistry) : bool :=
  if bool_decide (machine = "") || bool_decide (unitName = "") then false
  else match r.(scheduledUnits) !! unitName with
       | Some s => bool_decide (s.(ps_MachineID) = machine)
       | None => false
       end.

Definition im_Schedule (t : moment) (r : inmemoryRegistry) : list PbScheduledUnit :=
  (λ '(_, su), mkPbScheduledUnit su.(ps_Name) (getScheduledUnitState su.(ps_Name) su.(ps_MachineID) r) su.(ps_MachineID))
  <$> range t r.(scheduledUnits).

Definition im_ScheduledUnit (unitName : string) (r : inmemoryRegistry) : PbScheduledUnit :=
  match r.(scheduledUnits) !! unitName with
  | Some su => mkPbScheduledUnit su.(ps_Name) (getScheduledUnitState unitName su.(ps_MachineID) r) su.(ps_MachineID)
  | None => mkPbScheduledUnit unitName TargetState_INACTIVE ""
  end.

Definition im_Unit (name : string) (r : inmemoryRegistry) : option PbUnit := r.(unitsCache) !! name.

Definition im_Units (t : moment) (r : inmemoryRegistry) : list PbUnit :=
  omap (λ unitName, r.(unitsCache) !! unitName) (go_sort string_less (range t r.(unitsCache)).*1).

(** The first valid state of the unit, in the order of the map; a zero value if
    there is none. *)
Definition im_stateByMUSKey (now : Z) (t : moment) (name : string) (r : inmemoryRegistry) : PbUnitState :=
  match r.(unitStates) !! name with
  | Some states =>
      match list_find (λ '(_, hb), isValid now hb = true) (range t states) with
      | Some (_, (_, hb)) => hb.(hb_state)
      | None => mkPbUnitState "" "" "" "" "" ""
      end
  | None => mkPbUnitState "" "" "" "" "" ""
  end.

Definition im_statesByMUSKey (now : Z) (t : moment) (r : inmemoryRegistry) : gmap MUSKey PbUnitState :=
  foldl (λ states '(unitname, beats),
    foldl (λ states '(machineID, hb),
      if isValid now hb then <[mkMUSKey unitname machineID := hb.(hb_state)]> states else states)
      states (range t beats))
    ∅ (range t r.(unitStates)).

Definition im_UnitState (now : Z) (t : moment) (name : string) (r : inmemoryRegistry) : PbUnitState :=
  im_stateByMUSKey now t name r.

Definition im_UnitStates (now : Z) (t : moment) (r : inmemoryRegistry) : list PbUnitState :=
  let mus := im_statesByMUSKey now t r in
  omap (λ key, mus !! key) (go_sort MUSKeys_Less (map_to_list mus).*1).

Definition im_ClearUnitHeartbeat (name : string) : inmemoryRegistry → inmemoryRegistry := with_heartbeats (delete name).

(** The second component tells whether the unit was there. *)
Definition im_DestroyUnit (name : string) (r : inmemoryRegistry) : inmemoryRegistry * bool :=
  (mkInmemoryRegistry (delete name r.(unitsCache)) (delete name r.(scheduledUnits)) (delete name r.(unitHeartbeats))
     (delete name r.(unitStates)), bool_decide (is_Some (r.(unitsCache) !! name))).

Definition im_RemoveUnitState (unitName : string) : inmemoryRegistry → inmemoryRegistry := with_states (delete unitName).

Definition im_SaveUnitState (now : Z) (unitName : string) (state : PbUnitState) (ttl : Z) : inmemoryRegistry → inmemoryRegistry :=
  with_states (λ m, <[unitName := <[state.(us_MachineID) := mkUnitStateHeartbeat (now + ttl) state]> (default ∅ (m !! unitName))]> m).

Definition im_UnitHeartbeat (now : Z) (unitName machineid : string) (ttl : Z) : inmemoryRegistry → inmemoryRegistry :=
  with_heartbeats (λ m, <[unitName := <[machineid := (now + ttl)%Z]> (default ∅ (m !! unitName))]> m).

Definition im_ScheduleUnit (unitName machineid : string) : inmemoryRegistry → inmemoryRegistry :=
  with_schedule <[unitName := mkPbScheduledUnit unitName TargetState_INACTIVE machineid]>.

Definition im_UnscheduleUnit (unitName machineid : string) : inmemoryRegistry → inmemoryRegistry :=
  with_schedule (delete unitName).

Definition im_SetUnitTargetState (unitName : string) (targetState : Z) (r : inmemoryRegistry) : inmemoryRegistry * bool :=
  match r.(unitsCache) !! unitName with
  | Some u => (with_units <[unitName := mkPbUnit u.(pu_Name) u.(pu_Options) targetState]> r, true)
  | None => (r, false)
  end.

Definition im_CreateUnit (u : PbUnit) : inmemoryRegistry → inmemoryRegistry := with_units <[u.(pu_Name) := u]>.

End inmemory.

(** ** [registry/rpc/rpcserver.go] *)

Record rpcserver := mkRpcserver { localRegistry : inmemoryRegistry; hasNonGRPCAgents : bool }.

Section server.
Context `{MR : MapRange, GS : GoSort, R : Registry St E}.

Definition with_local (f : inmemoryRegistry → inmemoryRegistry) (srv : rpcserver) : rpcserver :=
  mkRpcserver (f srv.(localRegistry)) srv.(hasNonGRPCAgents).

(** The part of [NewRPCServer] after the socket is bound: the error of [LoadFrom]
    is ignored. *)
Definition NewRPCServer (s : St) : option (res E rpcserver) :=
  match LoadFrom s newInmemoryRegistry with
  | None => None
  | Some (local, _) =>
      Some (match r_Machines s with
            | Err err => Err err
            | Ok machineStates =>
                Ok (mkRpcserver local (existsb (λ state, negb (Capabilities_Has state.(Capabilities) CapGRPC)) machineStates))
            end)
  end.

Definition srv_GetScheduledUnits (t : moment) (srv : rpcserver) : list PbScheduledUnit := im_Schedule t srv.(localRegistry).

Definition srv_GetScheduledUnit (name : string) (srv : rpcserver) : option PbScheduledUnit :=
  Some (im_ScheduledUnit name srv.(localRegistry)).

Definition srv_GetUnit (name : string) (srv : rpcserver) : option PbUnit := im_Unit name srv.(localRegistry).

Definition srv_GetUnits (t : moment) (srv : rpcserver) (s : St) : res E (list PbUnit) :=
  let units := im_Units t srv.(localRegistry) in
  if srv.(hasNonGRPCAgents) then
    match r_Units s with
    | Err err => Err err
    | Ok etcdUnits =>
        let unitNames : gset string := list_to_set (pu_Name <$> units) in
        Ok (units ++ (Unit_ToPB <$> filter (λ u, UName u ∉ unitNames) etcdUnits))
    end
  else Ok units.

Definition srv_GetUnitState (now : Z) (t : moment) (name : string) (srv : rpcserver) : PbUnitState :=
  im_UnitState now t name srv.(localRegistry).

Definition srv_GetUnitStates (now : Z) (t : moment) (srv : rpcserver) (s : St) : res E (list PbUnitState) :=
  let states := im_UnitStates now t srv.(localRegistry) in
  if srv.(hasNonGRPCAgents) then
    match r_UnitStates s with
    | Err err => Err err
    | Ok etcdUnitStates =>
        let unitStateNames : gmap string string := foldl (λ m state, <[us_Name state := us_MachineID state]> m) ∅ states in
        let missing state :=
          match unitStateNames !! UnitName state with
          | None => true
          | Some machId => bool_decide (machId ≠ UsMachineID state)
          end in
        Ok (states ++ (UnitState_ToPB <$> filter (λ state, missing state = true) etcdUnitStates))
    end
  else Ok states.

Definition srv_ClearUnitHeartbeat (name : string) : rpcserver → rpcserver := with_local (im_ClearUnitHeartbeat name).

(** A write goes to etcd first, and to memory if etcd accepted it. *)
Definition write_through (op : St → St * res E unit) (local : inmemoryRegistry → inmemoryRegistry)
    (w : rpcserver * St) : rpcserver * St * res E unit :=
  let '(s, r) := op w.2 in
  match r with
  | Ok _ => (with_local local w.1, s, r)
  | Err _ => (w.1, s, r)
  end.

Definition srv_CreateUnit (u : PbUnit) : rpcserver * St → rpcserver * St * res E unit :=
  write_through (r_CreateUnit (rpcUnitToJobUnit u)) (im_CreateUnit u).

Definition srv_DestroyUnit (name : string) : rpcserver * St → rpcserver * St * res E unit :=
  write_through (r_DestroyUnit name) (λ r, (im_DestroyUnit name r).1).

Definition srv_ScheduleUnit (name machID : string) : rpcserver * St → rpcserver * St * res E unit :=
  write_through (r_ScheduleUnit name machID) (im_ScheduleUnit name machID).

Definition srv_UnscheduleUnit (name machID : string) : rpcserver * St → rpcserver * St * res E unit :=
  write_through (r_UnscheduleUnit name machID) (im_UnscheduleUnit name machID).

Definition srv_SetUnitTargetState (name : string) (state : Z) : rpcserver * St → rpcserver * St * res E unit :=
  write_through (r_SetUnitTargetState name (rpcUnitStateToJobState state)) (λ r, (im_SetUnitTargetState name state r).1).

(** [ttl] is in seconds. *)
Definition srv_UnitHeartbeat (now : Z) (name machID : string) (ttl : Z) : rpcserver → rpcserver :=
  with_local (im_UnitHeartbeat now name machID (int64_wrap (ttl * second))).

Definition srv_RemoveUnitState (name : string) (w : rpcserver * St) : rpcserver * St :=
  let s := if w.1.(hasNonGRPCAgents) then (r_RemoveUnitState name w.2).1 else w.2 in
  (with_local (im_RemoveUnitState name) w.1, s).

Definition srv_SaveUnitState (now : Z) (name : string) (state : PbUnitState) (ttl : Z) (w : rpcserver * St) : rpcserver * St :=
  let ttl := int64_wrap (ttl * second) in
  let s := if w.1.(hasNonGRPCAgents) then r_SaveUnitState name (rpcUnitStateToExtUnitState state) ttl w.2 else w.2 in
  (with_local (im_SaveUnitState now name state ttl) w.1, s).

End server.

(** ** [registry/rpc/rpcregistry.go]

    [now] is the time at the server and [t] the moment of its traversals of
    maps. *)

Section client.
Context `{MR : MapRange, GS : GoSort, R : Registry St E}.
Variables (now : Z) (t : moment).

(** [int32(ttl.Seconds())].  The seconds are a float: the result is exact for
    durations under [2 ^ 22] seconds, 48 days. *)
Definition rpc_seconds (ttl : Z) : Z := Z.quot ttl second.

Definition rr_UseEtcdRegistry (w : rpcserver * St) : bool := false.

Definition rr_ClearUnitHeartbeat (unitName : string) (w : rpcserver * St) : rpcserver * St :=
  (srv_ClearUnitHeartbeat unitName w.1, w.2).

Definition rr_CreateUnit (j : Unit) (w : rpcserver * St) : rpcserver * St * res E unit := srv_CreateUnit (Unit_ToPB j) w.

Definition rr_DestroyUnit (unitName : string) (w : rpcserver * St) : rpcserver * St * res E unit := srv_DestroyUnit unitName w.

Definition rr_UnitHeartbeat (unitName machID : string) (ttl : Z) (w : rpcserver * St) : rpcserver * St * res E unit :=
  (srv_UnitHeartbeat now unitName machID (rpc_seconds ttl) w.1, w.2, Ok tt).

Definition rr_RemoveUnitState (unitName : string) (w : rpcserver * St) : rpcserver * St * res E unit :=
  (srv_RemoveUnitState unitName w, Ok tt).

Definition rr_SaveUnitState (unitName : string) (us : UnitState) (ttl : Z) (w : rpcserver * St) : rpcserver * St :=
  let us := if bool_decide (us.(UnitName) = "")
            then mkUnitState us.(LoadState) us.(ActiveState) us.(SubState) us.(UsMachineID) us.(UnitHash) unitName else us in
  srv_SaveUnitState now unitName (UnitState_ToPB us) (rpc_seconds ttl) w.

Definition rr_ScheduleUnit (unitName machID : string) (w : rpcserver * St) : rpcserver * St * res E unit :=
  srv_ScheduleUnit unitName machID w.

Definition rr_SetUnitTargetState (unitName : string) (state : JobState) (w : rpcserver * St) : rpcserver * St * res E unit :=
  srv_SetUnitTargetState unitName (JobState_ToPB state) w.

Definition rr_UnscheduleUnit (unitName machID : string) (w : rpcserver * St) : rpcserver * St * res E unit :=
  srv_UnscheduleUnit unitName machID w.

Definition rpc_scheduled (u : PbScheduledUnit) : ScheduledUnit :=
  mkScheduledUnit u.(ps_Name) (Some (rpcUnitStateToJobState u.(ps_CurrentState))) u.(ps_MachineID).

Definition rr_Schedule (w : rpcserver * St) : res E (list ScheduledUnit) :=
  Ok (rpc_scheduled <$> srv_GetScheduledUnits t w.1).

Definition rr_ScheduledUnit (unitName : string) (w : rpcserver * St) : res E (option ScheduledUnit) :=
  Ok (rpc_scheduled <$> srv_GetScheduledUnit unitName w.1).

Definition rr_Unit (unitName : string) (w : rpcserver * St) : res E (option Unit) :=
  Ok (rpcUnitToJobUnit <$> srv_GetUnit unitName w.1).

Definition rr_Units (w : rpcserver * St) : res E (list Unit) :=
  match srv_GetUnits t w.1 w.2 with
  | Err err => Err err
  | Ok units => Ok (rpcUnitToJobUnit <$> units)
  end.

Definition rr_UnitState (unitName : string) (w : rpcserver * St) : res E (option UnitState) :=
  Ok (Some (rpcUnitStateToExtUnitState (srv_GetUnitState now t unitName w.1))).

Definition rr_UnitStates (w : rpcserver * St) : res E (list UnitState) :=
  match srv_GetUnitStates now t w.1 w.2 with
  | Err err => Err err
  | Ok states => Ok (rpcUnitStateToExtUnitState <$> states)
  end.

(** ** [registry/rpc/registrymux.go], while the engine is served over gRPC

    Units go through the engine, machines to etcd.  [ready] is the status of the
    connection. *)
Definition rpc_Registry (ready : bool) : Registry (rpcserver * St) E :=
  let on_etcd {A} (op : St → St * A) (w : rpcserver * St) : rpcserver * St * A := let '(s, r) := op w.2 in ((w.1, s), r) in
  {|
  r_ClearUnitHeartbeat := rr_ClearUnitHeartbeat;
  r_CreateMachineState ms ttl := on_etcd (r_CreateMachineState ms ttl);
  r_CreateUnit := rr_CreateUnit;
  r_DestroyUnit := rr_DestroyUnit;
  r_UnitHeartbeat := rr_UnitHeartbeat;
  r_Machines w := r_Machines w.2;
  r_RemoveMachineState m := on_etcd (r_RemoveMachineState m);
  r_RemoveUnitState := rr_RemoveUnitState;
  r_SaveUnitState := rr_SaveUnitState;
  r_ScheduleUnit := rr_ScheduleUnit;
  r_SetUnitTargetState := rr_SetUnitTargetState;
  r_SetMachineState ms ttl := on_etcd (r_SetMachineState ms ttl);
  r_MachineState m w := r_MachineState m w.2;
  r_UnscheduleUnit := rr_UnscheduleUnit;
  r_SetMachineMetadata m k v := on_etcd (r_SetMachineMetadata m k v);
  r_DeleteMachineMetadata m k := on_etcd (r_DeleteMachineMetadata m k);
  r_IsRegistryReady _ := ready;
  r_UseEtcdRegistry := rr_UseEtcdRegistry;
  r_Schedule := rr_Schedule;
  r_ScheduledUnit := rr_ScheduledUnit;
  r_Unit := rr_Unit;
  r_Units := rr_Units;
  r_UnitState := rr_UnitState;
  r_UnitStates := rr_UnitStates |}.

End client.

(** ** Conversions *)

Definition known_state (st : JobState) : Prop := st = JobStateInactive ∨ st = JobStateLoaded ∨ st = JobStateLaunched.
Definition known_target (st : Z) : Prop := st = TargetState_INACTIVE ∨ st = TargetState_LOADED ∨ st = TargetState_LAUNCHED.

Lemma JobState_roundtrip st : known_state st → rpcUnitStateToJobState (JobState_ToPB st) = st.
Proof. by intros [->|[->| ->]]. Qed.

Lemma TargetState_roundtrip st : known_target st → JobState_ToPB (rpcUnitStateToJobState st) = st.
Proof. by intros [->|[->| ->]]. Qed.

Lemma rpcUnitStateToJobState_known st : known_state (rpcUnitStateToJobState st).
Proof. unfold rpcUnitStateToJobState, known_state. repeat case_bool_decide; auto. Qed.

Lemma JobState_ToPB_known st : known_target (JobState_ToPB st).
Proof. unfold JobState_ToPB, known_target. repeat case_bool_decide; auto. Qed.

Lemma rpc_options_roundtrip (opts : list UnitOption) :
  (λ opt, mkUnitOption opt.(po_Section) opt.(po_Name) opt.(po_Value)) <$>
    ((λ opt, mkPbUnitOption opt.(Section_) opt.(OptName) opt.(OptValue)) <$> opts) = opts.
Proof. rewrite <- list_fmap_compose. rewrite <- (list_fmap_id opts) at 2. apply list_fmap_ext. by intros _ [] _. Qed.

Lemma pb_options_roundtrip (opts : list PbUnitOption) :
  (λ opt, mkPbUnitOption opt.(Section_) opt.(OptName) opt.(OptValue)) <$>
    ((λ opt, mkUnitOption opt.(po_Section) opt.(po_Name) opt.(po_Value)) <$> opts) = opts.
Proof. rewrite <- list_fmap_compose. rewrite <- (list_fmap_id opts) at 2. apply list_fmap_ext. by intros _ [] _. Qed.

(** A unit as the engine serves it: without a target state it is loaded. *)
Definition served (u : Unit) : Unit :=
  mkUnit u.(UName) u.(UUnit) (if decide (u.(UTargetState) = "") then JobStateLoaded else u.(UTargetState)).

Lemma rpcUnit_roundtrip u opts :
  u.(UUnit) = NewUnitFromOptions opts → u.(UTargetState) = "" ∨ known_state u.(UTargetState) →
  rpcUnitToJobUnit (Unit_ToPB u) = served u.
Proof.
  intros E Hs. unfold rpcUnitToJobUnit, Unit_ToPB, served, UnitFile_ToPB. cbn. rewrite E. cbn [Options NewUnitFromOptions].
  rewrite rpc_options_roundtrip. f_equal. destruct Hs as [->|Hs]; [done|]. rewrite JobState_roundtrip by done.
  rewrite decide_False; [done|]. by destruct Hs as [->|[->| ->]].
Qed.

Lemma pbUnit_roundtrip u : known_target u.(pu_DesiredState) → Unit_ToPB (rpcUnitToJobUnit u) = u.
Proof.
  intros Hs. unfold rpcUnitToJobUnit, Unit_ToPB, UnitFile_ToPB. cbn [UName UUnit UTargetState Options NewUnitFromOptions].
  rewrite pb_options_roundtrip, TargetState_roundtrip by done. by destruct u.
Qed.

Lemma UnitState_roundtrip us : rpcUnitStateToExtUnitState (UnitState_ToPB us) = us.
Proof. by destruct us. Qed.
