(* ===== verification/Protobuf.v ===== *)
(** * [protobuf/fleet.pb.go]: the messages on the wire

    The messages of [fleet.proto], with the [Size], the [MarshalTo] and the cases of the
    [Unmarshal] of each, as instances of [Message].  The wrappers of [ProtoWire] are
    what the generated functions repeat. *)

From Stdlib Require Import ZArith Lia.
From stdpp Require Import base list strings.
From S2P Require Import Prelude GoStrings GoPath Pkg UnitFile Job Machine Etcd EtcdRegistry Registry RpcRegistry ProtoWire.
Local Open Scope Z_scope.
Local Open Scope wire_scope.

(** ** Messages of strings and integers *)

Record PbHealthCheckRequest := mkPbHealthCheckRequest { hc_Service : string }.

Definition HealthCheckRequest_Size (m : PbHealthCheckRequest) : Z :=
  size_string m.(hc_Service).

Definition HealthCheckRequest_MarshalTo (m : PbHealthCheckRequest) : string :=
  out_string 10 m.(hc_Service).

Definition HealthCheckRequest_fields (k : Z) : option (handler PbHealthCheckRequest) :=
  match k with
  | 1 => Some (string_field "Service" (λ v _, mkPbHealthCheckRequest v))
  | _ => None
  end.

#[export] Instance HealthCheckRequest_message : Message PbHealthCheckRequest := {|
  msg_name := "HealthCheckRequest"; msg_zero := mkPbHealthCheckRequest ""; Size := HealthCheckRequest_Size; MarshalTo := HealthCheckRequest_MarshalTo; msg_fields := HealthCheckRequest_fields;
  well_formed m := True
|}.

#[export] Instance HealthCheckRequest_laws : MessageLaws PbHealthCheckRequest.
Proof. simple_message. Qed.

Record PbHealthCheckResponse := mkPbHealthCheckResponse { hc_Status : Z }.

Definition HealthCheckResponse_Size (m : PbHealthCheckResponse) : Z :=
  size_int m.(hc_Status).

Definition HealthCheckResponse_MarshalTo (m : PbHealthCheckResponse) : string :=
  out_int 8 m.(hc_Status).

Definition HealthCheckResponse_fields (k : Z) : option (handler PbHealthCheckResponse) :=
  match k with
  | 1 => Some (int_field "Status" (λ v _, mkPbHealthCheckResponse v))
  | _ => None
  end.

#[export] Instance HealthCheckResponse_message : Message PbHealthCheckResponse := {|
  msg_name := "HealthCheckResponse"; msg_zero := mkPbHealthCheckResponse 0; Size := HealthCheckResponse_Size; MarshalTo := HealthCheckResponse_MarshalTo; msg_fields := HealthCheckResponse_fields;
  well_formed m := int32 m.(hc_Status)
|}.

#[export] Instance HealthCheckResponse_laws : MessageLaws PbHealthCheckResponse.
Proof. simple_message. Qed.

Record PbMachineProperties := mkPbMachineProperties { mp_Id : string }.

Definition MachineProperties_Size (m : PbMachineProperties) : Z :=
  size_string m.(mp_Id).

Definition MachineProperties_MarshalTo (m : PbMachineProperties) : string :=
  out_string 10 m.(mp_Id).

Definition MachineProperties_fields (k : Z) : option (handler PbMachineProperties) :=
  match k with
  | 1 => Some (string_field "Id" (λ v _, mkPbMachineProperties v))
  | _ => None
  end.

#[export] Instance MachineProperties_message : Message PbMachineProperties := {|
  msg_name := "MachineProperties"; msg_zero := mkPbMachineProperties ""; Size := MachineProperties_Size; MarshalTo := MachineProperties_MarshalTo; msg_fields := MachineProperties_fields;
  well_formed m := True
|}.

#[export] Instance MachineProperties_laws : MessageLaws PbMachineProperties.
Proof. simple_message. Qed.

Record PbUnitStateFilter := mkPbUnitStateFilter { sf_Name : string; sf_Hash : string; sf_LoadState : string; sf_ActiveState : string; sf_SubState : string; sf_MachineID : string }.

Definition UnitStateFilter_Size (m : PbUnitStateFilter) : Z :=
  size_string m.(sf_Name) + size_string m.(sf_Hash) + size_string m.(sf_LoadState) + size_string m.(sf_ActiveState) + size_string m.(sf_SubState) + size_string m.(sf_MachineID).

Definition UnitStateFilter_MarshalTo (m : PbUnitStateFilter) : string :=
  out_string 10 m.(sf_Name) +:+ out_string 18 m.(sf_Hash) +:+ out_string 26 m.(sf_LoadState) +:+ out_string 34 m.(sf_ActiveState) +:+ out_string 42 m.(sf_SubState) +:+ out_string 50 m.(sf_MachineID).

Definition UnitStateFilter_fields (k : Z) : option (handler PbUnitStateFilter) :=
  match k with
  | 1 => Some (string_field "Name" (λ v m, mkPbUnitStateFilter v m.(sf_Hash) m.(sf_LoadState) m.(sf_ActiveState) m.(sf_SubState) m.(sf_MachineID)))
  | 2 => Some (string_field "Hash" (λ v m, mkPbUnitStateFilter m.(sf_Name) v m.(sf_LoadState) m.(sf_ActiveState) m.(sf_SubState) m.(sf_MachineID)))
  | 3 => Some (string_field "LoadState" (λ v m, mkPbUnitStateFilter m.(sf_Name) m.(sf_Hash) v m.(sf_ActiveState) m.(sf_SubState) m.(sf_MachineID)))
  | 4 => Some (string_field "ActiveState" (λ v m, mkPbUnitStateFilter m.(sf_Name) m.(sf_Hash) m.(sf_LoadState) v m.(sf_SubState) m.(sf_MachineID)))
  | 5 => Some (string_field "SubState" (λ v m, mkPbUnitStateFilter m.(sf_Name) m.(sf_Hash) m.(sf_LoadState) m.(sf_ActiveState) v m.(sf_MachineID)))
  | 6 => Some (string_field "MachineID" (λ v m, mkPbUnitStateFilter m.(sf_Name) m.(sf_Hash) m.(sf_LoadState) m.(sf_ActiveState) m.(sf_SubState) v))
  | _ => None
  end.

#[export] Instance UnitStateFilter_message : Message PbUnitStateFilter := {|
  msg_name := "UnitStateFilter"; msg_zero := mkPbUnitStateFilter "" "" "" "" "" ""; Size := UnitStateFilter_Size; MarshalTo := UnitStateFilter_MarshalTo; msg_fields := UnitStateFilter_fields;
  well_formed m := True
|}.

#[export] Instance UnitStateFilter_laws : MessageLaws PbUnitStateFilter.
Proof. simple_message. Qed.

Record PbUnitFilter := mkPbUnitFilter { uf_MachineID : string }.

Definition UnitFilter_Size (m : PbUnitFilter) : Z :=
  size_string m.(uf_MachineID).

Definition UnitFilter_MarshalTo (m : PbUnitFilter) : string :=
  out_string 10 m.(uf_MachineID).

Definition UnitFilter_fields (k : Z) : option (handler PbUnitFilter) :=
  match k with
  | 1 => Some (string_field "MachineID" (λ v _, mkPbUnitFilter v))
  | _ => None
  end.

#[export] Instance UnitFilter_message : Message PbUnitFilter := {|
  msg_name := "UnitFilter"; msg_zero := mkPbUnitFilter ""; Size := UnitFilter_Size; MarshalTo := UnitFilter_MarshalTo; msg_fields := UnitFilter_fields;
  well_formed m := True
|}.

#[export] Instance UnitFilter_laws : MessageLaws PbUnitFilter.
Proof. simple_message. Qed.

Record PbScheduleUnitRequest := mkPbScheduleUnitRequest { sr_Name : string; sr_MachineID : string }.

Definition ScheduleUnitRequest_Size (m : PbScheduleUnitRequest) : Z :=
  size_string m.(sr_Name) + size_string m.(sr_MachineID).

Definition ScheduleUnitRequest_MarshalTo (m : PbScheduleUnitRequest) : string :=
  out_string 10 m.(sr_Name) +:+ out_string 18 m.(sr_MachineID).

Definition ScheduleUnitRequest_fields (k : Z) : option (handler PbScheduleUnitRequest) :=
  match k with
  | 1 => Some (string_field "Name" (λ v m, mkPbScheduleUnitRequest v m.(sr_MachineID)))
  | 2 => Some (string_field "MachineID" (λ v m, mkPbScheduleUnitRequest m.(sr_Name) v))
  | _ => None
  end.

#[export] Instance ScheduleUnitRequest_message : Message PbScheduleUnitRequest := {|
  msg_name := "ScheduleUnitRequest"; msg_zero := mkPbScheduleUnitRequest "" ""; Size := ScheduleUnitRequest_Size; MarshalTo := ScheduleUnitRequest_MarshalTo; msg_fields := ScheduleUnitRequest_fields;
  well_formed m := True
|}.

#[export] Instance ScheduleUnitRequest_laws : MessageLaws PbScheduleUnitRequest.
Proof. simple_message. Qed.

Record PbUnscheduleUnitRequest := mkPbUnscheduleUnitRequest { ur_Name : string; ur_MachineID : string }.

Definition UnscheduleUnitRequest_Size (m : PbUnscheduleUnitRequest) : Z :=
  size_string m.(ur_Name) + size_string m.(ur_MachineID).

Definition UnscheduleUnitRequest_MarshalTo (m : PbUnscheduleUnitRequest) : string :=
  out_string 10 m.(ur_Name) +:+ out_string 18 m.(ur_MachineID).

Definition UnscheduleUnitRequest_fields (k : Z) : option (handler PbUnscheduleUnitRequest) :=
  match k with
  | 1 => Some (string_field "Name" (λ v m, mkPbUnscheduleUnitRequest v m.(ur_MachineID)))
  | 2 => Some (string_field "MachineID" (λ v m, mkPbUnscheduleUnitRequest m.(ur_Name) v))
  | _ => None
  end.

#[export] Instance UnscheduleUnitRequest_message : Message PbUnscheduleUnitRequest := {|
  msg_name := "UnscheduleUnitRequest"; msg_zero := mkPbUnscheduleUnitRequest "" ""; Size := UnscheduleUnitRequest_Size; MarshalTo := UnscheduleUnitRequest_MarshalTo; msg_fields := UnscheduleUnitRequest_fields;
  well_formed m := True
|}.

#[export] Instance UnscheduleUnitRequest_laws : MessageLaws PbUnscheduleUnitRequest.
Proof. simple_message. Qed.

Record PbHeartbeat := mkPbHeartbeat { hb_Name : string; hb_MachineID : string; hb_TTL : Z }.

Definition Heartbeat_Size (m : PbHeartbeat) : Z :=
  size_string m.(hb_Name) + size_string m.(hb_MachineID) + size_int m.(hb_TTL).

Definition Heartbeat_MarshalTo (m : PbHeartbeat) : string :=
  out_string 10 m.(hb_Name) +:+ out_string 18 m.(hb_MachineID) +:+ out_int 24 m.(hb_TTL).

Definition Heartbeat_fields (k : Z) : option (handler PbHeartbeat) :=
  match k with
  | 1 => Some (string_field "Name" (λ v m, mkPbHeartbeat v m.(hb_MachineID) m.(hb_TTL)))
  | 2 => Some (string_field "MachineID" (λ v m, mkPbHeartbeat m.(hb_Name) v m.(hb_TTL)))
  | 3 => Some (int_field "TTL" (λ v m, mkPbHeartbeat m.(hb_Name) m.(hb_MachineID) v))
  | _ => None
  end.

#[export] Instance Heartbeat_message : Message PbHeartbeat := {|
  msg_name := "Heartbeat"; msg_zero := mkPbHeartbeat "" "" 0; Size := Heartbeat_Size; MarshalTo := Heartbeat_MarshalTo; msg_fields := Heartbeat_fields;
  well_formed m := int32 m.(hb_TTL)
|}.

#[export] Instance Heartbeat_laws : MessageLaws PbHeartbeat.
Proof. simple_message. Qed.

Definition UnitState_Size (m : PbUnitState) : Z :=
  size_string m.(us_Name) + size_string m.(us_Hash) + size_string m.(us_LoadState) + size_string m.(us_ActiveState) + size_string m.(us_SubState) + size_string m.(us_MachineID).

Definition UnitState_MarshalTo (m : PbUnitState) : string :=
  out_string 10 m.(us_Name) +:+ out_string 18 m.(us_Hash) +:+ out_string 26 m.(us_LoadState) +:+ out_string 34 m.(us_ActiveState) +:+ out_string 42 m.(us_SubState) +:+ out_string 50 m.(us_MachineID).

Definition UnitState_fields (k : Z) : option (handler PbUnitState) :=
  match k with
  | 1 => Some (string_field "Name" (λ v m, mkPbUnitState v m.(us_Hash) m.(us_LoadState) m.(us_ActiveState) m.(us_SubState) m.(us_MachineID)))
  | 2 => Some (string_field "Hash" (λ v m, mkPbUnitState m.(us_Name) v m.(us_LoadState) m.(us_ActiveState) m.(us_SubState) m.(us_MachineID)))
  | 3 => Some (string_field "LoadState" (λ v m, mkPbUnitState m.(us_Name) m.(us_Hash) v m.(us_ActiveState) m.(us_SubState) m.(us_MachineID)))
  | 4 => Some (string_field "ActiveState" (λ v m, mkPbUnitState m.(us_Name) m.(us_Hash) m.(us_LoadState) v m.(us_SubState) m.(us_MachineID)))
  | 5 => Some (string_field "SubState" (λ v m, mkPbUnitState m.(us_Name) m.(us_Hash) m.(us_LoadState) m.(us_ActiveState) v m.(us_MachineID)))
  | 6 => Some (string_field "MachineID" (λ v m, mkPbUnitState m.(us_Name) m.(us_Hash) m.(us_LoadState) m.(us_ActiveState) m.(us_SubState) v))
  | _ => None
  end.

#[export] Instance UnitState_message : Message PbUnitState := {|
  msg_name := "UnitState"; msg_zero := mkPbUnitState "" "" "" "" "" ""; Size := UnitState_Size; MarshalTo := UnitState_MarshalTo; msg_fields := UnitState_fields;
  well_formed m := True
|}.

#[export] Instance UnitState_laws : MessageLaws PbUnitState.
Proof. simple_message. Qed.

Definition ScheduledUnit_Size (m : PbScheduledUnit) : Z :=
  size_string m.(ps_Name) + size_int m.(ps_CurrentState) + size_string m.(ps_MachineID).

Definition ScheduledUnit_MarshalTo (m : PbScheduledUnit) : string :=
  out_string 10 m.(ps_Name) +:+ out_int 16 m.(ps_CurrentState) +:+ out_string 26 m.(ps_MachineID).

Definition ScheduledUnit_fields (k : Z) : option (handler PbScheduledUnit) :=
  match k with
  | 1 => Some (string_field "Name" (λ v m, mkPbScheduledUnit v m.(ps_CurrentState) m.(ps_MachineID)))
  | 2 => Some (int_field "CurrentState" (λ v m, mkPbScheduledUnit m.(ps_Name) v m.(ps_MachineID)))
  | 3 => Some (string_field "MachineID" (λ v m, mkPbScheduledUnit m.(ps_Name) m.(ps_CurrentState) v))
  | _ => None
  end.

#[export] Instance ScheduledUnit_message : Message PbScheduledUnit := {|
  msg_name := "ScheduledUnit"; msg_zero := mkPbScheduledUnit "" 0 ""; Size := ScheduledUnit_Size; MarshalTo := ScheduledUnit_MarshalTo; msg_fields := ScheduledUnit_fields;
  well_formed m := int32 m.(ps_CurrentState)
|}.

#[export] Instance ScheduledUnit_laws : MessageLaws PbScheduledUnit.
Proof. simple_message. Qed.

Record PbUnitName := mkPbUnitName { un_Name : string }.

Definition UnitName_Size (m : PbUnitName) : Z :=
  size_string m.(un_Name).

Definition UnitName_MarshalTo (m : PbUnitName) : string :=
  out_string 10 m.(un_Name).

Definition UnitName_fields (k : Z) : option (handler PbUnitName) :=
  match k with
  | 1 => Some (string_field "Name" (λ v _, mkPbUnitName v))
  | _ => None
  end.

#[export] Instance UnitName_message : Message PbUnitName := {|
  msg_name := "UnitName"; msg_zero := mkPbUnitName ""; Size := UnitName_Size; MarshalTo := UnitName_MarshalTo; msg_fields := UnitName_fields;
  well_formed m := True
|}.

#[export] Instance UnitName_laws : MessageLaws PbUnitName.
Proof. simple_message. Qed.

Definition UnitOption_Size (m : PbUnitOption) : Z :=
  size_string m.(po_Section) + size_string m.(po_Name) + size_string m.(po_Value).

Definition UnitOption_MarshalTo (m : PbUnitOption) : string :=
  out_string 10 m.(po_Section) +:+ out_string 18 m.(po_Name) +:+ out_string 26 m.(po_Value).

Definition UnitOption_fields (k : Z) : option (handler PbUnitOption) :=
  match k with
  | 1 => Some (string_field "Section" (λ v m, mkPbUnitOption v m.(po_Name) m.(po_Value)))
  | 2 => Some (string_field "Name" (λ v m, mkPbUnitOption m.(po_Section) v m.(po_Value)))
  | 3 => Some (string_field "Value" (λ v m, mkPbUnitOption m.(po_Section) m.(po_Name) v))
  | _ => None
  end.

#[export] Instance UnitOption_message : Message PbUnitOption := {|
  msg_name := "UnitOption"; msg_zero := mkPbUnitOption "" "" ""; Size := UnitOption_Size; MarshalTo := UnitOption_MarshalTo; msg_fields := UnitOption_fields;
  well_formed m := True
|}.

#[export] Instance UnitOption_laws : MessageLaws PbUnitOption.
Proof. simple_message. Qed.

(** ** Messages without fields *)

Record PbGenericReply := mkPbGenericReply { }.

Record PbNotFound := mkPbNotFound { }.

Definition GenericReply_Size (m : PbGenericReply) : Z := 0.

Definition GenericReply_MarshalTo (m : PbGenericReply) : string := "".

Definition GenericReply_fields (k : Z) : option (handler PbGenericReply) := None.

Definition NotFound_Size (m : PbNotFound) : Z := 0.

Definition NotFound_MarshalTo (m : PbNotFound) : string := "".

Definition NotFound_fields (k : Z) : option (handler PbNotFound) := None.

#[export] Instance GenericReply_message : Message PbGenericReply := {|
  msg_name := "GenericReply"; msg_zero := mkPbGenericReply; Size := GenericReply_Size;
  MarshalTo := GenericReply_MarshalTo; msg_fields := GenericReply_fields; well_formed m := True
|}.

#[export] Instance NotFound_message : Message PbNotFound := {|
  msg_name := "NotFound"; msg_zero := mkPbNotFound; Size := NotFound_Size;
  MarshalTo := NotFound_MarshalTo; msg_fields := NotFound_fields; well_formed m := True
|}.

#[export] Instance GenericReply_laws : MessageLaws PbGenericReply.
Proof. split; [done| |done]. intros [] _ _. apply reads_nil. Qed.

#[export] Instance NotFound_laws : MessageLaws PbNotFound.
Proof. split; [done| |done]. intros [] _ _. apply reads_nil. Qed.

(** ** Messages that repeat a field *)

Record PbUpdatedState := mkPbUpdatedState { up_UnitIds : list string }.

Definition UpdatedState_Size (m : PbUpdatedState) : Z :=
  foldr (λ s n, size_bytes (slen s) + n) 0 m.(up_UnitIds).

Definition UpdatedState_MarshalTo (m : PbUpdatedState) : string := str_concat (out_bytes 10 <$> m.(up_UnitIds)).

Definition UpdatedState_fields (k : Z) : option (handler PbUpdatedState) :=
  match k with
  | 1 => Some (string_field "UnitIds" (λ v m, mkPbUpdatedState (m.(up_UnitIds) ++ [v])))
  | _ => None
  end.

#[export] Instance UpdatedState_message : Message PbUpdatedState := {|
  msg_name := "UpdatedState"; msg_zero := mkPbUpdatedState []; Size := UpdatedState_Size;
  MarshalTo := UpdatedState_MarshalTo; msg_fields := UpdatedState_fields; well_formed m := True
|}.

#[export] Instance UpdatedState_laws : MessageLaws PbUpdatedState.
Proof.
  split.
  - intros m. apply slen_concat. intros x. apply slen_out_message.
  - intros [l] _ _. refine (reads_repeated _ _ _ mkPbUpdatedState l _ []). intros x l0 _.
    eapply reads_eq; [eapply reads_bytes; field_side|done].
  - fields_law.
Qed.

(** The bytes and the size of a repeated message, and the case that appends one. *)
Definition out_repeated `{Message A} (tag : Z) (l : list A) : string :=
  str_concat ((λ x, out_message tag (Size x) (MarshalTo x)) <$> l).

Definition size_repeated `{Message A} (l : list A) : Z := foldr (λ x n, size_bytes (Size x) + n) 0 l.

Definition append_message {M A} `{Message A} (add : A → M → M) (s : string) (m : M) : wres M :=
  let! x := Unmarshal s msg_zero in WOk (add x m).

Section repeated.
Context {M : Type} `{MessageLaws A}.

Lemma slen_out_repeated tag (l : list A) : slen (out_repeated tag l) < MaxLen → slen (out_repeated tag l) = size_repeated l.
Proof.
  apply (slen_concat _ (λ x, size_bytes (Size x))). intros x Hx. by destruct (slen_out_Size tag x Hx) as [_ ->].
Qed.

Lemma append_message_ok (add : A → M → M) s m : slen s < MaxLen → read_ok s (append_message add s m).
Proof. intros Hs. by apply wbind_ok, Unmarshal_ok. Qed.

Lemma reads_out_repeated name (fields : Z → option (handler M)) fname (C : list A → M) add l :
  fields 1 = Some (message_field fname (append_message add)) → (∀ x l0, add x (C l0) = C (l0 ++ [x])) →
  Forall well_formed l → slen (out_repeated 10 l) < MaxLen → reads name fields (out_repeated 10 l) (C []) (C l).
Proof.
  intros Hf Hadd Hw Hlen. refine (reads_repeated _ _ _ C l _ []). intros x l0 Hx.
  apply (lt_concat _ _ _ Hx) in Hlen.
  eapply (reads_embedded name fields 10 1); try done.
  intros Hl. unfold append_message. rewrite Unmarshal_MarshalTo; [cbn; by rewrite Hadd| |done].
  rewrite Forall_forall in Hw. by apply Hw.
Qed.
End repeated.

(** A law of a message that repeats one message. *)
Ltac repeated_message C :=
  split;
  [ let m := fresh "m" in intros m; exact (slen_out_repeated 10 _)
  | let l := fresh "l" in let Hw := fresh "Hw" in let Hl := fresh "Hl" in
    intros [l] Hw Hl; eapply (reads_out_repeated msg_name msg_fields _ C); [reflexivity|reflexivity|exact Hw|exact Hl]
  | fields_law; apply append_message_ok ].

Record PbUnitFile := mkPbUnitFile { fi_UnitOptions : list PbUnitOption }.

Definition UnitFile_Size (m : PbUnitFile) : Z := size_repeated m.(fi_UnitOptions).

Definition UnitFile_MarshalTo (m : PbUnitFile) : string := out_repeated 10 m.(fi_UnitOptions).

Definition UnitFile_fields (k : Z) : option (handler PbUnitFile) :=
  match k with
  | 1 => Some (message_field "UnitOptions" (append_message (λ x m, mkPbUnitFile (m.(fi_UnitOptions) ++ [x]))))
  | _ => None
  end.

#[export] Instance UnitFile_message : Message PbUnitFile := {|
  msg_name := "UnitFile"; msg_zero := mkPbUnitFile []; Size := UnitFile_Size; MarshalTo := UnitFile_MarshalTo; msg_fields := UnitFile_fields;
  well_formed m := Forall well_formed m.(fi_UnitOptions)
|}.

#[export] Instance UnitFile_laws : MessageLaws PbUnitFile.
Proof. repeated_message mkPbUnitFile. Qed.

Record PbUnitStates := mkPbUnitStates { ss_UnitStates : list PbUnitState }.

Definition UnitStates_Size (m : PbUnitStates) : Z := size_repeated m.(ss_UnitStates).

Definition UnitStates_MarshalTo (m : PbUnitStates) : string := out_repeated 10 m.(ss_UnitStates).

Definition UnitStates_fields (k : Z) : option (handler PbUnitStates) :=
  match k with
  | 1 => Some (message_field "UnitStates" (append_message (λ x m, mkPbUnitStates (m.(ss_UnitStates) ++ [x]))))
  | _ => None
  end.

#[export] Instance UnitStates_message : Message PbUnitStates := {|
  msg_name := "UnitStates"; msg_zero := mkPbUnitStates []; Size := UnitStates_Size; MarshalTo := UnitStates_MarshalTo; msg_fields := UnitStates_fields;
  well_formed m := Forall well_formed m.(ss_UnitStates)
|}.

#[export] Instance UnitStates_laws : MessageLaws PbUnitStates.
Proof. repeated_message mkPbUnitStates. Qed.

Record PbScheduledUnits := mkPbScheduledUnits { sc_Units : list PbScheduledUnit }.

Definition ScheduledUnits_Size (m : PbScheduledUnits) : Z := size_repeated m.(sc_Units).

Definition ScheduledUnits_MarshalTo (m : PbScheduledUnits) : string := out_repeated 10 m.(sc_Units).

Definition ScheduledUnits_fields (k : Z) : option (handler PbScheduledUnits) :=
  match k with
  | 1 => Some (message_field "Units" (append_message (λ x m, mkPbScheduledUnits (m.(sc_Units) ++ [x]))))
  | _ => None
  end.

#[export] Instance ScheduledUnits_message : Message PbScheduledUnits := {|
  msg_name := "ScheduledUnits"; msg_zero := mkPbScheduledUnits []; Size := ScheduledUnits_Size; MarshalTo := ScheduledUnits_MarshalTo; msg_fields := ScheduledUnits_fields;
  well_formed m := Forall well_formed m.(sc_Units)
|}.

#[export] Instance ScheduledUnits_laws : MessageLaws PbScheduledUnits.
Proof. repeated_message mkPbScheduledUnits. Qed.

(** ** Messages with an embedded message *)

(** The embedded [UnitFile] of a [Unit] is its list of options; reading adds to it. *)
Definition Unit_Size (m : PbUnit) : Z :=
  size_string m.(pu_Name) + size_bytes (Size (mkPbUnitFile m.(pu_Options))) + size_int m.(pu_DesiredState).

Definition Unit_MarshalTo (m : PbUnit) : string :=
  let file := mkPbUnitFile m.(pu_Options) in
  out_string 10 m.(pu_Name) +:+ out_message 18 (Size file) (MarshalTo file) +:+ out_int 24 m.(pu_DesiredState).

Definition Unit_fields (k : Z) : option (handler PbUnit) :=
  match k with
  | 1 => Some (string_field "Name" (λ v m, mkPbUnit v m.(pu_Options) m.(pu_DesiredState)))
  | 2 => Some (message_field "Unit" (λ s m,
           let! file := Unmarshal s (mkPbUnitFile m.(pu_Options)) in
           WOk (mkPbUnit m.(pu_Name) file.(fi_UnitOptions) m.(pu_DesiredState))))
  | 3 => Some (int_field "DesiredState" (λ v m, mkPbUnit m.(pu_Name) m.(pu_Options) v))
  | _ => None
  end.

#[export] Instance Unit_message : Message PbUnit := {|
  msg_name := "Unit"; msg_zero := mkPbUnit "" [] 0; Size := Unit_Size; MarshalTo := Unit_MarshalTo;
  msg_fields := Unit_fields; well_formed m := int32 m.(pu_DesiredState)
|}.

#[export] Instance Unit_laws : MessageLaws PbUnit.
Proof.
  split.
  - intros m Hlen. cbn [Size MarshalTo Unit_message] in *. unfold Unit_MarshalTo, Unit_Size in *. cbn zeta in *.
    split_len Hlen. rewrite !slen_app, slen_out_string, slen_out_int by done.
    destruct (slen_out_Size 18 (mkPbUnitFile m.(pu_Options))) as [_ ->]; [done|]. lia.
  - intros [name opts st] Hw Hlen. cbn [MarshalTo Unit_message msg_name msg_fields msg_zero well_formed pu_DesiredState] in *.
    unfold Unit_MarshalTo in *. cbn zeta in *. cbn [pu_Name pu_Options pu_DesiredState] in *. split_len Hlen.
    eapply reads_app; [read_one|]. eapply reads_app; [eapply reads_embedded; [field_side..|done|]|].
    + intros Hl. cbn [pu_Options]. change (mkPbUnitFile []) with (msg_zero : PbUnitFile).
      rewrite Unmarshal_MarshalTo; [reflexivity|by apply Forall_forall|done].
    + eapply reads_eq; [read_one|reflexivity].
  - fields_law. intros s m Hs. by apply wbind_ok, Unmarshal_ok.
Qed.

Record PbUnits := mkPbUnits { pus_Units : list PbUnit }.

Definition Units_Size (m : PbUnits) : Z := size_repeated m.(pus_Units).

Definition Units_MarshalTo (m : PbUnits) : string := out_repeated 10 m.(pus_Units).

Definition Units_fields (k : Z) : option (handler PbUnits) :=
  match k with
  | 1 => Some (message_field "Units" (append_message (λ x m, mkPbUnits (m.(pus_Units) ++ [x]))))
  | _ => None
  end.

#[export] Instance Units_message : Message PbUnits := {|
  msg_name := "Units"; msg_zero := mkPbUnits []; Size := Units_Size; MarshalTo := Units_MarshalTo; msg_fields := Units_fields;
  well_formed m := Forall well_formed m.(pus_Units)
|}.

#[export] Instance Units_laws : MessageLaws PbUnits.
Proof. repeated_message mkPbUnits. Qed.

(** The state of a [SaveUnitStateRequest] is a pointer, which may be nil. *)
Record PbSaveUnitStateRequest := mkPbSaveUnitStateRequest {
  sv_Name : string; sv_State : option PbUnitState; sv_TTL : Z
}.

Definition out_pointer `{Message A} (tag : Z) (o : option A) : string :=
  match o with Some x => out_message tag (Size x) (MarshalTo x) | None => "" end.

Definition size_pointer `{Message A} (o : option A) : Z :=
  match o with Some x => size_bytes (Size x) | None => 0 end.

Definition SaveUnitStateRequest_Size (m : PbSaveUnitStateRequest) : Z :=
  size_string m.(sv_Name) + size_pointer m.(sv_State) + size_int m.(sv_TTL).

Definition SaveUnitStateRequest_MarshalTo (m : PbSaveUnitStateRequest) : string :=
  out_string 10 m.(sv_Name) +:+ out_pointer 18 m.(sv_State) +:+ out_int 24 m.(sv_TTL).

Definition SaveUnitStateRequest_fields (k : Z) : option (handler PbSaveUnitStateRequest) :=
  match k with
  | 1 => Some (string_field "Name" (λ v m, mkPbSaveUnitStateRequest v m.(sv_State) m.(sv_TTL)))
  | 2 => Some (message_field "State" (λ s m,
           let! state := Unmarshal s (default msg_zero m.(sv_State)) in
           WOk (mkPbSaveUnitStateRequest m.(sv_Name) (Some state) m.(sv_TTL))))
  | 3 => Some (int_field "TTL" (λ v m, mkPbSaveUnitStateRequest m.(sv_Name) m.(sv_State) v))
  | _ => None
  end.

Lemma slen_out_pointer `{MessageLaws A} tag (o : option A) :
  slen (out_pointer tag o) < MaxLen → slen (out_pointer tag o) = size_pointer o.
Proof. destruct o as [x|]; [|done]. cbn. intros Hl. by destruct (slen_out_Size tag x Hl) as [_ ->]. Qed.

#[export] Instance SaveUnitStateRequest_message : Message PbSaveUnitStateRequest := {|
  msg_name := "SaveUnitStateRequest"; msg_zero := mkPbSaveUnitStateRequest "" None 0; Size := SaveUnitStateRequest_Size;
  MarshalTo := SaveUnitStateRequest_MarshalTo; msg_fields := SaveUnitStateRequest_fields; well_formed m := int32 m.(sv_TTL)
|}.

#[export] Instance SaveUnitStateRequest_laws : MessageLaws PbSaveUnitStateRequest.
Proof.
  split.
  - intros m Hlen. cbn [Size MarshalTo SaveUnitStateRequest_message] in *.
    unfold SaveUnitStateRequest_MarshalTo, SaveUnitStateRequest_Size in *.
    split_len Hlen. rewrite !slen_app, slen_out_string, slen_out_pointer, slen_out_int by done. lia.
  - intros [name state ttl] Hw Hlen. cbn in Hw.
    cbn [MarshalTo SaveUnitStateRequest_message msg_name msg_fields msg_zero] in *.
    unfold SaveUnitStateRequest_MarshalTo in *. cbn [sv_Name sv_State sv_TTL] in *. split_len Hlen.
    eapply reads_app; [read_one|]. destruct state as [state|]; cbn [out_pointer] in *.
    + eapply reads_app; [eapply reads_embedded; [field_side..|done|]|].
      * intros Hl. cbn [sv_State default]. by rewrite Unmarshal_MarshalTo.
      * eapply reads_eq; [read_one|reflexivity].
    + rewrite str_app_nil_l. eapply reads_eq; [read_one|reflexivity].
  - fields_law. intros s m Hs. by apply wbind_ok, Unmarshal_ok.
Qed.

(** ** The [oneof] messages

    The interface of a [oneof] is nil or holds a pointer to a wrapper, whose pointer
    may be nil in turn: then nothing is written. *)

Inductive isMaybe (A : Type) := Maybe_Unit (Unit : option A) | Maybe_Notfound (Notfound : option PbNotFound).
Arguments Maybe_Unit {A} Unit.
Arguments Maybe_Notfound {A} Notfound.

Record PbMaybe (A : Type) := mkPbMaybe { mb_Has : option (isMaybe A) }.
Arguments mkPbMaybe {A} mb_Has.
Arguments mb_Has {A} p.

Section maybe.
Context `{MessageLaws A} (name : string).

Definition Maybe_Size (m : PbMaybe A) : Z :=
  match m.(mb_Has) with
  | None => 0
  | Some (Maybe_Unit u) => size_pointer u
  | Some (Maybe_Notfound n) => size_pointer n
  end.

Definition Maybe_MarshalTo (m : PbMaybe A) : string :=
  match m.(mb_Has) with
  | None => ""
  | Some (Maybe_Unit u) => out_pointer 10 u
  | Some (Maybe_Notfound n) => out_pointer 18 n
  end.

Definition Maybe_fields (k : Z) : option (handler (PbMaybe A)) :=
  match k with
  | 1 => Some (message_field "Unit" (append_message (λ u _, mkPbMaybe (Some (Maybe_Unit (Some u))))))
  | 2 => Some (message_field "Notfound" (append_message (λ n _, mkPbMaybe (Some (Maybe_Notfound (Some n))))))
  | _ => None
  end.

Definition Maybe_well_formed (m : PbMaybe A) : Prop :=
  match m.(mb_Has) with
  | None => True
  | Some (Maybe_Unit u) => match u with Some u => well_formed u | None => False end
  | Some (Maybe_Notfound n) => n ≠ None
  end.

Definition Maybe_message : Message (PbMaybe A) := {|
  msg_name := name; msg_zero := mkPbMaybe None; Size := Maybe_Size; MarshalTo := Maybe_MarshalTo;
  msg_fields := Maybe_fields; well_formed := Maybe_well_formed
|}.

Lemma Maybe_laws : @MessageLaws (PbMaybe A) Maybe_message.
Proof.
  split.
  - intros [[[u|n]|]]; cbn; [apply slen_out_pointer..|done].
  - intros [[[[u|]|[n|]]|]] Hw Hlen; cbn in Hw; try done; [..|apply reads_nil].
    + eapply (reads_embedded _ _ 10 _ _ _ u); [field_side..|done|]. intros Hl. unfold append_message.
      by rewrite Unmarshal_MarshalTo.
    + eapply (reads_embedded _ _ 18 _ _ _ n); [field_side..|done|]. intros Hl. unfold append_message.
      by rewrite Unmarshal_MarshalTo.
  - fields_law; apply append_message_ok.
Qed.
End maybe.

Definition PbMaybeScheduledUnit : Type := PbMaybe PbScheduledUnit.
Definition PbMaybeUnit : Type := PbMaybe PbUnit.

#[export] Instance MaybeScheduledUnit_message : Message PbMaybeScheduledUnit := Maybe_message "MaybeScheduledUnit".
#[export] Instance MaybeUnit_message : Message PbMaybeUnit := Maybe_message "MaybeUnit".

#[export] Instance MaybeScheduledUnit_laws : MessageLaws PbMaybeScheduledUnit := Maybe_laws _.
#[export] Instance MaybeUnit_laws : MessageLaws PbMaybeUnit := Maybe_laws _.

(** ** What holds of every message *)

Section laws.
Context `{MessageLaws M}.

(** C17: every well-formed message fits exactly into the buffer of its size, and what was
    written is read back as the same message. *)
Theorem proto_roundtrip (m : M) :
  well_formed m → slen (MarshalTo m) < MaxLen →
  ∃ d, Marshal m = WOk d ∧ slen d = Size m ∧ Unmarshal d msg_zero = WOk m.
Proof.
  intros Hw Hlen. exists (MarshalTo m). pose proof (Size_length m Hlen) as Hs. split; [|split].
  - unfold Marshal. rewrite <- Hs, Z.ltb_irrefl. done.
  - done.
  - by apply Unmarshal_MarshalTo.
Qed.

(** C19: reading ends on any bytes, into a message that may have fields already, and only
    ten bytes or more can make it panic. *)
Theorem Unmarshal_ends d (m : M) :
  slen d < MaxLen → Unmarshal d m ≠ WOut ∧ (Unmarshal d m = WPanic → 10 ≤ slen d).
Proof.
  intros Hd. pose proof (Unmarshal_ok d m Hd) as Hr. split; [by intros E; rewrite E in Hr|].
  intros E. rewrite E in Hr. cbn in Hr. lia.
Qed.
End laws.

(** A unit name that claims to be 2^63 - 1 bytes long. *)
Definition crash_bytes : string :=
  str_concat (out_byte <$> [10; 255; 255; 255; 255; 255; 255; 255; 255; 127]).

(** Ten bytes do make it panic: the length of a field is added to the index without
    a test for overflow, and the slice that follows is out of range.  A field that is
    unknown is skipped with the same addition. *)
Theorem Unmarshal_crash :
  slen crash_bytes = 10 ∧ Unmarshal crash_bytes (msg_zero : PbUnitName) = WPanic ∧
  Unmarshal crash_bytes (msg_zero : PbUnits) = WPanic ∧
  Unmarshal (out_byte 16 +:+ out_byte 0 +:+ str_concat (out_byte <$> [26; 245; 255; 255; 255; 255; 255; 255; 255; 127]))
    (msg_zero : PbUnitName) = WPanic.
Proof. repeat split; vm_compute; reflexivity. Qed.

Lemma Unit_ToPB_wf u : well_formed (Unit_ToPB u).
Proof. cbn. unfold int32. destruct (JobState_ToPB_known (UTargetState u)) as [->|[->| ->]]; split; vm_compute; congruence. Qed.

(** C18: the units that the engine sends arrive at another machine as the engine serves
    them, in the same order: written, read and converted back they are the same. *)
Theorem units_over_wire (us : list Unit) :
  Forall (λ u, (∃ opts, u.(UUnit) = NewUnitFromOptions opts) ∧ (u.(UTargetState) = "" ∨ known_state u.(UTargetState))) us →
  let m := mkPbUnits (Unit_ToPB <$> us) in
  slen (MarshalTo m) < MaxLen →
  ∃ d m', Marshal m = WOk d ∧ Unmarshal d msg_zero = WOk m' ∧ rpcUnitToJobUnit <$> m'.(pus_Units) = served <$> us.
Proof.
  intros Hus m Hlen.
  assert (Hw : well_formed m). { apply Forall_fmap, Forall_forall. intros u _. apply Unit_ToPB_wf. }
  pose proof (Size_length m Hlen) as Hs. exists (MarshalTo m), m. split; [|split].
  - unfold Marshal. rewrite <- Hs, Z.ltb_irrefl. done.
  - by apply Unmarshal_MarshalTo.
  - cbn. rewrite <- list_fmap_compose. apply list_fmap_ext. intros i u Hu. cbn.
    rewrite Forall_lookup in Hus. destruct (Hus _ _ Hu) as [[opts Hopts] Hst]. by eapply rpcUnit_roundtrip.
Qed.

Definition ex_wire_unit : Unit :=
  mkUnit "a.service" (NewUnitFromOptions [mkUnitOption "Service" "ExecStart" "/bin/sleep 1"]) JobStateLaunched.

Lemma proto_roundtrip_witness :
  let m := mkPbSaveUnitStateRequest "a.service" (Some (mkPbUnitState "a.service" "h" "loaded" "active" "" "m1")) (-1) in
  ∃ d, Marshal m = WOk d ∧ slen d = Size m ∧ Unmarshal d msg_zero = WOk m.
Proof. apply (proto_roundtrip (M := PbSaveUnitStateRequest)); [split; vm_compute; congruence|vm_compute; reflexivity]. Defined.

Lemma Unmarshal_ends_witness :
  Unmarshal crash_bytes (msg_zero : PbUnitName) ≠ WOut ∧ (Unmarshal crash_bytes (msg_zero : PbUnitName) = WPanic → 10 ≤ slen crash_bytes).
Proof. apply (Unmarshal_ends (M := PbUnitName)). vm_compute. reflexivity. Defined.

Lemma units_over_wire_witness :
  let m := mkPbUnits (Unit_ToPB <$> [ex_wire_unit]) in
  ∃ d m', Marshal m = WOk d ∧ Unmarshal d msg_zero = WOk m' ∧ rpcUnitToJobUnit <$> m'.(pus_Units) = served <$> [ex_wire_unit].
Proof.
  apply (units_over_wire [ex_wire_unit]); [|vm_compute; reflexivity].
  apply Forall_singleton. split; [by eexists|]. right. right. right. reflexivity.
Defined.
