(* ===== verification/RpcStates.v ===== *)
(** * The states of units in the engine's registry

    What [registry/rpc/inmemory.go] and [registry/rpc/rpcserver.go] report of the
    states that agents publish, and of their deadlines. *)

From stdpp Require Import base list gmap strings.
From S2P Require Import Prelude GoStrings GoPath Pkg UnitFile Job Machine Etcd EtcdRegistry Registry RpcRegistry.

Section states.
Context `{MR : MapRange, GS : GoSort}.

(** The state of a unit on a machine, if it is still valid. *)
Definition live_state (now : Z) (r : inmemoryRegistry) (k m : string) : option PbUnitState :=
  states ← r.(unitStates) !! k; hb ← states !! m; if isValid now hb then Some hb.(hb_state) else None.

Definition listed_beats (now : Z) (t : moment) (r : inmemoryRegistry) : list (MUSKey * PbUnitState) :=
  range t r.(unitStates) ≫= λ '(k, beats),
    omap (λ '(m, hb), if isValid now hb then Some (mkMUSKey k m, hb.(hb_state)) else None) (range t beats).

Lemma statesByMUSKey_listed now t r :
  im_statesByMUSKey now t r = foldl (λ m p, <[p.1 := p.2]> m) ∅ (listed_beats now t r).
Proof.
  unfold im_statesByMUSKey, listed_beats. generalize (∅ : gmap MUSKey PbUnitState) as mus.
  induction (range t (unitStates r)) as [|[k beats] l IH]; intros mus; [done|]. cbn. rewrite foldl_app, <- IH. f_equal.
  generalize mus. induction (range t beats) as [|[m hb] l' IHl]; intros mus'; [done|]. cbn. rewrite IHl.
  by destruct (isValid now hb).
Qed.

Lemma im_statesByMUSKey_lookup now t r k m : im_statesByMUSKey now t r !! mkMUSKey k m = live_state now r k m.
Proof.
  rewrite statesByMUSKey_listed. apply lookup_filled. intros v. unfold listed_beats, live_state.
  rewrite list_elem_of_bind. split.
  - intros ([k' beats] & Hin & Hk). apply elem_of_range in Hk.
    apply list_elem_of_omap in Hin as ([m' hb] & Hm & Hv). apply elem_of_range in Hm.
    destruct (isValid now hb) eqn:Hval; [|done]. injection Hv as -> -> <-. rewrite Hk. cbn. rewrite Hm. cbn. by rewrite Hval.
  - intros Hv. destruct (unitStates r !! k) as [beats|] eqn:Hk; [|done]. cbn in Hv.
    destruct (beats !! m) as [hb|] eqn:Hm; [|done]. cbn in Hv. destruct (isValid now hb) eqn:Hval; [|done]. injection Hv as <-.
    exists (k, beats). split; [|by apply elem_of_range]. apply list_elem_of_omap. exists (m, hb).
    split; [by apply elem_of_range|]. by rewrite Hval.
Qed.

Lemma im_UnitStates_live now t r us :
  us ∈ im_UnitStates now t r ↔ ∃ k m, live_state now r k m = Some us.
Proof.
  unfold im_UnitStates. rewrite list_elem_of_omap. split.
  - intros ([k m] & _ & Hus). exists k, m. by rewrite <- im_statesByMUSKey_lookup with (t := t).
  - intros (k & m & Hus). rewrite <- im_statesByMUSKey_lookup with (t := t) in Hus. exists (mkMUSKey k m). split; [|done].
    rewrite go_sort_perm. apply list_elem_of_fmap. exists (mkMUSKey k m, us). split; [done|]. by apply elem_of_map_to_list.
Qed.

(** What the writes do to the states and to the heartbeats. *)
Lemma live_state_saved now now' k us ttl r k' m :
  live_state now' (im_SaveUnitState now k us ttl r) k' m =
  if decide (k' = k ∧ m = us.(us_MachineID)) then (if (now' <? now + ttl)%Z then Some us else None) else live_state now' r k' m.
Proof.
  unfold live_state, im_SaveUnitState. cbn. destruct (decide (k' = k)) as [->|Hk].
  - rewrite lookup_insert_eq. cbn. destruct (decide (m = us_MachineID us)) as [->|Hm].
    + rewrite lookup_insert_eq. cbn. by rewrite decide_True.
    + rewrite lookup_insert_ne by done. rewrite decide_False by naive_solver. by destruct (unitStates r !! k).
  - rewrite lookup_insert_ne by done. rewrite decide_False by naive_solver. done.
Qed.

Lemma live_state_removed now k r k' m :
  live_state now (im_RemoveUnitState k r) k' m = if decide (k' = k) then None else live_state now r k' m.
Proof.
  unfold live_state, im_RemoveUnitState. cbn. case_decide; [subst; by rewrite lookup_delete_eq|by rewrite lookup_delete_ne].
Qed.

End states.

Section clients.
Context `{MR : MapRange, GS : GoSort, R : Registry St E}.
Implicit Types w : rpcserver * St.

(** The name that the client fills in. *)
Definition named (k : string) (us : UnitState) : UnitState :=
  mkUnitState us.(LoadState) us.(ActiveState) us.(SubState) us.(UsMachineID) us.(UnitHash)
    (if decide (us.(UnitName) = "") then k else us.(UnitName)).

Lemma seconds_wrap ttl : (0 ≤ ttl < 2 ^ 22 * second)%Z → int64_wrap (rpc_seconds ttl * second) = (ttl - ttl mod second)%Z.
Proof.
  intros H. unfold rpc_seconds, second in *. rewrite Z.quot_div_nonneg by lia.
  pose proof (Z.div_mod ttl 1000000000 ltac:(lia)). pose proof (Z.mod_pos_bound ttl 1000000000 ltac:(lia)).
  rewrite int64_wrap_small; lia.
Qed.

Lemma rr_SaveUnitState_local now k us ttl w :
  (0 ≤ ttl < 2 ^ 22 * second)%Z →
  (rr_SaveUnitState now k us ttl w).1.(localRegistry) =
  im_SaveUnitState now k (UnitState_ToPB (named k us)) (ttl - ttl mod second) w.1.(localRegistry).
Proof.
  intros H. rewrite <- seconds_wrap by done. unfold rr_SaveUnitState, srv_SaveUnitState. cbn. do 2 f_equal.
  unfold named. case_bool_decide; case_decide; [done|done|done|by destruct us].
Qed.

(** A state that an agent publishes over gRPC is the one that is reported for
    its unit and machine, for its lifetime rounded down to whole seconds (a lifetime
    of less than a second is over at once) and no longer; the states of other units
    and machines are left alone. *)
Theorem rpc_state_lifetime now now' t k us ttl w k' m :
  (0 ≤ ttl < 2 ^ 22 * second)%Z →
  live_state now' (rr_SaveUnitState now k us ttl w).1.(localRegistry) k' m =
    (if decide (k' = k ∧ m = us.(UsMachineID))
     then if (now' <? now + (ttl - ttl mod second))%Z then Some (UnitState_ToPB (named k us)) else None
     else live_state now' w.1.(localRegistry) k' m) ∧
  ∀ pus, pus ∈ im_UnitStates now' t (rr_SaveUnitState now k us ttl w).1.(localRegistry) ↔
    ∃ k' m, live_state now' (rr_SaveUnitState now k us ttl w).1.(localRegistry) k' m = Some pus.
Proof.
  intros H. split; [|intros pus; apply im_UnitStates_live]. rewrite rr_SaveUnitState_local by done. apply live_state_saved.
Qed.

(** The deadlines do not reach the schedule: once an agent has published a state
    and a heartbeat of a unit that is scheduled to it, the unit is reported as
    launched there at every later time, also when the state is over and no longer
    reported. *)
Theorem rpc_launched_outlives_state now now' k us ttl ttl' w su :
  (0 ≤ ttl < 2 ^ 22 * second)%Z → w.1.(localRegistry).(scheduledUnits) !! k = Some su → su.(ps_Name) = k →
  su.(ps_MachineID) = us.(UsMachineID) → (now + ttl ≤ now')%Z →
  let w' := (rr_UnitHeartbeat (E := E) now k us.(UsMachineID) ttl' (rr_SaveUnitState now k us ttl w)).1 in
  rr_ScheduledUnit (E := E) k w' = Ok (Some (mkScheduledUnit k (Some JobStateLaunched) us.(UsMachineID))) ∧
  live_state now' w'.1.(localRegistry) k us.(UsMachineID) = None.
Proof.
  intros Ht Hsu Hn Hm Hnow w'. split.
  - unfold rr_ScheduledUnit, srv_GetScheduledUnit, im_ScheduledUnit, w', rr_UnitHeartbeat, srv_UnitHeartbeat.
    cbn [fst localRegistry with_local]. rewrite rr_SaveUnitState_local by done.
    unfold im_UnitHeartbeat, im_SaveUnitState. cbn. rewrite Hsu, Hn, Hm. unfold getScheduledUnitState, isUnitLoaded, isUnitLaunched. cbn.
    by rewrite !lookup_insert_eq.
  - pose proof (Z.mod_pos_bound ttl second ltac:(done)).
    change (live_state now' w'.1.(localRegistry) k us.(UsMachineID))
      with (live_state now' (rr_SaveUnitState now k us ttl w).1.(localRegistry) k us.(UsMachineID)).
    rewrite rr_SaveUnitState_local, live_state_saved, decide_True by done. destruct (Z.ltb_spec now' (now + (ttl - ttl mod second))); [lia|done].
Qed.

(** With agents that still use etcd, the states that are reported are those of
    the engine's memory and those of etcd: a state of etcd is left out only when
    memory has one of the same unit on the same machine. *)
Theorem GetUnitStates_merged now t srv s l :
  srv_GetUnitStates now t srv s = Ok l → srv.(hasNonGRPCAgents) = true →
  ∃ etcd, r_UnitStates s = Ok etcd ∧
  (∀ k m us, live_state now srv.(localRegistry) k m = Some us → us ∈ l) ∧
  (∀ us, us ∈ etcd → ∃ us', us' ∈ l ∧ us'.(us_Name) = us.(UnitName) ∧ us'.(us_MachineID) = us.(UsMachineID)) ∧
  (∀ us, us ∈ l → (∃ k m, live_state now srv.(localRegistry) k m = Some us) ∨ us ∈ UnitState_ToPB <$> etcd).
Proof.
  unfold srv_GetUnitStates. intros Hl Hb. rewrite Hb in Hl. destruct (r_UnitStates s) as [etcd|]; [|done].
  injection Hl as <-. exists etcd. split_and!; [done|..].
  - intros k m us Hus. apply elem_of_app. left. apply im_UnitStates_live. eauto.
  - intros us Hin. destruct (decide (foldl (λ m state, <[us_Name state := us_MachineID state]> m) (∅ : gmap string string)
      (im_UnitStates now t srv.(localRegistry)) !! us.(UnitName) = Some us.(UsMachineID))) as [Hs|Hs].
    + rewrite (lookup_foldl_insert us_Name us_MachineID), lookup_empty in Hs. destruct (last _) as [us'|] eqn:E'; [|done].
      injection Hs as Hs. apply last_Some_elem_of, list_elem_of_filter in E' as [Hn Hus']. exists us'.
      split_and!; [apply elem_of_app; by left|done|done].
    + exists (UnitState_ToPB us). split_and!; [|done|done]. apply elem_of_app. right. apply list_elem_of_fmap. exists us.
      split; [done|]. apply list_elem_of_filter. split; [|done].
      destruct (_ !! UnitName us) as [machId|]; [|done]. apply bool_decide_true. congruence.
  - intros us [Hin|Hin]%elem_of_app; [left; by apply im_UnitStates_live in Hin|right].
    apply list_elem_of_fmap in Hin as (us' & -> & [_ Hin]%list_elem_of_filter). by apply list_elem_of_fmap_2.
Qed.

End clients.
