(* ===== verification/RpcCoherence.v ===== *)
(** * The engine's registry in memory agrees with etcd

    The server loads its registry from etcd and writes through to it; as long as
    it is the only one that writes units and the schedule, what it serves is what
    etcd holds.  Hence an engine that reconciles through gRPC schedules as one
    that reads etcd. *)

From stdpp Require Import base list gmap strings.
From S2P Require Import Prelude GoStrings GoPath Pkg UnitFile UnitSerial Job Machine Cluster Engine Etcd EtcdRegistry EtcdSchedule EtcdStore EtcdInvariant EtcdViews Registry RpcRegistry.

Section coherence.
Context `{K : KeysAPI St, KV : !KeysView St, KL : !KeysLaws K KV}.
Context `{JJ : JSON jobModel, JU : JSON unitModel, JM : JSON MachineState, JS : JSON unitStateModel}.
Context `{DG : Digest, MR : MapRange, GS : GoSort}.
Variable keyPrefix : string.
Hypothesis prefix_rooted : has_prefix "/" keyPrefix = true.
Hypothesis prefix_good : Forall good_elem (path_elems keyPrefix).
Variable t : moment.

#[local] Abbreviation registry_wf := (registry_wf keyPrefix).
#[local] Abbreviation file_at := (file_at keyPrefix).
#[local] Abbreviation registry_typed := (registry_typed keyPrefix).
#[local] Abbreviation target_at := (target_at keyPrefix).
#[local] Abbreviation file_stored := (file_stored keyPrefix).
#[local] Abbreviation etcd_unit := (er_Unit keyPrefix).

#[local] Instance the_etcd : Registry St etcd_error := etcd_Registry keyPrefix t.
#[local] Abbreviation world := (rpcserver * St)%type.

(** ** What requests leave alone *)

(** Unit files stay. *)
Definition files_kept (s s' : St) : Prop :=
  ∀ h n, good_elem h → file_at s ["unit"; h] = Some n → file_at s' ["unit"; h] = Some n.

(** The files that a unit and its target are read from. *)
Definition unit_files (k : string) : list (list string) := [[jobPrefix; k; "object"]; [jobPrefix; k; "target-state"]].

Lemma er_Unit_frame s s' k :
  registry_typed s → registry_typed s' → good_elem k → files_kept s s' →
  (∀ l, l ∈ unit_files k → file_at s' l = file_at s l) → etcd_unit k s' = etcd_unit k s.
Proof.
  intros Ht Ht' Hk Hkept Hsame. pose proof (er_Unit_at keyPrefix prefix_rooted prefix_good s k Ht Hk) as H.
  eapply unit_at_unique; [by apply er_Unit_at|]. unfold unit_at in *.
  rewrite (Hsame [jobPrefix; k; "object"]) by in_list. rewrite (Hsame [jobPrefix; k; "target-state"]) by in_list.
  destruct (file_at s [jobPrefix; k; "object"]) as [n|]; [|done]. destruct H as (u & Hu & (n' & Hn' & Hm) & Hp & ->).
  exists u. split_and!; [done| |done|done]. exists n'. split; [|done]. apply Hkept; [apply hash_good|done].
Qed.

(** A write to one file of the registry, with its answer. *)
Lemma set_result s l v o :
  registry_wf s → leaf l → ttl_ok o.(so_TTL) →
  let '(s', r) := kSet (key_of (reg_key keyPrefix l)) v o s in
  (∀ l', leaf l' → l' ≠ l → file_at s' l' = file_at s l') ∧
  match r with
  | Ok _ => kv_value <$> file_at s' l = Some v
  | Err _ => file_at s' l = file_at s l
  end.
Proof.
  intros Hwf Hl Ht. pose proof (set_leaf keyPrefix prefix_good s l v o Hwf Hl Ht) as H.
  destruct (kSet _ _ _ s) as [s' r]. destruct H as [_ H]. destruct (set_check _ _).
  - destruct H as [-> H]. auto.
  - destruct H as (Hok & (n & Hn & Hv & _) & Hf). split.
    + intros l' Hl' Hne. apply Hf. intros Hp. exact (Hne (leaf_apart l' l Hl' Hl Hp)).
    + destruct r; [|done]. rewrite Hn. cbn. by rewrite Hv.
Qed.

(** ** Coherence *)

Definition machine_of (o : option string) : option string := m ← o; if decide (m = "") then None else Some m.

Record coherent (w : world) : Prop := {
  co_typed : registry_typed w.2;
  co_cached k : is_Some (w.1.(localRegistry).(unitsCache) !! k) → unit_name k;
  co_names k su : w.1.(localRegistry).(scheduledUnits) !! k = Some su → su.(ps_Name) = k;
  co_schedule k : unit_name k →
    machine_of (ps_MachineID <$> w.1.(localRegistry).(scheduledUnits) !! k) = machine_of (target_at w.2 k);
  co_units k : unit_name k →
    ∃ o, etcd_unit k w.2 = Ok o ∧ w.1.(localRegistry).(unitsCache) !! k = Unit_ToPB <$> o
}.

(** Changes that leave units and targets alone, on both sides. *)
Lemma coherent_other srv s srv' s' :
  coherent (srv, s) → registry_typed s' → files_kept s s' →
  (∀ k x, good_elem k → x ∈ ["object"; "target"; "target-state"] → file_at s' [jobPrefix; k; x] = file_at s [jobPrefix; k; x]) →
  srv'.(localRegistry).(scheduledUnits) = srv.(localRegistry).(scheduledUnits) →
  srv'.(localRegistry).(unitsCache) = srv.(localRegistry).(unitsCache) → coherent (srv', s').
Proof.
  intros [Ht Hca Hn Hs Hu] Ht' Hkept Hsame E1 E2. cbn in *. split; cbn; rewrite ?E1, ?E2; [done|done|done|..].
  - intros k Hk. rewrite (Hs k Hk). unfold EtcdSchedule.target_at. by rewrite Hsame by (apply Hk || in_list).
  - intros k Hk. destruct (Hu k Hk) as (o & Ho & Hc). exists o. rewrite <- Ho. split; [|done].
    apply er_Unit_frame; [done|done|apply Hk|done|]. intros l Hl.
    repeat (apply elem_of_cons in Hl as [->|Hl]; [apply Hsame; [apply Hk|in_list]|]). by apply not_elem_of_nil in Hl.
Qed.
(** Changes of the target of one unit. *)
Lemma coherent_target srv s srv' s' k :
  coherent (srv, s) → registry_typed s' → good_elem k →
  (∀ l, leaf l → l ≠ [jobPrefix; k; "target"] → file_at s' l = file_at s l) →
  srv'.(localRegistry).(unitsCache) = srv.(localRegistry).(unitsCache) →
  (∀ k', k' ≠ k → srv'.(localRegistry).(scheduledUnits) !! k' = srv.(localRegistry).(scheduledUnits) !! k') →
  (∀ su, srv'.(localRegistry).(scheduledUnits) !! k = Some su → su.(ps_Name) = k) →
  machine_of (ps_MachineID <$> srv'.(localRegistry).(scheduledUnits) !! k) = machine_of (target_at s' k) →
  coherent (srv', s').
Proof.
  intros [Ht Hca Hn Hs Hu] Ht' Hk Hf Eu Es Hname Hm. cbn in *. split; cbn; [done|by rewrite Eu|..].
  - intros k' su. destruct (decide (k' = k)) as [->|Hne]; [apply Hname|]. rewrite Es by done. apply Hn.
  - intros k' Hk'. destruct (decide (k' = k)) as [->|Hne]; [done|]. rewrite Es by done. rewrite (Hs k' Hk').
    unfold EtcdSchedule.target_at. rewrite Hf; [done|apply leaf_target, Hk'|]. by intros [= ?].
  - intros k' Hk'. destruct (Hu k' Hk') as (o & Ho & Hc). exists o. rewrite Eu, <- Ho. split; [|done].
    apply er_Unit_frame; [done|done|apply Hk'| |].
    + intros h n Hh. rewrite Hf; [done|by apply leaf_unit|done].
    + intros l Hl. apply Hf; repeat (apply elem_of_cons in Hl as [->|Hl]; [try (apply job_leaf; [apply Hk'|in_list]); done|]);
        by apply not_elem_of_nil in Hl.
Qed.

Lemma coherent_ScheduleUnit k m (w : world) :
  coherent w → unit_name k → coherent (srv_ScheduleUnit k m w).1.
Proof.
  destruct w as [srv s]. intros Hc [Hk Hh]. pose proof (co_typed _ Hc) as Ht. cbn in Ht.
  pose proof (step_typed keyPrefix prefix_rooted prefix_good s _ Ht (rs_ScheduleUnit keyPrefix s k m Hk)) as Ht'.
  unfold srv_ScheduleUnit, write_through. cbn [r_ScheduleUnit the_etcd etcd_Registry fst snd].
  unfold er_ScheduleUnit in *. rewrite (target_path keyPrefix prefix_rooted prefix_good) in * by done.
  pose proof (set_result s [jobPrefix; k; "target"] m (mkSetOptions "" 0 PrevNoExist 0) (proj1 Ht) (leaf_target k Hk) (or_introl (Z.le_refl 0))) as H.
  destruct (kSet _ _ _ s) as [s' r]. destruct H as [Hf Hr]. cbn [fst] in Ht'. destruct r as [nd|e]; cbn [done_ fst].
  - eapply (coherent_target srv s _ s' k Hc Ht' Hk Hf); cbn; [done|..].
    + intros k' Hne. by rewrite lookup_insert_ne.
    + intros su. rewrite lookup_insert_eq. by intros [= <-].
    + rewrite lookup_insert_eq. unfold EtcdSchedule.target_at. by rewrite Hr.
  - eapply (coherent_target srv s _ s' k Hc Ht' Hk Hf); cbn; [done|done|apply (co_names _ Hc)|].
    pose proof (co_schedule _ Hc k (conj Hk Hh)) as E. cbn in E. rewrite E. unfold EtcdSchedule.target_at. by rewrite Hr.
Qed.

Lemma er_UnscheduleUnit_result s k m :
  registry_wf s → good_elem k →
  let '(s', r) := er_UnscheduleUnit keyPrefix k m s in
  (∀ l, leaf l → l ≠ [jobPrefix; k; "target"] → file_at s' l = file_at s l) ∧
  match r with
  | Ok _ => file_at s' [jobPrefix; k; "target"] = None
  | Err _ => file_at s' [jobPrefix; k; "target"] = file_at s [jobPrefix; k; "target"]
  end.
Proof.
  intros Hwf Hk. unfold er_UnscheduleUnit. rewrite (target_path keyPrefix prefix_rooted prefix_good) by done.
  pose proof (delete_leaf keyPrefix prefix_good s [jobPrefix; k; "target"] (mkDeleteOptions m 0 false) Hwf (leaf_target k Hk)) as H.
  destruct (kDelete _ _ s) as [s' r]. destruct H as [_ H].
  destruct (file_at s [jobPrefix; k; "target"]) as [n|] eqn:Hn; [|cbn in H; destruct H as [-> H]; cbn; rewrite H; auto].
  destruct (delete_check _ _) as [c|] eqn:Hc; destruct H as [Hr H].
  - subst r. rewrite H. cbn [isEtcdError]. rewrite bool_decide_eq_false_2; [auto|].
    cbn in Hc. destruct (kv_dir n && _); [by injection Hc as <-|]. destruct (conditions _ _ _); [done|by injection Hc as <-].
  - destruct r; [|done]. split; [|by rewrite H, decide_True]. intros l Hl Hne. rewrite H, decide_False; [done|].
    intros Hp. by apply Hne, eq_sym, leaf_apart; [apply leaf_target| |].
Qed.

Lemma coherent_UnscheduleUnit k m (w : world) :
  coherent w → unit_name k → coherent (srv_UnscheduleUnit k m w).1.
Proof.
  destruct w as [srv s]. intros Hc [Hk Hh]. pose proof (co_typed _ Hc) as Ht. cbn in Ht.
  pose proof (step_typed keyPrefix prefix_rooted prefix_good s _ Ht (rs_UnscheduleUnit keyPrefix s k m Hk)) as Ht'.
  unfold srv_UnscheduleUnit, write_through. cbn [r_UnscheduleUnit the_etcd etcd_Registry fst snd].
  pose proof (er_UnscheduleUnit_result s k m (proj1 Ht) Hk) as H.
  destruct (er_UnscheduleUnit _ _ _ s) as [s' r]. destruct H as [Hf Hr]. cbn [fst] in Ht'. destruct r as [u|e]; cbn [fst].
  - eapply (coherent_target srv s _ s' k Hc Ht' Hk Hf); cbn; [done|..].
    + intros k' Hne. by rewrite lookup_delete_ne.
    + intros su. by rewrite lookup_delete_eq.
    + rewrite lookup_delete_eq. unfold EtcdSchedule.target_at. by rewrite Hr.
  - eapply (coherent_target srv s _ s' k Hc Ht' Hk Hf); cbn; [done|done|apply (co_names _ Hc)|].
    pose proof (co_schedule _ Hc k (conj Hk Hh)) as E. cbn in E. rewrite E. unfold EtcdSchedule.target_at. by rewrite Hr.
Qed.
(** Changes of one unit. *)
Lemma coherent_unit srv s srv' s' k o :
  coherent (srv, s) → registry_typed s' → unit_name k → files_kept s s' →
  (∀ k' x, good_elem k' → k' ≠ k → x ∈ ["object"; "target"; "target-state"] →
     file_at s' [jobPrefix; k'; x] = file_at s [jobPrefix; k'; x]) →
  (∀ k', k' ≠ k → srv'.(localRegistry).(scheduledUnits) !! k' = srv.(localRegistry).(scheduledUnits) !! k' ∧
     srv'.(localRegistry).(unitsCache) !! k' = srv.(localRegistry).(unitsCache) !! k') →
  (∀ su, srv'.(localRegistry).(scheduledUnits) !! k = Some su → su.(ps_Name) = k) →
  machine_of (ps_MachineID <$> srv'.(localRegistry).(scheduledUnits) !! k) = machine_of (target_at s' k) →
  etcd_unit k s' = Ok o → srv'.(localRegistry).(unitsCache) !! k = Unit_ToPB <$> o →
  coherent (srv', s').
Proof.
  intros [Ht Hca Hn Hs Hu] Ht' Hk Hkept Hf Hl Hname Hm Ho Hc. cbn in *. split; cbn; [done|..].
  - intros k'. destruct (decide (k' = k)) as [->|Hne]; [done|]. rewrite (proj2 (Hl k' Hne)). apply Hca.
  - intros k' su. destruct (decide (k' = k)) as [->|Hne]; [apply Hname|]. rewrite (proj1 (Hl k' Hne)). apply Hn.
  - intros k' Hk'. destruct (decide (k' = k)) as [->|Hne]; [done|]. rewrite (proj1 (Hl k' Hne)), (Hs k' Hk').
    unfold EtcdSchedule.target_at. rewrite Hf; [done|apply Hk'|done|in_list].
  - intros k' Hk'. destruct (decide (k' = k)) as [->|Hne]; [eauto|]. destruct (Hu k' Hk') as (o' & Ho' & Hc').
    exists o'. rewrite (proj2 (Hl k' Hne)), <- Ho'. split; [|done]. apply er_Unit_frame; [done|done|apply Hk'|done|].
    intros l Hin. repeat (apply elem_of_cons in Hin as [->|Hin]; [apply Hf; [apply Hk'|done|in_list]|]).
    by apply not_elem_of_nil in Hin.
Qed.

(** Storing a unit file leaves the others. *)
Lemma storeOrGetUnitFile_files s u :
  registry_wf s → let s' := (storeOrGetUnitFile keyPrefix u s).1 in
  files_kept s s' ∧ ∀ l, leaf l → hd "" l ≠ "unit" → file_at s' l = file_at s l.
Proof.
  intros Hwf. unfold storeOrGetUnitFile. destruct (marshal_ _) as [b|]; [|by split; [intros ?|]; intros].
  rewrite (hashed_path keyPrefix prefix_rooted prefix_good).
  pose proof (leaf_unit _ (hash_good u)) as Hleaf. fold (unit_leaf (UnitFile_Hash u)) in Hleaf.
  pose proof (set_leaf keyPrefix prefix_good s _ b (mkSetOptions "" 0 PrevNoExist 0) Hwf Hleaf (or_introl (Z.le_refl 0))) as H.
  destruct (kSet _ _ _ s) as [s' r]. destruct H as [_ H].
  replace (match r with Ok _ => (s', Ok tt) | Err err => (s', if isEtcdError err ErrorCodeNodeExist then Ok tt else Err err) end).1
    with s' by (by destruct r). destruct (file_at s (unit_leaf (UnitFile_Hash u))) as [n|] eqn:Hn; cbn in H.
  - destruct H as [_ H]. split; [intros h n' _|intros l _ _]; by rewrite H.
  - destruct H as (_ & _ & Hf). assert (∀ l, leaf l → l ≠ unit_leaf (UnitFile_Hash u) → file_at s' l = file_at s l) as Hf'.
    { intros l Hl Hne. apply Hf. intros Hp. exact (Hne (leaf_apart l _ Hl Hleaf Hp)). }
    split.
    + intros h n Hh Hhn. rewrite Hf'; [done|by apply leaf_unit|]. intros E. unfold unit_leaf in *. congruence.
    + intros l Hl Hne. apply Hf'; [done|]. by intros ->.
Qed.

Lemma CreateUnit_files s u :
  registry_typed s → storable keyPrefix s u → let s' := (er_CreateUnit keyPrefix u s).1 in
  files_kept s s' ∧ ∀ l, leaf l → hd "" l ≠ "unit" → l ∉ unit_files u.(UName) → file_at s' l = file_at s l.
Proof.
  intros Ht (Hk & Hj1 & Hj2 & Hp & Hst). unfold er_CreateUnit.
  pose proof (storeOrGetUnitFile_stored keyPrefix prefix_rooted prefix_good s _ (proj1 Ht) Hj1 Hst) as H1.
  pose proof (storeOrGetUnitFile_files s (UUnit u) (proj1 Ht)) as [Hk1 Hf1].
  destruct (storeOrGetUnitFile _ _ s) as [s1 r1]. destruct H1 as (-> & Hwf1 & _). cbn [fst] in Hk1, Hf1.
  destruct (marshal_roundtrip _ Hj2) as (b & -> & _). rewrite (job_path keyPrefix prefix_rooted prefix_good) by done.
  pose proof (job_leaf _ "object" Hk ltac:(in_list)) as Hobj. pose proof (job_leaf _ "target-state" Hk ltac:(in_list)) as Hts.
  pose proof (set_file keyPrefix prefix_good s1 _ b 0 Hwf1 Hobj (or_introl (Z.le_refl 0))) as H2.
  destruct (kSet _ _ _ s1) as [s2 r2]. destruct H2 as (Hok2 & Hwf2 & _ & Hf2). destruct r2; [|done].
  unfold er_SetUnitTargetState, jobTargetStatePath. rewrite (job_path keyPrefix prefix_rooted prefix_good) by done.
  pose proof (set_file keyPrefix prefix_good s2 _ (UTargetState u) 0 Hwf2 Hts (or_introl (Z.le_refl 0))) as H3.
  unfold no_set_options. destruct (kSet _ _ _ s2) as [s3 r3]. destruct H3 as (_ & _ & _ & Hf3). cbn [fst].
  assert (∀ l, leaf l → l ∉ unit_files (UName u) → file_at s3 l = file_at s1 l) as Hf.
  { intros l Hl Hin. rewrite Hf3, Hf2; [done|done| |done|]; intros ->; apply Hin; in_list. }
  split.
  - intros h n Hh Hn. rewrite Hf; [by apply Hk1|by apply leaf_unit|].
    intros Hin. repeat (apply elem_of_cons in Hin as [?|Hin]; [done|]). by apply not_elem_of_nil in Hin.
  - intros l Hl Hne Hin. by rewrite Hf, Hf1.
Qed.
Lemma coherent_CreateUnit u (w : world) :
  coherent w → unit_name u.(pu_Name) → known_target u.(pu_DesiredState) → storable keyPrefix w.2 (rpcUnitToJobUnit u) →
  unit_file_ok (rpcUnitToJobUnit u).(UUnit) → coherent (srv_CreateUnit u w).1.
Proof.
  destruct w as [srv s]. intros Hc Hk Hts Hst Hgr. pose proof (co_typed _ Hc) as Ht. cbn in Ht, Hst.
  pose proof (CreateUnit_files s _ Ht Hst) as [Hkept Hf].
  pose proof (step_typed keyPrefix prefix_rooted prefix_good s _ Ht (rs_CreateUnit keyPrefix s _ Hst)) as Ht'.
  pose proof Hst as (Hg & Hj1 & Hj2 & Hp & Hfree).
  pose proof (CreateUnit_reads keyPrefix prefix_rooted prefix_good s (rpcUnitToJobUnit u) (proj1 Ht) Hg Hj1 Hj2 Hp Hfree) as H.
  unfold srv_CreateUnit, write_through. cbn [r_CreateUnit the_etcd etcd_Registry fst snd].
  destruct (er_CreateUnit _ _ s) as [s' r]. cbn [fst] in *. destruct H as (-> & _ & Hu).
  { pose proof (rpcUnitStateToJobState_known u.(pu_DesiredState)) as Hks. cbn.
    by destruct Hks as [->|[->| ->]]. }
  rewrite (parsed_file_ok _ Hgr) in Hu. change (mkUnit _ _ _) with (rpcUnitToJobUnit u) in Hu.
  assert (∀ k x, good_elem k → x ∈ ["object"; "target"; "target-state"] → [jobPrefix; k; x] ∉ unit_files (pu_Name u) →
    file_at s' [jobPrefix; k; x] = file_at s [jobPrefix; k; x]) as Hsame.
  { intros k x Hgk Hx Hin. apply Hf; [|done|done]. apply job_leaf; [done|]. clear -Hx.
    repeat (apply elem_of_cons in Hx as [->|Hx]; [in_list|]). by apply not_elem_of_nil in Hx. }
  eapply (coherent_unit srv s _ s' (pu_Name u)); [done|done|done|done|..]; cbn.
  - intros k' x Hgk Hne Hx. apply Hsame; [done|done|].
    intros Hin. repeat (apply elem_of_cons in Hin as [?|Hin]; [by simplify_eq|]). by apply not_elem_of_nil in Hin.
  - intros k' Hne. by rewrite lookup_insert_ne.
  - apply (co_names _ Hc).
  - pose proof (co_schedule _ Hc _ Hk) as E. cbn in E. rewrite E. unfold EtcdSchedule.target_at.
    rewrite Hsame; [done|apply Hk|in_list|].
    intros Hin. repeat (apply elem_of_cons in Hin as [?|Hin]; [by simplify_eq|]). by apply not_elem_of_nil in Hin.
  - exact Hu.
  - rewrite lookup_insert_eq. cbn. by rewrite pbUnit_roundtrip.
Qed.

Lemma coherent_DestroyUnit k (w : world) : coherent w → unit_name k → coherent (srv_DestroyUnit k w).1.
Proof.
  destruct w as [srv s]. intros Hc [Hk Hh]. pose proof (co_typed _ Hc) as Ht. cbn in Ht.
  pose proof (step_typed keyPrefix prefix_rooted prefix_good s _ Ht (rs_DestroyUnit keyPrefix s k Hk)) as Ht'.
  unfold srv_DestroyUnit, write_through. cbn [r_DestroyUnit the_etcd etcd_Registry fst snd]. unfold er_DestroyUnit in *.
  rewrite (prefixed_elems keyPrefix prefix_rooted prefix_good) in * by (done || good_key).
  pose proof (delete_below keyPrefix prefix_good s [jobPrefix; k] (mkDeleteOptions "" 0 true) (proj1 Ht) ltac:(done) ltac:(good_key)
    (open_above keyPrefix s [jobPrefix; k] ["object"] (proj1 Ht) (job_leaf k "object" Hk ltac:(in_list)))) as H.
  destruct (kDelete _ _ s) as [s' r]. destruct H as [_ H]. destruct (delete_check _ _) as [c|]; destruct H as [Hr H].
  - subst r. cbn [fst] in Ht' |- *. eapply (coherent_other srv s); [done|done| |by intros; rewrite H|done|done].
    intros h n _. by rewrite H.
  - destruct r as [nd|e]; [|done]. cbn [fst] in Ht' |- *.
    assert (∀ l, ¬ [jobPrefix; k] `prefix_of` l → file_at s' l = file_at s l) as Hf by (intros; by rewrite H, decide_False).
    assert (∀ x, file_at s' [jobPrefix; k; x] = None) as Hgone by (intros; rewrite H, decide_True; [done|by exists [x]]).
    eapply (coherent_unit srv s _ s' k None); [done|done|done|..]; cbn.
    + intros h n _. rewrite Hf; [done|]. intros [? ?]. by simplify_eq/=.
    + intros k' x _ Hne _. apply Hf. intros [? ?]. by simplify_eq/=.
    + intros k' Hne. by rewrite !lookup_delete_ne.
    + intros su. by rewrite lookup_delete_eq.
    + rewrite lookup_delete_eq. unfold EtcdSchedule.target_at. by rewrite Hgone.
    + pose proof (er_Unit_at keyPrefix prefix_rooted prefix_good s' k Ht' Hk) as Hu. unfold unit_at in Hu. by rewrite Hgone in Hu.
    + by rewrite lookup_delete_eq.
Qed.
(** Reading a unit whose target state was written. *)
Lemma er_Unit_retargeted s s' k st o :
  registry_typed s → registry_typed s' → good_elem k → known_state st → files_kept s s' →
  file_at s' [jobPrefix; k; "object"] = file_at s [jobPrefix; k; "object"] →
  kv_value <$> file_at s' [jobPrefix; k; "target-state"] = Some st →
  etcd_unit k s = Ok o → etcd_unit k s' = Ok ((λ u, mkUnit u.(UName) u.(UUnit) st) <$> o).
Proof.
  intros Ht Ht' Hk Hst Hkept Hobj Hts Ho. pose proof (er_Unit_at keyPrefix prefix_rooted prefix_good s k Ht Hk) as H.
  rewrite Ho in H. eapply unit_at_unique; [by apply er_Unit_at|]. unfold unit_at in *. rewrite Hobj, Hts.
  destruct (file_at s [jobPrefix; k; "object"]) as [n|]; [|by injection H as ->].
  destruct H as (u & Hu & (n' & Hn' & Hm) & Hp & H). exists u. split_and!; [done| |done|].
  - exists n'. split; [|done]. apply Hkept; [apply hash_good|done].
  - assert (∃ ts, o = Some (mkUnit k u ts)) as [ts ->].
    { destruct (default "" _); [injection H as ->; eauto|]. destruct (ParseJobState _); [injection H as ->; eauto|done]. }
    cbn. by destruct Hst as [->|[->| ->]].
Qed.

Lemma coherent_SetUnitTargetState k st (w : world) :
  coherent w → unit_name k → known_target st → coherent (srv_SetUnitTargetState k st w).1.
Proof.
  destruct w as [srv s]. intros Hc Hn Hst. pose proof Hn as [Hk Hh]. pose proof (co_typed _ Hc) as Ht. cbn in Ht.
  pose proof (step_typed keyPrefix prefix_rooted prefix_good s _ Ht
    (rs_SetUnitTargetState keyPrefix s k (rpcUnitStateToJobState st) Hk)) as Ht'.
  unfold srv_SetUnitTargetState, write_through. cbn [r_SetUnitTargetState the_etcd etcd_Registry fst snd].
  unfold er_SetUnitTargetState, jobTargetStatePath, no_set_options in *. rewrite (job_path keyPrefix prefix_rooted prefix_good) in * by done.
  pose proof (set_file keyPrefix prefix_good s _ (rpcUnitStateToJobState st) 0 (proj1 Ht)
    (job_leaf k "target-state" Hk ltac:(in_list)) (or_introl (Z.le_refl 0))) as H.
  destruct (kSet _ _ _ s) as [s' r]. destruct H as (Hok & _ & (n & Hn' & Hv & _) & Hf). destruct r as [nd|]; [|done].
  cbn [done_ fst] in Ht' |- *. destruct (co_units _ Hc k Hn) as (o & Ho & Hcache). cbn in Ho, Hcache.
  assert (files_kept s s') as Hkept by (intros h n' Hgh; rewrite Hf; [done|by apply leaf_unit|done]).
  eapply (coherent_unit srv s _ s' k ((λ u, mkUnit u.(UName) u.(UUnit) (rpcUnitStateToJobState st)) <$> o));
    [done|done|done|done|..]; cbn [localRegistry with_local].
  - intros k' x Hgk Hne Hx. apply Hf; [|by intros [= ?]]. apply job_leaf; [done|]. clear -Hx.
    repeat (apply elem_of_cons in Hx as [->|Hx]; [in_list|]). by apply not_elem_of_nil in Hx.
  - intros k' Hne. unfold im_SetUnitTargetState. rewrite Hcache. destruct o; cbn; [by rewrite lookup_insert_ne|done].
  - intros su. unfold im_SetUnitTargetState. rewrite Hcache. destruct o; cbn; apply (co_names _ Hc).
  - pose proof (co_schedule _ Hc k Hn) as E. cbn in E. unfold im_SetUnitTargetState. rewrite Hcache.
    assert (target_at s' k = target_at s k) as -> by (unfold EtcdSchedule.target_at; rewrite Hf; [done|by apply leaf_target|done]).
    by destruct o.
  - eapply er_Unit_retargeted; [exact Ht|done|done|apply rpcUnitStateToJobState_known|done| |by rewrite Hn'; cbn; rewrite Hv|done].
    apply Hf; [by apply job_leaf; [|in_list]|done].
  - unfold im_SetUnitTargetState. rewrite Hcache. destruct o as [u|]; cbn; [|done].
    rewrite lookup_insert_eq. unfold Unit_ToPB. cbn. by rewrite TargetState_roundtrip.
Qed.

(** ** Runs of the server *)

(** The calls the server answers, and what else may happen in etcd: anything that
    leaves units, their files and targets alone.  The units that are created have the
    options of a section together: the copy in memory keeps the order of the options,
    the text in etcd does not. *)
Inductive rpc_step (w : world) : world → Prop :=
| rpc_CreateUnit u : unit_name u.(pu_Name) → known_target u.(pu_DesiredState) → storable keyPrefix w.2 (rpcUnitToJobUnit u) →
    unit_file_ok (rpcUnitToJobUnit u).(UUnit) → rpc_step w (srv_CreateUnit u w).1
| rpc_DestroyUnit k : unit_name k → rpc_step w (srv_DestroyUnit k w).1
| rpc_ScheduleUnit k m : unit_name k → rpc_step w (srv_ScheduleUnit k m w).1
| rpc_UnscheduleUnit k m : unit_name k → rpc_step w (srv_UnscheduleUnit k m w).1
| rpc_SetUnitTargetState k st : unit_name k → known_target st → rpc_step w (srv_SetUnitTargetState k st w).1
| rpc_UnitHeartbeat now k m ttl : rpc_step w (srv_UnitHeartbeat now k m ttl w.1, w.2)
| rpc_ClearUnitHeartbeat k : rpc_step w (srv_ClearUnitHeartbeat k w.1, w.2)
| rpc_RemoveUnitState k : unit_name k → rpc_step w (srv_RemoveUnitState k w)
| rpc_SaveUnitState now k us ttl : unit_name k → good_elem us.(us_MachineID) → ttl_ok (int64_wrap (ttl * second)) →
    (∀ usm, unitStateToModel (Some (rpcUnitStateToExtUnitState us)) = Some usm → json_ok usm) →
    rpc_step w (srv_SaveUnitState now k us ttl w)
| rpc_elsewhere s' : registry_typed s' → files_kept w.2 s' →
    (∀ k x, good_elem k → x ∈ ["object"; "target"; "target-state"] → file_at s' [jobPrefix; k; x] = file_at w.2 [jobPrefix; k; x]) →
    rpc_step w (w.1, s').
Lemma RemoveUnitState_frame s k l :
  registry_wf s → good_elem k → hd "" l ≠ "state" → hd "" l ≠ "states" →
  file_at (er_RemoveUnitState keyPrefix k s).1 l = file_at s l.
Proof.
  intros Hwf Hk H1 H2. unfold er_RemoveUnitState.
  rewrite (legacy_path keyPrefix prefix_rooted prefix_good), (states_path keyPrefix prefix_rooted prefix_good) by done.
  pose proof (delete_leaf keyPrefix prefix_good s ["state"; k] no_delete_options Hwf (leaf_state k Hk)) as H.
  destruct (kDelete _ no_delete_options s) as [s1 r1]. destruct H as [Hwf1 H].
  assert (file_at s1 l = file_at s l) as E1.
  { destruct (delete_check _ _); destruct H as [_ H]; rewrite H; [done|]. rewrite decide_False; [done|]. intros [? ->]. done. }
  clear H. destruct (negb _); [exact E1|].
  pose proof (delete_below keyPrefix prefix_good s1 ["states"; k] (mkDeleteOptions "" 0 true) Hwf1 ltac:(done) ltac:(good_key)
    (open_above keyPrefix s1 ["states"; k] [k] Hwf1 (leaf_states k k Hk Hk))) as H'.
  destruct (kDelete _ _ s1) as [s2 r2]. destruct H' as [_ H'].
  assert (file_at s2 l = file_at s l) as E2.
  { rewrite <- E1. destruct (delete_check _ _); destruct H' as [_ H']; rewrite H'; [done|]. rewrite decide_False; [done|]. intros [? ->]. done. }
  by destruct (negb _).
Qed.

Lemma SaveUnitState_frame s k us ttl l :
  registry_wf s → good_elem k → good_elem us.(UsMachineID) → ttl_ok ttl →
  (∀ usm, unitStateToModel (Some us) = Some usm → json_ok usm) → leaf l → hd "" l ≠ "state" → hd "" l ≠ "states" →
  file_at (er_SaveUnitState keyPrefix k us ttl s) l = file_at s l.
Proof.
  intros Hwf Hk Hm Ht Hj Hl H1 H2. destruct (unitStateToModel (Some us)) as [usm|] eqn:E.
  - destruct (marshal_roundtrip _ (Hj usm eq_refl)) as (b & Hb & _).
    destruct (SaveUnitState_files keyPrefix prefix_rooted prefix_good s k us usm b ttl Hwf Hk Hm Ht E Hb) as (_ & _ & Hf).
    apply Hf; [done|..]; by intros ->.
  - unfold er_SaveUnitState. by rewrite E.
Qed.

(** The server's local bookkeeping of states and heartbeats, and any change of
    etcd outside units. *)
Lemma coherent_etcd srv s srv' s' :
  coherent (srv, s) → registry_typed s' → (∀ l, leaf l → hd "" l ≠ "state" → hd "" l ≠ "states" → file_at s' l = file_at s l) →
  srv'.(localRegistry).(scheduledUnits) = srv.(localRegistry).(scheduledUnits) →
  srv'.(localRegistry).(unitsCache) = srv.(localRegistry).(unitsCache) → coherent (srv', s').
Proof.
  intros Hc Ht Hf E1 E2. eapply coherent_other; [exact Hc|done|..|done|done].
  - intros h n Hh. rewrite Hf; [done|by apply leaf_unit|done..].
  - intros k x Hk Hx. apply Hf; [|done..]. apply job_leaf; [done|]. clear -Hx.
    repeat (apply elem_of_cons in Hx as [->|Hx]; [in_list|]). by apply not_elem_of_nil in Hx.
Qed.

Lemma coherent_step w w' : coherent w → rpc_step w w' → coherent w'.
Proof.
  intros Hc Hs. pose proof (co_typed _ Hc) as Ht. destruct Hs.
  - by apply coherent_CreateUnit.
  - by apply coherent_DestroyUnit.
  - by apply coherent_ScheduleUnit.
  - by apply coherent_UnscheduleUnit.
  - by apply coherent_SetUnitTargetState.
  - by destruct w; apply (coherent_etcd r s).
  - by destruct w; apply (coherent_etcd r s).
  - destruct w as [srv s]. cbn in Ht. destruct H as [Hk _]. unfold srv_RemoveUnitState. cbn.
    destruct (hasNonGRPCAgents srv); [|by apply (coherent_etcd srv s)]. apply (coherent_etcd srv s); [done|..|done|done].
    + apply (step_typed keyPrefix prefix_rooted prefix_good s _ Ht). by apply rs_RemoveUnitState.
    + intros l _. by apply RemoveUnitState_frame; [apply Ht|].
  - destruct w as [srv s]. cbn in Ht. destruct H as [Hk _]. unfold srv_SaveUnitState. cbn.
    destruct (hasNonGRPCAgents srv); [|by apply (coherent_etcd srv s)]. apply (coherent_etcd srv s); [done|..|done|done].
    + apply (step_typed keyPrefix prefix_rooted prefix_good s _ Ht). by apply rs_SaveUnitState.
    + intros l Hl. by apply SaveUnitState_frame; [apply Ht|..].
  - destruct w as [srv s]. by apply (coherent_other srv s).
Qed.
End coherence.
