(* ===== verification/RpcRefinement.v ===== *)
(** * What the engine serves over gRPC is what etcd holds

    A server that has loaded its registry serves, after any sequence of requests,
    the units and the targets that are in etcd; so the registry it offers
    satisfies the laws of the schedule, and an engine that reconciles through it
    schedules as one that reads etcd. *)

From stdpp Require Import base list gmap strings.
From S2P Require Import Prelude GoStrings GoPath Pkg UnitFile Job Machine Cluster Engine Etcd EtcdRegistry EtcdSchedule EtcdStore EtcdInvariant EtcdViews Registry RpcRegistry RpcCoherence.

Section refinement.
Context `{K : KeysAPI St, KV : !KeysView St, KL : !KeysLaws K KV}.
Context `{JJ : JSON jobModel, JU : JSON unitModel, JM : JSON MachineState, JS : JSON unitStateModel}.
Context `{DG : Digest, MR : MapRange, GS : GoSort}.
Variable keyPrefix : string.
Hypothesis prefix_rooted : has_prefix "/" keyPrefix = true.
Hypothesis prefix_good : Forall good_elem (path_elems keyPrefix).
Variables (now : Z) (t : moment).

#[local] Abbreviation registry_typed := (registry_typed keyPrefix).
#[local] Abbreviation file_at := (file_at keyPrefix).
#[local] Abbreviation target_at := (target_at keyPrefix).
#[local] Abbreviation etcd_unit := (er_Unit keyPrefix).
#[local] Abbreviation coherent := (coherent keyPrefix).

#[local] Instance the_etcd : Registry St etcd_error := etcd_Registry keyPrefix t.
#[local] Abbreviation world := (rpcserver * St)%type.

(** ** Loading *)

Lemma load_units (us : list Unit) (r : inmemoryRegistry) :
  foldl (λ r u, with_units <[UName u := Unit_ToPB u]> r) r us =
  with_units (λ m, foldl (λ m u, <[UName u := Unit_ToPB u]> m) m us) r.
Proof. revert r. induction us as [|u us IH]; intros []; [done|]. cbn. by rewrite IH. Qed.

Lemma load_schedule (sus : list PbScheduledUnit) (r : inmemoryRegistry) :
  foldl (λ r su, with_schedule <[ps_Name su := su]> r) r sus =
  with_schedule (λ m, foldl (λ m su, <[ps_Name su := su]> m) m sus) r.
Proof. revert r. induction sus as [|u us IH]; intros []; [done|]. cbn. by rewrite IH. Qed.

(** The state a server is loaded from: targets are names that listings show, and
    target states are job states. *)
Record loadable (s : St) : Prop := {
  ld_typed : registry_typed s;
  ld_targets : targets_listed keyPrefix s;
  ld_states k n : file_at s [jobPrefix; k; "target-state"] = Some n → is_ok (ParseJobState n.(kv_value)) = true
}.

Lemma ld_units s k : loadable s → good_elem k → is_ok (etcd_unit k s) = true.
Proof.
  intros Hl Hk. pose proof (er_Unit_at keyPrefix prefix_rooted prefix_good s k (ld_typed _ Hl) Hk) as H.
  unfold unit_at in H. destruct (file_at s [jobPrefix; k; "object"]); [|by rewrite H]. destruct H as (u & _ & _ & _ & ->).
  pose proof (ld_states _ Hl k) as Hst. destruct (file_at s [jobPrefix; k; "target-state"]) as [n|]; [|done].
  specialize (Hst n eq_refl). cbn. destruct (kv_value n); [done|]. by destruct (ParseJobState _).
Qed.

Lemma er_Unit_name s k u : registry_typed s → good_elem k → etcd_unit k s = Ok (Some u) → u.(UName) = k.
Proof.
  intros Ht Hk Hu. pose proof (er_Unit_at keyPrefix prefix_rooted prefix_good s k Ht Hk) as H.
  rewrite Hu in H. by apply unit_at_name in H.
Qed.

Lemma loaded_units s us k :
  loadable s → er_Units keyPrefix s = Ok us → unit_name k →
  ∃ o, etcd_unit k s = Ok o ∧
    foldl (λ m u, <[UName u := Unit_ToPB u]> m) (∅ : gmap string PbUnit) us !! k = Unit_ToPB <$> o.
Proof.
  intros Hl Hus Hk. pose proof (ld_units s k Hl (proj1 Hk)) as Hok. destruct (etcd_unit k s) as [o|] eqn:Ho; [|done].
  pose proof (λ u, er_Units_listed keyPrefix prefix_rooted prefix_good s us u (ld_typed _ Hl) Hus) as Hin.
  exists o. split; [done|]. rewrite (lookup_foldl_insert UName Unit_ToPB), lookup_empty.
  destruct (last _) as [u|] eqn:E.
  - apply last_Some_elem_of, list_elem_of_filter in E as [<- [_ Hu]%Hin]. rewrite Hu in Ho. by injection Ho as <-.
  - apply last_None in E. destruct o as [u|]; [exfalso|done].
    pose proof (er_Unit_name s k u (ld_typed _ Hl) (proj1 Hk) Ho) as <-.
    apply (not_elem_of_nil u). rewrite <- E. apply list_elem_of_filter. by rewrite Hin.
Qed.

Lemma loaded_schedule s l sus k :
  loadable s → er_Schedule keyPrefix t s = Ok l → mapM ScheduledUnit_ToPB l = Some sus → unit_name k →
  let m := foldl (λ m su, <[ps_Name su := su]> m) (∅ : gmap string PbScheduledUnit) sus in
  machine_of (ps_MachineID <$> m !! k) = machine_of (target_at s k).
Proof.
  intros Hl Hsch Hm Hk m. unfold m. clear m. apply mapM_Some in Hm.
  destruct (er_Schedule_listed keyPrefix prefix_rooted prefix_good s t (ld_typed _ Hl) (ld_targets _ Hl)) as (l' & Hl' & _ & Hin).
  rewrite Hl' in Hsch. injection Hsch as ->.
  pose proof (er_ScheduledUnit_at keyPrefix prefix_rooted prefix_good s k (ld_typed _ Hl) (ld_targets _ Hl) (proj1 Hk)) as Hat.
  rewrite (lookup_foldl_insert ps_Name (λ su, su)), lookup_empty. destruct (last _) as [su'|] eqn:E.
  - apply last_Some_elem_of, list_elem_of_filter in E as [Hn Hsu'].
    apply list_elem_of_lookup in Hsu' as [i Hi]. destruct (Forall2_lookup_r _ _ _ _ _ Hm Hi) as (su & Hsu & Hpb).
    apply fmap_Some in Hpb as (st & _ & ->). cbn in Hn. subst k. apply list_elem_of_lookup_2, Hin in Hsu as [_ Hsu].
    rewrite Hsu in Hat. destruct (file_at s _); [|done]. injection Hat as Hat. rewrite Hat. cbn. by destruct (target_at s _).
  - apply last_None in E. destruct (file_at s [jobPrefix; k]) as [n|] eqn:Hn.
    + exfalso. assert (scheduled_at keyPrefix s k ∈ l) as Hel by (by apply Hin).
      apply list_elem_of_lookup in Hel as [i Hi]. destruct (Forall2_lookup_l _ _ _ _ _ Hm Hi) as (su & Hsu & [= Hpb]).
      apply (not_elem_of_nil su). rewrite <- E. apply list_elem_of_filter. split; [by rewrite <- Hpb|].
      by eapply list_elem_of_lookup_2.
    + rewrite (target_missing keyPrefix s k (proj1 (ld_typed _ Hl)) Hn). done.
Qed.

Lemma load_coherent s local b :
  loadable s → LoadFrom s newInmemoryRegistry = Some (local, Ok tt) → coherent (mkRpcserver local b, s).
Proof.
  intros Hl. unfold LoadFrom. cbn [r_Units r_Schedule the_etcd etcd_Registry].
  destruct (er_Units keyPrefix s) as [us|] eqn:Hus; [|done]. destruct (er_Schedule keyPrefix t s) as [l|] eqn:Hsch; [|done].
  destruct (mapM _ l) as [sus|] eqn:Hm; [|done]. cbn. intros [= <-].
  rewrite load_units, load_schedule. split; cbn.
  - apply Hl.
  - intros k. rewrite (lookup_foldl_insert UName Unit_ToPB), lookup_empty. destruct (last _) as [u|] eqn:E; [|by intros []].
    apply last_Some_elem_of, list_elem_of_filter in E as [<- Hu]. intros _.
    by apply (er_Units_listed keyPrefix prefix_rooted prefix_good s us u (ld_typed _ Hl) Hus).
  - intros k su. rewrite (lookup_foldl_insert ps_Name (λ su, su)), lookup_empty. destruct (last _) as [su'|] eqn:E; [|done].
    intros [= <-]. by apply last_Some_elem_of, list_elem_of_filter in E as [? _].
  - intros k Hk. by eapply loaded_schedule.
  - intros k Hk. by eapply loaded_units.
Qed.

(** ** Serving *)

Lemma served_unit s k u :
  registry_typed s → good_elem k → etcd_unit k s = Ok (Some u) → rpcUnitToJobUnit (Unit_ToPB u) = served u.
Proof.
  intros Ht Hk Hu. pose proof (er_Unit_at keyPrefix prefix_rooted prefix_good s k Ht Hk) as H.
  rewrite Hu in H. unfold unit_at in H. destruct (file_at s _); [|done]. destruct H as (f & _ & _ & Hp & H).
  unfold NewUnitFile in Hp. destruct (Deserialize _) as [opts|]; [|done]. injection Hp as Hp.
  destruct (default "" _) as [|a ts] eqn:Hts.
  - injection H as ->. eapply rpcUnit_roundtrip; [by rewrite <- Hp|by left].
  - destruct (ParseJobState _) as [st|] eqn:Hst; [|done]. injection H as ->.
    eapply rpcUnit_roundtrip; [by rewrite <- Hp|]. cbn. right. revert Hst. unfold ParseJobState, known_state.
    repeat case_bool_decide; cbn; naive_solver.
Qed.

Lemma coherent_Unit (w : world) k :
  coherent w → unit_name k → ∃ o, etcd_unit k w.2 = Ok o ∧ rr_Unit (E := etcd_error) k w = Ok (served <$> o).
Proof.
  intros Hc Hk. destruct (co_units _ _ Hc k Hk) as (o & Ho & Hcache). exists o. split; [done|].
  unfold rr_Unit, srv_GetUnit, im_Unit. rewrite Hcache. destruct o as [u|]; [|done]. cbn.
  by rewrite (served_unit w.2 k u (co_typed _ _ Hc) (proj1 Hk) Ho).
Qed.

(** The units the server lists.  Where agents still use etcd, it adds the units of
    etcd that it does not know: there are none. *)
Lemma cached_units (w : world) u :
  coherent w →
  u ∈ im_Units t w.1.(localRegistry) ↔
  unit_name u.(pu_Name) ∧ ∃ u', etcd_unit u.(pu_Name) w.2 = Ok (Some u') ∧ u = Unit_ToPB u'.
Proof.
  intros Hc. unfold im_Units. rewrite list_elem_of_omap. split.
  - intros (k & Hin & Hu). pose proof (co_cached _ _ Hc k (mk_is_Some _ _ Hu)) as Hk.
    destruct (co_units _ _ Hc _ Hk) as (o & Ho & Hcache). rewrite Hu in Hcache. destruct o as [u'|]; [|done].
    injection Hcache as ->. pose proof (er_Unit_name w.2 k u' (co_typed _ _ Hc) (proj1 Hk) Ho) as <-. eauto.
  - intros (Hk & u' & Hu & E). destruct (co_units _ _ Hc _ Hk) as (o & Ho & Hcache). rewrite Hu in Ho. injection Ho as <-.
    cbn in Hcache. rewrite <- E in Hcache. exists (pu_Name u). split; [|done]. rewrite go_sort_perm.
    apply elem_of_range_fst, elem_of_dom. by eexists.
Qed.

Lemma srv_Units_cached (w : world) us :
  coherent w → srv_GetUnits t w.1 w.2 = Ok us → us = im_Units t w.1.(localRegistry).
Proof.
  intros Hc. unfold srv_GetUnits. destruct (hasNonGRPCAgents _); [|congruence]. cbn [r_Units the_etcd etcd_Registry].
  destruct (er_Units keyPrefix w.2) as [us'|] eqn:Hus; [|done]. intros [= <-].
  rewrite (elem_of_nil_inv (filter _ us')); [by rewrite app_nil_r|]. intros u [Hin Hu]%list_elem_of_filter. apply Hin.
  apply (er_Units_listed keyPrefix prefix_rooted prefix_good w.2 us' u (co_typed _ _ Hc) Hus) in Hu as [Hk Hu].
  apply elem_of_list_to_set, list_elem_of_fmap. exists (Unit_ToPB u). split; [done|]. apply cached_units; [done|]. eauto.
Qed.

Lemma coherent_Units (w : world) us u :
  coherent w → rr_Units t w = Ok us →
  u ∈ us ↔ unit_name u.(UName) ∧ ∃ u', etcd_unit u.(UName) w.2 = Ok (Some u') ∧ u = served u'.
Proof.
  intros Hc. unfold rr_Units. destruct (srv_GetUnits _ _ _) as [pus|] eqn:Hus; [|done]. intros [= <-].
  rewrite (srv_Units_cached _ _ Hc Hus). rewrite list_elem_of_fmap. split.
  - intros (pu & -> & Hpu). apply cached_units in Hpu as (Hk & u' & Hu & ->); [|done]. cbn [UName rpcUnitToJobUnit].
    split; [done|]. exists u'. split; [done|]. by eapply served_unit; [apply Hc|apply Hk|].
  - intros (Hk & u' & Hu & ->). exists (Unit_ToPB u').
    rewrite (served_unit w.2 (UName u') u' (co_typed _ _ Hc) (proj1 Hk) Hu). split; [done|].
    apply cached_units; [done|]. cbn. eauto.
Qed.

(** The targets. *)
Lemma coherent_Schedule (w : world) l k :
  coherent w → unit_name k → rr_Schedule (E := etcd_error) t w = Ok l → recorded_target l k = machine_of (target_at w.2 k).
Proof.
  intros Hc Hk [= <-]. rewrite <- (co_schedule _ _ Hc k Hk). unfold recorded_target, sUnitMap, srv_GetScheduledUnits, im_Schedule.
  set (sched := scheduledUnits _). rewrite (lookup_foldl_insert SName (λ x, x)), lookup_empty.
  destruct (last _) as [su|] eqn:E.
  - apply last_Some_elem_of, list_elem_of_filter in E as [Hn (p & -> & (q & -> & Hq)%list_elem_of_fmap)%list_elem_of_fmap].
    destruct q as [k' su]. apply elem_of_range in Hq. cbn in Hn. pose proof (co_names _ _ Hc _ _ Hq) as E. rewrite Hn in E. subst k'.
    fold sched in Hq. by rewrite Hq.
  - apply last_None in E. destruct (sched !! k) as [su|] eqn:Hsu; [exfalso|done].
    pose proof (co_names _ _ Hc _ _ Hsu) as Hn.
    apply (not_elem_of_nil (rpc_scheduled (mkPbScheduledUnit su.(ps_Name)
      (getScheduledUnitState su.(ps_Name) su.(ps_MachineID) w.1.(localRegistry)) su.(ps_MachineID)))).
    rewrite <- E. apply list_elem_of_filter. split; [exact Hn|].
    apply list_elem_of_fmap. eexists. split; [reflexivity|]. apply list_elem_of_fmap. exists (k, su). split; [reflexivity|]. by apply elem_of_range.
Qed.

Lemma coherent_reachable (w w' : world) :
  coherent w → rtc (rpc_step keyPrefix t) w w' → coherent w'.
Proof. intros Hc Hs. induction Hs as [|w1 w2 w3 Hs _ IH]; [done|]. apply IH. by eapply coherent_step. Qed.

(** C7: a server that has loaded its registry from an etcd whose targets are names it
    lists and whose target states are job states answers, for the names that etcd lists
    (without an underscore in front), after any sequence of requests on such names,
    heartbeats, and changes of etcd by others that leave units alone, exactly what is in
    etcd: a unit is served as it is stored (and as loaded if it has no target state), the
    listing has those units and no others, also where it is merged with the one of etcd,
    and the schedule gives each unit the target that etcd has.  The units that are created
    can be stored and have the options of a section together, and target states are known
    ones. *)
Theorem rpc_serves_etcd s0 local b (w : world) :
  loadable s0 → LoadFrom s0 newInmemoryRegistry = Some (local, Ok tt) →
  rtc (rpc_step keyPrefix t) (mkRpcserver local b, s0) w →
  (∀ k, unit_name k → ∃ o, etcd_unit k w.2 = Ok o ∧ rr_Unit (E := etcd_error) k w = Ok (served <$> o)) ∧
  (∀ us u, rr_Units t w = Ok us →
     u ∈ us ↔ unit_name u.(UName) ∧ ∃ u', etcd_unit u.(UName) w.2 = Ok (Some u') ∧ u = served u') ∧
  (∀ l k, rr_Schedule (E := etcd_error) t w = Ok l → unit_name k → recorded_target l k = machine_of (target_at w.2 k)).
Proof.
  intros Hl Hload Hs. assert (coherent w) as Hc by (eapply coherent_reachable; [by eapply load_coherent|done]).
  split_and!; intros; [by apply coherent_Unit|by apply coherent_Units|by apply coherent_Schedule].
Qed.

(** ** The laws of the schedule *)

#[export] Instance rpc_EngineRegistry : EngineRegistry world etcd_error :=
  registry_engine (R := rpc_Registry now t true).

Lemma write_through_etcd op local (w : world) : (write_through (E := etcd_error) op local w).1.2 = (op w.2).1.
Proof. unfold write_through. by destruct (op w.2) as [? []]. Qed.

Lemma rpc_Schedule_target (w : world) l k :
  coherent w → unit_name k → reg_Schedule w = Ok l → target_at w.2 k ≠ Some "" → target_at w.2 k = recorded_target l k.
Proof.
  intros Hc Hk Hl Hne. rewrite (coherent_Schedule w l k Hc Hk Hl). unfold machine_of.
  destruct (target_at w.2 k) as [m|]; [|done]. cbn. rewrite decide_False; [done|congruence].
Qed.

#[export] Program Instance rpc_ScheduleLaws : ScheduleLaws rpc_EngineRegistry := {|
  Engine.reg_wf := coherent; reg_name := unit_name; reg_target w := target_at w.2;
  reg_Schedule_target := rpc_Schedule_target |}.
Next Obligation.
  intros name m w Hc Hn. split; [by apply coherent_ScheduleUnit|].
  change (reg_ScheduleUnit name m w) with (srv_ScheduleUnit (E := etcd_error) name m w). intros k Hk.
  unfold srv_ScheduleUnit. rewrite write_through_etcd.
  by apply (er_ScheduleUnit_target keyPrefix prefix_rooted prefix_good name m w.2 (proj1 (co_typed _ _ Hc)) Hn).
Qed.
Next Obligation.
  intros name m w Hm Hc Hn. split; [by apply coherent_UnscheduleUnit|].
  change (reg_UnscheduleUnit name m w) with (srv_UnscheduleUnit (E := etcd_error) name m w). intros k Hk.
  unfold srv_UnscheduleUnit. rewrite write_through_etcd.
  by apply (er_UnscheduleUnit_target keyPrefix prefix_rooted prefix_good name m w.2 Hm (proj1 (co_typed _ _ Hc)) Hn).
Qed.

End refinement.
