(* ===== verification/RpcMux.v ===== *)
(** * [registry/rpc/registrymux.go]: which registry a machine uses

    A machine follows the leading engine: it serves the registry over gRPC when it
    leads, connects to the leader when that serves gRPC, and uses etcd otherwise.
    With the connection of [rpcregistry.go] and its balancer ([balancer.go]).  The
    network decides whether a server can be bound, whether a connection comes up,
    and what the status request answers. *)

From stdpp Require Import base list gmap strings.
From S2P Require Import Prelude GoStrings GoPath Pkg UnitFile Job Machine Etcd Registry RpcRegistry.

(** ** The balancer and the connection *)

(** [b_ready]: the channel [readyc] is closed; [b_once]: [readyOnce] was done. *)
Record simpleBalancer := mkSimpleBalancer { b_addrs : list string; b_numGets : Z; b_ready : bool; b_once : bool }.

Definition newSimpleBalancer (eps : list string) : simpleBalancer := mkSimpleBalancer eps 0 false false.

Definition balancer_Up (b : simpleBalancer) : simpleBalancer :=
  if b.(b_once) then b else mkSimpleBalancer b.(b_addrs) b.(b_numGets) true true.

(** The counter has 32 bits; without addresses the remainder panics. *)
Definition balancer_Get (b : simpleBalancer) : simpleBalancer * option string :=
  let v := ((b.(b_numGets) + 1) mod 2 ^ 32)%Z in
  (mkSimpleBalancer b.(b_addrs) v b.(b_ready) b.(b_once), b.(b_addrs) !! Z.to_nat (v mod Z.of_nat (length b.(b_addrs)))).

Definition balancer_Close (b : simpleBalancer) : simpleBalancer :=
  mkSimpleBalancer b.(b_addrs) b.(b_numGets) false b.(b_once).

Definition HealthCheckResponse_UNKNOWN : Z := 0.
Definition HealthCheckResponse_SERVING : Z := 1.
Definition HealthCheckResponse_NOT_SERVING : Z := 2.

Definition registryServiceName : string := "rpc.Registry".

(** The answer of a server with this status. *)
Definition srv_Status (service : string) (status : Z) : res string Z :=
  if bool_decide (service ≠ registryServiceName) then Err "unknown rpc service to collect its status" else Ok status.

(** The client of a connection: [rc_balancer] once it was dialled. *)
Record RPCRegistry := mkRPCRegistry { rc_balancer : option simpleBalancer }.

Definition NewRPCRegistry : RPCRegistry := mkRPCRegistry None.

Definition rc_Connect (connects : bool) (r : RPCRegistry) : outcome RPCRegistry :=
  if connects then Done (mkRPCRegistry (Some (newSimpleBalancer [":fleet-engine:"]))) else Fatal.

(** Closing the connection closes the balancer. *)
Definition rc_Close (r : RPCRegistry) : RPCRegistry := mkRPCRegistry (balancer_Close <$> r.(rc_balancer)).

Definition rc_IsRegistryReady (status : res string Z) (r : RPCRegistry) : outcome bool :=
  match r.(rc_balancer) with
  | None => Done false
  | Some b =>
      if b.(b_ready) then
        match status with
        | Err _ => Done false
        | Ok status => Done (bool_decide (status = HealthCheckResponse_SERVING))
        end
      else Blocked
  end.

(** ** The multiplexer *)

Inductive current_registry := EtcdCurrent | RpcCurrent.

(** The server has its status; a nil pointer is [None]. *)
Record RegistryMux := mkRegistryMux {
  mx_rpcserver : option Z;
  mx_current : option current_registry;
  mx_rpcRegistry : option RPCRegistry;
  mx_currentEngine : MachineState
}.

Definition NewRegistryMux : RegistryMux := mkRegistryMux None None None (mkMachineState "" "" ∅ ∅ "").

(** What the network does: whether a server can be created and a connection
    dialled, and the answers of the status requests. *)
Record network := mkNetwork { nw_binds : bool; nw_connects : bool; nw_status : nat → res string Z }.

Section mux.
Variable localMachine : MachineState.

Definition is_ready (nw : network) (i : nat) (r : option RPCRegistry) : outcome bool :=
  match r with None => Done false | Some r => rc_IsRegistryReady (nw.(nw_status) i) r end.

(** Stop the server of an engine that changed, or that is not answering. *)
Definition stop_changed (nw : network) (stopServer : bool) (r : RegistryMux) : outcome (option Z) :=
  match r.(mx_rpcserver) with
  | None => Done None
  | Some st =>
      match r.(mx_rpcRegistry) with
      | None => Done (if stopServer then None else Some st)
      | Some c => and_then (rc_IsRegistryReady (nw.(nw_status) 0) c) (λ ready,
                    Done (if negb ready || stopServer then None else Some st))
      end
  end.

(** Reuse a connection that is ready, or dial. *)
Definition connect (nw : network) (c : option RPCRegistry) : outcome RPCRegistry :=
  and_then (is_ready nw 1 c) (λ ready,
    match c, ready with
    | Some c, true => Done c
    | _, _ => rc_Connect nw.(nw_connects) NewRPCRegistry
    end).

Definition EngineChanged (nw : network) (newEngine : MachineState) (r : RegistryMux) : outcome RegistryMux :=
  let stopServer := bool_decide (r.(mx_currentEngine).(ID) ≠ newEngine.(ID)) in
  if Capabilities_Has localMachine.(Capabilities) CapGRPC then
    and_then (stop_changed nw stopServer r) (λ server,
    and_then (if bool_decide (newEngine.(ID) = localMachine.(ID)) then
                match server with
                | Some st => Done (Some st)
                | None => if nw.(nw_binds) then Done (Some HealthCheckResponse_SERVING) else Fatal
                end
              else Done server) (λ server,
    if Capabilities_Has newEngine.(Capabilities) CapGRPC then
      and_then (connect nw r.(mx_rpcRegistry)) (λ c, Done (mkRegistryMux server (Some RpcCurrent) (Some c) newEngine))
    else
      Done (mkRegistryMux ((λ _, HealthCheckResponse_NOT_SERVING) <$> server) (Some EtcdCurrent) r.(mx_rpcRegistry) newEngine)))
  else Done (mkRegistryMux r.(mx_rpcserver) (Some EtcdCurrent) r.(mx_rpcRegistry) newEngine).

(** One round of [ConnectToRegistry], which follows the leader on a machine
    without an engine; [None]: the leader could not be told. *)
Definition ConnectToRegistry_turn (nw : network) (isGrpc : option bool) (r : RegistryMux) : outcome RegistryMux :=
  match isGrpc with
  | None => Done r
  | Some true =>
      and_then (is_ready nw 0 r.(mx_rpcRegistry)) (λ ready,
        match r.(mx_rpcRegistry), ready with
        | Some c, true => Done (mkRegistryMux r.(mx_rpcserver) (Some RpcCurrent) (Some c) r.(mx_currentEngine))
        | _, _ => and_then (rc_Connect nw.(nw_connects) NewRPCRegistry) (λ c,
                    Done (mkRegistryMux r.(mx_rpcserver) (Some RpcCurrent) (Some c) r.(mx_currentEngine)))
        end)
  | Some false => Done (mkRegistryMux r.(mx_rpcserver) (Some EtcdCurrent) (rc_Close <$> r.(mx_rpcRegistry)) r.(mx_currentEngine))
  end.

Definition getRegistry (r : RegistryMux) : current_registry := default EtcdCurrent r.(mx_current).

(** The balancer's connection comes up. *)
Definition connection_up (r : RegistryMux) : RegistryMux :=
  mkRegistryMux r.(mx_rpcserver) r.(mx_current)
    ((λ c, mkRPCRegistry (balancer_Up <$> c.(rc_balancer))) <$> r.(mx_rpcRegistry)) r.(mx_currentEngine).

(** ** Following the leader *)

(** A machine that appears as the engine has its own capabilities. *)
Definition own (e : MachineState) : Prop :=
  e.(ID) = localMachine.(ID) →
  Capabilities_Has e.(Capabilities) CapGRPC = Capabilities_Has localMachine.(Capabilities) CapGRPC.

Inductive follows : RegistryMux → Prop :=
| follows_new : follows NewRegistryMux
| follows_change nw e r r' : follows r → own e → EngineChanged nw e r = Done r' → follows r'
| follows_up r : follows r → follows (connection_up r).

(** The server a machine has when the engine is [e]. *)
Definition server_for (e : MachineState) : option Z :=
  if Capabilities_Has localMachine.(Capabilities) CapGRPC && bool_decide (e.(ID) = localMachine.(ID))
  then Some HealthCheckResponse_SERVING else None.

Lemma stop_changed_none nw stop r o : stop_changed nw stop r = Done o → o = None ∨ o = r.(mx_rpcserver) ∧ stop = false.
Proof.
  unfold stop_changed. destruct (mx_rpcserver r) as [st|]; [|intros [= <-]; by left].
  destruct (mx_rpcRegistry r) as [c|]; [|destruct stop; intros [= <-]; auto].
  destruct (rc_IsRegistryReady _ _) as [b| |]; [|done..]. cbn. destruct b, stop; intros [= <-]; cbn; auto.
Qed.

Lemma EngineChanged_server nw e r r' :
  r.(mx_rpcserver) = None ∨ r.(mx_rpcserver) = server_for r.(mx_currentEngine) → own e →
  EngineChanged nw e r = Done r' →
  r'.(mx_rpcserver) = server_for e ∧ r'.(mx_currentEngine) = e ∧
  r'.(mx_current) = Some (if Capabilities_Has localMachine.(Capabilities) CapGRPC && Capabilities_Has e.(Capabilities) CapGRPC
                          then RpcCurrent else EtcdCurrent).
Proof.
  intros Hsrv Hown. unfold EngineChanged, server_for in *. destruct (Capabilities_Has (Capabilities localMachine) CapGRPC) eqn:Hl; cbn in *.
  2: { intros [= <-]. cbn. split_and!; [by destruct Hsrv|done..]. }
  destruct (stop_changed _ _ r) as [server| |] eqn:Hstop; [|done..]. cbn.
  assert (server = None ∨ server = Some HealthCheckResponse_SERVING ∧ e.(ID) = localMachine.(ID)) as Hs.
  { apply stop_changed_none in Hstop as [->|[-> Hid%bool_decide_eq_false]]; [by left|]. destruct Hsrv as [->|Hsrv]; [by left|].
    apply dec_stable in Hid. rewrite Hid in Hsrv. case_bool_decide; auto. }
  clear Hstop Hsrv. intros H. unfold own in Hown. destruct (Capabilities_Has (Capabilities e) CapGRPC) eqn:He.
  - destruct Hs as [->|[-> Hid]]; repeat case_bool_decide; try done; try (destruct (nw_binds nw); [|done]);
      cbn in H; destruct (connect _ _); try done; cbn in H; by injection H as <-.
  - assert (e.(ID) ≠ localMachine.(ID)) as Hne by (intros E; specialize (Hown E); congruence).
    rewrite bool_decide_eq_false_2 in H |- * by done. destruct Hs as [->|[_ ?]]; [|done]. cbn in H. by injection H as <-.
Qed.

Lemma follows_server r : follows r → r.(mx_rpcserver) = None ∨ r.(mx_rpcserver) = server_for r.(mx_currentEngine).
Proof.
  induction 1 as [|nw e r r' _ IH Hown Hr|r _ IH]; [by left| |done].
  destruct (EngineChanged_server nw e r r' IH Hown Hr) as (-> & -> & _). by right.
Qed.

(** C16: a machine that has followed any sequence of engines serves the registry
    exactly while it is the engine itself and uses gRPC; it uses the registry of the
    engine exactly when both it and the engine use gRPC, and etcd otherwise.  So
    machines that have seen the same engine never serve at the same time. *)
Theorem EngineChanged_follows nw e r r' :
  follows r → own e → EngineChanged nw e r = Done r' →
  r'.(mx_rpcserver) =
    (if Capabilities_Has localMachine.(Capabilities) CapGRPC && bool_decide (e.(ID) = localMachine.(ID))
     then Some HealthCheckResponse_SERVING else None) ∧
  getRegistry r' = (if Capabilities_Has localMachine.(Capabilities) CapGRPC && Capabilities_Has e.(Capabilities) CapGRPC
                    then RpcCurrent else EtcdCurrent).
Proof.
  intros Hf Hown Hr. destruct (EngineChanged_server nw e r r' (follows_server r Hf) Hown Hr) as (-> & _ & Hc).
  split; [done|]. unfold getRegistry. by rewrite Hc.
Qed.

(** ** A machine without an engine *)

Lemma up_after_close n b : b.(b_once) = true → Nat.iter n balancer_Up (balancer_Close b) = balancer_Close b.
Proof. intros Hb. induction n as [|n IH]; [done|]. rewrite Nat.iter_succ, IH. unfold balancer_Up. cbn. by rewrite Hb. Qed.

Lemma iter_connection_up n r c :
  r.(mx_rpcRegistry) = Some (mkRPCRegistry (Some c)) →
  (Nat.iter n connection_up r).(mx_rpcRegistry) = Some (mkRPCRegistry (Some (Nat.iter n balancer_Up c))) ∧
  (Nat.iter n connection_up r).(mx_current) = r.(mx_current).
Proof. intros Hr. induction n as [|n [IH1 IH2]]; [done|]. rewrite !Nat.iter_succ. unfold connection_up at 1 3. cbn. by rewrite IH1, IH2. Qed.

(** A machine without an engine that was connected over gRPC, and then followed an
    engine that uses etcd, does not come back to gRPC: when an engine that serves
    gRPC leads again, waiting for the old connection never returns, however often the
    connection comes up, and the machine stays with etcd. *)
Theorem ConnectToRegistry_stuck nw nw' r r' b n :
  r.(mx_rpcRegistry) = Some (mkRPCRegistry (Some b)) → b.(b_once) = true →
  ConnectToRegistry_turn nw (Some false) r = Done r' →
  ConnectToRegistry_turn nw' (Some true) (Nat.iter n connection_up r') = Blocked ∧
  getRegistry (Nat.iter n connection_up r') = EtcdCurrent.
Proof.
  intros Hr Hb. unfold ConnectToRegistry_turn. rewrite Hr. intros [= <-].
  set (r1 := mkRegistryMux _ _ _ _). destruct (iter_connection_up n r1 (balancer_Close b) eq_refl) as [E1 E2].
  unfold getRegistry. rewrite E1, E2.
  rewrite (up_after_close n b Hb). done.
Qed.

End mux.

(** ** The registry through the multiplexer *)

Section dispatch.
Context `{MR : MapRange, GS : GoSort, R : Registry St E}.

(** The registry in etcd, beside the server. *)
Definition beside {A} (op : St → St * A) (w : rpcserver * St) : rpcserver * St * A := let '(s, r) := op w.2 in ((w.1, s), r).

Definition on_etcd : Registry (rpcserver * St) E := {|
  r_ClearUnitHeartbeat name w := (w.1, r_ClearUnitHeartbeat name w.2);
  r_CreateMachineState ms ttl := beside (r_CreateMachineState ms ttl);
  r_CreateUnit u := beside (r_CreateUnit u);
  r_DestroyUnit name := beside (r_DestroyUnit name);
  r_UnitHeartbeat name m ttl := beside (r_UnitHeartbeat name m ttl);
  r_Machines w := r_Machines w.2;
  r_RemoveMachineState m := beside (r_RemoveMachineState m);
  r_RemoveUnitState name := beside (r_RemoveUnitState name);
  r_SaveUnitState name us ttl w := (w.1, r_SaveUnitState name us ttl w.2);
  r_ScheduleUnit name m := beside (r_ScheduleUnit name m);
  r_SetUnitTargetState name st := beside (r_SetUnitTargetState name st);
  r_SetMachineState ms ttl := beside (r_SetMachineState ms ttl);
  r_MachineState m w := r_MachineState m w.2;
  r_UnscheduleUnit name m := beside (r_UnscheduleUnit name m);
  r_SetMachineMetadata m k v := beside (r_SetMachineMetadata m k v);
  r_DeleteMachineMetadata m k := beside (r_DeleteMachineMetadata m k);
  r_IsRegistryReady w := r_IsRegistryReady w.2;
  r_UseEtcdRegistry w := r_UseEtcdRegistry w.2;
  r_Schedule w := r_Schedule w.2;
  r_ScheduledUnit name w := r_ScheduledUnit name w.2;
  r_Unit name w := r_Unit name w.2;
  r_Units w := r_Units w.2;
  r_UnitState name w := r_UnitState name w.2;
  r_UnitStates w := r_UnitStates w.2 |}.

(** Units go to the current registry, machines to etcd. *)
Definition mux_Registry (now : Z) (t : moment) (ready : bool) (r : RegistryMux) : Registry (rpcserver * St) E :=
  match getRegistry r with RpcCurrent => rpc_Registry now t ready | EtcdCurrent => on_etcd end.

End dispatch.

(** ** Witnesses *)

Definition grpc_machine (id ip : string) : MachineState := mkMachineState id ip ∅ {[ CapGRPC := true ]} "".
Definition good_network : network := mkNetwork true true (λ _, Ok HealthCheckResponse_SERVING).

(** Another engine leads, then this machine. *)
Definition mux_other : RegistryMux :=
  mkRegistryMux None (Some RpcCurrent) (Some (mkRPCRegistry (Some (newSimpleBalancer [":fleet-engine:"])))) (grpc_machine "b" "10.0.0.2").

Lemma EngineChanged_follows_witness :
  let local := grpc_machine "a" "10.0.0.1" in
  EngineChanged local good_network local (connection_up mux_other) =
    Done (mkRegistryMux (Some HealthCheckResponse_SERVING) (Some RpcCurrent) (connection_up mux_other).(mx_rpcRegistry) local) ∧
  ∀ r', EngineChanged local good_network local (connection_up mux_other) = Done r' →
    r'.(mx_rpcserver) = Some HealthCheckResponse_SERVING ∧ getRegistry r' = RpcCurrent.
Proof.
  intros local. split; [reflexivity|]. intros r' Hr.
  apply (EngineChanged_follows local good_network local (connection_up mux_other) r'); [|by intros _|exact Hr].
  apply follows_up, (follows_change local good_network (grpc_machine "b" "10.0.0.2") NewRegistryMux);
    [apply follows_new|by intros [=]|reflexivity].
Defined.

(** Connected over gRPC; then an engine with etcd leads; then one with gRPC. *)
Lemma ConnectToRegistry_stuck_witness :
  let r := connection_up mux_other in
  ∃ r', ConnectToRegistry_turn good_network (Some false) r = Done r' ∧
    ConnectToRegistry_turn good_network (Some true) (Nat.iter 3 connection_up r') = Blocked.
Proof.
  intros r. eexists. split; [reflexivity|].
  apply (ConnectToRegistry_stuck good_network good_network r _ (mkSimpleBalancer [":fleet-engine:"] 0 true true) 3); reflexivity.
Defined.
