(* ===== verification/RpcDial.v ===== *)
(** * [registry/rpc]: connecting to the engine

    The dialers of [registrymux.go] as step relations over what their two timers, the
    lease, the machines and the network do, and the binding of the address of a server
    in [rpcserver.go]. *)

From Stdlib Require Import ZArith Lia.
From stdpp Require Import base list gmap strings relations.
From S2P Require Import Prelude GoStrings GoPath Pkg UnitFile Job Machine.

Definition rpcServerPort : Z := 50059.

(** [fmt.Sprintf("%s:%d", ip, rpcServerPort)]. *)
Definition engine_addr (engine : MachineState) : string := engine.(PublicIP) +:+ ":" +:+ Itoa rpcServerPort.

Inductive dial_error := EngineUnreachable | NoMachines | LeaderWithoutGRPC.

(** A dialer still dials, or has returned. *)
Inductive dialing := Dialing | Connected (addr : string) | Failed (e : dial_error).

(** ** [rpcDialer]

    [ds_engine] is [r.currentEngine]; the alert fires once. *)

Record dialer := mkDialer { ds_engine : MachineState; ds_status : dialing }.

Inductive rpcDialer_step : dialer → dialer → Prop :=
| rd_alert e : rpcDialer_step (mkDialer e Dialing) (mkDialer e (Failed EngineUnreachable))
| rd_tick_ok e : rpcDialer_step (mkDialer e Dialing) (mkDialer e (Connected (engine_addr e)))
| rd_tick_err e : rpcDialer_step (mkDialer e Dialing) (mkDialer e Dialing).

(** ** [rpcDialerNoEngine]

    [nd_armed]: the timer [check] has not fired, so that there will be another look for
    the leader. *)

Record no_engine_dialer := mkNoEngine { nd_engine : MachineState; nd_armed : bool; nd_status : dialing }.

(** The loop over the machines: the leader it follows, if it finds it. *)
Fixpoint follow_leader (leader : string) (machines : list MachineState) (d : no_engine_dialer) : no_engine_dialer :=
  match machines with
  | [] => d
  | s :: machines =>
    if bool_decide (s.(ID) = leader) then
      if negb (Capabilities_Has s.(Capabilities) CapGRPC) then mkNoEngine d.(nd_engine) d.(nd_armed) (Failed LeaderWithoutGRPC)
      else follow_leader leader machines (mkNoEngine s true d.(nd_status))
    else follow_leader leader machines d
  end.

(** The case of [check]: [lease] is the machine of the lease, [None] if there is no lease
    or it cannot be read; [machines] is what the registry answers. *)
Definition on_check (lease : option string) (machines : option (list MachineState)) (d : no_engine_dialer) : no_engine_dialer :=
  match lease with
  | Some leader =>
    match machines with
    | None => mkNoEngine d.(nd_engine) false (Failed NoMachines)
    | Some machines => follow_leader leader machines (mkNoEngine d.(nd_engine) false d.(nd_status))
    end
  | None => mkNoEngine d.(nd_engine) true d.(nd_status)
  end.

Inductive no_engine_step : no_engine_dialer → no_engine_dialer → Prop :=
| nd_check lease machines e : no_engine_step (mkNoEngine e true Dialing) (on_check lease machines (mkNoEngine e true Dialing))
| nd_tick_ok e a : no_engine_step (mkNoEngine e a Dialing) (mkNoEngine e a (Connected (engine_addr e)))
| nd_tick_err e a : no_engine_step (mkNoEngine e a Dialing) (mkNoEngine e a Dialing).

(** ** [NewRPCServer]: binding its address *)

Definition bindAddrMaxRetry : nat := 5.

(** The loop: whether the address was bound, and how often it slept. [listen] is what each
    attempt gives. *)
Fixpoint bind_from (listen : nat → bool) (n it : nat) : bool * nat :=
  match n with
  | O => (false, 0)
  | S n => if listen it then (true, 0) else let '(ok, slept) := bind_from listen n (S it) in (ok, S slept)
  end.

Definition bind_listener (listen : nat → bool) : bool * nat := bind_from listen bindAddrMaxRetry 0.

(** ** What a dialer connects to *)

Lemma follow_leader_spec leader machines : ∀ d,
  let d' := follow_leader leader machines d in
  (d'.(nd_status) = Failed LeaderWithoutGRPC ∨ d'.(nd_status) = d.(nd_status)) ∧
  (d'.(nd_engine) = d.(nd_engine) ∨
    d'.(nd_engine) ∈ machines ∧ d'.(nd_engine).(ID) = leader ∧ Capabilities_Has d'.(nd_engine).(Capabilities) CapGRPC = true) ∧
  (leader ∉ ID <$> machines → d' = d) ∧
  (leader ∈ ID <$> machines → d'.(nd_status) = d.(nd_status) → d.(nd_status) ≠ Failed LeaderWithoutGRPC → d'.(nd_armed) = true).
Proof.
  induction machines as [|s machines IH]; intros d; cbn [follow_leader].
  { split_and!; auto. intros Hin. by apply elem_of_nil in Hin. }
  rewrite fmap_cons, !elem_of_cons. case_bool_decide as Hs.
  - destruct (Capabilities_Has (Capabilities s) CapGRPC) eqn:Eg; cbn [negb].
    + destruct (IH (mkNoEngine s true (nd_status d))) as (H1 & H2 & H3 & H4). cbn in *.
      split_and!; [done| |intros []; left; symmetry; exact Hs|].
      * right. destruct H2 as [E|(? & ? & ?)]; [rewrite E; split_and!; [by left|done|done]|split_and!; [by right|done|done]].
      * intros _ Hst Hne. destruct (decide (leader ∈ ID <$> machines)) as [Hin|Hin]; [by apply H4|]. by rewrite H3.
    + cbn. split_and!; [by left|by left|intros []; left; symmetry; exact Hs|]. intros _ Hst Hne. congruence.
  - destruct (IH d) as (H1 & H2 & H3 & H4). split_and!; [done| |intros Hn; apply H3; by intros ?; apply Hn; right|intros [E|?]; [congruence|by apply H4]].
    destruct H2 as [?|(? & ? & ?)]; [by left|]. right. split_and!; [by right|done|done].
Qed.

(** What was dialed: the engine known at the start, or one that led and uses gRPC. *)
Definition dials_leader (e0 : MachineState) (d : no_engine_dialer) : Prop :=
  (d.(nd_engine) = e0 ∨ Capabilities_Has d.(nd_engine).(Capabilities) CapGRPC = true) ∧
  (∀ addr, d.(nd_status) = Connected addr → addr = engine_addr d.(nd_engine)).

Lemma dials_leader_step e0 d d' : dials_leader e0 d → no_engine_step d d' → dials_leader e0 d'.
Proof.
  intros [He Ha] Hstep. destruct Hstep as [lease machines e|e a|e a]; cbn in He; unfold dials_leader; cbn.
  - unfold on_check. cbn. destruct lease as [leader|]; [|done]. destruct machines as [machines|]; [|by cbn].
    destruct (follow_leader_spec leader machines (mkNoEngine e false Dialing)) as (H1 & H2 & _). cbn in *.
    split; [|intros addr E; rewrite E in H1; naive_solver]. destruct H2 as [->|(_ & _ & ?)]; auto.
  - naive_solver.
  - naive_solver.
Qed.

(** The dialer of a machine without an engine connects to the engine it knew, or to a
    machine that uses gRPC and held the lease; a look for the leader that finds it among
    the machines leads to another look, one that finds it without gRPC ends with an
    error. *)
Theorem no_engine_follows e0 d :
  rtc no_engine_step (mkNoEngine e0 true Dialing) d →
  dials_leader e0 d ∧
  (∀ leader machines, d = mkNoEngine d.(nd_engine) true Dialing → leader ∈ ID <$> machines →
     let d' := on_check (Some leader) (Some machines) d in
     d'.(nd_status) = Failed LeaderWithoutGRPC ∨
     d'.(nd_status) = Dialing ∧ d'.(nd_armed) = true ∧
     Capabilities_Has d'.(nd_engine).(Capabilities) CapGRPC = true ∧ d'.(nd_engine).(ID) = leader).
Proof.
  intros Hr. split.
  - assert (Hi : dials_leader e0 (mkNoEngine e0 true Dialing)) by (split; [by left|done]).
    induction Hr as [x|x y z Hxy _ IH]; [done|]. apply IH. by eapply dials_leader_step.
  - intros leader machines -> Hin. cbn zeta. unfold on_check. cbn.
    set (d1 := mkNoEngine (nd_engine d) false Dialing).
    assert (Hgen : ∀ ms d1, leader ∈ ID <$> ms → d1.(nd_status) = Dialing →
      (follow_leader leader ms d1).(nd_status) = Failed LeaderWithoutGRPC ∨
      (follow_leader leader ms d1).(nd_status) = Dialing ∧ (follow_leader leader ms d1).(nd_armed) = true ∧
      Capabilities_Has (follow_leader leader ms d1).(nd_engine).(Capabilities) CapGRPC = true ∧
      (follow_leader leader ms d1).(nd_engine).(ID) = leader); [|by apply Hgen].
    clear. induction ms as [|s ms IH]; intros d1 Hin Hd; [by apply elem_of_nil in Hin|]. cbn [follow_leader].
    rewrite fmap_cons, elem_of_cons in Hin. case_bool_decide as Hs; [|apply IH; naive_solver].
    destruct (Capabilities_Has (Capabilities s) CapGRPC) eqn:Eg; cbn [negb]; [|by left].
    destruct (decide (leader ∈ ID <$> ms)) as [Hin'|Hout]; [by apply IH|].
    destruct (follow_leader_spec leader ms (mkNoEngine s true (nd_status d1))) as (_ & _ & H3 & _). rewrite H3 by done. by right.
Qed.

(** C38: a look for the leader that does not find its machine in the registry, because the
    machine has not announced itself or its announcement has run out, is the last: from
    then on the dialer neither follows the leader nor gives up, and returns only if the
    old engine answers. *)
Theorem no_engine_stuck e leader machines d :
  leader ∉ ID <$> machines →
  rtc no_engine_step (on_check (Some leader) (Some machines) (mkNoEngine e true Dialing)) d →
  d.(nd_engine) = e ∧ d.(nd_armed) = false ∧ (d.(nd_status) = Dialing ∨ d.(nd_status) = Connected (engine_addr e)).
Proof.
  intros Hout Hr.
  assert (Hstart : on_check (Some leader) (Some machines) (mkNoEngine e true Dialing) = mkNoEngine e false Dialing).
  { unfold on_check. cbn. by apply follow_leader_spec. }
  rewrite Hstart in Hr. remember (mkNoEngine e false Dialing) as d0 eqn:E0.
  assert (Hi : d0.(nd_engine) = e ∧ d0.(nd_armed) = false ∧ (d0.(nd_status) = Dialing ∨ d0.(nd_status) = Connected (engine_addr e))) by (subst; auto).
  clear E0 Hstart. induction Hr as [x|x y z Hxy _ IH]; [done|]. apply IH.
  destruct Hxy; cbn in *; naive_solver.
Qed.

(** The address is bound exactly when one of five attempts succeeds, and every failed
    attempt is followed by one pause. *)
Theorem bind_listener_spec listen :
  ((bind_listener listen).1 = true ↔ ∃ it, it < bindAddrMaxRetry ∧ listen it = true) ∧
  (bind_listener listen).2 ≤ bindAddrMaxRetry ∧
  ((bind_listener listen).1 = true → listen (bind_listener listen).2 = true) ∧
  ∀ it, it < (bind_listener listen).2 → listen it = false.
Proof.
  unfold bind_listener.
  assert (Hgen : ∀ n it, let r := bind_from listen n it in
    (r.1 = true ↔ ∃ k, k < n ∧ listen (it + k) = true) ∧ r.2 ≤ n ∧
    (r.1 = true → listen (it + r.2) = true) ∧ ∀ k, k < r.2 → listen (it + k) = false).
  { induction n as [|n IH]; intros it; cbn.
    - split_and!; [split; [done|intros (k & ? & _); lia]|lia|done|intros; lia].
    - destruct (listen it) eqn:E.
      + cbn. rewrite Nat.add_0_r. split_and!; [split; [intros _; exists 0; rewrite Nat.add_0_r; split; [lia|done]|done]|lia|done|intros; lia].
      + destruct (IH (S it)) as (H1 & H2 & H3 & H4). destruct (bind_from listen n (S it)) as [ok slept]. cbn in *. split_and!.
        * rewrite H1. split; intros (k & Hk & Hl); [exists (S k); split; [lia|]; by rewrite Nat.add_succ_r|].
          destruct k as [|k]; [rewrite Nat.add_0_r in Hl; congruence|]. exists k. split; [lia|]. by rewrite Nat.add_succ_r in Hl.
        * lia.
        * intros Hok. rewrite Nat.add_succ_r. by apply H3.
        * intros [|k] Hk; [by rewrite Nat.add_0_r|]. rewrite Nat.add_succ_r. apply H4. lia. }
  apply (Hgen bindAddrMaxRetry 0).
Qed.

(** ** Examples *)

Definition ex_old_engine : MachineState := mkMachineState "m1" "10.0.0.1" ∅ {[CapGRPC := true]} "".
Definition ex_new_engine : MachineState := mkMachineState "m2" "10.0.0.2" ∅ {[CapGRPC := true]} "".

Lemma no_engine_follows_witness :
  dials_leader ex_old_engine (mkNoEngine ex_new_engine true (Connected "10.0.0.2:50059")).
Proof.
  refine (proj1 (no_engine_follows ex_old_engine _ _)).
  eapply rtc_l; [apply (nd_check (Some "m2") (Some [ex_old_engine; ex_new_engine]))|].
  apply rtc_once. exact (nd_tick_ok ex_new_engine true).
Defined.

Lemma no_engine_stuck_witness :
  let d := mkNoEngine ex_old_engine false Dialing in
  d.(nd_engine) = ex_old_engine ∧ d.(nd_armed) = false ∧ (d.(nd_status) = Dialing ∨ d.(nd_status) = Connected (engine_addr ex_old_engine)).
Proof.
  apply (no_engine_stuck ex_old_engine "m2" [ex_old_engine]).
  - vm_compute. intros Hin. inversion Hin as [|? ? ? Hin']; subst. inversion Hin'.
  - apply rtc_once. exact (nd_tick_err ex_old_engine false).
Defined.
