(* ===== verification/RpcExamples.v ===== *)
(** * A server on the registry in memory

    The theorems about gRPC, on the registry and the codecs of [EtcdExamples]. *)

From stdpp Require Import base list gmap strings.
From S2P Require Import Prelude GoStrings GoPath Pkg UnitFile Job Machine Engine Etcd EtcdRegistry EtcdSchedule EtcdStore EtcdInvariant EtcdViews EtcdExamples Registry RpcRegistry RpcStates RpcCoherence RpcRefinement.

#[local] Existing Instances job_json unit_json machine_json state_json ex_digest canonical_range merge_go_sort.
#[local] Instance ex_Registry : Registry mem_etcd etcd_error := etcd_Registry prefix [].

(** The engine starts on the registry of a running unit. *)
Definition ex_local : inmemoryRegistry :=
  match LoadFrom reported newInmemoryRegistry with Some (local, _) => local | None => newInmemoryRegistry end.

Lemma mem_states_parse s :
  map_Forall (λ l n, last l = Some "target-state" → is_ok (ParseJobState n.(kv_value)) = true) s.(mem_store) →
  ∀ k n, file_at prefix s [jobPrefix; k; "target-state"] = Some n → is_ok (ParseJobState n.(kv_value)) = true.
Proof.
  intros Hall k n. unfold file_at. cbn [kv_at mem_view]. intros [Hn _]%mem_at_Some. by apply (Hall _ n Hn).
Qed.

Lemma reported_loadable : loadable prefix reported.
Proof.
  split.
  - by apply (reachable_typed prefix prefix_rooted prefix_good), reported_reachable.
  - apply mem_targets_listed, (bool_decide_eq_true_1 _). vm_compute. reflexivity.
  - apply mem_states_parse, (bool_decide_eq_true_1 _). vm_compute. reflexivity.
Qed.

(** The unit is to be loaded only, and is taken from its machine. *)
Definition ex_world : rpcserver * mem_etcd := (mkRpcserver ex_local true, reported).
Definition retargeted : rpcserver * mem_etcd := (srv_SetUnitTargetState (E := etcd_error) "web.service" TargetState_LOADED ex_world).1.
Definition released : rpcserver * mem_etcd := (srv_UnscheduleUnit (E := etcd_error) "web.service" "m1" retargeted).1.

Lemma rpc_serves_etcd_witness :
  (∃ o, er_Unit prefix "web.service" released.2 = Ok o ∧ rr_Unit (E := etcd_error) "web.service" released = Ok (served <$> o)) ∧
  (∀ l, rr_Schedule (E := etcd_error) [] released = Ok l → recorded_target l "web.service" = machine_of (target_at prefix released.2 "web.service")) ∧
  rr_Unit (E := etcd_error) "web.service" released = Ok (Some (mkUnit "web.service" web_file JobStateLoaded)) ∧
  target_at prefix reported "web.service" = Some "m1" ∧ target_at prefix released.2 "web.service" = None.
Proof.
  assert (unit_name "web.service") as Hn by (by split_and!).
  destruct (rpc_serves_etcd prefix prefix_rooted prefix_good [] reported ex_local true released) as (H1 & _ & H3).
  - apply reported_loadable.
  - vm_compute. reflexivity.
  - eapply rtc_l; [apply (rpc_SetUnitTargetState prefix [] ex_world "web.service" TargetState_LOADED Hn); by right; left|].
    apply rtc_once. apply (rpc_UnscheduleUnit prefix [] retargeted "web.service" "m1" Hn).
  - split_and!; [by apply H1|intros l Hl; by apply H3|vm_compute; reflexivity..].
Defined.

(** ** States *)

Lemma rpc_state_lifetime_witness :
  live_state 3999999999 (rr_SaveUnitState 0 "web.service" web_state (4 * second + 500) ex_world).1.(localRegistry) "web.service" "m1" =
    Some (UnitState_ToPB web_state) ∧
  live_state (4 * second) (rr_SaveUnitState 0 "web.service" web_state (4 * second + 500) ex_world).1.(localRegistry) "web.service" "m1" = None.
Proof.
  split.
  - rewrite (proj1 (rpc_state_lifetime 0 3999999999 [] "web.service" web_state (4 * second + 500) ex_world "web.service" "m1" ltac:(by split))).
    reflexivity.
  - rewrite (proj1 (rpc_state_lifetime 0 (4 * second) [] "web.service" web_state (4 * second + 500) ex_world "web.service" "m1" ltac:(by split))).
    reflexivity.
Defined.

Lemma rpc_launched_outlives_state_witness :
  let w' := (rr_UnitHeartbeat (E := etcd_error) 0 "web.service" "m1" (5 * second)
    (rr_SaveUnitState 0 "web.service" web_state (5 * second) ex_world)).1 in
  rr_ScheduledUnit (E := etcd_error) "web.service" w' = Ok (Some (mkScheduledUnit "web.service" (Some JobStateLaunched) "m1")) ∧
  live_state (1000 * second) w'.1.(localRegistry) "web.service" "m1" = None.
Proof.
  apply (rpc_launched_outlives_state 0 (1000 * second) "web.service" web_state (5 * second) (5 * second) ex_world
    (mkPbScheduledUnit "web.service" TargetState_LAUNCHED "m1")); [by split|vm_compute; reflexivity|reflexivity|reflexivity|done].
Defined.

(** The states of one unit on two machines, in memory and in etcd. *)
Definition web_state2 : UnitState := mkUnitState "loaded" "active" "running" "m2" "hash" "web.service".
Definition two_states : rpcserver * mem_etcd :=
  rr_SaveUnitState 0 "web.service" web_state2 (5 * second) (rr_SaveUnitState 0 "web.service" web_state (5 * second) ex_world).

(** The merge knows one machine per unit: the state on [m1] is reported twice. *)
Example GetUnitStates_repeats :
  srv_GetUnitStates 0 [] two_states.1 two_states.2 =
  Ok (UnitState_ToPB <$> [web_state; web_state2; web_state]).
Proof. vm_compute. reflexivity. Qed.

Lemma GetUnitStates_merged_witness :
  ∃ etcd, r_UnitStates two_states.2 = Ok etcd ∧
  ∀ us, us ∈ etcd → ∃ us', us' ∈ UnitState_ToPB <$> [web_state; web_state2; web_state] ∧
    us'.(us_Name) = us.(UnitName) ∧ us'.(us_MachineID) = us.(UsMachineID).
Proof.
  destruct (GetUnitStates_merged 0 [] two_states.1 two_states.2 (UnitState_ToPB <$> [web_state; web_state2; web_state])) as (etcd & He & _ & H & _).
  - apply GetUnitStates_repeats.
  - reflexivity.
  - exists etcd. split; [exact He|exact H].
Defined.
